(* ===== verification/_CoqProject ===== *)
-Q . S2P
Prelude.v
GoStrings.v
GoJson.v
GoTime.v
GoDecode.v
GoEncoding.v
GoUrl.v
GoNetip.v
GoBase64.v
Crypto.v
Pins.v
Policy.v
Database.v
Sql.v
StoreAudit.v
StoreIdentity.v
Reconcile.v
StoreGrants.v
StoreCIGrants.v
StoreEnrollment.v
StoreSessions.v
StoreCAKeys.v
Schema.v
CA.v
Auth.v
GroupSync.v
Http.v
RateLimit.v
SignAPI.v
UIAuth.v
MTLS.v
AgentAPI.v
AdminAPI.v
Machine.v
Agentd.v
AgentSessions.v
AgentServer.v
SessionTrail.v
AgentEnroll.v
AuditStream.v
ProxyTrust.v
Rules.v
Bindist.v
Rollout.v
Server.v
ServerConfig.v
Requests.v
Flags.v
Shell.v
Flow.v
UserCLI.v
AdminCLI.v
AgentDaemon.v
AgentCLI.v
Clients.v
ClientLogin.v
