(* ===== verification/Prelude.v ===== *)
(** * guided-ssh: a verification development

    guided-ssh is an SSH certificate authority: users log in at an identity
    provider and exchange the token for a short-lived SSH user certificate, CI
    jobs do the same with a job token, hosts enroll once with a one-time token
    and run an agent that asks the server which certificate principals may log
    in as a local user. What a user or a CI job may reach is decided by access
    grants, edited one by one or applied declaratively. Everything that happens
    is written to an audit log in PostgreSQL.

    This library models the Go code under [src/internal] and [src/cmd] as
    executable Rocq definitions and proves what makes it correct. Names follow
    the source; the doc comment of each file says which Go files it models.

    ** The parts and their files, in dependency order

    Foundations:
    - [Prelude] (this file): errors, results, JSON values, the list lemmas, sorting,
      Go's map iteration order, automation.
    - [GoStrings], [GoJson], [GoTime], [GoDecode], [GoEncoding], [GoUrl], [GoNetip],
      [GoBase64]: the parts of the Go standard library the code relies on: strings,
      [json.Marshal] of string maps, int64 and durations with their wrap-around,
      decoding of JSON values into structs, URL paths, queries and base64, IP
      addresses and prefixes.
    - [Crypto]: what belongs to crypto libraries (Ed25519, AES-GCM, OpenSSH and
      X.509 formats, UUID text) as the classes [Crypto] and [X509], with the
      documented laws as fields; toy instances show they can be met.
    - [Pins] (internal/pintls, internal/api/pinprovider.go): SPKI pins, their check,
      and how the server determines the pin it hands out.

    The server's data:
    - [Policy] (internal/ca: policy.go, signer.go, keyid.go): certificate requests,
      the policy engine, KeyIDs and CI principals.
    - [Database], [Sql] (internal/store: types.go, store.go, query.go): rows, tables,
      the [World] and the statement monad [M].
    - [StoreAudit], [StoreIdentity], [Reconcile], [StoreGrants], [StoreCIGrants],
      [StoreEnrollment], [StoreSessions], [StoreCAKeys] (internal/store): every
      repository function. [Reconcile] is the reconciliation both ApplyGrants and
      ApplyCIGrants share, proved once against the interface [Reconcilable].
    - [Schema]: the constraints of the migrations as one invariant [schema_ok] of the
      whole database; the class [Preserves] has an instance per operation.

    The server's services:
    - [CA] (internal/ca: ca.go, softsigner.go, filesigner.go, keycrypt.go): issuance,
      rotation, retirement, adoption, keys at rest and the signer cache.
    - [Auth] (internal/auth: verifier.go, gitlab.go, mapper.go) and [GroupSync]
      (sync.go, keycloak.go): token validation above the class [OIDC], the mapping
      of claims onto users and groups, and the sync with the IdP's directory.
    - [Rules] (internal/rulespec, internal/rulesync): rule files and their reconciler.
    - [AuditStream] (internal/auditstream), [ProxyTrust] (internal/proxytrust).

    The server's HTTP interface:
    - [Http] (internal/api: server.go, parts of sign.go, agent.go): requests,
      responses, the bearer token and the interface [TokenVerifier];
      [RateLimit] (ratelimit.go).
    - [SignAPI] (sign.go, sign_ci.go), [UIAuth] (internal/auth/session.go, ui_auth.go,
      dev_auth.go), [MTLS] (internal/ca/mtls.go, keyfiles.go), [AgentAPI] (enroll.go,
      agent.go), [AdminAPI] (admin.go, admin_rules.go, admin_ci.go, admin_ui.go,
      rollout.go), [Bindist] (internal/bindist and its users), [Rollout] (agents.go,
      clients.go and the two install scripts): the handlers.
    - [Server]: the route table of the public listener, which composes all of them.
    - [ServerConfig] (cmd/gssh-server): configuration, start-up order, subcommands.
    - [Requests]: the agents' listener, and the server over time: [server_step] is a
      request, a background pass, a CA operation or a restart.

    The command lines:
    - [Flags]: package flag. [Shell]: what a command runs in (a user's machine, the
      ssh-agent, what was printed), the monad [CLI], and the classes [Network] and
      [Desktop] of what is outside.
    - [Flow] (internal/auth/flow.go): the OIDC login flows above the class [OAuthClient].
    - [UserCLI] (internal/cli): gssh, from its arguments to its exit code, above the
      class [SSHAgent]; [AdminCLI] (internal/admincli): gssh-admin.
    - [Clients]: the command lines composed with the server: an exchange is a request
      on the public handler ([server_network]); [ClientLogin]: logins, end to end.

    The hosts:
    - [Machine]: files, clock, randomness and commands of a host, with a schedule of
      file faults; the monad [IO].
    - [Agentd] (internal/agentd: config.go, daemon.go), [AgentSessions] (session.go,
      pam.go, socket.go, principals.go), [AgentEnroll] (enroll.go, sshd.go) and
      [AgentServer] (client.go): the agent, and its composition with the server.
    - [SessionTrail]: session events from the spool of a host to the audit log.
    - [AgentDaemon] (daemon.go, Run): the running daemon, a list of what its tickers and
      its socket make it do; [AgentCLI] (cli.go): gssh-agentd, with the helpers that reach
      the daemon over its socket.

    ** State and operations

    A computation of the server is [M A := World -> result A * World]. The [World]
    holds the database (one list of rows per table), the sequences, the clock and the
    time that passes before each reading of it, the draws of randomness and of UUIDs,
    the in-memory signer cache of the CA, and a schedule of database failures.
    Each SQL statement and each COMMIT consumes one entry of that schedule, so a
    theorem about [op w = (r, w')] covers every point at which the connection can
    be lost. A failing computation keeps the effects it had; only a transaction
    ([BeginFunc]) rolls the tables back, and sequences never roll back. An HTTP
    handler is a computation of a [Response]; it never fails. On a host a computation
    is [IO A := Machine -> result A * Machine], where a write can stop after any
    prefix. Background tasks and concurrent connections are steps of relations
    ([server_step], the steps of [AuditStream] and of the agent's cache).

    ** What the theorems show

    - Declarative rules: after ApplyGrants/ApplyCIGrants the stored rules are
      exactly the declared ones, with one audit event per change, or nothing
      changed; applying twice changes nothing; the same for rule files, tick by tick.
    - Issuance: no certificate without a request that passed its policy; a
      certificate and its audit event are written together; only active keys
      sign, after any sequence of rotations and failures; over HTTP, only for an
      accepted token, an active account and a grant, within the grant's lifetime,
      and for CI never beyond the job token.
    - The listeners: every request is answered; the public handler changes only what
      an identified caller may change, the agents' handler nothing but certificates,
      sessions and last-seen stamps of a known host; administrators alone edit rules.
    - The database: whatever is reachable satisfies the schema, and the certificate
      register and the audit log only grow.
    - Hosts: a token enrolls at most one host, the mTLS identity is the enrolled
      host's, and the principals sshd gets on a host are exactly those of active users
      and CI rules that reach the local user, within the bounds of the agent's cache;
      renewal keeps a usable key pair, spooled events stay until the server has gone
      through them, in order and for that host; enrollment writes
      only after the server's acceptance and rolls a rejected snippet back; nothing a
      server answers, a client asks or a disk refuses stops the running agent, which
      writes its own files only; sshd's hook prints what the daemon answered or nothing,
      PAM's hook never fails.
    - Identities: a login maps onto exactly one account with the token's groups; a
      deactivated user is refused and not reactivated; a completed sync pass
      makes every local user what the directory says; a login callback opens a session
      for its own flow only, and redirects stay local (up to the finding below).
    - Matching: the wildcard matcher is the declarative glob language, the LIKE
      prefilter loses nothing, issued CI principals and host-side rules agree.
    - Bounds: certificate lifetimes, the number of rate-limited requests, the size of
      the limiter's map, the spacing of pin dials, the age of cached principals.
    - Operation: a server that starts has the configuration its listeners need, a
      refused configuration touches nothing, a restart creates no key, the install
      scripts contain only what they quote and the hashes of what is downloaded.
    - Command lines: gssh writes no file and leaves one certificate of its own in the
      ssh-agent, which the server issued for the key just made under a grant of the
      login's account; a browser login accepts its own callback only, and what gssh-admin
      reports as applied or updated is what the server's database holds.
    - Findings: where the code does not do what it says, a theorem runs the
      model on the offending input (a retired key that keeps signing after a failed
      audit insert, a sync pass stopped by two groups of one name, a
      deactivation that is never completed, an audit event that commits late and is
      never streamed, a redirect that leaves the site, a selector that cannot be
      cleared).

    ** Fuel and bounds

    Recursion is structural, or on fuel that is proved or chosen to be enough:
    [ancestors] (the length of the path, which shrinks in each round), the Keycloak
    paging [users_from] (one more than the number of full pages, by
    [keycloak_users_complete]), [duration_sum] (the length of the text), class ranges
    and globs (the length of the pattern), the spool's drain (its events and one more),
    the 51 rounds of the enrollment probe (by [probe_terminates]), the eight 16-bit
    groups of an IPv6 address. Durations are int64 with wrap-around ([seconds]);
    instants are unbounded integers, as no sum the code forms leaves the range of Go's
    [time.Time]; [Time.Sub] saturates. Token buckets count in rationals.

    ** Assumptions and what is left out

    - PostgreSQL: a statement is atomic and sees a consistent database; text
      collates in byte order; text columns hold no NUL byte. Concurrent
      transactions are not interleaved inside a transaction. Cascades and
      constraints are those of the migrations.
    - Strings are byte sequences; [TrimSpace], [EqualFold] and ILIKE are the
      ASCII fragments; strings that reach [json.Marshal] are valid UTF-8. JSON
      texts are taken as the values they denote, with integer literals for numbers.
    - Go visits maps in any order: [MapOrder] is a parameter where the order can
      be observed.
    - Outside the repository, hence parameters: crypto and key formats ([Crypto],
      [X509], [HostCrypto]), text forms ([Encodings]), OIDC and OAuth2 libraries, YAML
      decoders, commands on the host, the IdP, DNS, the environment, text templates.
      Their laws are fields of the classes, with an instance for each.
    - Logging, file modes, HTTP headers other than the ones read, the mux's redirects
      of unclean paths, TLS itself, and the text forms of certificates are not
      modelled. Not modelled at all: the migrations' SQL (goose runs it; its
      constraints are [schema_ok]), the registry of metrics, the web frontend, tests
      and packaging. Usage texts of the command lines are one line, the columns of
      tables are not aligned; what the ssh-agent drops by itself when a lifetime ends
      happens between its operations. *)
From Stdlib Require Export ZArith Lia.
From Stdlib Require Export Sorting.Sorted.
From stdpp Require Export base tactics strings gmap fin_maps numbers list.

Declare Scope go_scope.
Delimit Scope go_scope with go.

(** ** Errors and results

    A Go [error] is a sentinel of one of the packages, a typed error, a
    technical error, or a wrapped error ([fmt.Errorf] with the w verb). *)

(** The rule a request broke (internal/ca/policy.go, [Validate]). *)
Inductive violation :=
| UnknownRequesterType
| CertTypeNotAllowed (got expected : string)
| KeyIDMissing
| NoPrincipals
| PrincipalNotAllowed (p : string)
| ExtensionNotAllowed (ext : string)
| CriticalOptionNotAllowed (opt : string)
| ValidBeforeNotAfter
| LifetimeExceeds (lifetime maximum : Z)
| ValidAfterTooOld.

Inductive error :=
| ErrNotFound
| ErrTokenHostMismatch
| ErrCAKeyRetired
| ErrInvalidGrantSpec
| ErrUserInactive
| ErrInvalidToken
| ErrInvalidSession
| ErrInvalidMasterKey
| ErrSelfManaged
| ErrNotExist                      (* os.ErrNotExist *)
| PolicyViolationError (requesterType : string) (reason : violation)
| ErrDatabase (what : string)
| ErrOther (what : string)
| ErrWrap (context : string) (cause : error).

#[export] Instance violation_eq_dec : EqDecision violation.
Proof. solve_decision. Defined.

#[export] Instance error_eq_dec : EqDecision error.
Proof. solve_decision. Defined.

Inductive result (A : Type) :=
| Ok (a : A)
| Err (e : error).
Arguments Ok {A} a.
Arguments Err {A} e.

Definition is_ok {A} (r : result A) : bool :=
  match r with Ok _ => true | Err _ => false end.

(** [errors.Is]: the error or one it wraps equals the target. *)
Fixpoint errors_Is (e target : error) : bool :=
  bool_decide (e = target) ||
  match e with
  | ErrWrap _ cause => errors_Is cause target
  | _ => false
  end.

(** [errors.As] with a [*PolicyViolationError] target. *)
Fixpoint errors_As_violation (e : error) : option (string * violation) :=
  match e with
  | PolicyViolationError rt why => Some (rt, why)
  | ErrWrap _ cause => errors_As_violation cause
  | _ => None
  end.

Lemma errors_Is_refl e : errors_Is e e = true.
Proof. destruct e; cbn [errors_Is]; by rewrite bool_decide_true. Qed.

Lemma errors_Is_wrap c e t :
  (∀ c' e', t ≠ ErrWrap c' e') → errors_Is (ErrWrap c e) t = errors_Is e t.
Proof.
  intros Ht. cbn [errors_Is]. rewrite bool_decide_false; [done|].
  intros <-. by eapply Ht.
Qed.

(** ** JSON values, as audit payloads carry them *)
Inductive json :=
| JNull
| JBool (b : bool)
| JNum (n : Z)
| JStr (s : string)
| JArr (l : list json)
| JObj (l : list (string * json)).

Definition JStrs (l : list string) : json := JArr (JStr <$> l).
Definition JMap (m : gmap string string) : json :=
  JObj (prod_map id JStr <$> map_to_list m).
Definition JOpt {A} (f : A → json) (o : option A) : json :=
  match o with Some a => f a | None => JNull end.

(** Field of a JSON object. *)
Fixpoint jfield (k : string) (l : list (string * json)) : option json :=
  match l with
  | [] => None
  | (k', v) :: l' => if decide (k = k') then Some v else jfield k l'
  end.
Definition jget (k : string) (j : json) : option json :=
  match j with JObj l => jfield k l | _ => None end.

(** ** Generic lemmas *)

Lemma filter_bool_In {A} (f : A → bool) l x :
  x ∈ List.filter f l ↔ x ∈ l ∧ f x = true.
Proof. rewrite !list_elem_of_In. apply filter_In. Qed.

Lemma existsb_elem {A} (f : A → bool) l :
  existsb f l = true ↔ ∃ x, x ∈ l ∧ f x = true.
Proof. rewrite existsb_exists. by setoid_rewrite list_elem_of_In. Qed.

Lemma forallb_elem {A} (f : A → bool) l :
  forallb f l = true ↔ ∀ x, x ∈ l → f x = true.
Proof. rewrite forallb_forall. by setoid_rewrite list_elem_of_In. Qed.

Lemma filter_false {A} (p : A → bool) l : (∀ x, x ∈ l → p x = false) → List.filter p l = [].
Proof.
  induction l as [|x l IH]; simpl; intros Hl; [done|].
  rewrite Hl by set_solver. apply IH. intros. apply Hl. set_solver.
Qed.
Lemma filter_true {A} (p : A → bool) l : (∀ x, x ∈ l → p x = true) → List.filter p l = l.
Proof.
  induction l as [|x l IH]; simpl; intros Hl; [done|].
  rewrite Hl by set_solver. f_equal. apply IH. intros. apply Hl. set_solver.
Qed.
Lemma filter_filter {A} (p q : A → bool) l :
  (∀ x, q x = true → p x = true) → List.filter q (List.filter p l) = List.filter q l.
Proof.
  intros Hpq. induction l as [|x l IH]; simpl; [done|].
  destruct (p x) eqn:Ep; simpl; [by rewrite IH|].
  destruct (q x) eqn:Eq; [|done]. apply Hpq in Eq. congruence.
Qed.

Lemma filter_bool_perm {A} (p : A → bool) l1 l2 :
  l1 ≡ₚ l2 → List.filter p l1 ≡ₚ List.filter p l2.
Proof.
  induction 1 as [|x l1 l2 _ IH|x y l|l1 l2 l3 _ IH1 _ IH2]; simpl; [done| | |by etrans].
  - destruct (p x); [by f_equiv|done].
  - destruct (p x), (p y); try done. apply Permutation_swap.
Qed.

(** Distinct keys stay distinct. *)
Lemma fmap_NoDup_filter {A B} (f : A → B) p l :
  NoDup (f <$> l) → NoDup (f <$> List.filter p l).
Proof.
  induction l as [|x l IH]; simpl; [done|]. intros [Hx Hl]%NoDup_cons.
  destruct (p x); simpl; [|auto]. apply NoDup_cons. split; [|auto].
  contradict Hx. apply list_elem_of_fmap in Hx as (y & Hy & [? _]%filter_bool_In).
  apply list_elem_of_fmap. eauto.
Qed.

Lemma fmap_NoDup_snoc {A B} (f : A → B) l x :
  NoDup (f <$> l) → f x ∉ f <$> l → NoDup (f <$> l ++ [x]).
Proof.
  intros Hl Hx. rewrite fmap_app. apply list.NoDup_app. split; [done|split].
  - intros y Hy [->|[]%elem_of_nil]%elem_of_cons. done.
  - apply NoDup_singleton.
Qed.

(** A row is known by its key. *)
Lemma key_inj {A B} (f : A → B) l x y :
  NoDup (f <$> l) → x ∈ l → y ∈ l → f x = f y → x = y.
Proof.
  intros Hnd [i Hi]%list_elem_of_lookup [j Hj]%list_elem_of_lookup Heq.
  assert (i = j) as <-; [|congruence].
  eapply NoDup_lookup; [exact Hnd|..]; rewrite list_lookup_fmap_Some; [by exists x|].
  exists y. split; [congruence|done].
Qed.

(** Inserting the entries of a map one by one gives the map. *)
Lemma foldl_insert_entries {V} (es : list (string * V)) (c : gmap string V) :
  es ≡ₚ map_to_list c → foldl (λ c '(k, v), <[k := v]> c) ∅ es = c.
Proof.
  intros Hes. assert (∀ es (c0 : gmap string V), foldl (λ c '(k, v), <[k := v]> c) c0 es =
    foldr (λ '(k, v) c, <[k := v]> c) c0 (rev es)) as Hrev.
  { clear. induction es as [|[k v] es IH]; intros c0; [done|]. simpl.
    by rewrite IH, foldr_app. }
  rewrite Hrev. trans (list_to_map (rev es) : gmap string V).
  { clear. induction (rev es) as [|[k v] l IH]; [done|]. simpl. by rewrite IH. }
  rewrite <-(list_to_map_to_list c). apply list_to_map_proper.
  - rewrite <-Permutation_rev, Hes. apply NoDup_fst_map_to_list.
  - by rewrite <-Permutation_rev.
Qed.

(** Removing or replacing the one element with a given key. *)
Lemma filter_out_key {A B} `{EqDecision B} (f : A → B) l x rest :
  NoDup (f <$> l) → l ≡ₚ x :: rest →
  List.filter (λ y, negb (bool_decide (f y = f x))) l ≡ₚ rest.
Proof.
  intros Hnd Hl. rewrite (filter_bool_perm _ _ _ Hl). rewrite Hl in Hnd.
  simpl in *. apply NoDup_cons in Hnd as [Hx _]. rewrite bool_decide_true by done. simpl.
  rewrite filter_true; [done|]. intros y Hy. apply negb_true_iff, bool_decide_eq_false.
  intros Heq. apply Hx, list_elem_of_fmap. eauto.
Qed.

Lemma map_at_key {A B} `{EqDecision B} (f : A → B) (u : A → A) l x rest :
  NoDup (f <$> l) → l ≡ₚ x :: rest →
  List.map (λ y, if bool_decide (f y = f x) then u y else y) l ≡ₚ u x :: rest.
Proof.
  intros Hnd Hl. change (List.map ?g l) with (g <$> l). rewrite Hl at 1. rewrite Hl in Hnd.
  simpl in *. apply NoDup_cons in Hnd as [Hx _]. rewrite bool_decide_true by done. f_equiv.
  rewrite <-(list_fmap_id rest) at 2. apply reflexive_eq, list_fmap_ext.
  intros i y Hi%list_elem_of_lookup_2.
  rewrite bool_decide_false; [done|]. intros Heq. apply Hx, list_elem_of_fmap. eauto.
Qed.

(** Stable insertion sort by a boolean order: SQL's ORDER BY, Go's
    [sort.Slice]. *)
Fixpoint insert_by {A} (leb : A → A → bool) (x : A) (l : list A) : list A :=
  match l with
  | [] => [x]
  | y :: l' => if leb x y then x :: l else y :: insert_by leb x l'
  end.
Fixpoint sort_by {A} (leb : A → A → bool) (l : list A) : list A :=
  match l with
  | [] => []
  | x :: l' => insert_by leb x (sort_by leb l')
  end.

Lemma insert_by_perm {A} (leb : A → A → bool) x l : insert_by leb x l ≡ₚ x :: l.
Proof.
  induction l as [|y l IH]; simpl; [done|].
  destruct (leb x y); [done|]. rewrite IH. apply Permutation_swap.
Qed.

Lemma sort_by_perm {A} (leb : A → A → bool) l : sort_by leb l ≡ₚ l.
Proof.
  induction l as [|x l IH]; simpl; [done|]. by rewrite insert_by_perm, IH.
Qed.

Lemma sort_by_elem {A} (leb : A → A → bool) l x : x ∈ sort_by leb l ↔ x ∈ l.
Proof. by rewrite sort_by_perm. Qed.

(** Sorting by a total order. *)
Section sorting.
Context {A : Type} (leb : A → A → bool).
Hypothesis leb_total : ∀ x y, leb x y = true ∨ leb y x = true.
Hypothesis leb_trans : ∀ x y z, leb x y = true → leb y z = true → leb x z = true.

Lemma insert_by_sorted x l :
  StronglySorted (λ a b, leb a b = true) l → StronglySorted (λ a b, leb a b = true) (insert_by leb x l).
Proof.
  induction 1 as [|y l Hl IH Hy]; simpl; [repeat constructor|].
  destruct (leb x y) eqn:E.
  - constructor; [by constructor|]. constructor; [done|].
    eapply Forall_impl; [exact Hy|]. simpl. eauto.
  - constructor; [done|]. rewrite insert_by_perm. constructor; [|done].
    destruct (leb_total x y); congruence.
Qed.
Lemma sort_by_sorted l : StronglySorted (λ a b, leb a b = true) (sort_by leb l).
Proof. induction l; simpl; [constructor|by apply insert_by_sorted]. Qed.
(** The head of a sorted list is minimal. *)
Lemma sort_by_head_min l h t :
  sort_by leb l = h :: t → ∀ y, y ∈ t → leb h y = true.
Proof.
  intros E. pose proof (sort_by_sorted l) as Hs. rewrite E in Hs.
  inversion_clear Hs as [|? ? _ Hh]. by apply Forall_forall.
Qed.
End sorting.

(** ** Automation *)

(** Case analysis on the boolean tests of the code. *)
Ltac case_test :=
  match goal with
  | H : context [if ?b then _ else _] |- _ => destruct b eqn:?
  | |- context [if ?b then _ else _] => destruct b eqn:?
  end.

(** Turn boolean facts into propositions. *)
Ltac bool_to_prop :=
  repeat match goal with
  | H : bool_decide _ = true |- _ => apply bool_decide_eq_true in H
  | H : bool_decide _ = false |- _ => apply bool_decide_eq_false in H
  | H : _ && _ = true |- _ => apply andb_true_iff in H as [? ?]
  | H : _ || _ = false |- _ => apply orb_false_iff in H as [? ?]
  | H : negb _ = true |- _ => apply negb_true_iff in H
  | H : negb _ = false |- _ => apply negb_false_iff in H
  | H : (_ =? _)%Z = true |- _ => apply Z.eqb_eq in H
  | H : (_ =? _)%Z = false |- _ => apply Z.eqb_neq in H
  | H : (_ <=? _)%Z = true |- _ => apply Z.leb_le in H
  | H : (_ <=? _)%Z = false |- _ => apply Z.leb_gt in H
  | H : (_ <? _)%Z = true |- _ => apply Z.ltb_lt in H
  | H : (_ <? _)%Z = false |- _ => apply Z.ltb_ge in H
  end.

Create HintDb gssh.
Create Rewrite HintDb gssh_rw.
#[export] Hint Rewrite @sort_by_elem @filter_bool_In @elem_of_app : gssh_rw.
#[export] Hint Resolve errors_Is_refl : gssh.

(** ** Go map iteration

    [for k, v := range m] visits every entry once, in an order the language
    leaves open. *)
Class MapOrder := {
  map_order {V} (m : gmap string V) : list (string * V);
  map_order_perm {V} (m : gmap string V) : map_order m ≡ₚ map_to_list m
}.
Definition key_order : MapOrder :=
  {| map_order V m := map_to_list m; map_order_perm V m := Permutation_refl _ |}.
