(* ===== verification/GoStrings.v ===== *)
(** * The part of Go's [strings] package the code relies on

    A Go string is a byte sequence: Rocq's [string] with one [ascii] per byte.
    The functions below are the standard library's, at the separators the
    code uses (a one-byte separator for [Split] and [LastIndex]). [TrimSpace]
    and [EqualFold] are the ASCII fragments. *)
From Stdlib Require Export Ascii.
From S2P Require Export Prelude.

Local Open Scope string_scope.
#[global] Arguments String.append !_ _ / : simpl nomatch.

Lemma append_assoc (a b c : string) : (a +:+ b) +:+ c = a +:+ (b +:+ c).
Proof. induction a as [|x a IH]; simpl; [done|by rewrite IH]. Qed.

Lemma append_nil_r (a : string) : a +:+ "" = a.
Proof. induction a as [|x a IH]; simpl; [done|by rewrite IH]. Qed.

Lemma append_length (a b : string) :
  String.length (a +:+ b) = (String.length a + String.length b)%nat.
Proof. induction a as [|x a IH]; simpl; [done|by rewrite IH]. Qed.

Lemma append_inj_l (a b c : string) : a +:+ b = a +:+ c → b = c.
Proof. induction a; simpl; intros; simplify_eq; auto. Qed.

Lemma append_inj_r (a b c : string) : a +:+ c = b +:+ c → a = b.
Proof.
  revert b. induction a as [|x a IH]; intros [|y b]; simpl; [done|..].
  - intros E%(f_equal String.length). simpl in E. rewrite append_length in E. lia.
  - intros E%(f_equal String.length). simpl in E. rewrite append_length in E. lia.
  - intros ?; simplify_eq. f_equal. by apply IH.
Qed.

(** Two factorisations of a string at different positions overlap. *)
Lemma append_split (a b c d : string) :
  a +:+ b = c +:+ d → (String.length a ≤ String.length c)%nat →
  ∃ m, c = a +:+ m ∧ b = m +:+ d.
Proof.
  revert c. induction a as [|x a IH]; intros c; simpl; [by exists c|].
  destruct c as [|y c]; simpl; [lia|]. intros ? ?; simplify_eq.
  destruct (IH c) as (m & -> & ->); [done|lia|by exists m].
Qed.

(** ** Prefixes, suffixes *)

(** [strings.CutPrefix]: the rest after the prefix. *)
Fixpoint CutPrefix (s prefix : string) {struct prefix} : option string :=
  match prefix, s with
  | EmptyString, _ => Some s
  | String p prefix', String c s' =>
      if decide (p = c) then CutPrefix s' prefix' else None
  | String _ _, EmptyString => None
  end.

Definition HasPrefix (s prefix : string) : bool :=
  match CutPrefix s prefix with Some _ => true | None => false end.

Definition TrimPrefix (s prefix : string) : string :=
  match CutPrefix s prefix with Some r => r | None => s end.

Fixpoint HasSuffix (s suffix : string) : bool :=
  bool_decide (s = suffix) ||
  match s with EmptyString => false | String _ s' => HasSuffix s' suffix end.

Lemma CutPrefix_Some s p r : CutPrefix s p = Some r ↔ s = p +:+ r.
Proof.
  revert s. induction p as [|c p IH]; intros s; simpl; [split; congruence|].
  destruct s as [|d s]; simpl; [done|].
  case_decide as E; [subst; rewrite IH; split; congruence|].
  split; congruence.
Qed.

Lemma CutPrefix_app p r : CutPrefix (p +:+ r) p = Some r.
Proof. by apply CutPrefix_Some. Qed.

Lemma HasPrefix_spec s p : HasPrefix s p = true ↔ ∃ r, s = p +:+ r.
Proof.
  unfold HasPrefix. destruct (CutPrefix s p) as [r|] eqn:E.
  - apply CutPrefix_Some in E. split; eauto.
  - split; [done|]. intros [r ->]. by rewrite CutPrefix_app in E.
Qed.

Lemma HasSuffix_spec s t : HasSuffix s t = true ↔ ∃ r, s = r +:+ t.
Proof.
  induction s as [|c s IH]; simpl; rewrite orb_true_iff, bool_decide_eq_true.
  - split; [intros [<-|?]; [by exists ""|done]|].
    intros [[|] Hr]; simpl in Hr; [by left|done].
  - rewrite IH. split.
    + intros [<-|[r ->]]; [by exists ""|by exists (String c r)].
    + intros [[|d r] Hr]; simpl in Hr; [by left|right]. simplify_eq. eauto.
Qed.

(** ** First and last occurrences *)

(** [strings.Cut]: the parts around the first occurrence of [sep]; it also
    gives [strings.Index] (the length of the first part), [strings.Contains]
    and the slice after the match. *)
Fixpoint Cut (s sep : string) : option (string * string) :=
  match CutPrefix s sep with
  | Some r => Some ("", r)
  | None =>
      match s with
      | EmptyString => None
      | String c s' =>
          match Cut s' sep with
          | Some (a, b) => Some (String c a, b)
          | None => None
          end
      end
  end.

Definition Contains (s sub : string) : bool :=
  match Cut s sub with Some _ => true | None => false end.

Lemma Cut_Some s sep a b : Cut s sep = Some (a, b) → s = a +:+ sep +:+ b.
Proof.
  revert a. induction s as [|c s IH]; intros a; cbn [Cut].
  - destruct (CutPrefix "" sep) eqn:E; [|done]. intros; simplify_eq.
    by apply CutPrefix_Some in E.
  - destruct (CutPrefix (String c s) sep) eqn:E.
    + intros; simplify_eq. by apply CutPrefix_Some in E.
    + destruct (Cut s sep) as [[a' b']|]; [|done]. intros; simplify_eq.
      simpl. f_equal. by apply IH.
Qed.

(** The first occurrence is the leftmost one. *)
Lemma Cut_leftmost s sep a b a' b' :
  Cut s sep = Some (a, b) → s = a' +:+ sep +:+ b' →
  (String.length a ≤ String.length a')%nat.
Proof.
  revert a a'. induction s as [|c s IH]; intros a a'; cbn [Cut].
  - destruct (CutPrefix "" sep); [|done]. intros; simplify_eq. simpl; lia.
  - destruct (CutPrefix (String c s) sep) eqn:E.
    + intros; simplify_eq. simpl; lia.
    + destruct (Cut s sep) as [[a1 b1]|] eqn:E1; [|done]. intros Heq Hs; simplify_eq.
      destruct a' as [|d a']; simpl in *.
      * assert (CutPrefix (String c s) sep = Some b') by by apply CutPrefix_Some.
        congruence.
      * simplify_eq. apply le_n_S. by eapply IH.
Qed.

Lemma Cut_None s sep : Cut s sep = None → ∀ a b, s ≠ a +:+ sep +:+ b.
Proof.
  induction s as [|c s IH]; cbn [Cut]; intros H a b Hs.
  - destruct a, sep; simplify_eq; done.
  - destruct (CutPrefix (String c s) sep) eqn:E; [done|].
    destruct (Cut s sep) as [[]|] eqn:E1; [done|].
    destruct a as [|d a]; simpl in *.
    + assert (CutPrefix (String c s) sep = Some b) by by apply CutPrefix_Some.
      congruence.
    + simplify_eq. by eapply IH.
Qed.

Lemma Contains_spec s sub : Contains s sub = true ↔ ∃ a b, s = a +:+ sub +:+ b.
Proof.
  unfold Contains. destruct (Cut s sub) as [[a b]|] eqn:E.
  - apply Cut_Some in E. split; eauto.
  - split; [done|]. intros (a & b & H). by eapply Cut_None in H.
Qed.

(** [s[:strings.LastIndex(s, c)]], [None] when [c] does not occur. *)
Fixpoint before_last (s : string) (c : ascii) : option string :=
  match s with
  | EmptyString => None
  | String d s' =>
      match before_last s' c with
      | Some b => Some (String d b)
      | None => if decide (d = c) then Some "" else None
      end
  end.

Lemma before_last_Some s c b :
  before_last s c = Some b → ∃ t, s = b +:+ String c t.
Proof.
  revert b. induction s as [|d s IH]; intros b; simpl; [done|].
  destruct (before_last s c) as [b'|]; intros H.
  - simplify_eq. destruct (IH b') as [t ->]; [done|]. by exists t.
  - case_decide; simplify_eq. by exists s.
Qed.

Lemma before_last_None s c : before_last s c = None → ∀ a b, s ≠ a +:+ String c b.
Proof.
  induction s as [|d s IH]; simpl; intros H a b Hs.
  - destruct a; done.
  - destruct (before_last s c); [done|]. case_decide; [done|].
    destruct a; simplify_eq/=. by eapply IH.
Qed.

(** The part kept is the longest: nothing after it contains the separator. *)
Lemma before_last_longest s c b a t :
  before_last s c = Some b → s = a +:+ String c t →
  (String.length a ≤ String.length b)%nat.
Proof.
  revert b a. induction s as [|d s IH]; intros b a; simpl; [by destruct a|].
  destruct (before_last s c) as [b'|] eqn:E; intros H Hs.
  - simplify_eq. destruct a; simplify_eq/=; [lia|]. apply le_n_S. by eapply IH.
  - case_decide; simplify_eq. destruct a as [|d a]; simplify_eq/=; [lia|].
    by destruct (before_last_None _ _ E a t).
Qed.

(** ** Splitting and joining at a one-byte separator *)
Definition newline : string := String "010" "".
Fixpoint Split (s : string) (c : ascii) : list string :=
  match s with
  | EmptyString => [""]
  | String d s' =>
      if decide (d = c) then "" :: Split s' c
      else match Split s' c with
           | [] => [String d ""]
           | p :: ps => String d p :: ps
           end
  end.

Fixpoint Join (parts : list string) (sep : string) : string :=
  match parts with
  | [] => ""
  | [p] => p
  | p :: ps => p +:+ sep +:+ Join ps sep
  end.

Fixpoint in_string (c : ascii) (s : string) : Prop :=
  match s with EmptyString => False | String d s' => d = c ∨ in_string c s' end.

#[export] Instance in_string_dec c s : Decision (in_string c s).
Proof. induction s; simpl; apply _. Defined.

Lemma in_string_app c a b : in_string c (a +:+ b) ↔ in_string c a ∨ in_string c b.
Proof. induction a as [|d a IH]; simpl; [tauto|]. rewrite IH. tauto. Qed.

Lemma in_string_ex c s : in_string c s ↔ ∃ a b, s = a +:+ String c b.
Proof.
  induction s as [|d s IH]; simpl.
  - split; [done|]. by intros ([|] & b & ?).
  - rewrite IH. split.
    + intros [->|(a & b & ->)]; [by exists "", s|by exists (String d a), b].
    + intros ([|e a] & b & ?); simplify_eq/=; eauto.
Qed.

Lemma Split_nonnil s c : Split s c ≠ [].
Proof.
  destruct s as [|d s]; simpl; [done|]. case_decide; [done|].
  by destruct (Split s c).
Qed.

Lemma Join_cons p ps sep : ps ≠ [] → Join (p :: ps) sep = p +:+ sep +:+ Join ps sep.
Proof. by destruct ps. Qed.

Lemma Join_Split s c : Join (Split s c) (String c "") = s.
Proof.
  induction s as [|d s IH]; simpl; [done|].
  pose proof (Split_nonnil s c) as Hn. case_decide; subst.
  - rewrite Join_cons by done. simpl. by rewrite IH.
  - destruct (Split s c) as [|p ps]; [done|].
    destruct ps as [|q ps]; simpl in *; by rewrite <-IH.
Qed.

Lemma Split_no_sep s c p : p ∈ Split s c → ¬ in_string c p.
Proof.
  revert p. induction s as [|d s IH]; intros p; simpl.
  - intros ->%list_elem_of_singleton. simpl. tauto.
  - case_decide; subst.
    + intros [->|Hp]%elem_of_cons; [simpl; tauto|by apply IH].
    + pose proof (Split_nonnil s c). destruct (Split s c) as [|q qs]; [done|].
      intros [->|Hp]%elem_of_cons; [|apply IH; set_solver].
      simpl. intros [?|?]; [done|]. revert H1. apply IH. set_solver.
Qed.

(** ** Space trimming (ASCII) *)
Fixpoint TrimLeftSpace (s : string) : string :=
  match s with
  | String c s' => if Ascii.is_space c then TrimLeftSpace s' else s
  | EmptyString => EmptyString
  end.
Definition TrimSpace (s : string) : string :=
  String.rev (TrimLeftSpace (String.rev (TrimLeftSpace s))).

Lemma rev_app_rev a b : String.rev_app a b = String.rev a +:+ b.
Proof.
  unfold String.rev. revert b. induction a as [|c a IH]; intros b; [done|]. simpl.
  rewrite (IH (String c b)), (IH (String c "")), append_assoc. done.
Qed.
Lemma rev_append a b : String.rev (a +:+ b) = String.rev b +:+ String.rev a.
Proof.
  induction a as [|c a IH]; simpl.
  - by rewrite append_nil_r.
  - unfold String.rev in *. simpl. rewrite (rev_app_rev (a +:+ b)), (rev_app_rev a).
    unfold String.rev. rewrite IH. by rewrite append_assoc.
Qed.
Lemma rev_rev a : String.rev (String.rev a) = a.
Proof.
  induction a as [|c a IH]; [done|]. change (String c a) with (String c "" +:+ a) at 1.
  by rewrite rev_append, rev_append, IH.
Qed.
Lemma in_string_rev c a : in_string c (String.rev a) ↔ in_string c a.
Proof.
  induction a as [|d a IH]; [done|]. change (String d a) with (String d "" +:+ a).
  rewrite rev_append, !in_string_app. simpl. tauto.
Qed.

(** Nothing to trim. *)
Lemma TrimSpace_id s : (∀ c, in_string c s → Ascii.is_space c = false) → TrimSpace s = s.
Proof.
  assert (∀ t, (∀ c, in_string c t → Ascii.is_space c = false) → TrimLeftSpace t = t) as Hleft.
  { intros [|c t] Ht; [done|]. simpl. rewrite Ht; [done|by left]. }
  intros Hs. unfold TrimSpace. rewrite (Hleft s Hs), Hleft; [apply rev_rev|].
  intros c Hc. apply Hs. by apply in_string_rev.
Qed.

(** [strings.Fields]. *)
Fixpoint fields_from (word : string) (s : string) : list string :=
  match s with
  | EmptyString => if bool_decide (word = "") then [] else [word]
  | String c s =>
      if Ascii.is_space c
      then (if bool_decide (word = "") then [] else [word]) ++ fields_from "" s
      else fields_from (word +:+ String c "") s
  end.
Definition Fields (s : string) : list string := fields_from "" s.

(** [strings.TrimRight(s, c)] for a one-byte cutset. *)
Fixpoint TrimRight (s : string) (c : ascii) : string :=
  match s with
  | EmptyString => EmptyString
  | String d s' =>
      match TrimRight s' c with
      | EmptyString => if decide (d = c) then EmptyString else String d EmptyString
      | t => String d t
      end
  end.

(** [strings.EqualFold] on ASCII. *)
Definition to_lower (c : ascii) : ascii :=
  let n := Ascii.nat_of_ascii c in
  if (65 <=? n)%nat && (n <=? 90)%nat then Ascii.ascii_of_nat (n + 32) else c.
Fixpoint ToLower (s : string) : string :=
  match s with
  | EmptyString => EmptyString
  | String c s' => String (to_lower c) (ToLower s')
  end.
Definition EqualFold (a b : string) : bool := bool_decide (ToLower a = ToLower b).

(** A separator splits a string in one way only. *)
Lemma sep_inj c a b x y :
  ¬ in_string c a → ¬ in_string c b → a +:+ String c x = b +:+ String c y → a = b ∧ x = y.
Proof.
  revert b. induction a as [|d a IH]; intros [|e b]; simpl; intros Ha Hb Heq; simplify_eq;
    [done|tauto|tauto|].
  destruct (IH b) as [-> ->]; tauto.
Qed.

Lemma in_string_TrimRight c s d : in_string c (TrimRight s d) → in_string c s.
Proof.
  induction s as [|e s IH]; [done|]. simpl. destruct (TrimRight s d).
  - case_decide; simpl; tauto.
  - simpl in *. tauto.
Qed.
Lemma Cut_first a c b : ¬ in_string c a → Cut (a +:+ String c b) (String c "") = Some (a, b).
Proof.
  induction a as [|d a IH]; intros Ha.
  - simpl. by rewrite decide_True.
  - simpl in *. rewrite decide_False by (intros ->; tauto). by rewrite IH by tauto.
Qed.

(** ** Slices: [s[:n]] and [s[n:]] *)
Fixpoint take_str (n : nat) (s : string) : string :=
  match n, s with
  | S n, String c s => String c (take_str n s)
  | _, _ => ""
  end.
Fixpoint drop_str (n : nat) (s : string) : string :=
  match n, s with
  | S n, String _ s => drop_str n s
  | _, _ => s
  end.

(** [strings.TrimSuffix]. *)
Definition TrimSuffix (s suffix : string) : string :=
  if HasSuffix s suffix then take_str (String.length s - String.length suffix) s else s.
Lemma take_str_app a b : take_str (String.length a) (a +:+ b) = a.
Proof. induction a; simpl; [by destruct b|by f_equal]. Qed.
Lemma drop_str_app a b : drop_str (String.length a) (a +:+ b) = b.
Proof. by induction a. Qed.

Lemma take_str_le n a b : (n ≤ String.length a)%nat → take_str n (a +:+ b) = take_str n a.
Proof. revert a. induction n; intros [|c a]; simpl; [done..|lia|]. intros ?. f_equal. auto with lia. Qed.
Lemma take_str_all n s : (String.length s ≤ n)%nat → take_str n s = s.
Proof. revert s. induction n; intros [|c s]; simpl; [done|lia|done|]. intros ?. f_equal. auto with lia. Qed.
Lemma take_drop_str n s : take_str n s +:+ drop_str n s = s.
Proof. revert s. induction n; intros [|c s]; simpl; [done..|]. by f_equal. Qed.
Lemma in_string_take c n s : in_string c (take_str n s) → in_string c s.
Proof. intros Hc. rewrite <-(take_drop_str n s), in_string_app. by left. Qed.

(** ** Decimal digits *)
Fixpoint digits (acc : Z) (s : string) : option Z :=
  match s with
  | "" => Some acc
  | String c s =>
      let n := nat_of_ascii c in
      if (48 <=? n)%nat && (n <=? 57)%nat then digits (acc * 10 + Z.of_nat (n - 48)) s else None
  end.
