(* ===== verification/GoJson.v ===== *)
(** * json.Marshal of a map of strings

    [encoding/json] writes a map with its keys sorted and every string
    quoted and escaped (HTML escaping on, as [json.Marshal] does). The strings
    of the program that reach it come from PostgreSQL text columns or from
    decoded JSON and YAML and are valid UTF-8, so bytes from 128 on are copied,
    except for U+2028 and U+2029. The encoding is injective. *)
From S2P Require Export GoStrings.

Local Open Scope string_scope.
Local Open Scope list_scope.

(** ** Characters of an encoded string

    A byte, one of the two line separators, or the closing quote. *)
Inductive token := Byte (c : ascii) | LineSep (last : bool) | Quote.

#[export] Instance token_eq_dec : EqDecision token.
Proof. solve_decision. Defined.

Definition hex_digit (n : nat) : ascii :=
  ascii_of_nat (if (n <? 10)%nat then n + 48 else n + 87).
Definition backslash : ascii := "092".

(** The escape of one byte (appendString with escapeHTML). *)
Definition escape_byte (c : ascii) : string :=
  let n := nat_of_ascii c in
  if (n =? 92)%nat || (n =? 34)%nat then String backslash (String c "")
  else if (n =? 8)%nat then "\b" else if (n =? 12)%nat then "\f"
  else if (n =? 10)%nat then "\n" else if (n =? 13)%nat then "\r"
  else if (n =? 9)%nat then "\t"
  else if (n <? 32)%nat || (n =? 60)%nat || (n =? 62)%nat || (n =? 38)%nat
  then "\u00" +:+ String (hex_digit (n / 16)) (String (hex_digit (n mod 16)) "")
  else String c "".

Definition token_text (t : token) : string :=
  match t with
  | Byte c => escape_byte c
  | LineSep false => "\u2028"
  | LineSep true => "\u2029"
  | Quote => String "034" ""
  end.

(** The bytes a token stands for in the unescaped string. *)
Definition token_bytes (t : token) : string :=
  match t with
  | Byte c => String c ""
  | LineSep b => String "226" (String "128" (String (if b then "169" else "168")%char ""))
  | Quote => ""
  end.

Fixpoint tokens (s : string) : list token :=
  match s with
  | "" => []
  | String "226" (String "128" (String "168" s)) => LineSep false :: tokens s
  | String "226" (String "128" (String "169" s)) => LineSep true :: tokens s
  | String c s => Byte c :: tokens s
  end.

Definition concat_text (f : token → string) (l : list token) : string :=
  foldr (λ t s, f t +:+ s) "" l.

(** A quoted string, up to and including its closing quote. *)
Definition json_string_tail (s : string) : string :=
  concat_text token_text (tokens s ++ [Quote]).
Definition json_string (s : string) : string := String "034" (json_string_tail s).

#[global] Arguments json_string : simpl never.

Fixpoint json_members (l : list (string * string)) : string :=
  match l with
  | [] => "}"
  | [(k, v)] => json_string k +:+ ":" +:+ json_string v +:+ "}"
  | (k, v) :: l => json_string k +:+ ":" +:+ json_string v +:+ "," +:+ json_members l
  end.

(** The entries of a map, sorted by key. *)
Definition sorted_entries {V} (m : gmap string V) : list (string * V) :=
  sort_by (λ a b, String.leb a.1 b.1) (map_to_list m).
Definition marshal_map (m : gmap string string) : string :=
  "{" +:+ json_members (sorted_entries m).

(** ** The tokens form a prefix code *)
Definition all_tokens : list token :=
  LineSep false :: LineSep true :: Quote ::
  List.map (λ n, Byte (ascii_of_nat n)) (seq 0 256).

Lemma all_tokens_complete t : t ∈ all_tokens.
Proof.
  unfold all_tokens. rewrite !elem_of_cons.
  destruct t as [c|[]|]; [|by auto..]. do 3 right. apply list_elem_of_fmap.
  exists (nat_of_ascii c). rewrite ascii_nat_embedding. split; [reflexivity|].
  apply elem_of_seq. pose proof (nat_ascii_bounded c). lia.
Qed.

Definition prefix_free : bool :=
  let coded := List.map (λ t, (t, token_text t)) all_tokens in
  forallb (λ a, forallb (λ b, if HasPrefix a.2 b.2 then bool_decide (a.1 = b.1) else true)
    coded) coded.
Lemma prefix_free_true : prefix_free = true.
Proof. vm_compute. reflexivity. Qed.

Lemma prefix_free_spec a b m : token_text a = token_text b +:+ m → a = b.
Proof.
  intros Hp. pose proof prefix_free_true as Hf. unfold prefix_free in Hf.
  assert (∀ t, (t, token_text t) ∈ List.map (λ t, (t, token_text t)) all_tokens) as Hin.
  { intros t. apply list_elem_of_fmap. exists t. split; [done|]. apply all_tokens_complete. }
  apply (proj1 (forallb_elem _ _)) with (x := (a, token_text a)) in Hf; [|apply Hin].
  apply (proj1 (forallb_elem _ _)) with (x := (b, token_text b)) in Hf; [|apply Hin].
  cbn [fst snd] in Hf.
  rewrite (proj2 (HasPrefix_spec _ _)) in Hf by eauto. by bool_to_prop.
Qed.

Lemma token_text_inj a b x y :
  token_text a +:+ x = token_text b +:+ y → a = b ∧ x = y.
Proof.
  intros Heq.
  destruct (decide (a = b)) as [->|Hne].
  - split; [done|].
    induction (token_text b) as [|c s IH]; simpl in *; [done|]. apply IH. by simplify_eq.
  - exfalso. apply Hne.
    destruct (Nat.le_ge_cases (String.length (token_text b)) (String.length (token_text a)))
      as [Hl|Hl].
    + destruct (append_split (token_text b) y (token_text a) x) as (m & Hm & _); [done..|].
      by eapply prefix_free_spec.
    + destruct (append_split (token_text a) x (token_text b) y) as (m & Hm & _); [done|done|].
      symmetry. by eapply prefix_free_spec.
Qed.

Lemma concat_text_inj l1 l2 x y :
  Quote ∉ l1 → Quote ∉ l2 →
  concat_text token_text (l1 ++ [Quote]) +:+ x = concat_text token_text (l2 ++ [Quote]) +:+ y →
  l1 = l2 ∧ x = y.
Proof.
  revert l2. induction l1 as [|a l1 IH]; intros [|b l2] H1 H2; cbn [app foldr concat_text];
    unfold concat_text in *; cbn [app foldr]; rewrite ?append_assoc;
    intros [Hab Heq]%token_text_inj; subst.
  - by simpl in Heq.
  - set_solver.
  - set_solver.
  - destruct (IH l2) as [-> ->]; [set_solver..| |done]. exact Heq.
Qed.

(** ** Tokens of a string *)
Lemma tokens_no_quote s : Quote ∉ tokens s.
Proof.
  enough (∀ n s, (String.length s ≤ n)%nat → Quote ∉ tokens s) as Hn by (eapply Hn; done).
  clear s. induction n as [|n IH]; intros [|c s]; simpl; intros Hl; [set_solver|lia|set_solver|].
  assert (Quote ∉ tokens s) as H0 by (apply IH; lia).
  assert (∀ d e s', s = String d (String e s') → Quote ∉ tokens s') as H2.
  { intros d e s' ->. apply IH. simpl in Hl. lia. }
  repeat case_match; try (rewrite not_elem_of_cons; split; [done|]); eauto.
Qed.

Lemma concat_tokens s : concat_text token_bytes (tokens s) = s.
Proof.
  enough (∀ n s, (String.length s ≤ n)%nat → concat_text token_bytes (tokens s) = s) as Hn
    by (eapply Hn; done).
  clear s. induction n as [|n IH]; intros [|c s]; simpl; intros Hl; [done|lia|done|].
  assert (concat_text token_bytes (tokens s) = s) as H0 by (apply IH; lia).
  assert (∀ d e s', s = String d (String e s') → concat_text token_bytes (tokens s') = s') as H2.
  { intros d e s' ->. apply IH. simpl in Hl. lia. }
  unfold concat_text in *.
  repeat case_match; cbn [foldr token_bytes String.append]; rewrite ?H0; try done;
    by erewrite H2.
Qed.

Lemma json_string_tail_inj s t x y :
  json_string_tail s +:+ x = json_string_tail t +:+ y → s = t ∧ x = y.
Proof.
  unfold json_string_tail. intros [Ht ->]%concat_text_inj; [|apply tokens_no_quote..].
  split; [|done]. rewrite <-(concat_tokens s), <-(concat_tokens t). by rewrite Ht.
Qed.

Lemma json_string_inj s t x y :
  json_string s +:+ x = json_string t +:+ y → s = t ∧ x = y.
Proof. unfold json_string. cbn [String.append]. intros [= Heq]. by apply json_string_tail_inj. Qed.

Lemma json_string_cons s x : ∃ r, json_string s +:+ x = String "034" r.
Proof. unfold json_string. cbn [String.append]. eauto. Qed.

Lemma json_members_inj l1 l2 : json_members l1 = json_members l2 → l1 = l2.
Proof.
  assert (∀ k x, "}" ≠ json_string k +:+ x) as Hend.
  { intros k x Heq. by destruct (json_string_cons k x) as [r Hr]; rewrite Hr in Heq. }
  revert l2. induction l1 as [|[k v] l1 IH]; intros [|[k' v'] l2]; simpl; [done|..].
  - destruct l2; by intros ?%Hend.
  - destruct l1; intros Heq; symmetry in Heq; by apply Hend in Heq.
  - destruct l1 as [|p1 l1], l2 as [|p2 l2];
      intros [-> Hv]%json_string_inj; apply (append_inj_l ":") in Hv;
      apply json_string_inj in Hv as [-> Heq]; try done.
    apply (append_inj_l ",") in Heq. by rewrite (IH _ Heq).
Qed.

Lemma sorted_entries_inj {V} (m1 m2 : gmap string V) : sorted_entries m1 = sorted_entries m2 → m1 = m2.
Proof.
  unfold sorted_entries. intros Heq. apply map_to_list_inj.
  by rewrite <-(sort_by_perm (λ a b, String.leb a.1 b.1) (map_to_list m1)), Heq, sort_by_perm.
Qed.

(** The JSON form of a map of strings determines the map. *)
Lemma marshal_map_inj m1 m2 : marshal_map m1 = marshal_map m2 → m1 = m2.
Proof.
  unfold marshal_map. simpl. intros [= Heq]. by apply sorted_entries_inj, json_members_inj.
Qed.

Example json_string_example :
  json_string_tail "a<b\" = "a\u003cb\\" +:+ String "034" "".
Proof. reflexivity. Qed.
