(* ===== verification/GoTime.v ===== *)
(** * Go's machine integers and [time] package, as the code uses them

    A [time.Duration] is an int64 count of nanoseconds, with the wrap-around
    of int64 multiplication; a [time.Time] is an instant in nanoseconds since
    the Unix epoch (the seconds of a Go [Time] are an int64, so no sum the
    code forms leaves its range); [Time.Sub] saturates, as documented. *)
From S2P Require Export GoStrings.

Local Open Scope Z_scope.

(** ** int64 and uint64 *)
Definition int64_min : Z := - 2 ^ 63.
Definition int64_max : Z := 2 ^ 63 - 1.
Definition in_int64 (z : Z) : Prop := int64_min ≤ z ≤ int64_max.

Definition int64 (z : Z) : Z := (z + 2 ^ 63) mod 2 ^ 64 - 2 ^ 63.
Definition uint64 (z : Z) : Z := z mod 2 ^ 64.

Lemma int64_range z : in_int64 (int64 z).
Proof.
  unfold in_int64, int64, int64_min, int64_max.
  pose proof (Z.mod_pos_bound (z + 2 ^ 63) (2 ^ 64)). lia.
Qed.

Lemma int64_id z : in_int64 z → int64 z = z.
Proof.
  unfold in_int64, int64, int64_min, int64_max. intros H.
  rewrite Z.mod_small; lia.
Qed.

Lemma int64_period z k : int64 (z + k * 2 ^ 64) = int64 z.
Proof.
  unfold int64. replace (z + k * 2 ^ 64 + 2 ^ 63) with (z + 2 ^ 63 + k * 2 ^ 64) by lia.
  by rewrite Z.mod_add.
Qed.

Lemma uint64_id z : 0 ≤ z < 2 ^ 64 → uint64 z = z.
Proof. apply Z.mod_small. Qed.

(** [strconv.Atoi]: an optional sign and decimal digits within int64. *)
Definition Atoi (s : string) : option Z :=
  let unsigned s := if bool_decide (s = ""%string) then None else digits 0 s in
  n ← match s with
      | String "-" s => Z.opp <$> unsigned s
      | String "+" s => unsigned s
      | _ => unsigned s
      end;
  if bool_decide (in_int64 n) then Some n else None.

(** ** Durations *)
Definition Nanosecond : Z := 1.
Definition Millisecond : Z := 10 ^ 6.
Definition Second : Z := 10 ^ 9.
Definition Minute : Z := 60 * Second.
Definition Hour : Z := 60 * Minute.

(** [time.Duration(n) * time.Second]. *)
Definition seconds (n : Z) : Z := int64 (n * Second).

(** The seconds that a Duration can hold. *)
Definition max_seconds : Z := 9223372036.

Lemma seconds_id n : - max_seconds ≤ n ≤ max_seconds → seconds n = n * Second.
Proof.
  unfold seconds, max_seconds, Second. intros H. apply int64_id.
  unfold in_int64, int64_min, int64_max. lia.
Qed.

(** The product forgets everything above 55 bits: 10^9 is a multiple of 2^9. *)
Lemma seconds_period n k : seconds (n + k * 2 ^ 55) = seconds n.
Proof.
  unfold seconds, Second.
  replace ((n + k * 2 ^ 55) * 10 ^ 9) with (n * 10 ^ 9 + (k * 1953125) * 2 ^ 64) by lia.
  apply int64_period.
Qed.

(** [int64(d / time.Second)]: integer division truncates toward zero. *)
Definition to_seconds (d : Z) : Z := Z.quot d Second.

(** ** Instants *)
Definition Add (t d : Z) : Z := t + d.
Definition Sub (t u : Z) : Z := Z.max int64_min (Z.min int64_max (t - u)).
Definition After (t u : Z) : bool := u <? t.
Definition Before (t u : Z) : bool := t <? u.
Definition Unix (t : Z) : Z := t / Second.

(** The zero [time.Time]: January 1, year 1, 00:00 UTC. *)
Definition time_zero : Z := -62135596800 * Second.
Definition IsZero (t : Z) : bool := t =? time_zero.

(** Saturation only matters beyond any int64 bound. *)
Lemma Sub_le t u d : in_int64 d → d < int64_max → Sub t u ≤ d ↔ t - u ≤ d.
Proof. unfold Sub, in_int64, int64_min, int64_max. lia. Qed.

Lemma Sub_exact t u : in_int64 (t - u) → Sub t u = t - u.
Proof. unfold Sub, in_int64. lia. Qed.

Lemma Sub_in_int64 t u : in_int64 (Sub t u).
Proof. unfold Sub, in_int64, int64_min, int64_max. lia. Qed.

Lemma Unix_mono t u : t ≤ u → Unix t ≤ Unix u.
Proof. intros. unfold Unix, Second. apply Z.div_le_mono; lia. Qed.

Lemma Unix_add t k : Unix (t + k * Second) = Unix t + k.
Proof. unfold Unix, Second. rewrite Z.div_add; lia. Qed.

#[export] Hint Resolve int64_range Sub_in_int64 : gssh.

(** ** [time.ParseDuration]

    A sequence of decimal numbers with units. The fraction of a unit is cut to
    whole nanoseconds; Go computes it in floating point, which can differ in the
    last nanosecond for fractions of more than nine digits. *)
Definition is_digit (c : ascii) : bool :=
  (48 <=? nat_of_ascii c)%nat && (nat_of_ascii c <=? 57)%nat.
Fixpoint span_digits (s : string) : string * string :=
  match s with
  | String c s' => if is_digit c then let '(d, r) := span_digits s' in (String c d, r) else (""%string, s)
  | EmptyString => (""%string, ""%string)
  end.
Fixpoint span_unit (s : string) : string * string :=
  match s with
  | String c s' =>
      if is_digit c || bool_decide (c = "."%char) then (""%string, s)
      else let '(u, r) := span_unit s' in (String c u, r)
  | EmptyString => (""%string, ""%string)
  end.
Definition duration_unit (u : string) : option Z :=
  if bool_decide (u = "ns"%string) then Some Nanosecond
  else if bool_decide (u ∈ ["us"; String "194" (String "181" "s"); String "206" (String "188" "s")]%string)
  then Some (10 ^ 3)
  else if bool_decide (u = "ms"%string) then Some Millisecond
  else if bool_decide (u = "s"%string) then Some Second
  else if bool_decide (u = "m"%string) then Some Minute
  else if bool_decide (u = "h"%string) then Some Hour else None.
Definition two63 : Z := 2 ^ 63.
Fixpoint duration_sum (fuel : nat) (d : Z) (s : string) : option Z :=
  match s, fuel with
  | EmptyString, _ => Some d
  | _, O => None
  | _, S fuel =>
      let '(whole, s) := span_digits s in
      let '(fraction, s) := match s with
                            | String "." s => span_digits s
                            | _ => (""%string, s)
                            end in
      if bool_decide (whole = ""%string) && bool_decide (fraction = ""%string) then None
      else
        let '(u, s) := span_unit s in
        unit ← duration_unit u;
        v ← digits 0 whole;
        f ← digits 0 fraction;
        if (two63 <? v) || (two63 / unit <? v) then None
        else
          let v := v * unit + f * unit / 10 ^ Z.of_nat (String.length fraction) in
          if (two63 <? v) || (two63 <? d + v) then None else duration_sum fuel (d + v) s
  end.
Definition ParseDuration (s : string) : option Z :=
  let '(neg, s) := match s with
                   | String "-" s => (true, s)
                   | String "+" s => (false, s)
                   | _ => (false, s)
                   end in
  if bool_decide (s = "0"%string) then Some 0
  else if bool_decide (s = ""%string) then None
  else
    d ← duration_sum (String.length s) 0 s;
    if neg then Some (- d) else if two63 - 1 <? d then None else Some d.

Lemma digits_nonneg acc s n : 0 ≤ acc → digits acc s = Some n → 0 ≤ n.
Proof.
  revert acc. induction s as [|c s IH]; intros acc Hacc; simpl; [by intros [= <-]|].
  destruct (_ && _); [|done]. apply IH. lia.
Qed.
Lemma duration_unit_pos u n : duration_unit u = Some n → 0 < n.
Proof.
  unfold duration_unit. repeat case_bool_decide; intros [= <-];
    unfold Nanosecond, Millisecond, Hour, Minute, Second; lia.
Qed.
Lemma duration_sum_range fuel d s r : 0 ≤ d ≤ two63 → duration_sum fuel d s = Some r → 0 ≤ r ≤ two63.
Proof.
  revert d s. induction fuel as [|fuel IH]; intros d s Hd; destruct s as [|c s]; cbn [duration_sum];
    [by intros [= <-]|done|by intros [= <-]|].
  destruct (span_digits _) as [whole rest].
  destruct (match rest with String _ _ => _ | _ => _ end) as [fr rest'].
  destruct (_ && _); [done|]. destruct (span_unit rest') as [u rest''].
  destruct (duration_unit u) as [unit|] eqn:Hu; [|done]. simpl.
  destruct (digits 0 whole) as [v|] eqn:Hv; [|done]. destruct (digits 0 fr) as [f|] eqn:Hf; [|done]. simpl.
  apply duration_unit_pos in Hu. apply digits_nonneg in Hv, Hf; [|done..].
  destruct (_ || _); [done|]. set (w := v * unit + _).
  destruct ((two63 <? w) || (two63 <? d + w)) eqn:Hb; [done|].
  apply orb_false_iff in Hb as [_ Hb]. apply Z.ltb_ge in Hb.
  assert (0 ≤ f * unit / 10 ^ Z.of_nat (String.length fr)) by (apply Z.div_pos; lia).
  apply IH. unfold w in *. nia.
Qed.
(** A parsed duration fits into an int64. *)
Lemma ParseDuration_int64 s d : ParseDuration s = Some d → in_int64 d.
Proof.
  unfold ParseDuration. set (p := match s with EmptyString => _ | _ => _ end). destruct p as [neg rest].
  unfold in_int64, int64_min, int64_max, two63 in *.
  case_bool_decide; [intros [= <-]; lia|]. case_bool_decide; [done|].
  destruct (duration_sum _ 0 rest) as [r|] eqn:Hr; [|done]. simpl.
  apply duration_sum_range in Hr; [|unfold two63; lia]. unfold two63 in *.
  destruct neg; [intros [= <-]; lia|]. destruct (Z.ltb_spec (2 ^ 63 - 1) r); intros; simplify_eq; lia.
Qed.

Example ParseDuration_runs :
  ParseDuration "8h" = Some (8 * Hour) ∧ ParseDuration "1h30m" = Some (90 * Minute) ∧
  ParseDuration "1.5s" = Some (1500 * Millisecond) ∧ ParseDuration "-2m" = Some (- 2 * Minute) ∧
  ParseDuration "0" = Some 0 ∧ ParseDuration ".s" = None ∧ ParseDuration "5" = None ∧
  ParseDuration "3d" = None ∧ ParseDuration "" = None ∧ ParseDuration "2562047h47m16.854775807s" = Some (2 ^ 63 - 1) ∧
  ParseDuration "2562047h47m16.854775808s" = None ∧ ParseDuration "-2562047h47m16.854775808s" = Some (- 2 ^ 63).
Proof. vm_compute. repeat split. Qed.
