(* ===== verification/GoDecode.v ===== *)
(** * json.Unmarshal into struct fields

    The bytes-to-value part of [encoding/json] is taken as given: a JSON text
    is the [json] value it denotes ([JNum] for integer literals). What the
    program relies on is how a value fills the fields of a struct: the name
    match ignores case, of several members with a field's name the last one
    counts, null leaves a field as it is, and a value of another type is an
    error for the whole call. (A null inside a list of strings is read as the
    empty string.) *)
From stdpp Require Import pretty.
From S2P Require Export GoJson GoTime.

Local Open Scope string_scope.
Local Open Scope list_scope.

(** A decoder: the old value of the field and the JSON value; [None] is an
    [UnmarshalTypeError]. *)
Definition decoder (A : Type) : Type := A → json → option A.

Definition dec_string : decoder string := λ old v,
  match v with JNull => Some old | JStr s => Some s | _ => None end.
Definition dec_bool : decoder bool := λ old v,
  match v with JNull => Some old | JBool b => Some b | _ => None end.
(** A number outside the int64 range is an error. *)
Definition dec_int64 : decoder Z := λ old v,
  match v with
  | JNull => Some old
  | JNum n => if bool_decide (in_int64 n) then Some n else None
  | _ => None
  end.
Definition dec_strings : decoder (list string) := λ _ v,
  match v with JNull => Some [] | JArr l => mapM (dec_string "") l | _ => None end.
(** A pointer to a string: null is nil. *)
Definition dec_opt_string : decoder (option string) := λ _ v,
  match v with JNull => Some None | JStr s => Some (Some s) | _ => None end.
(** [map[string]string]: the entries are added to the old map. *)
Definition dec_string_map : decoder (gmap string string) := λ old v,
  match v with
  | JNull => Some ∅
  | JObj l => foldl (λ acc '(k, v),
      m ← acc; s ← dec_string "" v; Some (<[k := s]> m)) (Some old) l
  | _ => None
  end.

(** The field called [name] of the struct after decoding the members. *)
Definition dec_field {A} (dec : decoder A) (name : string) (zero : A)
    (members : list (string * json)) : option A :=
  foldl (λ acc '(k, v), if EqualFold k name then acc ≫= λ old, dec old v else acc)
    (Some zero) members.

(** The values of the members with a field's name. *)
Definition field_values (name : string) (members : list (string * json)) : list json :=
  omap (λ '(k, v), if EqualFold k name then Some v else None) members.
Lemma dec_field_values {A} (dec : decoder A) name zero members :
  dec_field dec name zero members =
  foldl (λ acc v, acc ≫= λ old, dec old v) (Some zero) (field_values name members).
Proof.
  unfold dec_field, field_values. generalize (Some zero) as acc.
  induction members as [|[k v] members IH]; intros acc; [done|]. simpl.
  destruct (EqualFold k name); simpl; apply IH.
Qed.

(** The members of the object a struct is decoded from; null is no member. *)
Definition struct_members (v : json) : option (list (string * json)) :=
  match v with JObj l => Some l | JNull => Some [] | _ => None end.

(** A JSON integer literal as text ([json.Number.String]). *)
Definition number_text (n : Z) : string := pretty n.

#[export] Instance in_int64_dec z : Decision (in_int64 z).
Proof. unfold in_int64. apply _. Defined.
