(* ===== verification/GoEncoding.v ===== *)
(** * Text forms of the standard library

    HKDF, JSON text, RFC 3339 time text and URL parsing are Go's standard
    library; the class states what the code relies on. *)
From S2P Require Export GoDecode.

Local Open Scope string_scope.
Local Open Scope list_scope.

Definition rfc3339_range (t : Z) : Prop :=
  (-62167219200 * Second ≤ t < 253402300800 * Second)%Z.
#[export] Instance rfc3339_range_dec t : Decision (rfc3339_range t).
Proof. unfold rfc3339_range. apply _. Defined.

Class Encodings := {
  hkdf_key : string → string → string;     (* hkdf.Key(sha256.New, secret, nil, info, 32) *)
  json_text : json → string;               (* json.Marshal of a value *)
  json_parse : string → option json;
  rfc3339 : Z → string;                    (* Time.MarshalJSON without the quotes *)
  parse_rfc3339 : string → option Z;
  time_Parse : string → option Z;          (* time.Parse(time.RFC3339, raw) *)
  url_Parse : string → option (string * string);   (* scheme and Hostname() *)
  json_parse_text j : json_parse (json_text j) = Some j;
  parse_rfc3339_text t : rfc3339_range t → parse_rfc3339 (rfc3339 t) = Some t;
  (** One line without space around it. *)
  json_text_line j : ¬ in_string "010" (json_text j) ∧ TrimSpace (json_text j) = json_text j ∧
                     json_text j ≠ "";
  (** An object that was cut off is not JSON. *)
  json_parse_cut l n :
    (n < String.length (json_text (JObj l)))%nat → json_parse (take_str n (json_text (JObj l))) = None
}.

(** ** Times in JSON *)
Section json.
Context `{Encodings}.

(** A time outside the years 0 to 9999 cannot be written. *)
Definition marshal_time (t : Z) : option json :=
  if bool_decide (rfc3339_range t) then Some (JStr (rfc3339 t)) else None.
Definition dec_time : decoder Z := λ old v,
  match v with JNull => Some old | JStr s => parse_rfc3339 s | _ => None end.
End json.

(** Evaluate the comparisons of literal field names. *)
Ltac field_names :=
  repeat match goal with
  | |- context [EqualFold ?a ?b] =>
      let r := eval vm_compute in (EqualFold a b) in
      change (EqualFold a b) with r; cbv iota
  end.

(** Decoding from an object whose member names are literals. *)
Ltac values_of name members :=
  lazymatch members with
  | [] => constr:(@nil json)
  | (?k, ?v) :: ?rest =>
      let vs := values_of name rest in
      let b := eval vm_compute in (EqualFold k name) in
      lazymatch b with true => constr:(v :: vs) | false => vs end
  end.
Ltac struct_fields :=
  repeat match goal with
  | |- context [dec_field ?d ?n ?z ?m] =>
      rewrite (dec_field_values d n z m);
      let vs := values_of n m in
      replace (field_values n m) with vs by (vm_compute; reflexivity)
  end; cbn [foldl mbind option_bind dec_string].

Lemma dec_strings_JStrs old l : dec_strings old (JStrs l) = Some l.
Proof. simpl. induction l as [|s l IH]; [done|]. cbn. by rewrite IH. Qed.

(** ** A toy encoding: values as numbers, numbers as strings of bits *)
Fixpoint bits_text (p : positive) : string :=
  match p with xH => "" | xO p => String "0" (bits_text p) | xI p => String "1" (bits_text p) end.
Fixpoint text_bits (s : string) : positive :=
  match s with
  | "" => xH
  | String c s => if decide (c = "0"%char) then xO (text_bits s) else xI (text_bits s)
  end.
Lemma text_bits_text p : text_bits (bits_text p) = p.
Proof. induction p; simpl; congruence. Qed.

Lemma bits_text_chars p c : in_string c (bits_text p) → c = "0"%char ∨ c = "1"%char.
Proof. induction p; simpl; naive_solver. Qed.

Fixpoint json_tree (j : json) : gen_tree (string + Z) :=
  match j with
  | JNull => GenNode 0 []
  | JBool b => GenNode (if b then 1 else 2) []
  | JNum n => GenLeaf (inr n)
  | JStr s => GenLeaf (inl s)
  | JArr l => GenNode 3 (List.map json_tree l)
  | JObj l => GenNode 4 (List.map (λ '(k, v), GenNode 5 [GenLeaf (inl k); json_tree v]) l)
  end.
Fixpoint tree_json (t : gen_tree (string + Z)) : json :=
  match t with
  | GenLeaf (inl s) => JStr s
  | GenLeaf (inr n) => JNum n
  | GenNode 0 _ => JNull
  | GenNode 1 _ => JBool true
  | GenNode 2 _ => JBool false
  | GenNode 3 l => JArr (List.map tree_json l)
  | GenNode _ l => JObj (List.map (λ x, match x with
      | GenNode _ [GenLeaf (inl k); v] => (k, tree_json v)
      | _ => ("", JNull)
      end) l)
  end.
Lemma tree_json_tree : ∀ j, tree_json (json_tree j) = j.
Proof.
  fix IH 1. intros [| [] | | | l | l]; simpl; [done..| |]; f_equal;
    rewrite List.map_map.
  - induction l as [|x l IHl]; simpl; [done|]. by rewrite IH, IHl.
  - induction l as [|[k v] l IHl]; simpl; [done|]. by rewrite IH, IHl.
Qed.

Definition toy_encode `{Countable A} (x : A) : string := bits_text (encode x).
Definition toy_decode `{Countable A} (s : string) : option A := decode (text_bits s).
Lemma toy_decode_encode `{Countable A} (x : A) : toy_decode (toy_encode x) = Some x.
Proof. unfold toy_decode, toy_encode. by rewrite text_bits_text, decode_encode. Qed.

Definition toy_json_text (j : json) : string :=
  String "j" (toy_encode (json_tree j) +:+ "j").
Definition toy_json_parse (s : string) : option json :=
  match s with
  | String "j" s => match Cut s "j" with Some (b, "") => tree_json <$> toy_decode b | _ => None end
  | _ => None
  end.
Lemma Cut_after b c : ¬ in_string c b → Cut (b +:+ String c "") (String c "") = Some (b, "").
Proof.
  intros Hb. destruct (Cut (b +:+ String c "") (String c "")) as [[x y]|] eqn:E;
    [|by destruct (Cut_None _ _ E b "")].
  pose proof (Cut_Some _ _ _ _ E) as Hs. simpl in Hs.
  assert (¬ in_string c x) as Hx.
  { intros Hx. apply in_string_ex in Hx as (p & q & ->).
    pose proof (Cut_leftmost _ _ _ _ p (q +:+ String c y) E) as Hl.
    rewrite append_length in Hl. simpl in Hl. rewrite Hs, append_assoc in Hl.
    specialize (Hl eq_refl). lia. }
  by destruct (sep_inj c b x "" y Hb Hx Hs) as [-> ->].
Qed.
Definition toy_url (s : string) : option (string * string) := Cut s "://".

Program Definition toy_encodings : Encodings := {|
  hkdf_key master info := take_str 4 master +:+ info;
  json_text := toy_json_text;
  json_parse := toy_json_parse;
  rfc3339 t := toy_encode t;
  parse_rfc3339 s := toy_decode s;
  time_Parse s := toy_decode s;
  url_Parse := toy_url
|}.
Next Obligation.
  intros j. unfold toy_json_text, toy_json_parse. rewrite Cut_after.
  - rewrite toy_decode_encode. simpl. by rewrite tree_json_tree.
  - intros Hj. by apply bits_text_chars in Hj as [?|?].
Qed.
Next Obligation. intros t _. apply toy_decode_encode. Qed.
Next Obligation.
  intros j. assert (∀ c, in_string c (toy_json_text j) → c = "j"%char ∨ c = "0"%char ∨ c = "1"%char)
    as Hc.
  { intros c. unfold toy_json_text. simpl. rewrite in_string_app. simpl.
    intros [?|[Hc|[?|[]]]]; [by left| |by left]. right. by eapply bits_text_chars. }
  split_and!; [|apply TrimSpace_id|done].
  - intros Hn. by destruct (Hc _ Hn) as [?|[?|?]].
  - intros c Hin. by destruct (Hc _ Hin) as [->|[->| ->]].
Qed.
Next Obligation.
  intros l [|n]; [done|]. unfold toy_json_text, toy_json_parse.
  pose proof (bits_text_chars (encode (json_tree (JObj l))) "j") as Hb.
  change (bits_text (encode (json_tree (JObj l)))) with (toy_encode (json_tree (JObj l))) in Hb.
  revert Hb. generalize (toy_encode (json_tree (JObj l))) as b. intros b Hb.
  cbn [String.length take_str]. rewrite append_length. simpl. intros Hn.
  rewrite take_str_le by lia. destruct (Cut _ _) as [[x y]|] eqn:E; [|done].
  apply Cut_Some in E. assert (in_string "j" b) as Hj.
  { apply (in_string_take _ n). rewrite E, !in_string_app. simpl. tauto. }
  by destruct (Hb Hj).
Qed.
