(* ===== verification/GoUrl.v ===== *)
(** * base64 and URL paths

    The parts of encoding/base64 (RawURLEncoding) and net/url that the web
    login relies on. [parse_local] is [url.Parse] for a reference that starts
    with a slash, as far as its result is read: the path, the query, and
    whether there is a host. *)
From Stdlib Require Import ZifyNat.
From S2P Require Export GoStrings.

Local Open Scope string_scope.
Local Open Scope list_scope.

(** ** base64, URL alphabet, no padding *)
Definition b64_alphabet : string :=
  "ABCDEFGHIJKLMNOPQRSTUVWXYZabcdefghijklmnopqrstuvwxyz0123456789-_".
Definition b64_char (n : nat) : ascii := default "A"%char (String.get n b64_alphabet).
Fixpoint index_of (c : ascii) (s : string) : option nat :=
  match s with
  | "" => None
  | String d s => if decide (c = d) then Some 0%nat else S <$> index_of c s
  end.
Definition b64_digit (c : ascii) : option nat := index_of c b64_alphabet.

Fixpoint EncodeToString (s : string) : string :=
  match s with
  | "" => ""
  | String a "" =>
      let a := nat_of_ascii a in
      String (b64_char (a / 4)) (String (b64_char (a mod 4 * 16)) "")
  | String a (String b "") =>
      let a := nat_of_ascii a in let b := nat_of_ascii b in
      String (b64_char (a / 4)) (String (b64_char (a mod 4 * 16 + b / 16))
        (String (b64_char (b mod 16 * 4)) ""))
  | String a (String b (String c s)) =>
      let a := nat_of_ascii a in let b := nat_of_ascii b in let c := nat_of_ascii c in
      String (b64_char (a / 4)) (String (b64_char (a mod 4 * 16 + b / 16))
        (String (b64_char (b mod 16 * 4 + c / 64)) (String (b64_char (c mod 64))
          (EncodeToString s))))
  end.

(** The bytes of a group of digits; the bits left over are ignored (the
    encoding is not strict), and a single digit is an error. *)
Fixpoint digits_bytes (l : list nat) : option string :=
  match l with
  | [] => Some ""
  | [_] => None
  | [p; q] => Some (String (ascii_of_nat (p * 4 + q / 16)) "")
  | [p; q; r] => Some (String (ascii_of_nat (p * 4 + q / 16))
                        (String (ascii_of_nat (q mod 16 * 16 + r / 4)) ""))
  | p :: q :: r :: s :: l =>
      rest ← digits_bytes l;
      Some (String (ascii_of_nat (p * 4 + q / 16))
             (String (ascii_of_nat (q mod 16 * 16 + r / 4))
               (String (ascii_of_nat (r mod 4 * 64 + s)) rest)))
  end.

(** Line breaks are skipped, any other foreign byte is an error. *)
Fixpoint b64_digits (s : string) : option (list nat) :=
  match s with
  | "" => Some []
  | String c s =>
      if bool_decide (c = "010"%char) || bool_decide (c = "013"%char) then b64_digits s
      else d ← b64_digit c; ds ← b64_digits s; Some (d :: ds)
  end.
Definition DecodeString (s : string) : option string := b64_digits s ≫= digits_bytes.

Lemma b64_digit_char n : (n < 64)%nat → b64_digit (b64_char n) = Some n.
Proof.
  intros Hn. assert (∀ k, k ∈ seq 0 64 → b64_digit (b64_char k) = Some k) as Hall.
  { apply list.Forall_forall. apply (bool_decide_unpack _). vm_compute. exact I. }
  apply Hall, elem_of_seq. lia.
Qed.
Lemma b64_char_visible n : b64_char n ≠ "010"%char ∧ b64_char n ≠ "013"%char.
Proof.
  unfold b64_char. destruct (decide (n < 64)%nat) as [Hn|Hn].
  - assert (∀ k, k ∈ seq 0 64 → b64_char k ≠ "010"%char ∧ b64_char k ≠ "013"%char) as Hall.
    { apply list.Forall_forall. apply (bool_decide_unpack _). vm_compute. exact I. }
    apply Hall, elem_of_seq. lia.
  - assert (String.get n b64_alphabet = None) as ->; [|done].
    assert (∀ s k, (String.length s ≤ k)%nat → String.get k s = None) as Hget.
    { clear. induction s as [|c s IH]; intros [|k] Hk; simpl in *; [done..|lia|]. apply IH. lia. }
    apply Hget. simpl. lia.
Qed.

Lemma b64_digits_char n s :
  (n < 64)%nat → b64_digits (String (b64_char n) s) = (cons n) <$> b64_digits s.
Proof.
  intros Hn. destruct (b64_char_visible n) as [H1 H2]. simpl.
  rewrite !bool_decide_false by done. simpl. rewrite b64_digit_char by done. simpl.
  by destruct (b64_digits s).
Qed.

(** Strings by groups of three bytes. *)
Lemma string_ind3 (P : string → Prop) :
  P "" → (∀ a, P (String a "")) → (∀ a b, P (String a (String b ""))) →
  (∀ a b c s, P s → P (String a (String b (String c s)))) → ∀ s, P s.
Proof.
  intros H0 H1 H2 H3.
  assert (∀ n s, (String.length s ≤ n)%nat → P s) as Hn.
  { induction n as [|n IH]; intros [|a [|b [|c s]]] Hl; simpl in *; try done; try lia.
    apply H3, IH. lia. }
  intros s. by apply (Hn (String.length s)).
Qed.

(** The arithmetic of regrouping 8-bit numbers into 6-bit ones and back. *)
Ltac div_lia := zify; Z.to_euclidean_division_equations; lia.
Lemma sextet_bounds a b c : (a < 256)%nat → (b < 256)%nat → (c < 256)%nat →
  (a / 4 < 64 ∧ a mod 4 * 16 < 64 ∧ a mod 4 * 16 + b / 16 < 64 ∧ b mod 16 * 4 < 64 ∧
   b mod 16 * 4 + c / 64 < 64 ∧ c mod 64 < 64)%nat.
Proof. intros. split_and!; div_lia. Qed.
Lemma octet_of_sextets a b c : (a < 256)%nat → (b < 256)%nat → (c < 256)%nat →
  (a / 4 * 4 + (a mod 4 * 16) / 16 = a ∧ a / 4 * 4 + (a mod 4 * 16 + b / 16) / 16 = a ∧
   (a mod 4 * 16 + b / 16) mod 16 * 16 + (b mod 16 * 4) / 4 = b ∧
   (a mod 4 * 16 + b / 16) mod 16 * 16 + (b mod 16 * 4 + c / 64) / 4 = b ∧
   (b mod 16 * 4 + c / 64) mod 4 * 64 + c mod 64 = c)%nat.
Proof. intros. split_and!; div_lia. Qed.

(** Decoding what was encoded gives the bytes back. *)
Lemma DecodeString_EncodeToString s : DecodeString (EncodeToString s) = Some s.
Proof.
  unfold DecodeString.
  induction s as [|a|a b|a b c s IH] using string_ind3; cbn [EncodeToString]; [done|..].
  - destruct (sextet_bounds (nat_of_ascii a) 0 0) as (H1 & H2 & _);
      [apply nat_ascii_bounded|lia..|].
    destruct (octet_of_sextets (nat_of_ascii a) 0 0) as (E1 & _);
      [apply nat_ascii_bounded|lia..|].
    rewrite !b64_digits_char by done. cbn -[Nat.div Nat.modulo Nat.mul Nat.add].
    by rewrite E1, ascii_nat_embedding.
  - destruct (sextet_bounds (nat_of_ascii a) (nat_of_ascii b) 0) as (H1 & _ & H2 & H3 & _);
      [apply nat_ascii_bounded..|lia|].
    destruct (octet_of_sextets (nat_of_ascii a) (nat_of_ascii b) 0) as (_ & E1 & E2 & _);
      [apply nat_ascii_bounded..|lia|].
    rewrite !b64_digits_char by done. cbn -[Nat.div Nat.modulo Nat.mul Nat.add].
    by rewrite E1, E2, !ascii_nat_embedding.
  - destruct (sextet_bounds (nat_of_ascii a) (nat_of_ascii b) (nat_of_ascii c))
      as (H1 & _ & H2 & _ & H3 & H4); [apply nat_ascii_bounded..|].
    destruct (octet_of_sextets (nat_of_ascii a) (nat_of_ascii b) (nat_of_ascii c))
      as (_ & E1 & _ & E2 & E3); [apply nat_ascii_bounded..|].
    rewrite !b64_digits_char by done.
    destruct (b64_digits (EncodeToString s)) as [ds|]; [|done].
    cbn -[Nat.div Nat.modulo Nat.mul Nat.add] in *. rewrite IH. cbn [mbind option_bind].
    by rewrite E1, E2, E3, !ascii_nat_embedding.
Qed.

(** ** Percent encoding *)
Definition between (lo hi : nat) (c : ascii) : bool :=
  (lo <=? nat_of_ascii c)%nat && (nat_of_ascii c <=? hi)%nat.
Definition is_alnum (c : ascii) : bool := between 97 122 c || between 65 90 c || between 48 57 c.
Definition one_of (set : string) (c : ascii) : bool := bool_decide (in_string c set).
Definition hex_value (c : ascii) : option nat :=
  if between 48 57 c then Some (nat_of_ascii c - 48)%nat
  else if between 97 102 c then Some (nat_of_ascii c - 87)%nat
  else if between 65 70 c then Some (nat_of_ascii c - 55)%nat
  else None.
Definition upper_hex (n : nat) : ascii := ascii_of_nat (if (n <? 10)%nat then n + 48 else n + 55).

(** [unescape] in the modes for paths, fragments and user information. *)
Fixpoint unescape (s : string) : option string :=
  match s with
  | "" => Some ""
  | String "%" (String a (String b s)) =>
      h ← hex_value a; l ← hex_value b; rest ← unescape s;
      Some (String (ascii_of_nat (h * 16 + l)) rest)
  | String "%" _ => None
  | String c s => rest ← unescape s; Some (String c rest)
  end.

(** [shouldEscape(c, encodePath)], [escape] and [validEncoded]. *)
Definition shouldEscape (c : ascii) : bool := negb (is_alnum c || one_of "-_.~$&+,/:;=@" c).
Definition escape_char (c : ascii) (s : string) : string :=
  if shouldEscape c
  then String "%" (String (upper_hex (nat_of_ascii c / 16))
                    (String (upper_hex (nat_of_ascii c mod 16)) s))
  else String c s.
Fixpoint escape (s : string) : string :=
  match s with "" => "" | String c s => escape_char c (escape s) end.
Fixpoint validEncoded (s : string) : bool :=
  match s with
  | "" => true
  | String c s => (one_of "!$&'()*+,;=:@[]%" c || negb (shouldEscape c)) && validEncoded s
  end.

(** ** References that start with a slash *)
Record LocalURL := {
  url_Path : string;                     (* unescaped *)
  url_RawPath : string;                  (* empty when it is the default encoding *)
  url_ForceQuery : bool; url_RawQuery : string
}.

Fixpoint has_ctl (s : string) : bool :=
  match s with
  | "" => false
  | String c s => between 0 31 c || (nat_of_ascii c =? 127)%nat || has_ctl s
  end.
Fixpoint valid_userinfo (s : string) : bool :=
  match s with
  | "" => true
  | String c s => (is_alnum c || one_of "-._:~!$&'()*+,;=%@" c) && valid_userinfo s
  end.
Definition unescapes (s : string) : bool := bool_decide (is_Some (unescape s)).
Definition userinfo_ok (s : string) : bool :=
  valid_userinfo s &&
  match Cut s ":" with None => unescapes s | Some (user, pass) => unescapes user && unescapes pass end.

(** [authority]: whether it parses with an empty host. *)
Definition no_host (authority : string) : bool :=
  match before_last authority "@" with
  | None => bool_decide (authority = "")
  | Some userinfo =>
      bool_decide (authority = userinfo +:+ "@") && userinfo_ok userinfo
  end.

Definition cut_or (s sep : string) : string * string :=
  match Cut s sep with Some p => p | None => (s, "") end.
(** The query: a single question mark at the end forces an empty one. *)
Definition cut_query (u : string) : string * bool * string :=
  match Cut u "?" with
  | None => (u, false, "")
  | Some (rest, query) => (rest, bool_decide (query = ""), query)
  end.
(** The authority and what follows it. *)
Definition cut_authority (rest : string) : option string * string :=
  if HasPrefix rest "//" && negb (HasPrefix rest "///")
  then let after := drop_str 2 rest in
       match Cut after "/" with
       | None => (Some after, "")
       | Some (authority, path) => (Some authority, "/" +:+ path)
       end
  else (None, rest).

(** [url.Parse(target)] when [target] starts with a slash: [None] when it
    fails or the URL has a host. *)
Definition parse_local (target : string) : option LocalURL :=
  let '(u, frag) := cut_or target "#" in
  if has_ctl u || negb (unescapes frag) then None else
  let '(rest, force, query) := cut_query u in
  let '(authority, path) := cut_authority rest in
  if negb (match authority with None => true | Some a => no_host a end) then None else
  decoded ← unescape path;
  Some {| url_Path := decoded;
          url_RawPath := if bool_decide (escape decoded = path) then "" else path;
          url_ForceQuery := force; url_RawQuery := query |}.

Definition EscapedPath (u : LocalURL) : string :=
  if negb (bool_decide (url_RawPath u = "")) && validEncoded (url_RawPath u)
  then url_RawPath u else escape (url_Path u).
Definition RequestURI (u : LocalURL) : string :=
  let path := if bool_decide (EscapedPath u = "") then "/" else EscapedPath u in
  if url_ForceQuery u || negb (bool_decide (url_RawQuery u = ""))
  then path +:+ "?" +:+ url_RawQuery u else path.

(** ** What escaping keeps *)
Lemma hex_alnum n : (n < 16)%nat → is_alnum (upper_hex n) = true.
Proof.
  intros Hn. assert (∀ k, k ∈ seq 0 16 → is_alnum (upper_hex k) = true) as Hall.
  { apply list.Forall_forall. apply (bool_decide_unpack _). vm_compute. exact I. }
  apply Hall, elem_of_seq. lia.
Qed.
Lemma escape_char_in c d s :
  in_string d (escape_char c s) → d = "%"%char ∨ is_alnum d = true ∨
    (d = c ∧ shouldEscape c = false) ∨ in_string d s.
Proof.
  unfold escape_char. pose proof (nat_ascii_bounded c).
  destruct (shouldEscape c) eqn:E; cbn [in_string].
  - intros [Hd|[Hd|[Hd|Hin]]]; auto; right; left; rewrite <-Hd || rewrite Hd;
      apply hex_alnum; div_lia.
  - intros [Hd|Hin]; auto.
Qed.

(** Escaping leaves only harmless bytes. *)
Lemma escape_in d s : in_string d (escape s) → d = "%"%char ∨ shouldEscape d = false.
Proof.
  induction s as [|c s IH]; simpl; [done|].
  intros [?|[Ha|[[-> ?]|?]]]%escape_char_in; auto. right. unfold shouldEscape. by rewrite Ha.
Qed.
Lemma escape_no_backslash s : ¬ in_string "\" (escape s).
Proof. intros [?|Hb]%escape_in; [done|]. by vm_compute in Hb. Qed.
Lemma escape_slash s : escape (String "/" s) = String "/" (escape s).
Proof. reflexivity. Qed.
(** The text starts with a slash only if the raw one did. *)
Lemma escape_head_slash s r : escape s = String "/" r → ∃ t, s = String "/" t.
Proof.
  destruct s as [|c s]; [done|]. simpl. unfold escape_char.
  destruct (shouldEscape c); intros [=]; subst; eauto.
Qed.

Lemma unescape_slash s d :
  unescape (String "/" s) = Some d → ∃ d', d = String "/" d' ∧ unescape s = Some d'.
Proof. simpl. destruct (unescape s) as [d'|]; [|done]. intros [= <-]. eauto. Qed.
Lemma unescape_plain s : ¬ in_string "%" s → unescape s = Some s.
Proof.
  induction s as [|c s IH]; intros Hn; [done|]. simpl in Hn.
  assert (unescape (String c s) = rest ← unescape s; Some (String c rest)) as ->.
  { destruct c as [[] [] [] [] [] [] [] []]; try done. by contradict Hn; left. }
  rewrite IH by tauto. done.
Qed.

Lemma EscapedPath_cases path decoded force query :
  let u := {| url_Path := decoded;
              url_RawPath := if bool_decide (escape decoded = path) then "" else path;
              url_ForceQuery := force; url_RawQuery := query |} in
  EscapedPath u = path ∨ EscapedPath u = escape decoded.
Proof.
  unfold EscapedPath. simpl. destruct (bool_decide (escape decoded = path)) eqn:He; simpl; [by right|].
  destruct (_ && _); auto.
Qed.

(** The pieces of a reference that starts with a slash are its pieces. *)
Lemma cut_or_part s sep a b : cut_or s sep = (a, b) → ∃ t, s = a +:+ t.
Proof.
  unfold cut_or. destruct (Cut s sep) as [[a' b']|] eqn:E; intros [= <- <-].
  - apply Cut_Some in E. eauto.
  - exists "". by rewrite append_nil_r.
Qed.
Lemma cut_query_part u rest force query :
  cut_query u = (rest, force, query) →
  (∃ t, u = rest +:+ t) ∧ ∀ c, in_string c query → in_string c u.
Proof.
  unfold cut_query. destruct (Cut u "?") as [[a b]|] eqn:E; intros [= <- <- <-].
  - apply Cut_Some in E as ->. split; [eauto|]. intros c Hc. rewrite !in_string_app. auto.
  - split; [exists ""; by rewrite append_nil_r|done].
Qed.
Lemma cut_authority_part rest authority path :
  cut_authority rest = (authority, path) →
  (authority = None ∧ path = rest ∧ (HasPrefix rest "//" = true → HasPrefix rest "///" = true)) ∨
  (HasPrefix rest "//" = true ∧ (path = "" ∨ ∃ a t, rest = "//" +:+ a +:+ "/" +:+ t ∧ path = "/" +:+ t)).
Proof.
  unfold cut_authority.
  destruct (HasPrefix rest "//") eqn:E1; simpl; [|intros [= <- <-]; by left].
  destruct (HasPrefix rest "///"); simpl; [intros [= <- <-]; by left|].
  right. split; [done|]. apply HasPrefix_spec in E1 as [r ->]. simpl in *.
  destruct (Cut r "/") as [[a t]|] eqn:Ec; simplify_eq; [|by left].
  right. apply Cut_Some in Ec as ->. eauto.
Qed.

(** ** Query parameters: [url.QueryEscape], and how a server reads them *)
Definition query_char (c : ascii) (s : string) : string :=
  if (c =? " ")%char then String "+" s
  else if is_alnum c || one_of "-_.~" c then String c s
  else String "%" (String (upper_hex (nat_of_ascii c / 16))
                    (String (upper_hex (nat_of_ascii c mod 16)) s)).
Fixpoint QueryEscape (s : string) : string :=
  match s with "" => "" | String c s => query_char c (QueryEscape s) end.
Fixpoint QueryUnescape (s : string) : option string :=
  match s with
  | "" => Some ""
  | String "%" (String a (String b s)) =>
      h ← hex_value a; l ← hex_value b; rest ← QueryUnescape s;
      Some (String (ascii_of_nat (h * 16 + l)) rest)
  | String "%" _ => None
  | String "+" s => rest ← QueryUnescape s; Some (String " " rest)
  | String c s => rest ← QueryUnescape s; Some (String c rest)
  end.

Lemma hex_value_upper n : (n < 16)%nat → hex_value (upper_hex n) = Some n.
Proof. intros Hn. do 16 (destruct n as [|n]; [reflexivity|]). lia. Qed.

Lemma QueryUnescape_char c s :
  QueryUnescape (query_char c s) = rest ← QueryUnescape s; Some (String c rest).
Proof.
  unfold query_char. destruct (Ascii.eqb_spec c " ") as [->|Hsp]; [done|].
  destruct (is_alnum c || one_of "-_.~" c) eqn:Hplain.
  - assert (c ≠ "%"%char ∧ c ≠ "+"%char) as [H1 H2] by (split; intros ->; discriminate Hplain).
    destruct c as [[] [] [] [] [] [] [] []]; try done; by destruct s.
  - assert (nat_of_ascii c < 256)%nat as Hc by apply nat_ascii_bounded.
    cbn [QueryUnescape]. rewrite !hex_value_upper
      by (apply Nat.mod_upper_bound || apply Nat.Div0.div_lt_upper_bound; lia).
    cbn [mbind option_bind]. rewrite (Nat.mul_comm _ 16), <-Nat.div_mod_eq.
    by rewrite ascii_nat_embedding.
Qed.
Lemma QueryUnescape_QueryEscape s : QueryUnescape (QueryEscape s) = Some s.
Proof. induction s as [|c s IH]; [done|]. cbn [QueryEscape]. by rewrite QueryUnescape_char, IH. Qed.
Lemma QueryEscape_chars c s : in_string c (QueryEscape s) →
  is_alnum c = true ∨ in_string c "-_.~+%".
Proof.
  induction s as [|d s IH]; [done|]. cbn [QueryEscape]. unfold query_char.
  destruct (Ascii.eqb_spec d " "); [|destruct (is_alnum d || one_of "-_.~" d) eqn:Hd].
  - intros [<-|Hc]; [right; simpl; tauto|auto].
  - intros [<-|Hc]; [|auto]. apply orb_true_iff in Hd as [?|Hd]; [by left|right].
    apply bool_decide_eq_true in Hd. simpl in *. tauto.
  - assert (nat_of_ascii d < 256)%nat as Hb by apply nat_ascii_bounded.
    intros [<-|[<-|[<-|Hc]]]; [right; simpl; tauto|left..|auto]; apply hex_alnum;
      [apply Nat.Div0.div_lt_upper_bound|apply Nat.mod_upper_bound]; lia.
Qed.
