(* ===== verification/GoNetip.v ===== *)
(** * IP addresses and prefixes (net/netip)

    Addresses as integers of their width, with the zone of an IPv6 address;
    parsing of addresses and prefixes, and [Contains], as the package has them. *)
From S2P Require Export GoTime.

Local Open Scope string_scope.
Local Open Scope list_scope.

Inductive Addr :=
| IPv4 (bits : Z)
| IPv6 (bits : Z) (zone : string).
#[export] Instance Addr_eq_dec : EqDecision Addr.
Proof. solve_decision. Defined.

Definition BitLen (a : Addr) : Z := match a with IPv4 _ => 32 | IPv6 _ _ => 128 end.
Definition addr_bits (a : Addr) : Z := match a with IPv4 z => z | IPv6 z _ => z end.
Definition hasZone (a : Addr) : bool :=
  match a with IPv4 _ => false | IPv6 _ z => negb (bool_decide (z = "")) end.
Definition WithoutZone (a : Addr) : Addr :=      (* WithZone with no zone *)
  match a with IPv4 _ => a | IPv6 z _ => IPv6 z "" end.
(** An IPv4 address mapped into IPv6 is ::ffff:a.b.c.d. *)
Definition mapped (z : Z) : bool := (Z.shiftr z 32 =? 65535)%Z.
Definition Unmap (a : Addr) : Addr :=
  match a with IPv6 z _ => if mapped z then IPv4 (Z.land z (Z.ones 32)) else a | _ => a end.
Definition valid_addr (a : Addr) : Prop := (0 ≤ addr_bits a < 2 ^ BitLen a)%Z.

(** [AddrFromSlice]: 4 or 16 bytes. *)
Definition big_endian (width : Z) (l : list Z) : Z :=
  foldl (λ acc b, (acc * 2 ^ width + b)%Z) 0%Z l.
Definition AddrFromSlice (bytes : list Z) : option Addr :=
  match length bytes with
  | 4%nat => Some (IPv4 (big_endian 8 bytes))
  | 16%nat => Some (IPv6 (big_endian 8 bytes) "")
  | _ => None
  end.

(** ** Parsing *)
Definition parse_octet (s : string) : option Z :=
  if bool_decide (s = "") then None
  else
    n ← digits 0 s;
    if (255 <? n)%Z || (HasPrefix s "0" && negb (bool_decide (s = "0"))) then None else Some n.
Definition parseIPv4 (s : string) : option Z :=
  match Split s "." with
  | [a; b; c; d] =>
      a ← parse_octet a; b ← parse_octet b; c ← parse_octet c; d ← parse_octet d;
      Some (big_endian 8 [a; b; c; d])
  | _ => None
  end.

Definition hex_digit (c : ascii) : option Z :=
  let n := Z.of_nat (nat_of_ascii c) in
  if (48 <=? n)%Z && (n <=? 57)%Z then Some (n - 48)%Z
  else if (97 <=? n)%Z && (n <=? 102)%Z then Some (n - 87)%Z
  else if (65 <=? n)%Z && (n <=? 70)%Z then Some (n - 55)%Z else None.
(** The leading hexadecimal digits: their number, their value, the rest. *)
Fixpoint hex_run (count : nat) (acc : Z) (s : string) : nat * Z * string :=
  match s with
  | String c s' =>
      match hex_digit c with
      | Some d => hex_run (S count) (acc * 16 + d)%Z s'
      | None => (count, acc, s)
      end
  | "" => (count, acc, s)
  end.

(** The loop over the 16-bit groups: the groups read so far and, if there was
    one, the place of the ellipsis. *)
Fixpoint groups_loop (fuel : nat) (groups : list Z) (ellipsis : option nat) (s : string)
    : option (list Z * option nat) :=
  match fuel with
  | O => if bool_decide (s = "") then Some (groups, ellipsis) else None
  | S fuel =>
      let '(count, acc, rest) := hex_run 0 0 s in
      if bool_decide (count = 0%nat) || bool_decide (4 < count)%nat then None
      else
        match rest with
        | String "." _ =>
            if (bool_decide (ellipsis = None) && negb (bool_decide (length groups = 6%nat))) ||
               bool_decide (6 < length groups)%nat
            then None
            else
              v4 ← parseIPv4 s;
              Some (groups ++ [Z.shiftr v4 16; Z.land v4 (Z.ones 16)], ellipsis)
        | "" => Some (groups ++ [acc], ellipsis)
        | String ":" "" => None
        | String ":" (String ":" s) =>
            match ellipsis with
            | Some _ => None
            | None =>
                let at_ := Some (S (length groups)) in
                if bool_decide (s = "") then Some (groups ++ [acc], at_)
                else groups_loop fuel (groups ++ [acc]) at_ s
            end
        | String ":" s => groups_loop fuel (groups ++ [acc]) ellipsis s
        | _ => None
        end
  end.
Definition expand (groups : list Z) (ellipsis : option nat) : option (list Z) :=
  match ellipsis with
  | None => if bool_decide (length groups = 8%nat) then Some groups else None
  | Some at_ =>
      if bool_decide (length groups < 8)%nat
      then Some (take at_ groups ++ replicate (8 - length groups) 0%Z ++ drop at_ groups)
      else None
  end.
Definition parseIPv6 (s : string) : option Addr :=
  '(s, zone) ← match Cut s "%" with
               | Some (_, "") => None
               | Some (s, zone) => Some (s, zone)
               | None => Some (s, "")
               end;
  '(groups, ellipsis) ← match s with
                        | String ":" (String ":" "") => Some ([], Some 0%nat)
                        | String ":" (String ":" s) => groups_loop 8 [] (Some 0%nat) s
                        | _ => groups_loop 8 [] None s
                        end;
  groups ← expand groups ellipsis;
  Some (IPv6 (big_endian 16 groups) zone).

(** The first of the characters [.], [:] and [%] decides. *)
Fixpoint addr_kind (s : string) : option ascii :=
  match s with
  | "" => None
  | String c s =>
      if bool_decide (c = "."%char) || bool_decide (c = ":"%char) || bool_decide (c = "%"%char)
      then Some c else addr_kind s
  end.
Definition ParseAddr (s : string) : option Addr :=
  match addr_kind s with
  | Some "."%char => IPv4 <$> parseIPv4 s
  | Some ":"%char => parseIPv6 s
  | _ => None
  end.

(** ** Prefixes *)
Record Prefix := { prefix_Addr : Addr; prefix_Bits : Z }.
#[export] Instance Prefix_eq_dec : EqDecision Prefix.
Proof. solve_decision. Defined.

Definition PrefixFrom (a : Addr) (bits : Z) : Prefix :=
  {| prefix_Addr := WithoutZone a; prefix_Bits := bits |}.
Definition ParsePrefix (s : string) : option Prefix :=
  pre ← before_last s "/";
  let bits := drop_str (S (String.length pre)) s in
  a ← ParseAddr pre;
  if hasZone a then None
  else
    if bool_decide (1 < String.length bits)%nat &&
       negb (match bits with String c _ => match digits 0 (String c "") with Some d => (0 <? d)%Z | None => false end
                           | "" => false end)
    then None
    else
      n ← Atoi bits;
      if (n <? 0)%Z || (BitLen a <? n)%Z then None else Some (PrefixFrom a n).

(** The host bits cleared. *)
Definition clear_low (width : Z) (z : Z) : Z := Z.shiftl (Z.shiftr z width) width.
Definition Masked (p : Prefix) : Prefix :=
  let a := prefix_Addr p in
  let low := (BitLen a - prefix_Bits p)%Z in
  {| prefix_Addr := match a with IPv4 z => IPv4 (clear_low low z) | IPv6 z zone => IPv6 (clear_low low z) zone end;
     prefix_Bits := prefix_Bits p |}.
(** Same width, no zone, and no difference above the host bits. *)
Definition Prefix_Contains (p : Prefix) (a : Addr) : bool :=
  negb (hasZone a) && (BitLen (prefix_Addr p) =? BitLen a)%Z &&
  (Z.shiftr (Z.lxor (addr_bits a) (addr_bits (prefix_Addr p))) (BitLen a - prefix_Bits p) =? 0)%Z.

(** ** Lemmas *)
Lemma Prefix_Contains_spec p a :
  (prefix_Bits p ≤ BitLen a)%Z →
  Prefix_Contains p a = true ↔
  hasZone a = false ∧ BitLen (prefix_Addr p) = BitLen a ∧
  (addr_bits a / 2 ^ (BitLen a - prefix_Bits p) =
   addr_bits (prefix_Addr p) / 2 ^ (BitLen a - prefix_Bits p))%Z.
Proof.
  intros Hb. unfold Prefix_Contains. rewrite !andb_true_iff, negb_true_iff, !Z.eqb_eq.
  rewrite Z.shiftr_lxor, Z.lxor_eq_0_iff, !Z.shiftr_div_pow2 by lia. tauto.
Qed.
(** Clearing the host bits changes nothing about what a prefix contains. *)
Lemma Masked_contains p a :
  (0 ≤ prefix_Bits p ≤ BitLen (prefix_Addr p))%Z →
  Prefix_Contains (Masked p) a = Prefix_Contains p a.
Proof.
  intros Hb. unfold Prefix_Contains, Masked. destruct p as [b bits]. simpl in *.
  assert (∀ width z x, (0 ≤ width)%Z →
    Z.shiftr (Z.lxor x (clear_low width z)) width = Z.shiftr (Z.lxor x z) width) as Hclear.
  { intros width z x Hw. unfold clear_low. rewrite !Z.shiftr_lxor. f_equal.
    rewrite Z.shiftr_shiftl_l by done. by rewrite Z.sub_diag, Z.shiftl_0_r. }
  destruct b as [z|z zone], a as [y|y zone']; simpl in *; rewrite ?andb_false_r; try done;
    by rewrite Hclear by lia.
Qed.

(** Concrete runs. *)
Example ParseAddr_runs :
  ParseAddr "10.1.2.3" = Some (IPv4 167838211) ∧ ParseAddr "10.01.2.3" = None ∧
  ParseAddr "10.1.2" = None ∧ ParseAddr "256.1.2.3" = None ∧ ParseAddr "::" = Some (IPv6 0 "") ∧
  ParseAddr "::1%eth0" = Some (IPv6 1 "eth0") ∧ ParseAddr "fe80::1:2" = Some (IPv6 (65152 * 2 ^ 112 + 65538) "") ∧
  ParseAddr "1:2:3:4:5:6:7:8:9" = None ∧ ParseAddr "1:2:3:4:5:6:7::8" = None ∧ ParseAddr ":1" = None ∧
  ParseAddr "::ffff:10.1.2.3" = Some (IPv6 (65535 * 2 ^ 32 + 167838211) "") ∧
  (Unmap <$> ParseAddr "::ffff:10.1.2.3") = Some (IPv4 167838211) ∧ ParseAddr "1::2::3" = None.
Proof. vm_compute. repeat split. Qed.
Example ParsePrefix_runs :
  (Masked <$> ParsePrefix "10.1.2.3/8") = Some {| prefix_Addr := IPv4 167772160; prefix_Bits := 8 |} ∧
  ParsePrefix "10.1.2.3/33" = None ∧ ParsePrefix "10.1.2.3/08" = None ∧ ParsePrefix "10.1.2.3/" = None ∧
  ParsePrefix "fe80::1%eth0/64" = None ∧ ParsePrefix "10.0.0.0/+8" = None.
Proof. vm_compute. repeat split. Qed.
