(* ===== verification/GoBase64.v ===== *)
(** * Standard base64 and lower-case hexadecimal text (encoding/base64, encoding/hex)

    [base64.StdEncoding] with padding, which skips line breaks when decoding,
    and [hex.EncodeToString]. Strings are sequences of bytes. *)
From S2P Require Export GoTime.

Local Open Scope string_scope.
Local Open Scope Z_scope.

Definition byte (c : ascii) : Z := Z.of_nat (nat_of_ascii c).
Definition byte_char (n : Z) : ascii := ascii_of_nat (Z.to_nat n).
Lemma byte_range c : 0 ≤ byte c < 256.
Proof. unfold byte. pose proof (nat_ascii_bounded c). lia. Qed.
Lemma byte_char_byte c : byte_char (byte c) = c.
Proof. unfold byte_char, byte. by rewrite Nat2Z.id, ascii_nat_embedding. Qed.

Definition base64_alphabet : string :=
  "ABCDEFGHIJKLMNOPQRSTUVWXYZabcdefghijklmnopqrstuvwxyz0123456789+/".
Definition base64_char (n : Z) : ascii := default "="%char (String.get (Z.to_nat n) base64_alphabet).
Fixpoint index_of (c : ascii) (s : string) (n : Z) : option Z :=
  match s with
  | "" => None
  | String d s => if decide (c = d) then Some n else index_of c s (n + 1)
  end.
Definition base64_value (c : ascii) : option Z := index_of c base64_alphabet 0.

Fixpoint base64_Encode (s : string) : string :=
  match s with
  | "" => ""
  | String a "" =>
      let n := byte a * 16 in
      String (base64_char (n / 64)) (String (base64_char (n mod 64)) "==")
  | String a (String b "") =>
      let n := (byte a * 256 + byte b) * 4 in
      String (base64_char (n / 4096)) (String (base64_char (n / 64 mod 64))
        (String (base64_char (n mod 64)) "="))
  | String a (String b (String c s)) =>
      let n := byte a * 65536 + byte b * 256 + byte c in
      String (base64_char (n / 262144)) (String (base64_char (n / 4096 mod 64))
        (String (base64_char (n / 64 mod 64)) (String (base64_char (n mod 64)) (base64_Encode s))))
  end.

Fixpoint strip_newlines (s : string) : string :=
  match s with
  | "" => ""
  | String c s =>
      if bool_decide (c = "010"%char) || bool_decide (c = "013"%char) then strip_newlines s
      else String c (strip_newlines s)
  end.
Fixpoint base64_quanta (s : string) : option string :=
  match s with
  | "" => Some ""
  | String a (String b (String c (String d s))) =>
      va ← base64_value a; vb ← base64_value b;
      if bool_decide (c = "="%char) then
        if bool_decide (d = "="%char) && bool_decide (s = "")
        then Some (String (byte_char ((va * 64 + vb) / 16)) "") else None
      else
        vc ← base64_value c;
        if bool_decide (d = "="%char) then
          if bool_decide (s = "") then
            let n := (va * 4096 + vb * 64 + vc) / 4 in
            Some (String (byte_char (n / 256)) (String (byte_char (n mod 256)) ""))
          else None
        else
          vd ← base64_value d;
          let n := va * 262144 + vb * 4096 + vc * 64 + vd in
          rest ← base64_quanta s;
          Some (String (byte_char (n / 65536)) (String (byte_char (n / 256 mod 256))
            (String (byte_char (n mod 256)) rest)))
  | _ => None
  end.
Definition base64_DecodeString (s : string) : option string := base64_quanta (strip_newlines s).

Definition hex_char (n : Z) : ascii := default "0"%char (String.get (Z.to_nat n) "0123456789abcdef").
Fixpoint hex_EncodeToString (s : string) : string :=
  match s with
  | "" => ""
  | String c s => String (hex_char (byte c / 16)) (String (hex_char (byte c mod 16)) (hex_EncodeToString s))
  end.

(** ** Lemmas *)
Definition sextets : list Z := Z.of_nat <$> seq 0 64.
Lemma sextet_in n : 0 ≤ n < 64 → n ∈ sextets.
Proof.
  intros Hn. apply list_elem_of_fmap. exists (Z.to_nat n). split; [lia|].
  apply elem_of_seq. lia.
Qed.
Lemma base64_char_value n : 0 ≤ n < 64 →
  base64_value (base64_char n) = Some n ∧ base64_char n ≠ "="%char ∧
  base64_char n ≠ "010"%char ∧ base64_char n ≠ "013"%char.
Proof.
  intros Hn%sextet_in.
  assert (forallb (λ n, bool_decide (base64_value (base64_char n) = Some n ∧ base64_char n ≠ "="%char ∧
    base64_char n ≠ "010"%char ∧ base64_char n ≠ "013"%char)) sextets = true) as Hall
    by (vm_compute; reflexivity).
  rewrite forallb_elem in Hall. specialize (Hall n Hn). by apply bool_decide_eq_true in Hall.
Qed.

Lemma strip_base64 n s : 0 ≤ n < 64 →
  strip_newlines (String (base64_char n) s) = String (base64_char n) (strip_newlines s).
Proof.
  intros (_ & _ & H1 & H2)%base64_char_value. simpl. by rewrite !bool_decide_eq_false_2.
Qed.

Lemma three_ind (P : string → Prop) :
  P "" → (∀ a, P (String a "")) → (∀ a b, P (String a (String b ""))) →
  (∀ a b c s, P s → P (String a (String b (String c s)))) → ∀ s, P s.
Proof.
  intros H0 H1 H2 H3. fix IH 1. intros [|a [|b [|c s]]]; [done..|]. apply H3, IH.
Qed.

Lemma base64_value_char n : 0 ≤ n < 64 → base64_value (base64_char n) = Some n.
Proof. by intros (? & _)%base64_char_value. Qed.
Lemma base64_not_pad n : 0 ≤ n < 64 → bool_decide (base64_char n = "="%char) = false.
Proof. intros (_ & ? & _)%base64_char_value. by apply bool_decide_eq_false_2. Qed.
Lemma byte_char_eq c n : byte c = n → byte_char n = c.
Proof. intros <-. apply byte_char_byte. Qed.

Ltac div_lia := Z.to_euclidean_division_equations; lia.
#[local] Arguments base64_char : simpl never.
#[local] Arguments base64_value : simpl never.

(** Decoding gives back what was encoded. *)
Lemma base64_round_trip s : base64_DecodeString (base64_Encode s) = Some s.
Proof.
  unfold base64_DecodeString. induction s as [|a|a b|a b c s IH] using three_ind; [done|..];
    cbn [base64_Encode]; pose proof (byte_range a); [|pose proof (byte_range b)|
      pose proof (byte_range b); pose proof (byte_range c)];
    rewrite !strip_base64 by div_lia; cbn [base64_quanta];
    [change (strip_newlines "==") with "=="|change (strip_newlines "=") with "="|];
    cbn [base64_quanta]; rewrite !base64_value_char by div_lia; cbn [mbind option_bind];
    rewrite ?base64_not_pad by div_lia.
  - cbn. rewrite (byte_char_eq a) by div_lia. done.
  - rewrite (bool_decide_eq_true_2 ("="%char = "="%char)) by done. 
    rewrite (bool_decide_eq_true_2 ("" = "")) by done.
    rewrite (byte_char_eq a), (byte_char_eq b) by div_lia. done.
  - rewrite IH. cbn [mbind option_bind].
    rewrite (byte_char_eq a), (byte_char_eq b), (byte_char_eq c) by div_lia. done.
Qed.
Example base64_runs :
  base64_Encode "sure." = "c3VyZS4=" ∧ base64_DecodeString "c3Vy
ZS4=" = Some "sure." ∧ base64_DecodeString "c3VyZS4" = None ∧ base64_DecodeString "c3VyZS4=x" = None ∧
  base64_DecodeString "" = Some "" ∧ hex_EncodeToString "ok" = "6f6b".
Proof. vm_compute. repeat split. Qed.
