(* ===== verification/Crypto.v ===== *)
(** * Cryptography and key formats

    Key generation, signing, AES-GCM, PEM and the OpenSSH formats belong to
    Go's crypto packages and to golang.org/x/crypto: the development takes
    them as the operations of a class, with the documented laws the code
    relies on. A toy instance shows that the laws are satisfiable and lets
    the examples compute. *)
From S2P Require Export GoStrings GoTime.

Local Open Scope string_scope.

(** An [ssh.PublicKey]: its wire type, its encoding, and whether the parsed
    key is a [*ssh.Certificate]. *)
Record PublicKey := {
  key_type : string;
  key_blob : string;
  key_is_cert : bool
}.

#[export] Instance PublicKey_eq_dec : EqDecision PublicKey.
Proof. solve_decision. Defined.

(** Certificate types of the OpenSSH format. *)
Definition UserCert : Z := 1.
Definition HostCert : Z := 2.

(** [ssh.Certificate]; the signature fields are filled in by [SignCert]. *)
Record SSHCertificate := {
  cert_Key : PublicKey;
  cert_Serial : Z;
  cert_CertType : Z;
  cert_KeyId : string;
  cert_ValidPrincipals : list string;
  cert_ValidAfter : Z;
  cert_ValidBefore : Z;
  cert_CriticalOptions : gmap string string;
  cert_Extensions : gmap string string;
  cert_SignatureKey : option PublicKey;
  cert_Signature : string
}.

(** A signer is its private key. *)
Class Crypto := {
  (** [ed25519.GenerateKey]: the n-th key pair (public, private). *)
  generate_key : N → string * string;
  (** AES-256-GCM [Seal] and [Open] under a key and a nonce. *)
  gcm_seal : string → string → string → string;
  gcm_open : string → string → string → option string;
  gcm_nonce : N → string;
  gcm_nonce_size : nat;
  (** [ssh.ParsePrivateKey]; the result is the signer's public key. *)
  private_key : Type;
  parse_private : string → option private_key;
  public_of : private_key → PublicKey;
  (** [Certificate.SignCert]: the certificate with its signature, or an error. *)
  sign_bytes : private_key → SSHCertificate → option string;
  (** [ssh.MarshalAuthorizedKey] without the final newline, [ssh.ParseAuthorizedKey]. *)
  marshal_key : PublicKey → string;
  parse_authorized_key : string → option PublicKey;
  sha256 : string → string;

  gcm_nonce_length n : String.length (gcm_nonce n) = gcm_nonce_size;
  gcm_nonce_size_pos : (0 < gcm_nonce_size)%nat;
  gcm_open_seal k nonce p : gcm_open k nonce (gcm_seal k nonce p) = Some p;
  parse_generated n : is_Some (parse_private (generate_key n).2);
  generated_public n p :
    parse_private (generate_key n).2 = Some p →
    marshal_key (public_of p) = (generate_key n).1;
  generate_key_inj n m : (generate_key n).1 = (generate_key m).1 → n = m
}.

(** [cert.SignCert(rand.Reader, signer)]: sets the signature key and the
    signature. *)
Definition SignCert `{Crypto} (k : private_key) (c : SSHCertificate) : result SSHCertificate :=
  let with_key sig := {|
    cert_Key := cert_Key c; cert_Serial := cert_Serial c;
    cert_CertType := cert_CertType c; cert_KeyId := cert_KeyId c;
    cert_ValidPrincipals := cert_ValidPrincipals c;
    cert_ValidAfter := cert_ValidAfter c; cert_ValidBefore := cert_ValidBefore c;
    cert_CriticalOptions := cert_CriticalOptions c; cert_Extensions := cert_Extensions c;
    cert_SignatureKey := Some (public_of k); cert_Signature := sig |} in
  match sign_bytes k (with_key "") with
  | Some sig => Ok (with_key sig)
  | None => Err (ErrOther "sign")
  end.

Lemma SignCert_Ok `{Crypto} k c c' :
  SignCert k c = Ok c' →
  cert_Key c' = cert_Key c ∧ cert_Serial c' = cert_Serial c ∧
  cert_CertType c' = cert_CertType c ∧ cert_KeyId c' = cert_KeyId c ∧
  cert_ValidPrincipals c' = cert_ValidPrincipals c ∧
  cert_ValidAfter c' = cert_ValidAfter c ∧ cert_ValidBefore c' = cert_ValidBefore c ∧
  cert_CriticalOptions c' = cert_CriticalOptions c ∧
  cert_Extensions c' = cert_Extensions c ∧
  cert_SignatureKey c' = Some (public_of k).
Proof. unfold SignCert. destruct (sign_bytes k _); intros; by simplify_eq. Qed.

(** ** X.509, PKCS#8, PEM and UUID text

    [x509.Certificate] with the fields the code sets and reads; the private
    keys are Ed25519. *)
Record X509Cert := {
  x509_Serial : N; x509_CommonName : string; x509_NotBefore : Z; x509_NotAfter : Z;
  x509_IsCA : bool; x509_CertSign : bool; x509_ClientAuth : bool; x509_ServerAuth : bool;
  x509_IPAddresses : list string; x509_DNSNames : list string; x509_PublicKey : string
}.

(** A certificate as it is read back: times in whole seconds, the subject's
    public key filled in. *)
Definition x509_issued (t : X509Cert) (pub : string) : X509Cert := {|
  x509_Serial := x509_Serial t; x509_CommonName := x509_CommonName t;
  x509_NotBefore := (Unix (x509_NotBefore t) * Second)%Z;
  x509_NotAfter := (Unix (x509_NotAfter t) * Second)%Z;
  x509_IsCA := x509_IsCA t; x509_CertSign := x509_CertSign t;
  x509_ClientAuth := x509_ClientAuth t; x509_ServerAuth := x509_ServerAuth t;
  x509_IPAddresses := x509_IPAddresses t; x509_DNSNames := x509_DNSNames t;
  x509_PublicKey := pub |}.

Class X509 := {
  (** [ed25519.GenerateKey]: the n-th pair (public, private); [priv.Public()]. *)
  ed25519_key : N → string * string;
  ed25519_public : string → string;
  (** PEM of PKCS#8; the parser accepts Ed25519 keys only. *)
  encode_pkcs8 : string → string;
  parse_pkcs8 : string → option string;
  (** [x509.CreateCertificate] (template, parent, public key, signing key) as PEM;
      [pem.Decode] and [x509.ParseCertificate]; the PEM of the parsed block. *)
  x509_CreateCertificate : X509Cert → X509Cert → string → string → option string;
  parse_certificate : string → option X509Cert;
  certificate_pem : string → string;
  (** A PEM certificate request: its public key, if the signature is valid. *)
  parse_csr : string → option string;
  big_serial : N → N;                   (* the n-th random 128-bit serial *)
  is_IP : string → bool;                (* net.ParseIP *)
  uuid_String : N → string;
  uuid_Parse : string → option N;

  ed25519_public_key n : ed25519_public (ed25519_key n).2 = (ed25519_key n).1;
  parse_encode_pkcs8 k : parse_pkcs8 (encode_pkcs8 k) = Some k;
  parse_created t parent pub k pem :
    x509_CreateCertificate t parent pub k = Some pem → parse_certificate pem = Some (x509_issued t pub);
  uuid_Parse_String id : uuid_Parse (uuid_String id) = Some id
}.

(** ** A toy instance: identity encryption, keys numbered in unary *)
Fixpoint unary (n : nat) : string :=
  match n with O => "" | S n => String "k" (unary n) end.

Lemma unary_length n : String.length (unary n) = n.
Proof. induction n; simpl; congruence. Qed.

Definition toy_public (s : string) : PublicKey :=
  {| key_type := "ssh-toy"; key_blob := s; key_is_cert := false |}.

Program Definition toy_crypto : Crypto := {|
  generate_key n := (unary (S (N.to_nat n)), unary (S (N.to_nat n)));
  gcm_seal _ _ p := p;
  gcm_open _ _ c := Some c;
  gcm_nonce _ := "n";
  gcm_nonce_size := 1;
  private_key := string;
  parse_private s := Some s;
  public_of s := toy_public s;
  sign_bytes k c := Some (k +:+ cert_KeyId c);
  marshal_key := key_blob;
  parse_authorized_key s := if decide (s = "") then None else Some (toy_public s);
  sha256 s := s
|}.
Solve Obligations with (intros; simpl in *; simplify_eq; eauto with lia).
Next Obligation.
  intros n m H. simpl in H. apply (f_equal String.length) in H. simpl in H.
  rewrite !unary_length in H. lia.
Qed.
