(* ===== verification/Pins.v ===== *)
(** * Pinned TLS and the pin of the server (internal/pintls/pintls.go,
      internal/api/pinprovider.go)

    The SPKI pin of a certificate, its check on the client, and how the server
    determines the pin it hands to hosts. A certificate is its
    SubjectPublicKeyInfo; a TLS handshake is an input of the model. *)
From S2P Require Export GoBase64 GoEncoding Crypto.

Local Open Scope string_scope.
Local Open Scope list_scope.

(** ** Pins (pintls.go) *)
Definition sha256_Size : nat := 32.
Definition DecodePin (encoded : string) : result string :=
  match base64_DecodeString encoded with
  | None => Err (ErrOther "pin is not valid base64")
  | Some pin =>
      if negb (String.length pin =? sha256_Size)%nat then Err (ErrOther "pin must be 32 bytes long (sha-256)")
      else Ok pin
  end.

Section pins.
Context `{Crypto}.
Definition FromCertificate (spki : string) : string := base64_Encode (sha256 spki).
(** [VerifyConnection] of [Transport]: whether the peer's certificates pass. *)
Definition Verifier_ (pin : string) (peer : list string) : bool :=
  existsb (λ spki, bool_decide (sha256 spki = pin)) peer.
End pins.

(** ** The provider (pinprovider.go) *)
Definition PinSourceStatic := "static".
Definition PinSourceFile := "file".
Definition PinSourceDial := "dial".
Definition DefaultPinRefresh : Z := (5 * Minute)%Z.
Definition pinDialBackoff : Z := (10 * Second)%Z.
Definition PinErrNoPublicURL := "no_public_url".
Definition PinErrChainUntrusted := "chain_untrusted".
Definition PinErrDialFailed := "dial_failed".
Definition PinErrCertFileUnreadable := "cert_file_unreadable".

Record PinProviderConfig := {
  StaticPin : string; CertFile : string; DialURL : string; RefreshInterval : Z
}.
Record PinStatus := { ps_Pin : string; ps_Source : string; ps_Err : string; ps_ErrCode : string }.
Record PinProvider := {
  pp_cfg : PinProviderConfig; pp_source : string;
  pp_pin : string; pp_checked : Z; pp_err : string; pp_errCode : string; pp_backoff : Z
}.

Definition NewPinProvider (cfg : PinProviderConfig) : PinProvider := {|
  pp_cfg := cfg;
  pp_source := if negb (bool_decide (StaticPin cfg = "")) then PinSourceStatic
               else if negb (bool_decide (CertFile cfg = "")) then PinSourceFile else PinSourceDial;
  pp_pin := ""; pp_checked := time_zero; pp_err := ""; pp_errCode := ""; pp_backoff := 0 |}.
Definition Source (p : PinProvider) : string := pp_source p.
Definition refresh_every (p : PinProvider) : Z :=
  if (RefreshInterval (pp_cfg p) <=? 0)%Z then DefaultPinRefresh else RefreshInterval (pp_cfg p).
Definition dialBackoff (p : PinProvider) : Z :=
  if (pp_backoff p <=? 0)%Z then pinDialBackoff else pp_backoff p.

(** What a TLS dial can end with: the peer's certificates, or an error that is
    or is not one of certificate verification. *)
Inductive dialed :=
| Handshake (peer : list string)
| VerificationError (text : string)
| DialError (text : string).
(** [errPinPublicURL], and the errors of a dial. *)
Inductive dial_error := PublicURLError (text : string) | TLSError (verification : bool) (text : string).
Definition error_text (e : dial_error) : string :=
  match e with PublicURLError t => t | TLSError _ t => t end.
Definition classifyDialErr (e : dial_error) : string :=
  match e with
  | PublicURLError _ => PinErrNoPublicURL
  | TLSError true _ => PinErrChainUntrusted
  | TLSError false _ => PinErrDialFailed
  end.

Section provider.
Context `{Crypto} `{Encodings}.
(** [url.URL.Port] of a URL that parses; [pem.Decode]: the type of the first block, its
    bytes and the rest; [x509.ParseCertificate]: the key of a certificate. *)
Variables (url_Port : string → string) (pem_Decode : string → option (string * string * string))
          (x509_Parse : string → option string).

Definition dialPin (p : PinProvider) (tls : string → string → dialed) : dial_error + string :=
  let raw := DialURL (pp_cfg p) in
  if bool_decide (raw = "") then inl (PublicURLError "no public url set (GSSH_PUBLIC_URL)")
  else
    match url_Parse raw with
    | None => inl (PublicURLError "parsing public url")
    | Some (scheme, host) =>
        if negb (bool_decide (scheme = "https")) || bool_decide (host = "")
        then inl (PublicURLError "not a https url — pin cannot be determined")
        else
          let port := url_Port raw in
          match tls host (if bool_decide (port = "") then "443" else port) with
          | VerificationError t => inl (TLSError true ("tls dial: " +:+ t))
          | DialError t => inl (TLSError false ("tls dial: " +:+ t))
          | Handshake [] => inl (TLSError false "peer did not provide a certificate")
          | Handshake (leaf :: _) => inr (FromCertificate leaf)
          end
    end.

(** The dial is due: after the refresh interval, or the backoff without a pin. *)
Definition due (now : Z) (p : PinProvider) : bool :=
  let wait := if bool_decide (pp_pin p = "") then dialBackoff p else refresh_every p in
  (wait <=? Sub now (pp_checked p))%Z.
(** [refreshDial]: the outcome of a dial that ended at [now]. *)
Definition refreshDial (now : Z) (outcome : dial_error + string) (p : PinProvider) : PinProvider :=
  match outcome with
  | inl e => {| pp_cfg := pp_cfg p; pp_source := pp_source p; pp_pin := pp_pin p; pp_checked := now;
                pp_err := error_text e; pp_errCode := classifyDialErr e; pp_backoff := pp_backoff p |}
  | inr pin => {| pp_cfg := pp_cfg p; pp_source := pp_source p; pp_pin := pin; pp_checked := now;
                  pp_err := ""; pp_errCode := ""; pp_backoff := pp_backoff p |}
  end.
(** [dialOnce], holding [dialMu] from [now] on; a dial ends at [later]. *)
Definition dialOnce (now later : Z) (outcome : dial_error + string) (p : PinProvider) : PinProvider * bool :=
  if due now p then (refreshDial later outcome p, true) else (p, false).
Definition cached_status (p : PinProvider) : PinStatus :=
  if bool_decide (pp_pin p = "")
  then {| ps_Pin := ""; ps_Source := ""; ps_Err := pp_err p; ps_ErrCode := pp_errCode p |}
  else {| ps_Pin := pp_pin p; ps_Source := PinSourceDial; ps_Err := pp_err p; ps_ErrCode := pp_errCode p |}.
(** [dialStatus] without other callers in between: the snapshot at [now]. *)
Definition dialStatus (now locked later : Z) (outcome : dial_error + string) (p : PinProvider)
    : PinStatus * PinProvider :=
  let p' := if due now p then (dialOnce locked later outcome p).1 else p in (cached_status p', p').

(** The first CERTIFICATE block; [fuel] bounds the blocks. Errors are their text. *)
Fixpoint leaf_of (fuel : nat) (rest : string) : option (string + string) :=
  match fuel with
  | O => None
  | S fuel =>
      if bool_decide (rest = "") then Some (inl "contains no CERTIFICATE block")
      else
        match pem_Decode rest with
        | None => Some (inl "contains no CERTIFICATE block")
        | Some (type, bytes, rest) =>
            if negb (bool_decide (type = "CERTIFICATE")) then leaf_of fuel rest
            else Some (match x509_Parse bytes with
                       | Some spki => inr (FromCertificate spki)
                       | None => inl "parsing pin certificate"
                       end)
        end
  end.
(** [file]: what the file holds now, or the error of reading it. *)
Definition pinFromCertFile (file : string + string) : option (string + string) :=
  match file with
  | inl e => Some (inl ("reading pin certificate: " +:+ e))
  | inr data => leaf_of (S (String.length data)) data
  end.
Definition Status (now locked later : Z) (file : string + string) (outcome : dial_error + string)
    (p : PinProvider) : option (PinStatus * PinProvider) :=
  if bool_decide (pp_source p = PinSourceStatic) then
    Some ({| ps_Pin := StaticPin (pp_cfg p); ps_Source := PinSourceStatic; ps_Err := ""; ps_ErrCode := "" |}, p)
  else if bool_decide (pp_source p = PinSourceFile) then
    match pinFromCertFile file with
    | None => None
    | Some (inl e) => Some ({| ps_Pin := ""; ps_Source := ""; ps_Err := e;
                               ps_ErrCode := PinErrCertFileUnreadable |}, p)
    | Some (inr pin) => Some ({| ps_Pin := pin; ps_Source := PinSourceFile; ps_Err := ""; ps_ErrCode := "" |}, p)
    end
  else Some (dialStatus now locked later outcome p).
End provider.

(** ** The dialed pin over time

    Dials are serialised by [dialMu]: a request that found the dial due, or a
    tick of [Run], takes the lock at [now]; a dial it makes ends at [later].
    What the dial found is [outcome]. *)
Inductive pin_event :=
| Request (now later : Z) (outcome : dial_error + string)
| Tick (now later : Z) (outcome : dial_error + string).
Record dial := { dial_start : Z; dial_end : Z; dial_outcome : dial_error + string; dial_requested : bool }.

Definition pin_step (acc : PinProvider * list dial) (e : pin_event) : PinProvider * list dial :=
  let '(p, dials) := acc in
  match e with
  | Request now later outcome =>
      let '(p, dialed) := dialOnce now later outcome p in
      (p, if dialed then dials ++ [{| dial_start := now; dial_end := later; dial_outcome := outcome;
                                      dial_requested := true |}] else dials)
  | Tick now later outcome =>
      (refreshDial later outcome p,
       dials ++ [{| dial_start := now; dial_end := later; dial_outcome := outcome;
                    dial_requested := false |}])
  end.
Definition run_pins (p : PinProvider) (es : list pin_event) : PinProvider * list dial :=
  foldl pin_step (p, []) es.
Fixpoint timed (t : Z) (es : list pin_event) : Prop :=
  match es with
  | [] => True
  | (Request now later _ | Tick now later _) :: es => (t ≤ now ≤ later)%Z ∧ timed later es
  end.

(** The last dial that read a pin. *)
Definition last_pin (dials : list dial) : string :=
  foldl (λ pin d, match dial_outcome d with inr new => new | inl _ => pin end) "" dials.
Definition last_error (dials : list dial) : string * string :=
  match last dials with
  | Some d => match dial_outcome d with inl e => (error_text e, classifyDialErr e) | inr _ => ("", "") end
  | None => ("", "")
  end.

(** ** Lemmas *)
Lemma dialOnce_cases now later outcome p :
  dialOnce now later outcome p = (p, false) ∧ due now p = false ∨
  dialOnce now later outcome p = (refreshDial later outcome p, true) ∧ due now p = true.
Proof. unfold dialOnce. destruct (due now p); auto. Qed.

Definition tracks (cfg : PinProviderConfig) (acc : PinProvider * list dial) : Prop :=
  let '(p, dials) := acc in
  pp_cfg p = cfg ∧ pp_source p = pp_source (NewPinProvider cfg) ∧ pp_backoff p = 0%Z ∧
  pp_pin p = last_pin dials ∧ (pp_err p, pp_errCode p) = last_error dials ∧
  pp_checked p = default time_zero (dial_end <$> last dials).
Lemma refreshDial_tracks cfg p dials d :
  tracks cfg (p, dials) →
  tracks cfg (refreshDial (dial_end d) (dial_outcome d) p, dials ++ [d]).
Proof.
  intros (Hc & Hs & Hb & Hp & He & Ht). unfold tracks, last_pin, last_error, refreshDial.
  rewrite foldl_app, last_snoc. simpl. destruct (dial_outcome d) as [e|pin]; simpl; done.
Qed.
Lemma run_tracks cfg es : tracks cfg (run_pins (NewPinProvider cfg) es).
Proof.
  unfold run_pins. induction es as [|e es IH] using rev_ind; [done|].
  rewrite foldl_app. simpl. destruct (foldl pin_step _ es) as [p dials]. simpl in *.
  destruct e as [now later outcome|now later outcome].
  - destruct (dialOnce_cases now later outcome p) as [[E _]|[E _]]; rewrite E; [done|].
    by apply (refreshDial_tracks cfg p dials {| dial_start := now; dial_end := later;
      dial_outcome := outcome; dial_requested := true |}).
  - by apply (refreshDial_tracks cfg p dials {| dial_start := now; dial_end := later;
      dial_outcome := outcome; dial_requested := false |}).
Qed.
Lemma timed_app t es e : timed t (es ++ [e]) →
  timed t es ∧ ∀ p d, d ∈ (run_pins p es).2 →
    (dial_end d ≤ match e with Request now _ _ | Tick now _ _ => now end)%Z.
Proof.
  intros Ht.
  assert (timed t es ∧ ∀ acc, (∀ d, d ∈ acc.2 → dial_end d ≤ t)%Z → ∀ d, d ∈ (foldl pin_step acc es).2 →
    (dial_end d ≤ match e with Request now _ _ | Tick now _ _ => now end)%Z) as [H1 H2].
  { revert t Ht. induction es as [|e1 es IH]; intros t Ht; simpl in Ht.
    - split; [done|]. intros acc Hacc d Hd. specialize (Hacc d Hd). destruct e; lia.
    - destruct e1 as [now later outcome|now later outcome]; destruct Ht as [Hb Ht];
        destruct (IH later Ht) as [Hes Hd]; (split; [done|]); intros [p dials] Hacc d; apply Hd; clear Hd;
        simpl in *; intros d' Hd'.
      + destruct (dialOnce_cases now later outcome p) as [[E _]|[E _]]; rewrite E in Hd'; simpl in Hd'.
        * specialize (Hacc d' Hd'). lia.
        * apply elem_of_app in Hd' as [Hd' | ->%list_elem_of_singleton]; [|simpl; lia].
          specialize (Hacc d' Hd'). lia.
      + apply elem_of_app in Hd' as [Hd' | ->%list_elem_of_singleton]; [|simpl; lia].
        specialize (Hacc d' Hd'). lia. }
  split; [done|]. intros p d. apply H2. intros d' Hd'. by apply elem_of_nil in Hd'.
Qed.

Lemma last_pin_app ds ds' :
  last_pin (ds ++ ds') = foldl (λ pin d, match dial_outcome d with inr new => new | inl _ => pin end)
    (last_pin ds) ds'.
Proof. unfold last_pin. by rewrite foldl_app. Qed.
Definition failed (d : dial) : Prop := ∃ e, dial_outcome d = inl e.
Lemma failed_keeps_pin pin ds : Forall failed ds →
  foldl (λ pin d, match dial_outcome d with inr new => new | inl _ => pin end) pin ds = pin.
Proof. induction 1 as [|d ds [e He] _ IH]; [done|]. simpl. by rewrite He. Qed.

Lemma refresh_every_pos p : (0 < refresh_every p)%Z.
Proof. unfold refresh_every. destruct (Z.leb_spec (RefreshInterval (pp_cfg p)) 0); [done|lia]. Qed.
Lemma dialBackoff_pos p : (0 < dialBackoff p)%Z.
Proof. unfold dialBackoff. destruct (Z.leb_spec (pp_backoff p) 0); [done|lia]. Qed.
Lemma due_after now p : due now p = true →
  ((if bool_decide (pp_pin p = "") then dialBackoff p else refresh_every p) ≤ now - pp_checked p)%Z.
Proof.
  unfold due, Sub. intros ?%Z.leb_le. pose proof (refresh_every_pos p). pose proof (dialBackoff_pos p).
  assert (int64_min < 0)%Z by done. destruct (bool_decide _); lia.
Qed.

Lemma timed_last t es e : timed t (es ++ [e]) →
  match e with Request now later _ | Tick now later _ => (now ≤ later)%Z end.
Proof.
  revert t. induction es as [|e1 es IH]; intros t; simpl; [destruct e; lia|].
  destruct e1; intros [_ Ht]; by eapply IH.
Qed.
Lemma checked_is_latest cfg t es d : timed t es →
  d ∈ (run_pins (NewPinProvider cfg) es).2 →
  (dial_end d ≤ pp_checked (run_pins (NewPinProvider cfg) es).1)%Z.
Proof.
  revert d. induction es as [|e es IH] using rev_ind; intros d Ht; [intros Hd; by apply elem_of_nil in Hd|].
  destruct (timed_app _ _ _ Ht) as [Hes Hb]. specialize (Hb (NewPinProvider cfg)).
  pose proof (timed_last _ _ _ Ht) as Hl. specialize (λ d, IH d Hes).
  unfold run_pins in *. rewrite foldl_app. simpl. destruct (foldl pin_step _ es) as [p dials]. simpl in *.
  assert (∀ now later outcome req, (now ≤ later)%Z → (∀ d, d ∈ dials → (dial_end d ≤ now)%Z) →
    d ∈ dials ++ [{| dial_start := now; dial_end := later; dial_outcome := outcome;
                     dial_requested := req |}] →
    (dial_end d ≤ pp_checked (refreshDial later outcome p))%Z) as Hnew.
  { intros now later outcome req Hle Hd. rewrite elem_of_app, list_elem_of_singleton.
    replace (pp_checked (refreshDial later outcome p)) with later by (by destruct outcome).
    intros [H | ->]; [|simpl; lia]. specialize (Hd d H). lia. }
  destruct e as [now later outcome|now later outcome]; [|by apply Hnew].
  destruct (dialOnce_cases now later outcome p) as [[E _]|[E _]]; rewrite E; [apply IH|].
  by apply Hnew.
Qed.

(** The interval a request waits for after the dials [ds]. *)
Definition spacing (cfg : PinProviderConfig) (ds : list dial) : Z :=
  if bool_decide (last_pin ds = "") then pinDialBackoff else refresh_every (NewPinProvider cfg).

(** ** Theorems *)

(** Whatever requests and ticks came before, the served pin is the one the
    last successful dial read: a later failure keeps it and is only reported by its
    category, and there is no pin exactly while no dial succeeded. *)
Theorem dialed_pin_survives_failures cfg es p dials :
  run_pins (NewPinProvider cfg) es = (p, dials) →
  (∀ ds d pin ds', dials = ds ++ d :: ds' → dial_outcome d = inr pin → pin ≠ "" → Forall failed ds' →
     ps_Pin (cached_status p) = pin ∧ ps_Source (cached_status p) = PinSourceDial) ∧
  (Forall failed dials → ps_Pin (cached_status p) = "" ∧ ps_Source (cached_status p) = "") ∧
  (ps_Err (cached_status p), ps_ErrCode (cached_status p)) = last_error dials.
Proof.
  intros Hrun. pose proof (run_tracks cfg es) as Ht. rewrite Hrun in Ht.
  destruct Ht as (_ & _ & _ & Hp & He & _). unfold cached_status. rewrite Hp. split; [|split].
  - intros ds d pin ds' -> Hd Hpin Hf. replace (last_pin (ds ++ d :: ds')) with pin.
    + by rewrite bool_decide_eq_false_2.
    + rewrite last_pin_app. simpl. rewrite Hd. by rewrite failed_keeps_pin.
  - intros Hf. unfold last_pin. by rewrite failed_keeps_pin.
  - by destruct (bool_decide _).
Qed.

(** A dial a request triggers starts at least the backoff (without
    a pin) or the refresh interval (with one) after the end of every earlier dial,
    scheduled or not: requests cannot make the server dial more often. *)
Theorem request_dials_spaced cfg t es ds d ds' :
  timed t es → (run_pins (NewPinProvider cfg) es).2 = ds ++ d :: ds' → dial_requested d = true →
  ∀ d', d' ∈ ds → (spacing cfg ds ≤ dial_start d - dial_end d')%Z.
Proof.
  revert ds'. induction es as [|e es IH] using rev_ind; intros ds' Ht Hd Hr d' Hd'; [by destruct ds|].
  destruct (timed_app _ _ _ Ht) as [Hes _]. pose proof (run_tracks cfg es) as Htr.
  pose proof (λ d, checked_is_latest cfg t es d Hes) as Hlatest.
  unfold run_pins in *. rewrite foldl_app in Hd. simpl in Hd.
  destruct (foldl pin_step _ es) as [p dials]. simpl in *.
  assert (∀ d1, dials ++ [d1] = ds ++ d :: ds' →
    (∃ ds1, dials = ds ++ d :: ds1) ∨ d1 = d ∧ dials = ds) as Hsplit.
  { intros d1 E. destruct ds' as [|x ds' _] using rev_ind.
    - apply app_inj_tail in E as [-> ->]. auto.
    - rewrite app_comm_cons, app_assoc in E. apply app_inj_tail in E as [-> _]. eauto. }
  destruct e as [now later outcome|now later outcome];
    [|by destruct (Hsplit _ Hd) as [[ds1 E1]|[<- ->]]; [eapply IH|]].
  destruct (dialOnce_cases now later outcome p) as [[E _]|[E Hdue]]; rewrite E in Hd; simpl in Hd;
    [by eapply IH|].
  destruct (Hsplit _ Hd) as [[ds1 E1]|[<- ->]]; [by eapply IH|].
  apply due_after in Hdue. specialize (Hlatest d' Hd').
  destruct Htr as (Hc & _ & Hbk & Hp & _ & _). unfold spacing. rewrite <- Hp.
  unfold dialBackoff, refresh_every in *. rewrite Hc, Hbk in Hdue. simpl in *. destruct (bool_decide _); lia.
Qed.

Section theorems.
Context `{Crypto} `{Encodings}.

Lemma dialPin_handshake url_Port p tls pin : dialPin url_Port p tls = inr pin →
  ∃ host port leaf rest, tls host port = Handshake (leaf :: rest) ∧ pin = FromCertificate leaf.
Proof.
  unfold dialPin. repeat case_match; intros; simplify_eq; eauto 10.
Qed.
Lemma DecodePin_certificate leaf : String.length (sha256 leaf) = 32%nat →
  DecodePin (FromCertificate leaf) = Ok (sha256 leaf).
Proof. intros Hl. unfold DecodePin, FromCertificate. rewrite base64_round_trip. by rewrite Hl. Qed.
Lemma Verifier_true pin peer : Verifier_ pin peer = true ↔ ∃ spki, spki ∈ peer ∧ sha256 spki = pin.
Proof.
  unfold Verifier_. rewrite existsb_exists. setoid_rewrite bool_decide_eq_true. by setoid_rewrite list_elem_of_In.
Qed.

(** The pin the server dials and hands out is one a client can decode, and the
    client then accepts exactly the peers that present a certificate with the hash
    of the leaf the server saw. *)
Theorem dialed_pin_checks url_Port p tls pin :
  (∀ host port leaf rest, tls host port = Handshake (leaf :: rest) → String.length (sha256 leaf) = 32%nat) →
  dialPin url_Port p tls = inr pin →
  ∃ host port leaf rest raw, tls host port = Handshake (leaf :: rest) ∧ DecodePin pin = Ok raw ∧
    ∀ peer, Verifier_ raw peer = true ↔ ∃ spki, spki ∈ peer ∧ sha256 spki = sha256 leaf.
Proof.
  intros Hlen Hd. destruct (dialPin_handshake _ _ _ _ Hd) as (host & port & leaf & rest & Htls & ->).
  exists host, port, leaf, rest, (sha256 leaf). split; [done|]. split; [|apply Verifier_true].
  by eapply DecodePin_certificate, Hlen.
Qed.

Lemma leaf_of_total pem_Decode x509_Parse fuel rest :
  (∀ s t b r, pem_Decode s = Some (t, b, r) → (String.length r < String.length s)%nat) →
  (String.length rest < fuel)%nat → leaf_of pem_Decode x509_Parse fuel rest ≠ None.
Proof.
  intros Hpem. revert rest. induction fuel as [|fuel IH]; intros rest Hf; [lia|]. simpl.
  case_bool_decide; [done|]. destruct (pem_Decode rest) as [[[t b] r]|] eqn:E; [|done].
  case_match; [|done]. apply IH. apply Hpem in E. lia.
Qed.
(** A status is always answered, whatever the certificate file holds: the loop over
    its blocks ends, a file that gives no pin is one category of error, and the static
    pin depends on neither the file nor a dial. *)
Theorem Status_total pem_Decode x509_Parse now locked later file outcome p :
  (∀ s t b r, pem_Decode s = Some (t, b, r) → (String.length r < String.length s)%nat) →
  ∃ st p', Status pem_Decode x509_Parse now locked later file outcome p = Some (st, p') ∧
    (pp_source p = PinSourceStatic → ps_Pin st = StaticPin (pp_cfg p) ∧ p' = p) ∧
    (pp_source p = PinSourceFile → p' = p ∧
       (ps_ErrCode st = PinErrCertFileUnreadable ∧ ps_Pin st = "" ∨ ps_ErrCode st = "" ∧ ps_Source st = PinSourceFile)).
Proof.
  intros Hpem. unfold Status. case_bool_decide as Hs.
  { eexists _, _. split; [done|]. rewrite Hs. split; [done|]. intros Hx. by vm_compute in Hx. }
  case_bool_decide as Hf.
  - destruct (pinFromCertFile _ _ file) as [[e|pin]|] eqn:E.
    + eexists _, _. split; [done|]. split; [done|]. simpl. auto.
    + eexists _, _. split; [done|]. split; [done|]. simpl. auto.
    + exfalso. destruct file as [e|data]; [done|]. unfold pinFromCertFile in E.
      by eapply leaf_of_total in E; [..|lia].
  - destruct (dialStatus now locked later outcome p) as [st p'] eqn:E. exists st, p'.
    split; [done|]. split; intros; congruence.
Qed.
End theorems.

(** ** Witnesses *)
Definition dial_config : PinProviderConfig :=
  {| StaticPin := ""; CertFile := ""; DialURL := "https://ssh.example"; RefreshInterval := 0 |}.
Definition leaf32 : string := "0123456789abcdef0123456789abcdef".
Definition two_requests : list pin_event :=
  [Request 0 1 (inl (TLSError false "refused")); Request 5 6 (inr "late");
   Request (pinDialBackoff + 1) (pinDialBackoff + 2) (inr "pin")].

Lemma request_dials_spaced_witness :
  timed 0 two_requests ∧
  ∃ d1 d2, (run_pins (NewPinProvider dial_config) two_requests).2 = [d1] ++ d2 :: [] ∧
    (spacing dial_config [d1] ≤ dial_start d2 - dial_end d1)%Z.
Proof.
  assert (timed 0 two_requests) as Ht by (vm_compute; repeat split; intros ?; congruence).
  split; [exact Ht|]. eexists _, _. split; [vm_compute; reflexivity|].
  eapply (request_dials_spaced dial_config 0 two_requests [_] _ []); [exact Ht|vm_compute; reflexivity|
    reflexivity|set_solver].
Defined.

Lemma dialed_pin_checks_witness :
  ∃ (host port : string) leaf rest raw, Handshake [leaf32] = Handshake (leaf :: rest) ∧
    DecodePin (@FromCertificate toy_crypto leaf32) = Ok raw ∧
    ∀ peer, @Verifier_ toy_crypto raw peer = true ↔ ∃ spki, spki ∈ peer ∧ @sha256 toy_crypto spki = @sha256 toy_crypto leaf.
Proof.
  refine (@dialed_pin_checks toy_crypto toy_encodings (λ _, "") (NewPinProvider dial_config)
    (λ _ _, Handshake [leaf32]) (@FromCertificate toy_crypto leaf32) _ _).
  - intros _ _ leaf rest E. by simplify_eq.
  - reflexivity.
Defined.
