(* ===== verification/Policy.v ===== *)
(** * Certificate requests, the policy engine and the key ids (internal/ca)

    [CertRequest], [buildCert] (signer.go), [Policy], [DefaultPolicies],
    [Validate] (policy.go) and the KeyID/principal builders (keyid.go). *)
From S2P Require Export Crypto.

Local Open Scope string_scope.
Local Open Scope list_scope.

(** Certificate types and CA key purposes (internal/store/types.go). *)
Definition CertTypeUser := "user".
Definition CertTypeHost := "host".
Definition CAPurposeMTLS := "mtls".

Definition RequesterUser := "user".
Definition RequesterCI := "ci".
Definition RequesterHost := "host".

Definition maxBackdate : Z := 5 * Minute.

Record CertRequest := {
  CertType : string;
  RequestKey : option PublicKey;
  KeyID : string;
  Principals : list string;
  ValidAfter : Z;
  ValidBefore : Z;
  Extensions : gmap string string;
  CriticalOptions : gmap string string;
  Serial : Z
}.

Definition with_serial (req : CertRequest) (serial : Z) : CertRequest := {|
  CertType := CertType req; RequestKey := RequestKey req; KeyID := KeyID req;
  Principals := Principals req; ValidAfter := ValidAfter req;
  ValidBefore := ValidBefore req; Extensions := Extensions req;
  CriticalOptions := CriticalOptions req; Serial := serial |}.

Record Policy := {
  policy_CertType : string;
  MaxValidity : Z;
  AllowedPrincipals : list string;
  AllowedExtensions : list string;
  AllowedCriticalOptions : list string
}.

(** [slices.Contains]. *)
Definition contains (l : list string) (x : string) : bool := bool_decide (x ∈ l).

(** The first element of a list that is not whitelisted. Go visits a map in
    an unspecified order; the order only selects which offending name the
    error reports. *)
Definition first_not_in (allowed : list string) (names : list string) : option string :=
  List.find (λ n, negb (contains allowed n)) names.

Definition map_keys (m : gmap string string) : list string := (map_to_list m).*1.

Definition DefaultPolicies : gmap string Policy :=
  let userExtensions := ["permit-X11-forwarding"; "permit-agent-forwarding";
    "permit-port-forwarding"; "permit-pty"; "permit-user-rc"] in
  list_to_map [
    (RequesterUser, {| policy_CertType := CertTypeUser; MaxValidity := 16 * Hour;
       AllowedPrincipals := []; AllowedExtensions := userExtensions;
       AllowedCriticalOptions := ["source-address"] |});
    (RequesterCI, {| policy_CertType := CertTypeUser; MaxValidity := Hour;
       AllowedPrincipals := []; AllowedExtensions := ["permit-pty"];
       AllowedCriticalOptions := ["source-address"] |});
    (RequesterHost, {| policy_CertType := CertTypeHost; MaxValidity := 30 * 24 * Hour;
       AllowedPrincipals := []; AllowedExtensions := [];
       AllowedCriticalOptions := [] |})].

(** [PolicyEngine.Validate]; [now] is what the engine's clock returns. *)
Definition Validate (policies : gmap string Policy) (now : Z)
    (requesterType : string) (req : CertRequest) : result unit :=
  let violation r := Err (PolicyViolationError requesterType r) in
  match policies !! requesterType with
  | None => violation UnknownRequesterType
  | Some policy =>
  if negb (bool_decide (CertType req = policy_CertType policy)) then
    violation (CertTypeNotAllowed (CertType req) (policy_CertType policy))
  else if bool_decide (KeyID req = "") then violation KeyIDMissing
  else if bool_decide (Principals req = []) then violation NoPrincipals
  else
  match (if bool_decide (AllowedPrincipals policy = []) then None
         else first_not_in (AllowedPrincipals policy) (Principals req)) with
  | Some p => violation (PrincipalNotAllowed p)
  | None =>
  match first_not_in (AllowedExtensions policy) (map_keys (Extensions req)) with
  | Some ext => violation (ExtensionNotAllowed ext)
  | None =>
  match first_not_in (AllowedCriticalOptions policy) (map_keys (CriticalOptions req)) with
  | Some opt => violation (CriticalOptionNotAllowed opt)
  | None =>
  if negb (After (ValidBefore req) (ValidAfter req)) then violation ValidBeforeNotAfter
  else let lifetime := Sub (ValidBefore req) (ValidAfter req) in
  if (MaxValidity policy <? lifetime)%Z then
    violation (LifetimeExceeds lifetime (MaxValidity policy))
  else if Before (ValidAfter req) (Add now (- maxBackdate)) then violation ValidAfterTooOld
  else Ok ()
  end end end end.

(** [buildCert]: the unsigned certificate of a request. *)
Definition buildCert (req : CertRequest) : result SSHCertificate :=
  let build certType key := Ok {|
    cert_Key := key; cert_Serial := Serial req; cert_CertType := certType;
    cert_KeyId := KeyID req; cert_ValidPrincipals := Principals req;
    cert_ValidAfter := uint64 (Unix (ValidAfter req));
    cert_ValidBefore := uint64 (Unix (ValidBefore req));
    cert_CriticalOptions := CriticalOptions req; cert_Extensions := Extensions req;
    cert_SignatureKey := None; cert_Signature := "" |} in
  let with_type certType :=
    match RequestKey req with
    | None => Err (ErrOther "request without public key")
    | Some key => build certType key
    end in
  if bool_decide (CertType req = CertTypeUser) then with_type UserCert
  else if bool_decide (CertType req = CertTypeHost) then with_type HostCert
  else Err (ErrOther "unknown certificate type").

(** ** Key ids and principals (keyid.go) *)
Definition UserKeyID (subject issuer : string) : string :=
  "user:" +:+ subject +:+ "@" +:+ issuer.
Definition CIKeyID (projectPath pipelineID jobID : string) : string :=
  "ci:" +:+ projectPath +:+ ":" +:+ pipelineID +:+ ":" +:+ jobID.
Definition HostKeyID (hostname : string) : string := "host:" +:+ hostname.

(** The namespace ancestors of a path, nearest first: the loop cuts at the
    last slash until there is none, or it is the first byte. The path gets
    shorter in each round, so its length is enough fuel. *)
Fixpoint ancestors (fuel : nat) (path : string) : list string :=
  match fuel with
  | O => []
  | S fuel =>
      match before_last path "/" with
      | None | Some "" => []
      | Some parent => parent :: ancestors fuel parent
      end
  end.

Definition CIPrincipals (projectPath : string) : list string :=
  ("ci:" +:+ projectPath) ::
  (String.append "ci:" <$> ancestors (String.length projectPath) projectPath).

(** ** Lemmas *)

Lemma first_not_in_None allowed names :
  first_not_in allowed names = None ↔ ∀ n, n ∈ names → n ∈ allowed.
Proof.
  unfold first_not_in. split.
  - intros H n Hn%list_elem_of_In. pose proof (find_none _ _ H _ Hn) as Hf.
    simpl in Hf. unfold contains in Hf. by bool_to_prop.
  - intros H. destruct (List.find _ names) as [n|] eqn:E; [|done].
    apply find_some in E as [Hn%list_elem_of_In Hf]. unfold contains in Hf.
    bool_to_prop. by destruct Hf; apply H.
Qed.

Lemma elem_of_map_keys (m : gmap string string) k : k ∈ map_keys m ↔ is_Some (m !! k).
Proof.
  unfold map_keys. rewrite list_elem_of_fmap. split.
  - intros ([k' v] & -> & H%elem_of_map_to_list). by exists v.
  - intros [v H]. exists (k, v). by rewrite elem_of_map_to_list.
Qed.

Lemma first_not_in_keys allowed m :
  first_not_in allowed (map_keys m) = None ↔ ∀ k, is_Some (m !! k) → k ∈ allowed.
Proof. rewrite first_not_in_None. by setoid_rewrite elem_of_map_keys. Qed.

Lemma buildCert_Ok req c :
  buildCert req = Ok c →
  Some (cert_Key c) = RequestKey req ∧ cert_Serial c = Serial req ∧
  (CertType req = CertTypeUser ∧ cert_CertType c = UserCert ∨
   CertType req = CertTypeHost ∧ cert_CertType c = HostCert) ∧
  cert_KeyId c = KeyID req ∧ cert_ValidPrincipals c = Principals req ∧
  cert_ValidAfter c = uint64 (Unix (ValidAfter req)) ∧
  cert_ValidBefore c = uint64 (Unix (ValidBefore req)) ∧
  cert_CriticalOptions c = CriticalOptions req ∧ cert_Extensions c = Extensions req.
Proof.
  unfold buildCert. repeat case_bool_decide; destruct (RequestKey req); intros;
    simplify_eq/=; naive_solver.
Qed.

(** A proper ancestor of a path: a nonempty prefix that a slash follows. *)
Definition ancestor_of (a path : string) : Prop :=
  a ≠ "" ∧ HasPrefix path (a +:+ "/") = true.

Lemma ancestors_sound fuel path a : a ∈ ancestors fuel path → ancestor_of a path.
Proof.
  unfold ancestor_of. setoid_rewrite HasPrefix_spec.
  revert path. induction fuel as [|fuel IH]; intros path; simpl; [by intros ?%elem_of_nil|].
  destruct (before_last path "/") as [b|] eqn:E; [|by intros ?%elem_of_nil].
  apply before_last_Some in E as [t ->].
  destruct b as [|c b]; [by intros ?%elem_of_nil|].
  intros [->|Ha]%elem_of_cons.
  - split; [done|]. exists t. by rewrite append_assoc.
  - destruct (IH _ Ha) as [Hne [r Hr]]. split; [done|].
    exists (r +:+ String "/" t). by rewrite Hr, !append_assoc.
Qed.

Lemma ancestors_complete fuel path a :
  (String.length path ≤ fuel)%nat → ancestor_of a path → a ∈ ancestors fuel path.
Proof.
  unfold ancestor_of. rewrite HasPrefix_spec.
  revert path. induction fuel as [|fuel IH]; intros path Hf [Ha [r ->]]; simpl.
  { rewrite !append_length in Hf. simpl in Hf. lia. }
  rewrite append_assoc. simpl.
  destruct (before_last (a +:+ String "/" r) "/") as [b|] eqn:E.
  2: { exfalso. by eapply before_last_None in E. }
  pose proof (before_last_longest _ _ _ _ _ E eq_refl) as Hl.
  apply before_last_Some in E as [t Ht].
  assert (String.length b ≤ fuel)%nat as Hfuel.
  { apply (f_equal String.length) in Ht. rewrite !append_length in Ht, Hf.
    simpl in *. lia. }
  destruct (append_split a (String "/" r) b (String "/" t)) as (m & Hb & Hr); [done|done|].
  destruct b as [|c b]; [destruct a; done|].
  destruct m as [|d m].
  - rewrite append_nil_r in Hb. subst a. set_solver.
  - apply elem_of_cons. right. simpl in Hr. simplify_eq. apply IH; [done|].
    split; [done|]. exists m. by rewrite Hb, append_assoc.
Qed.

(** ** Properties *)

Lemma Validate_Ok_iff policies now rt req :
  Validate policies now rt req = Ok () ↔
  ∃ policy, policies !! rt = Some policy ∧
    CertType req = policy_CertType policy ∧ KeyID req ≠ "" ∧ Principals req ≠ [] ∧
    (AllowedPrincipals policy = [] ∨
       ∀ p, p ∈ Principals req → p ∈ AllowedPrincipals policy) ∧
    (∀ ext, is_Some (Extensions req !! ext) → ext ∈ AllowedExtensions policy) ∧
    (∀ opt, is_Some (CriticalOptions req !! opt) → opt ∈ AllowedCriticalOptions policy) ∧
    (ValidAfter req < ValidBefore req)%Z ∧
    (Sub (ValidBefore req) (ValidAfter req) ≤ MaxValidity policy)%Z ∧
    (now - maxBackdate ≤ ValidAfter req)%Z.
Proof.
  unfold Validate, After, Before, Add. split.
  - destruct (policies !! rt) as [policy|]; [|done]. intros H. exists policy.
    split; [done|]. repeat (case_bool_decide || case_match); simpl in *; simplify_eq;
      bool_to_prop; rewrite <-?first_not_in_keys; repeat split; auto; try lia;
      right; by apply first_not_in_None.
  - intros (policy & -> & HT & HK & HP & HA & HE & HO & HV & HL & HB).
    rewrite (bool_decide_true (CertType req = _)), (bool_decide_false (KeyID req = _)),
      (bool_decide_false (Principals req = _)) by done. simpl.
    rewrite <-first_not_in_keys in HE, HO.
    assert ((if bool_decide (AllowedPrincipals policy = []) then None
             else first_not_in (AllowedPrincipals policy) (Principals req)) = None) as ->.
    { case_bool_decide; [done|]. apply first_not_in_None. by destruct HA. }
    rewrite HE, HO.
    rewrite (proj2 (Z.ltb_lt _ _) HV). simpl.
    rewrite (proj2 (Z.ltb_ge _ _) HL).
    by rewrite (proj2 (Z.ltb_ge _ _)) by lia.
Qed.

(** The longest certificate, in seconds, that a requester type can get. *)
Definition max_cert_seconds (requesterType : string) : option Z :=
  if bool_decide (requesterType = RequesterUser) then Some 57600%Z
  else if bool_decide (requesterType = RequesterCI) then Some 3600%Z
  else if bool_decide (requesterType = RequesterHost) then Some 2592000%Z
  else None.

Lemma DefaultPolicies_lookup rt policy :
  DefaultPolicies !! rt = Some policy →
  ∃ secs, max_cert_seconds rt = Some secs ∧ MaxValidity policy = (secs * Second)%Z ∧
    policy_CertType policy =
      (if bool_decide (rt = RequesterHost) then CertTypeHost else CertTypeUser) ∧
    (∀ o, o ∈ AllowedCriticalOptions policy → o = "source-address") ∧
    (rt = RequesterHost → AllowedExtensions policy = [] ∧ AllowedCriticalOptions policy = []) ∧
    (rt = RequesterCI → AllowedExtensions policy = ["permit-pty"]).
Proof.
  unfold DefaultPolicies, max_cert_seconds. simpl.
  rewrite !lookup_insert_Some, lookup_empty.
  intros [[<- <-]|[? [[<- <-]|[? [[<- <-]|[? ?]]]]]]; [..|done];
    eexists; (split; [done|]); repeat split; try done; simpl; intros; set_solver.
Qed.

Lemma cert_times_bounds req c secs now :
  buildCert req = Ok c → (maxBackdate ≤ now)%Z → (now - maxBackdate ≤ ValidAfter req)%Z →
  (ValidAfter req < ValidBefore req)%Z → (Unix (ValidBefore req) ≤ int64_max)%Z →
  (ValidBefore req - ValidAfter req ≤ secs * Second)%Z →
  (Unix now - 300 ≤ cert_ValidAfter c)%Z ∧
  (0 ≤ cert_ValidBefore c - cert_ValidAfter c ≤ secs)%Z.
Proof.
  intros (_ & _ & _ & _ & _ & -> & -> & _)%buildCert_Ok Hn Ha Hab Hmax Hl.
  pose proof (Unix_mono _ _ Ha) as H1.
  replace (now - maxBackdate)%Z with (now + (-300) * Second)%Z in H1
    by (unfold maxBackdate, Minute; lia).
  rewrite Unix_add in H1.
  assert (0 ≤ Unix (ValidAfter req))%Z.
  { apply (Unix_mono 0). unfold Unix. lia. }
  assert (Unix (ValidAfter req) ≤ Unix (ValidBefore req))%Z by (apply Unix_mono; lia).
  assert (Unix (ValidBefore req) ≤ Unix (ValidAfter req) + secs)%Z.
  { rewrite <-Unix_add. apply Unix_mono. lia. }
  unfold int64_max in Hmax. rewrite !uint64_id by lia. lia.
Qed.

(** The policy engine accepts a request exactly when the requester type
    has a policy and the request satisfies every rule of it: certificate type,
    nonempty KeyID and principals, the three whitelists, a positive lifetime
    within the maximum, and a start at most five minutes in the past. *)
Theorem validate_accepts_iff policies now rt req :
  Validate policies now rt req = Ok () ↔
  ∃ policy, policies !! rt = Some policy ∧
    CertType req = policy_CertType policy ∧ KeyID req ≠ "" ∧ Principals req ≠ [] ∧
    (AllowedPrincipals policy = [] ∨
       ∀ p, p ∈ Principals req → p ∈ AllowedPrincipals policy) ∧
    (∀ ext, is_Some (Extensions req !! ext) → ext ∈ AllowedExtensions policy) ∧
    (∀ opt, is_Some (CriticalOptions req !! opt) → opt ∈ AllowedCriticalOptions policy) ∧
    (ValidAfter req < ValidBefore req)%Z ∧
    (Sub (ValidBefore req) (ValidAfter req) ≤ MaxValidity policy)%Z ∧
    (now - maxBackdate ≤ ValidAfter req)%Z.
Proof. apply Validate_Ok_iff. Qed.


(** A login request one hour long. *)
Definition example_request : CertRequest := {|
  CertType := CertTypeUser; RequestKey := Some (toy_public "k"); KeyID := "user:alice@idp";
  Principals := ["alice"]; ValidAfter := (1000 * Hour)%Z; ValidBefore := (1001 * Hour)%Z;
  Extensions := {["permit-pty" := ""]}; CriticalOptions := ∅; Serial := 1 |}.


(** The principals of a CI certificate are exactly ci:<project path> and
    ci:<a> for every proper namespace ancestor a of the project path. *)
Theorem ci_principals_are_namespaces projectPath p :
  p ∈ CIPrincipals projectPath ↔
  p = "ci:" +:+ projectPath ∨ ∃ a, ancestor_of a projectPath ∧ p = "ci:" +:+ a.
Proof.
  unfold CIPrincipals. rewrite elem_of_cons, list_elem_of_fmap. split.
  - intros [->|(a & -> & Ha)]; [by left|right]. exists a.
    split; [by eapply ancestors_sound|done].
  - intros [->|(a & Ha & ->)]; [by left|right]. exists a.
    split; [done|]. by apply ancestors_complete.
Qed.
