(* ===== verification/Database.v ===== *)
(** * The store's rows, the database and the statement monad

    Data: the row types of internal/store/types.go (and of enrollment.go,
    ci_grants.go), as the tables of internal/store/migrations hold them.
    A computation of the server is a state transformer over a [World]: the
    database, its sequences, the clock, the supply of random identifiers and
    keys, the schedule of database failures, and the CA's in-memory signer
    cache. Each SQL statement first consumes one entry of the failure
    schedule: [true] means the statement (or COMMIT) fails, as it does when the
    connection is lost. *)
From S2P Require Export Policy.

Local Open Scope string_scope.
Local Open Scope list_scope.

(** ** Rows *)
Definition uuid := N.
Bind Scope N_scope with uuid.
#[export] Instance uuid_eq_dec : EqDecision uuid := N.eq_dec.

Record User := {
  user_ID : uuid; user_Issuer : string; user_Subject : string;
  user_Username : string; user_Email : string;
  user_UID : option Z; user_GID : option Z; user_Active : bool;
  user_CreatedAt : Z; user_UpdatedAt : Z
}.

Record Group := {
  group_ID : uuid; group_Issuer : string; group_Name : string;
  group_ExternalID : option string; group_CreatedAt : Z
}.

Record Host := {
  host_ID : uuid; host_Name : string; host_PublicKey : option string;
  host_EnrolledAt : option Z; host_LastSeenAt : option Z;
  host_LastSeenAddr : option string; host_CreatedAt : Z; host_UpdatedAt : Z
}.

Record AccessGrant := {
  grant_ID : uuid; grant_GroupID : uuid; grant_TagSelector : gmap string string;
  grant_Principals : list string; grant_Sudo : bool;
  grant_MaxValiditySeconds : Z; grant_CreatedAt : Z; grant_UpdatedAt : Z
}.

(** [AccessGrant.MaxValidity]. *)
Definition AccessGrant_MaxValidity (g : AccessGrant) : Z :=
  seconds (grant_MaxValiditySeconds g).

Definition CAKeyStateActive := "active".
Definition CAKeyStateRetiring := "retiring".
Definition CAKeyStateRetired := "retired".

Record CAKey := {
  cakey_ID : uuid; cakey_Purpose : string; cakey_Algorithm : string;
  cakey_PublicKey : string; cakey_EncryptedPrivateKey : option string;
  cakey_State : string; cakey_CreatedAt : Z; cakey_RetiredAt : option Z
}.

Record ServiceAccount := {
  sa_ID : uuid; sa_Name : string; sa_Kind : string; sa_Issuer : string;
  sa_ClaimMatcher : gmap string string; sa_Active : bool;
  sa_CreatedAt : Z; sa_UpdatedAt : Z
}.

Record Certificate := {
  crt_ID : uuid; crt_Serial : Z; crt_KeyID : string; crt_CertType : string;
  crt_PublicKey : string; crt_Principals : list string;
  crt_ValidAfter : Z; crt_ValidBefore : Z; crt_CAKeyID : uuid;
  crt_UserID : option uuid; crt_ServiceAccountID : option uuid;
  crt_HostID : option uuid; crt_IssuerContext : json; crt_CreatedAt : Z
}.

Record HostSession := {
  session_ID : uuid; session_HostID : uuid; session_LocalUser : string;
  session_RemoteUser : string; session_RemoteAddr : string; session_TTY : string;
  session_CertSerial : option Z; session_KeyID : string;
  session_UserID : option uuid; session_StartedAt : Z;
  session_EndedAt : option Z; session_CreatedAt : Z
}.

(** [OccurredAt] is the zero time for "now" until the row is stored. *)
Record AuditEvent := {
  audit_ID : Z; audit_OccurredAt : Z; audit_EventType : string;
  audit_Actor : string; audit_Payload : json
}.

Record EnrollmentToken := {
  token_ID : uuid; token_Hash : string; token_HostName : option string;
  token_Tags : gmap string string; token_ExpiresAt : Z;
  token_UsedAt : option Z; token_UsedBy : option uuid; token_CreatedAt : Z
}.

Record CIGrant := {
  cigrant_ID : uuid; cigrant_ProjectPath : string; cigrant_RefPattern : string;
  cigrant_ProtectedOnly : bool; cigrant_EnvironmentPattern : string;
  cigrant_TagSelector : gmap string string; cigrant_Principals : list string;
  cigrant_MaxValiditySeconds : Z; cigrant_CreatedAt : Z; cigrant_UpdatedAt : Z
}.

(** [CIGrant.MaxValidity]. *)
Definition CIGrant_MaxValidity (g : CIGrant) : Z := seconds (cigrant_MaxValiditySeconds g).

Record UserGroup := { ug_UserID : uuid; ug_GroupID : uuid }.
Record HostTag := { tag_HostID : uuid; tag_Key : string; tag_Value : string }.

#[export] Instance UserGroup_eq_dec : EqDecision UserGroup.
Proof. solve_decision. Defined.

(** ** The database *)
Record Db := {
  users : list User; groups : list Group; user_groups : list UserGroup;
  hosts : list Host; host_tags : list HostTag;
  access_grants : list AccessGrant; ci_grants : list CIGrant;
  ca_keys : list CAKey; service_accounts : list ServiceAccount;
  certificates : list Certificate; audit_events : list AuditEvent;
  enrollment_tokens : list EnrollmentToken; host_sessions : list HostSession
}.

Definition empty_db : Db := {|
  users := []; groups := []; user_groups := []; hosts := []; host_tags := [];
  access_grants := []; ci_grants := []; ca_keys := []; service_accounts := [];
  certificates := []; audit_events := []; enrollment_tokens := [];
  host_sessions := [] |}.

(** The signer cache of the CA: a signer is the id of its ca_keys row and its
    private key; a [FileSigner] and a [SoftwareSigner] differ only in where
    the key comes from. *)
Record Signer `{Crypto} := { signer_CAKeyID : uuid; signer_key : private_key }.

Record World `{Crypto} := {
  w_db : Db;
  w_serial_seq : Z;          (* certificate_serial_seq: the next value *)
  w_audit_seq : Z;           (* identity of audit_events: the next value *)
  w_uuid : N;                (* gen_random_uuid() calls so far *)
  w_random : N;              (* draws from crypto/rand so far *)
  w_now : Z;                 (* the clock *)
  w_ticks : list Z;          (* time that passes before each time.Now() *)
  w_faults : list bool;      (* failure schedule of the statements *)
  w_signers : gmap string Signer
}.

(** gen_random_uuid(): distinct calls give distinct identifiers. *)
Class UUIDs := {
  gen_uuid : N → uuid;
  gen_uuid_inj :: Inj (=) (=) gen_uuid
}.
Definition counting_uuids : UUIDs := {| gen_uuid n := n; gen_uuid_inj n m H := H |}.

(** ** Setters *)
Section setters.
Context `{Crypto}.

Definition set_db (db : Db) (w : World) : World := {|
  w_db := db; w_serial_seq := w_serial_seq w; w_audit_seq := w_audit_seq w;
  w_uuid := w_uuid w; w_random := w_random w; w_now := w_now w;
  w_ticks := w_ticks w; w_faults := w_faults w; w_signers := w_signers w |}.
Definition set_seqs (serial audit : Z) (u r : N) (w : World) : World := {|
  w_db := w_db w; w_serial_seq := serial; w_audit_seq := audit;
  w_uuid := u; w_random := r; w_now := w_now w;
  w_ticks := w_ticks w; w_faults := w_faults w; w_signers := w_signers w |}.
Definition set_clock (now : Z) (ticks : list Z) (w : World) : World := {|
  w_db := w_db w; w_serial_seq := w_serial_seq w; w_audit_seq := w_audit_seq w;
  w_uuid := w_uuid w; w_random := w_random w; w_now := now;
  w_ticks := ticks; w_faults := w_faults w; w_signers := w_signers w |}.
Definition set_faults (fs : list bool) (w : World) : World := {|
  w_db := w_db w; w_serial_seq := w_serial_seq w; w_audit_seq := w_audit_seq w;
  w_uuid := w_uuid w; w_random := w_random w; w_now := w_now w;
  w_ticks := w_ticks w; w_faults := fs; w_signers := w_signers w |}.
Definition set_signers (s : gmap string Signer) (w : World) : World := {|
  w_db := w_db w; w_serial_seq := w_serial_seq w; w_audit_seq := w_audit_seq w;
  w_uuid := w_uuid w; w_random := w_random w; w_now := w_now w;
  w_ticks := w_ticks w; w_faults := w_faults w; w_signers := s |}.
End setters.

(** A table: how to read and replace its rows. *)
Record Table (R : Type) := { rows : Db → list R; put_rows : list R → Db → Db }.
Arguments rows {R} t db.
Arguments put_rows {R} t l db.

Definition users_table : Table User := {| rows := users; put_rows l db := {|
    users := l; groups := groups db; user_groups := user_groups db;
    hosts := hosts db; host_tags := host_tags db; access_grants := access_grants db;
    ci_grants := ci_grants db; ca_keys := ca_keys db; service_accounts := service_accounts db;
    certificates := certificates db; audit_events := audit_events db; enrollment_tokens := enrollment_tokens db;
    host_sessions := host_sessions db |} |}.
Definition groups_table : Table Group := {| rows := groups; put_rows l db := {|
    users := users db; groups := l; user_groups := user_groups db;
    hosts := hosts db; host_tags := host_tags db; access_grants := access_grants db;
    ci_grants := ci_grants db; ca_keys := ca_keys db; service_accounts := service_accounts db;
    certificates := certificates db; audit_events := audit_events db; enrollment_tokens := enrollment_tokens db;
    host_sessions := host_sessions db |} |}.
Definition user_groups_table : Table UserGroup := {| rows := user_groups; put_rows l db := {|
    users := users db; groups := groups db; user_groups := l;
    hosts := hosts db; host_tags := host_tags db; access_grants := access_grants db;
    ci_grants := ci_grants db; ca_keys := ca_keys db; service_accounts := service_accounts db;
    certificates := certificates db; audit_events := audit_events db; enrollment_tokens := enrollment_tokens db;
    host_sessions := host_sessions db |} |}.
Definition hosts_table : Table Host := {| rows := hosts; put_rows l db := {|
    users := users db; groups := groups db; user_groups := user_groups db;
    hosts := l; host_tags := host_tags db; access_grants := access_grants db;
    ci_grants := ci_grants db; ca_keys := ca_keys db; service_accounts := service_accounts db;
    certificates := certificates db; audit_events := audit_events db; enrollment_tokens := enrollment_tokens db;
    host_sessions := host_sessions db |} |}.
Definition host_tags_table : Table HostTag := {| rows := host_tags; put_rows l db := {|
    users := users db; groups := groups db; user_groups := user_groups db;
    hosts := hosts db; host_tags := l; access_grants := access_grants db;
    ci_grants := ci_grants db; ca_keys := ca_keys db; service_accounts := service_accounts db;
    certificates := certificates db; audit_events := audit_events db; enrollment_tokens := enrollment_tokens db;
    host_sessions := host_sessions db |} |}.
Definition access_grants_table : Table AccessGrant := {| rows := access_grants; put_rows l db := {|
    users := users db; groups := groups db; user_groups := user_groups db;
    hosts := hosts db; host_tags := host_tags db; access_grants := l;
    ci_grants := ci_grants db; ca_keys := ca_keys db; service_accounts := service_accounts db;
    certificates := certificates db; audit_events := audit_events db; enrollment_tokens := enrollment_tokens db;
    host_sessions := host_sessions db |} |}.
Definition ci_grants_table : Table CIGrant := {| rows := ci_grants; put_rows l db := {|
    users := users db; groups := groups db; user_groups := user_groups db;
    hosts := hosts db; host_tags := host_tags db; access_grants := access_grants db;
    ci_grants := l; ca_keys := ca_keys db; service_accounts := service_accounts db;
    certificates := certificates db; audit_events := audit_events db; enrollment_tokens := enrollment_tokens db;
    host_sessions := host_sessions db |} |}.
Definition ca_keys_table : Table CAKey := {| rows := ca_keys; put_rows l db := {|
    users := users db; groups := groups db; user_groups := user_groups db;
    hosts := hosts db; host_tags := host_tags db; access_grants := access_grants db;
    ci_grants := ci_grants db; ca_keys := l; service_accounts := service_accounts db;
    certificates := certificates db; audit_events := audit_events db; enrollment_tokens := enrollment_tokens db;
    host_sessions := host_sessions db |} |}.
Definition service_accounts_table : Table ServiceAccount := {| rows := service_accounts; put_rows l db := {|
    users := users db; groups := groups db; user_groups := user_groups db;
    hosts := hosts db; host_tags := host_tags db; access_grants := access_grants db;
    ci_grants := ci_grants db; ca_keys := ca_keys db; service_accounts := l;
    certificates := certificates db; audit_events := audit_events db; enrollment_tokens := enrollment_tokens db;
    host_sessions := host_sessions db |} |}.
Definition certificates_table : Table Certificate := {| rows := certificates; put_rows l db := {|
    users := users db; groups := groups db; user_groups := user_groups db;
    hosts := hosts db; host_tags := host_tags db; access_grants := access_grants db;
    ci_grants := ci_grants db; ca_keys := ca_keys db; service_accounts := service_accounts db;
    certificates := l; audit_events := audit_events db; enrollment_tokens := enrollment_tokens db;
    host_sessions := host_sessions db |} |}.
Definition audit_events_table : Table AuditEvent := {| rows := audit_events; put_rows l db := {|
    users := users db; groups := groups db; user_groups := user_groups db;
    hosts := hosts db; host_tags := host_tags db; access_grants := access_grants db;
    ci_grants := ci_grants db; ca_keys := ca_keys db; service_accounts := service_accounts db;
    certificates := certificates db; audit_events := l; enrollment_tokens := enrollment_tokens db;
    host_sessions := host_sessions db |} |}.
Definition enrollment_tokens_table : Table EnrollmentToken := {| rows := enrollment_tokens; put_rows l db := {|
    users := users db; groups := groups db; user_groups := user_groups db;
    hosts := hosts db; host_tags := host_tags db; access_grants := access_grants db;
    ci_grants := ci_grants db; ca_keys := ca_keys db; service_accounts := service_accounts db;
    certificates := certificates db; audit_events := audit_events db; enrollment_tokens := l;
    host_sessions := host_sessions db |} |}.
Definition host_sessions_table : Table HostSession := {| rows := host_sessions; put_rows l db := {|
    users := users db; groups := groups db; user_groups := user_groups db;
    hosts := hosts db; host_tags := host_tags db; access_grants := access_grants db;
    ci_grants := ci_grants db; ca_keys := ca_keys db; service_accounts := service_accounts db;
    certificates := certificates db; audit_events := audit_events db; enrollment_tokens := enrollment_tokens db;
    host_sessions := l |} |}.
