(* ===== verification/Sql.v ===== *)
(** * The statement monad and SQL statements

    [M]: a computation over the [World] that returns a Go result. A failing
    computation keeps the effects it had, as Go code does; only a transaction
    ([BeginFunc], pgx.BeginFunc) rolls the database back. The SQL statements of
    the repository functions are functions on tables; [queryOne], [queryAll]
    and [execAffectingOne] are internal/store/query.go. *)
From S2P Require Export Database.

Local Open Scope string_scope.
Local Open Scope list_scope.

Definition M `{Crypto} (A : Type) : Type := World → result A * World.

Section monad.
Context `{Crypto}.

Definition ret {A} (a : A) : M A := λ w, (Ok a, w).
Definition fail {A} (e : error) : M A := λ w, (Err e, w).
Definition bind {A B} (m : M A) (k : A → M B) : M B := λ w,
  match m w with
  | (Ok a, w') => k a w'
  | (Err e, w') => (Err e, w')
  end.
(** The caller inspects the error instead of returning it. *)
Definition try {A} (m : M A) : M (result A) := λ w,
  let '(r, w') := m w in (Ok r, w').
(** [if err != nil { return fmt.Errorf("ctx: %w", err) }]. *)
Definition wrap {A} (ctx : string) (m : M A) : M A := λ w,
  match m w with
  | (Err e, w') => (Err (ErrWrap ctx e), w')
  | r => r
  end.
Definition lift {A} (r : result A) : M A :=
  match r with Ok a => ret a | Err e => fail e end.
(** [for _, x := range l { ... }] with an accumulator. *)
Fixpoint foldM {A B} (f : B → A → M B) (b : B) (l : list A) : M B :=
  match l with
  | [] => ret b
  | x :: l => bind (f b x) (λ b', foldM f b' l)
  end.
Definition gets {A} (f : World → A) : M A := λ w, (Ok (f w), w).
Definition modify (f : World → World) : M unit := λ w, (Ok (), f w).

(** [time.Now()]: time passes before the clock is read. *)
Definition time_Now : M Z := λ w,
  match w_ticks w with
  | [] => (Ok (w_now w), w)
  | t :: ts => let now := (w_now w + t)%Z in (Ok now, set_clock now ts w)
  end.
(** The next draw from crypto/rand. *)
Definition rand_next : M N := λ w,
  (Ok (w_random w),
   set_seqs (w_serial_seq w) (w_audit_seq w) (w_uuid w) (w_random w + 1)%N w).
End monad.

Notation "'let*' x ':=' m 'in' k" := (bind m (λ x, k))
  (at level 200, x name, m at level 100, k at level 200) : go_scope.
Notation "'let*' ' p ':=' m 'in' k" := (bind m (λ x, match x with p => k end))
  (at level 200, p strict pattern, m at level 100, k at level 200) : go_scope.
Notation "m ;; k" := (bind m (λ _, k))
  (at level 100, right associativity) : go_scope.
Open Scope go_scope.

Section sql.
Context `{Crypto} `{UUIDs}.

(** One statement: it may fail, as the failure schedule says. *)
Definition stmt {A} (k : M A) : M A := λ w,
  match w_faults w with
  | true :: fs => (Err (ErrDatabase "connection lost"), set_faults fs w)
  | false :: fs => k (set_faults fs w)
  | [] => k w
  end.

(** SELECT: any function of the database. *)
Definition sql_select {R} (q : Db → list R) : M (list R) :=
  stmt (λ w, (Ok (q (w_db w)), w)).

(** INSERT ... RETURNING: a fresh id, the current time, the constraints. *)
Definition sql_insert {R} (t : Table R) (mk : uuid → Z → R) (check : Db → R → bool)
    : M (list R) :=
  stmt (λ w,
    let row := mk (gen_uuid (w_uuid w)) (w_now w) in
    let w' := set_seqs (w_serial_seq w) (w_audit_seq w) (w_uuid w + 1)%N (w_random w) w in
    if check (w_db w) row
    then (Ok [row], set_db (put_rows t (rows t (w_db w) ++ [row]) (w_db w)) w')
    else (Err (ErrDatabase "constraint violated"), w')).

(** UPDATE ... WHERE p RETURNING: [f] gets the current time. *)
Definition sql_update {R} (t : Table R) (p : R → bool) (f : Z → R → R) (check : R → bool)
    : M (list R) :=
  stmt (λ w,
    let updated := List.map (f (w_now w)) (List.filter p (rows t (w_db w))) in
    if forallb check updated
    then (Ok updated,
          set_db (put_rows t (List.map (λ r, if p r then f (w_now w) r else r)
                                (rows t (w_db w))) (w_db w)) w)
    else (Err (ErrDatabase "constraint violated"), w)).

(** DELETE ... WHERE p RETURNING, with the ON DELETE CASCADE of the rows. *)
Definition sql_delete {R} (t : Table R) (p : R → bool) (cascade : list R → Db → Db)
    (check : list R → Db → bool) : M (list R) :=
  stmt (λ w,
    let deleted := List.filter p (rows t (w_db w)) in
    if check deleted (w_db w)
    then (Ok deleted,
          set_db (cascade deleted
            (put_rows t (List.filter (λ r, negb (p r)) (rows t (w_db w))) (w_db w))) w)
    else (Err (ErrDatabase "foreign key violated"), w)).

(** INSERT ... SELECT of several rows of a table without generated columns. *)
Definition sql_insert_rows {R} (t : Table R) (new : list R) (check : Db → list R → bool)
    : M (list R) :=
  stmt (λ w,
    if check (w_db w) new
    then (Ok new, set_db (put_rows t (rows t (w_db w) ++ new) (w_db w)) w)
    else (Err (ErrDatabase "constraint violated"), w)).

(** INSERT ... ON CONFLICT DO UPDATE RETURNING: the rows in conflict are
    updated, otherwise the new row is inserted. *)
Definition sql_upsert {R} (t : Table R) (mk : uuid → Z → R) (check : Db → R → bool)
    (conflict : R → bool) (f : Z → R → R) : M (list R) :=
  λ w, if existsb conflict (rows t (w_db w))
       then sql_update t conflict f (λ _, true) w
       else sql_insert t mk check w.

(** INSERT ... ON CONFLICT DO NOTHING RETURNING. *)
Definition sql_insert_or_nothing {R} (t : Table R) (mk : uuid → Z → R)
    (check : Db → R → bool) (conflict : R → bool) : M (list R) :=
  λ w, if existsb conflict (rows t (w_db w))
       then sql_select (λ _, []) w
       else sql_insert t mk check w.

Definition no_cascade {R} : list R → Db → Db := λ _ db, db.
Definition no_check {R} : list R → Db → bool := λ _ _, true.

(** [queryOne]: exactly one row; none is [ErrNotFound] ([notFound]). *)
Definition queryOne {R} (sql : M (list R)) : M R :=
  let* rs := sql in
  match rs with
  | [] => fail ErrNotFound
  | [r] => ret r
  | _ => fail (ErrDatabase "too many rows")
  end.

Definition queryAll {R} (q : Db → list R) : M (list R) := sql_select q.

Definition execAffectingOne {R} (sql : M (list R)) : M unit :=
  let* rs := sql in
  match rs with
  | [] => fail ErrNotFound
  | _ => ret ()
  end.

Definition exec {R} (sql : M (list R)) : M unit := let* rs := sql in ret ().

(** BEGIN, the body, COMMIT; any error rolls back what the body did to the
    database. Sequences and the clock do not roll back. The two functions
    are the context the caller adds to a failed BEGIN or COMMIT. *)
Definition transaction {A} (on_begin on_commit : error → error) (body : M A) : M A := λ w,
  match stmt (ret ()) w with
  | (Err e, w1) => (Err (on_begin e), w1)
  | (Ok _, w1) =>
      match body w1 with
      | (Err e, w2) => (Err e, set_db (w_db w) w2)
      | (Ok a, w2) =>
          match stmt (ret ()) w2 with
          | (Err e, w3) => (Err (on_commit e), set_db (w_db w) w3)
          | (Ok _, w3) => (Ok a, w3)
          end
      end
  end.

(** [pgx.BeginFunc]. *)
Definition BeginFunc {A} : M A → M A := transaction id id.
End sql.

(** ** Inversion of successful runs *)
Section inversion.
Context `{Crypto} `{UUIDs}.
Implicit Types w : World.

Lemma bind_Ok {A B} (m : M A) (k : A → M B) w b w' :
  bind m k w = (Ok b, w') ↔ ∃ a w1, m w = (Ok a, w1) ∧ k a w1 = (Ok b, w').
Proof. unfold bind. destruct (m w) as [[a|e] w1]; naive_solver. Qed.

Lemma bind_Err {A B} (m : M A) (k : A → M B) w e w' :
  bind m k w = (Err e, w') ↔
  m w = (Err e, w') ∨ ∃ a w1, m w = (Ok a, w1) ∧ k a w1 = (Err e, w').
Proof. unfold bind. destruct (m w) as [[a|e'] w1]; naive_solver. Qed.

Lemma ret_Ok {A} (a b : A) w w' : ret a w = (Ok b, w') ↔ a = b ∧ w = w'.
Proof. unfold ret. naive_solver. Qed.

Lemma fail_Ok {A} e (b : A) w w' : fail e w = (Ok b, w') ↔ False.
Proof. unfold fail. naive_solver. Qed.

Lemma lift_Ok {A} (r : result A) w a w' : lift r w = (Ok a, w') → r = Ok a ∧ w' = w.
Proof. destruct r; unfold lift, ret, fail; intros; by simplify_eq. Qed.

Lemma wrap_Ok {A} c (m : M A) w a w' : wrap c m w = (Ok a, w') ↔ m w = (Ok a, w').
Proof. unfold wrap. destruct (m w) as [[]]; split; intros; by simplify_eq. Qed.

Lemma try_run {A} (m : M A) w r w' : try m w = (Ok r, w') → m w = (r, w').
Proof. unfold try. destruct (m w); intros; by simplify_eq. Qed.

Lemma stmt_Ok {A} (k : M A) w a w' :
  stmt k w = (Ok a, w') → ∃ fs, k (set_faults fs w) = (Ok a, w').
Proof.
  unfold stmt. destruct (w_faults w) as [|[] fs] eqn:E; [|done|eauto].
  intros Hk. exists []. destruct w; simpl in *. by subst.
Qed.

Lemma stmt_nofault {A} (k : M A) w : w_faults w = [] → stmt k w = k w.
Proof. unfold stmt. by intros ->. Qed.

(** What a successful INSERT, UPDATE, DELETE or SELECT did. *)
Lemma sql_select_Ok {R} (q : Db → list R) w rs w' :
  sql_select q w = (Ok rs, w') → ∃ fs, rs = q (w_db w) ∧ w' = set_faults fs w.
Proof. intros [fs ?]%stmt_Ok. exists fs. by simplify_eq. Qed.

Lemma sql_insert_Ok {R} (t : Table R) mk check w rs w' :
  sql_insert t mk check w = (Ok rs, w') →
  ∃ fs, rs = [mk (gen_uuid (w_uuid w)) (w_now w)] ∧
    check (w_db w) (mk (gen_uuid (w_uuid w)) (w_now w)) = true ∧
    w' = set_db (put_rows t (rows t (w_db w) ++ rs) (w_db w))
           (set_seqs (w_serial_seq w) (w_audit_seq w) (w_uuid w + 1)%N (w_random w)
              (set_faults fs w)).
Proof.
  intros [fs Hk]%stmt_Ok. exists fs. simpl in Hk. case_match; simplify_eq; done.
Qed.

Lemma sql_update_Ok {R} (t : Table R) p f check w rs w' :
  sql_update t p f check w = (Ok rs, w') →
  ∃ fs, rs = List.map (f (w_now w)) (List.filter p (rows t (w_db w))) ∧
    forallb check rs = true ∧
    w' = set_db (put_rows t (List.map (λ r, if p r then f (w_now w) r else r)
           (rows t (w_db w))) (w_db w)) (set_faults fs w).
Proof.
  intros [fs Hk]%stmt_Ok. exists fs. simpl in Hk. case_match; simplify_eq; done.
Qed.

Lemma sql_update_Err {R} (t : Table R) p f check w e w' :
  sql_update t p f check w = (Err e, w') → ∃ fs, w' = set_faults fs w.
Proof.
  unfold sql_update, stmt. intros Hr. destruct (w_faults w) as [|[] fs] eqn:Ef.
  - simpl in Hr. destruct (forallb _ _); [done|]. injection Hr as _ <-. exists [].
    unfold set_faults. rewrite <-Ef. by destruct w.
  - injection Hr as _ <-. by exists fs.
  - simpl in Hr. destruct (forallb _ _); [done|]. injection Hr as _ <-. by exists fs.
Qed.

Lemma sql_delete_Ok {R} (t : Table R) p cascade check w rs w' :
  sql_delete t p cascade check w = (Ok rs, w') →
  ∃ fs, rs = List.filter p (rows t (w_db w)) ∧ check rs (w_db w) = true ∧
    w' = set_db (cascade rs (put_rows t
           (List.filter (λ r, negb (p r)) (rows t (w_db w))) (w_db w))) (set_faults fs w).
Proof.
  intros [fs Hk]%stmt_Ok. exists fs. simpl in Hk. case_match; simplify_eq; done.
Qed.

Lemma sql_insert_rows_Ok {R} (t : Table R) new check w rs w' :
  sql_insert_rows t new check w = (Ok rs, w') →
  ∃ fs, rs = new ∧ check (w_db w) new = true ∧
    w' = set_db (put_rows t (rows t (w_db w) ++ new) (w_db w)) (set_faults fs w).
Proof.
  intros [fs Hk]%stmt_Ok. exists fs. simpl in Hk. case_match; simplify_eq; done.
Qed.

Lemma queryOne_Ok {R} (sql : M (list R)) w r w' :
  queryOne sql w = (Ok r, w') ↔ sql w = (Ok [r], w').
Proof.
  unfold queryOne. rewrite bind_Ok. split.
  - intros (rs & w1 & -> & Hm). destruct rs as [|r' [|]]; unfold ret, fail in Hm; naive_solver.
  - intros ->. by exists [r], w'.
Qed.

Lemma stmt_ret_db w u w' : stmt (ret ()) w = (u, w') → w_db w' = w_db w.
Proof.
  unfold stmt, ret. destruct (w_faults w) as [|[]]; intros; by simplify_eq.
Qed.

Lemma transaction_Ok {A} f g (body : M A) w a w' :
  transaction f g body w = (Ok a, w') →
  ∃ fs fs' w1, body (set_faults fs w) = (Ok a, w1) ∧ w' = set_faults fs' w1.
Proof.
  unfold transaction. destruct (stmt (ret ()) w) as [[[]|] w1] eqn:E1; [|done].
  apply stmt_Ok in E1 as [fs [_ <-]%ret_Ok].
  destruct (body (set_faults fs w)) as [[a'|] w2] eqn:E2; [|done].
  destruct (stmt (ret ()) w2) as [[[]|] w3] eqn:E3; [|done].
  apply stmt_Ok in E3 as [fs' [_ <-]%ret_Ok]. intros; simplify_eq. eauto 6.
Qed.

(** A transaction is all or nothing. *)
Lemma transaction_Err {A} f g (body : M A) w e w' :
  transaction f g body w = (Err e, w') → w_db w' = w_db w.
Proof.
  unfold transaction. destruct (stmt (ret ()) w) as [[[]|] w1] eqn:E1.
  - destruct (body w1) as [[a'|] w2]; [|intros; by simplify_eq].
    destruct (stmt (ret ()) w2) as [[[]|] w3]; intros; by simplify_eq.
  - intros; simplify_eq. by eapply stmt_ret_db.
Qed.

Lemma transaction_nofault {A} f g (body : M A) w a w1 :
  w_faults w = [] → body w = (Ok a, w1) → w_faults w1 = [] →
  transaction f g body w = (Ok a, w1).
Proof.
  intros Hf Hb Hf1. unfold transaction. rewrite stmt_nofault by done. simpl.
  rewrite Hb. rewrite stmt_nofault by done. done.
Qed.
End inversion.

(** Decompose a successful run step by step. *)
Ltac run_step :=
  match goal with
  | H : bind _ _ _ = (Ok _, _) |- _ =>
      apply bind_Ok in H as (? & ? & ? & ?)
  | H : ret _ _ = (Ok _, _) |- _ => apply ret_Ok in H as [? ?]
  | H : fail _ _ = (Ok _, _) |- _ => by apply fail_Ok in H
  | H : wrap _ _ _ = (Ok _, _) |- _ => apply (proj1 (wrap_Ok _ _ _ _ _)) in H
  | H : try _ _ = (Ok _, _) |- _ => apply try_run in H
  | H : transaction _ _ _ _ = (Ok _, _) |- _ => apply transaction_Ok in H as (? & ? & ? & ? & ?)
  | H : BeginFunc _ _ = (Ok _, _) |- _ => apply transaction_Ok in H as (? & ? & ? & ? & ?)
  | H : queryOne _ _ = (Ok _, _) |- _ => apply queryOne_Ok in H
  | H : queryAll _ _ = (Ok _, _) |- _ => apply sql_select_Ok in H as (? & ? & ?)
  | H : sql_select _ _ = (Ok _, _) |- _ => apply sql_select_Ok in H as (? & ? & ?)
  | H : sql_insert _ _ _ _ = (Ok _, _) |- _ => apply sql_insert_Ok in H as (? & ? & ? & ?)
  | H : sql_insert_rows _ _ _ _ = (Ok _, _) |- _ => apply sql_insert_rows_Ok in H as (? & ? & ? & ?)
  | H : exec _ _ = (Ok _, _) |- _ => unfold exec in H
  | H : lift _ _ = (Ok _, _) |- _ => apply lift_Ok in H as [? ?]
  | H : sql_update _ _ _ _ _ = (Ok _, _) |- _ => apply sql_update_Ok in H as (? & ? & ? & ?)
  | H : sql_delete _ _ _ _ _ = (Ok _, _) |- _ => apply sql_delete_Ok in H as (? & ? & ? & ?)
  end.
Ltac run_all := repeat (run_step; simplify_eq/=).

(** ** Relations between the databases before and after

    [Keeps R m]: however [m] ends, the database it leaves is related to the
    one it found. Type class resolution derives it for composite operations. *)
Class Keeps `{Crypto} (R : relation Db) {A} (m : M A) : Prop :=
  keeps w : R (w_db w) (w_db (m w).2).

(** Replacing the rows of the table keeps the relation. *)
Class KeepsTable (R : relation Db) {A} (t : Table A) : Prop :=
  keeps_table l db : R db (put_rows t l db).

Class KeepsCascade (R : relation Db) {A} (c : list A → Db → Db) : Prop :=
  keeps_cascade l db : R db (c l db).

Section keeps.
Context `{Crypto} `{UUIDs} (R : relation Db) `{!PreOrder R}.

#[export] Instance keeps_ret {A} (a : A) : Keeps R (ret a).
Proof. intros w. simpl. reflexivity. Qed.
#[export] Instance keeps_fail {A} e : Keeps R (fail (A:=A) e).
Proof. intros w. simpl. reflexivity. Qed.
#[export] Instance keeps_lift {A} (r : result A) : Keeps R (lift r).
Proof. destruct r; apply _. Qed.
#[export] Instance keeps_gets {A} (f : World → A) : Keeps R (gets f).
Proof. intros w. simpl. reflexivity. Qed.
#[export] Instance keeps_time_Now : Keeps R time_Now.
Proof. intros w. unfold time_Now. destruct (w_ticks w); simpl; reflexivity. Qed.
#[export] Instance keeps_rand_next : Keeps R rand_next.
Proof. intros w. simpl. reflexivity. Qed.
#[export] Instance keeps_set_signers f :
  Keeps R (modify (λ w, set_signers (f (w_signers w)) w)).
Proof. intros w. simpl. reflexivity. Qed.

#[export] Instance keeps_bind {A B} (m : M A) (k : A → M B) :
  Keeps R m → (∀ a, Keeps R (k a)) → Keeps R (bind m k).
Proof.
  intros Hm Hk w. unfold bind. specialize (Hm w).
  destruct (m w) as [[a|e] w1]; simpl in *; [|done].
  etrans; [done|apply Hk].
Qed.
#[export] Instance keeps_try {A} (m : M A) : Keeps R m → Keeps R (try m).
Proof. intros Hm w. unfold try. specialize (Hm w). by destruct (m w). Qed.
#[export] Instance keeps_wrap {A} c (m : M A) : Keeps R m → Keeps R (wrap c m).
Proof. intros Hm w. unfold wrap. specialize (Hm w). by destruct (m w) as [[]]. Qed.
#[export] Instance keeps_foldM {A B} (f : B → A → M B) b l :
  (∀ b x, Keeps R (f b x)) → Keeps R (foldM f b l).
Proof. intros Hf. revert b. induction l; simpl; apply _. Qed.
#[export] Instance keeps_stmt {A} (k : M A) : Keeps R k → Keeps R (stmt k).
Proof.
  intros Hk w. unfold stmt. destruct (w_faults w) as [|[] fs]; simpl.
  - apply Hk.
  - reflexivity.
  - apply (Hk (set_faults fs w)).
Qed.
#[export] Instance keeps_select {A} (q : Db → list A) : Keeps R (sql_select q).
Proof. apply keeps_stmt. intros w. simpl. reflexivity. Qed.
#[export] Instance keeps_queryAll {A} (q : Db → list A) : Keeps R (queryAll q).
Proof. apply keeps_select. Qed.
#[export] Instance keeps_insert {A} (t : Table A) mk check :
  KeepsTable R t → Keeps R (sql_insert t mk check).
Proof.
  intros Ht. apply keeps_stmt. intros w. simpl. case_match; simpl; [apply Ht|reflexivity].
Qed.
#[export] Instance keeps_insert_rows {A} (t : Table A) new check :
  KeepsTable R t → Keeps R (sql_insert_rows t new check).
Proof.
  intros Ht. apply keeps_stmt. intros w. simpl. case_match; simpl; [apply Ht|reflexivity].
Qed.
#[export] Instance keeps_update {A} (t : Table A) p f check :
  KeepsTable R t → Keeps R (sql_update t p f check).
Proof.
  intros Ht. apply keeps_stmt. intros w. simpl. case_match; simpl; [apply Ht|reflexivity].
Qed.
#[export] Instance keeps_upsert {A} (t : Table A) mk check conflict f :
  KeepsTable R t → Keeps R (sql_upsert t mk check conflict f).
Proof.
  intros Ht w. unfold sql_upsert. case_match; [apply keeps_update|apply keeps_insert]; done.
Qed.
#[export] Instance keeps_insert_or_nothing {A} (t : Table A) mk check conflict :
  KeepsTable R t → Keeps R (sql_insert_or_nothing t mk check conflict).
Proof.
  intros Ht w. unfold sql_insert_or_nothing.
  case_match; [apply keeps_select|by apply keeps_insert].
Qed.
#[export] Instance keeps_delete {A} (t : Table A) p c check :
  KeepsTable R t → KeepsCascade R c → Keeps R (sql_delete t p c check).
Proof.
  intros Ht Hc. apply keeps_stmt. intros w. simpl. case_match; simpl; [|reflexivity].
  etrans; [apply Ht|apply Hc].
Qed.
#[export] Instance keeps_no_cascade {A} : KeepsCascade R (no_cascade (R:=A)).
Proof. intros l db. reflexivity. Qed.
#[export] Instance keeps_queryOne {A} (sql : M (list A)) :
  Keeps R sql → Keeps R (queryOne sql).
Proof.
  intros Hs. unfold queryOne. apply keeps_bind; [done|].
  intros [|? []]; apply _.
Qed.
#[export] Instance keeps_exec {A} (sql : M (list A)) : Keeps R sql → Keeps R (exec sql).
Proof. intros Hs. unfold exec. apply _. Qed.
#[export] Instance keeps_execAffectingOne {A} (sql : M (list A)) :
  Keeps R sql → Keeps R (execAffectingOne sql).
Proof. intros Hs. unfold execAffectingOne. apply keeps_bind; [done|]. intros []; apply _. Qed.
#[export] Instance keeps_transaction {A} f g (body : M A) :
  Keeps R body → Keeps R (transaction f g body).
Proof.
  intros Hb w. destruct (transaction f g body w) as [[a|e] w'] eqn:E; simpl.
  - apply transaction_Ok in E as (fs & fs' & w1 & E & ->).
    specialize (Hb (set_faults fs w)). rewrite E in Hb. done.
  - apply transaction_Err in E. rewrite E. reflexivity.
Qed.
#[export] Instance keeps_BeginFunc {A} (body : M A) :
  Keeps R body → Keeps R (BeginFunc body).
Proof. apply keeps_transaction. Qed.
End keeps.

(** ** What the statements leave alone

    No statement touches the signer cache, and identifiers are only drawn. *)
Class Frames `{Crypto} {A} (m : M A) : Prop :=
  frames w : w_signers (m w).2 = w_signers w ∧ (w_uuid w ≤ w_uuid (m w).2)%N.

Section frames.
Context `{Crypto} `{UUIDs}.

#[export] Instance frames_ret {A} (a : A) : Frames (ret a).
Proof. intros w. split; simpl; [done|lia]. Qed.
#[export] Instance frames_fail {A} e : Frames (fail (A:=A) e).
Proof. intros w. split; simpl; [done|lia]. Qed.
#[export] Instance frames_lift {A} (r : result A) : Frames (lift r).
Proof. destruct r; apply _. Qed.
#[export] Instance frames_gets {A} (f : World → A) : Frames (gets f).
Proof. intros w. split; simpl; [done|lia]. Qed.
#[export] Instance frames_time_Now : Frames time_Now.
Proof. intros w. unfold time_Now. destruct (w_ticks w); split; simpl; done || lia. Qed.
#[export] Instance frames_rand_next : Frames rand_next.
Proof. intros w. split; simpl; [done|lia]. Qed.
#[export] Instance frames_bind {A B} (m : M A) (k : A → M B) :
  Frames m → (∀ a, Frames (k a)) → Frames (bind m k).
Proof.
  intros Hm Hk w. unfold bind. destruct (Hm w) as [Hs Hu].
  destruct (m w) as [[a|e] w1]; simpl in *; [|done].
  destruct (Hk a w1) as [Hs' Hu']. split; [congruence|lia].
Qed.
#[export] Instance frames_try {A} (m : M A) : Frames m → Frames (try m).
Proof. intros Hm w. unfold try. specialize (Hm w). by destruct (m w). Qed.
#[export] Instance frames_wrap {A} c (m : M A) : Frames m → Frames (wrap c m).
Proof. intros Hm w. unfold wrap. specialize (Hm w). by destruct (m w) as [[]]. Qed.
#[export] Instance frames_foldM {A B} (f : B → A → M B) b l :
  (∀ b x, Frames (f b x)) → Frames (foldM f b l).
Proof. intros Hf. revert b. induction l; simpl; apply _. Qed.
#[export] Instance frames_stmt {A} (k : M A) : Frames k → Frames (stmt k).
Proof.
  intros Hk w. unfold stmt. destruct (w_faults w) as [|[] fs]; simpl.
  - apply Hk.
  - split; [done|lia].
  - apply (Hk (set_faults fs w)).
Qed.
#[export] Instance frames_select {A} (q : Db → list A) : Frames (sql_select q).
Proof. apply frames_stmt. intros w. split; simpl; [done|lia]. Qed.
#[export] Instance frames_insert {A} (t : Table A) mk check : Frames (sql_insert t mk check).
Proof. apply frames_stmt. intros w. simpl. case_match; split; simpl; done || lia. Qed.
#[export] Instance frames_update {A} (t : Table A) p f check : Frames (sql_update t p f check).
Proof. apply frames_stmt. intros w. simpl. case_match; split; simpl; done || lia. Qed.
#[export] Instance frames_delete {R} (t : Table R) p c check : Frames (sql_delete t p c check).
Proof. apply frames_stmt. intros w. simpl. case_match; split; simpl; done || lia. Qed.
#[export] Instance frames_insert_rows {R} (t : Table R) new check :
  Frames (sql_insert_rows t new check).
Proof. apply frames_stmt. intros w. simpl. case_match; split; simpl; done || lia. Qed.
#[export] Instance frames_exec {A} (sql : M (list A)) : Frames sql → Frames (exec sql).
Proof. intros Hs. unfold exec. apply _. Qed.
#[export] Instance frames_queryAll {A} (q : Db → list A) : Frames (queryAll q).
Proof. apply frames_select. Qed.
#[export] Instance frames_queryOne {A} (sql : M (list A)) : Frames sql → Frames (queryOne sql).
Proof. intros Hs. unfold queryOne. apply frames_bind; [done|]. intros [|? []]; apply _. Qed.
#[export] Instance frames_transaction {A} f g (body : M A) :
  Frames body → Frames (transaction f g body).
Proof.
  intros Hb w. unfold transaction.
  destruct (frames_stmt (ret ()) _ w) as [Hs Hu].
  destruct (stmt (ret ()) w) as [[u|e] w1]; simpl in *; [|done].
  destruct (Hb w1) as [Hs1 Hu1]. destruct (body w1) as [[a|e] w2]; simpl in *;
    [|split; simpl; [congruence|lia]].
  destruct (frames_stmt (ret ()) _ w2) as [Hs2 Hu2].
  destruct (stmt (ret ()) w2) as [[u'|e] w3]; simpl in *; split; simpl; congruence || lia.
Qed.
#[export] Instance frames_BeginFunc {A} (body : M A) : Frames body → Frames (BeginFunc body).
Proof. apply frames_transaction. Qed.
End frames.

(** The audit log only grows. *)
Definition audit_grows : relation Db :=
  λ db db', audit_events db `prefix_of` audit_events db'.
#[export] Instance audit_grows_preorder : PreOrder audit_grows.
Proof.
  split; [intros db; unfold audit_grows; reflexivity|].
  intros a b c. unfold audit_grows. intros. by etrans.
Qed.

Ltac untouched := intros l db; unfold audit_grows; simpl; reflexivity.
#[export] Instance users_audit : KeepsTable audit_grows users_table.
Proof. untouched. Qed.
#[export] Instance groups_audit : KeepsTable audit_grows groups_table.
Proof. untouched. Qed.
#[export] Instance user_groups_audit : KeepsTable audit_grows user_groups_table.
Proof. untouched. Qed.
#[export] Instance hosts_audit : KeepsTable audit_grows hosts_table.
Proof. untouched. Qed.
#[export] Instance host_tags_audit : KeepsTable audit_grows host_tags_table.
Proof. untouched. Qed.
#[export] Instance access_grants_audit : KeepsTable audit_grows access_grants_table.
Proof. untouched. Qed.
#[export] Instance ci_grants_audit : KeepsTable audit_grows ci_grants_table.
Proof. untouched. Qed.
#[export] Instance ca_keys_audit : KeepsTable audit_grows ca_keys_table.
Proof. untouched. Qed.
#[export] Instance service_accounts_audit : KeepsTable audit_grows service_accounts_table.
Proof. untouched. Qed.
#[export] Instance certificates_audit : KeepsTable audit_grows certificates_table.
Proof. untouched. Qed.
#[export] Instance enrollment_tokens_audit : KeepsTable audit_grows enrollment_tokens_table.
Proof. untouched. Qed.
#[export] Instance host_sessions_audit : KeepsTable audit_grows host_sessions_table.
Proof. untouched. Qed.

(** ** A concrete world for the examples

    Toy cryptography, counting identifiers from 100 on, no failures and a
    clock that stands still at hour 1000. *)
Definition toy_world (db : Db) : @World toy_crypto := {|
  w_db := db; w_serial_seq := 1; w_audit_seq := 1; w_uuid := 100; w_random := 0;
  w_now := (1000 * Hour)%Z; w_ticks := []; w_faults := []; w_signers := ∅ |}.

(** Alice (1) and Bob (2), the groups dev (10) and ops (11), host h1 (20). *)
Definition toy_user (id : uuid) (name : string) : User := {|
  user_ID := id; user_Issuer := "idp"; user_Subject := name; user_Username := name;
  user_Email := name +:+ "@example.org"; user_UID := None; user_GID := None;
  user_Active := true; user_CreatedAt := 0; user_UpdatedAt := 0 |}.
Definition toy_group (id : uuid) (name : string) : Group := {|
  group_ID := id; group_Issuer := "idp"; group_Name := name;
  group_ExternalID := None; group_CreatedAt := 0 |}.
Definition toy_host (id : uuid) (name : string) : Host := {|
  host_ID := id; host_Name := name; host_PublicKey := Some "ssh-toy h"; host_EnrolledAt := Some 0%Z;
  host_LastSeenAt := None; host_LastSeenAddr := None; host_CreatedAt := 0; host_UpdatedAt := 0 |}.
Definition toy_cakey (id : uuid) (purpose pub : string) : CAKey := {|
  cakey_ID := id; cakey_Purpose := purpose; cakey_Algorithm := "ed25519";
  cakey_PublicKey := pub; cakey_EncryptedPrivateKey := None;
  cakey_State := CAKeyStateActive; cakey_CreatedAt := 0; cakey_RetiredAt := None |}.
Definition toy_db : Db := {|
  users := [toy_user 1 "alice"; toy_user 2 "bob"];
  groups := [toy_group 10 "dev"; toy_group 11 "ops"];
  user_groups := [{| ug_UserID := 1%N; ug_GroupID := 10%N |}];
  hosts := [toy_host 20 "h1"];
  host_tags := [{| tag_HostID := 20%N; tag_Key := "env"; tag_Value := "prod" |}];
  access_grants := []; ci_grants := []; ca_keys := [toy_cakey 30 "user" "kuser"];
  service_accounts := []; certificates := []; audit_events := [];
  enrollment_tokens := []; host_sessions := [] |}.
