(* ===== verification/StoreAudit.v ===== *)
(** * Audit log and issued certificates (internal/store: audit.go,
    certificates.go, issuance.go) *)
From S2P Require Export Sql.

Local Open Scope string_scope.
Local Open Scope list_scope.

(** ** LIKE

    The SQL pattern language: a percent sign matches any string, an underscore
    any one character, a backslash escapes the next character. *)
Fixpoint like (pattern value : string) {struct pattern} : bool :=
  match pattern with
  | EmptyString => bool_decide (value = "")
  | String "%" p =>
      (fix any (v : string) : bool :=
         like p v || match v with EmptyString => false | String _ v' => any v' end) value
  | String "_" p =>
      match value with EmptyString => false | String _ v => like p v end
  | String "\" (String c p) =>
      match value with String d v => bool_decide (c = d) && like p v | _ => false end
  | String c p =>
      match value with String d v => bool_decide (c = d) && like p v | _ => false end
  end.

(** ILIKE on ASCII. *)
Definition ilike (pattern value : string) : bool := like (ToLower pattern) (ToLower value).

(** LIMIT NULLIF(n, 0) OFFSET k. *)
Definition limit_rows {R} (limit offset : nat) (l : list R) : list R :=
  let l := drop offset l in
  match limit with O => l | _ => take limit l end.

(** ** Audit events *)
Record AuditFilter := {
  filter_EventType : string; filter_Actor : string; filter_Search : string;
  filter_Since : Z; filter_Until : Z; filter_Limit : nat; filter_Offset : nat
}.

(** The arguments $1 to $5 of the WHERE clause ([auditFilterArgs]). *)
Definition auditFilterArgs (f : AuditFilter)
    : string * string * option Z * option Z * string :=
  let time t := if IsZero t then None else Some t in
  (filter_EventType f, filter_Actor f, time (filter_Since f), time (filter_Until f),
   filter_Search f).

(** The WHERE clause; [jsonb_text] is PostgreSQL's text form of a payload. *)
Definition auditFilterWhere (jsonb_text : json → string) (f : AuditFilter) (e : AuditEvent)
    : bool :=
  let '(a1, a2, a3, a4, a5) := auditFilterArgs f in
  (bool_decide (a1 = "") || bool_decide (audit_EventType e = a1)) &&
  (bool_decide (a2 = "") || bool_decide (audit_Actor e = a2)) &&
  match a3 with None => true | Some t => (t <=? audit_OccurredAt e)%Z end &&
  match a4 with None => true | Some t => (audit_OccurredAt e <=? t)%Z end &&
  (bool_decide (a5 = "") || ilike ("%" +:+ a5 +:+ "%") (audit_Actor e)
   || ilike ("%" +:+ a5 +:+ "%") (jsonb_text (audit_Payload e))).

(** ORDER BY occurred_at DESC, id DESC. *)
Definition audit_newest_first (a b : AuditEvent) : bool :=
  (audit_OccurredAt b <? audit_OccurredAt a)%Z ||
  ((audit_OccurredAt a =? audit_OccurredAt b)%Z && (audit_ID b <=? audit_ID a)%Z).

Section audit.
Context `{Crypto} `{UUIDs}.

(** An event to append: the store fills in the id. *)
Definition new_audit (eventType actor : string) (payload : json) : AuditEvent := {|
  audit_ID := 0; audit_OccurredAt := time_zero; audit_EventType := eventType;
  audit_Actor := actor; audit_Payload := payload |}.

Definition stored_audit (id now : Z) (e : AuditEvent) : AuditEvent := {|
  audit_ID := id;
  audit_OccurredAt := if IsZero (audit_OccurredAt e) then now else audit_OccurredAt e;
  audit_EventType := audit_EventType e; audit_Actor := audit_Actor e;
  audit_Payload := match audit_Payload e with JNull => JObj [] | j => j end |}.

Definition insertAuditEvent (e : AuditEvent) : M unit :=
  stmt (λ w,
    let row := stored_audit (w_audit_seq w) (w_now w) e in
    (Ok (), set_db (put_rows audit_events_table (audit_events (w_db w) ++ [row]) (w_db w))
      (set_seqs (w_serial_seq w) (w_audit_seq w + 1)%Z (w_uuid w) (w_random w) w))).

Definition AppendAuditEvent (e : AuditEvent) : M unit := insertAuditEvent e.

Definition ListAuditEvents (jsonb_text : json → string) (f : AuditFilter)
    : M (list AuditEvent) :=
  queryAll (λ db, limit_rows (filter_Limit f) (filter_Offset f)
    (sort_by audit_newest_first
       (List.filter (auditFilterWhere jsonb_text f) (audit_events db)))).

Definition CountAuditEvents (jsonb_text : json → string) (f : AuditFilter) : M Z :=
  let* rs := sql_select (λ db,
    [Z.of_nat (List.length (List.filter (auditFilterWhere jsonb_text f) (audit_events db)))]) in
  ret (hd 0%Z rs).

Definition ListAuditEventsAfter (afterID : Z) (limit : nat) : M (list AuditEvent) :=
  queryAll (λ db, take limit
    (sort_by (λ a b, (audit_ID a <=? audit_ID b)%Z)
       (List.filter (λ e, (afterID <? audit_ID e)%Z) (audit_events db)))).

Definition MaxAuditEventID : M Z :=
  let* rs := sql_select (λ db,
    [foldr Z.max 0%Z (List.map audit_ID (audit_events db))]) in
  ret (hd 0%Z rs).

(** ** Certificates *)
Definition NextCertificateSerial : M Z :=
  stmt (λ w, (Ok (w_serial_seq w),
    set_seqs (w_serial_seq w + 1)%Z (w_audit_seq w) (w_uuid w) (w_random w) w)).

(** A certificate row to insert: the store fills in id and timestamp. *)
Definition stored_certificate (id : uuid) (now : Z) (c : Certificate) : Certificate := {|
  crt_ID := id; crt_Serial := crt_Serial c; crt_KeyID := crt_KeyID c;
  crt_CertType := crt_CertType c; crt_PublicKey := crt_PublicKey c;
  crt_Principals := crt_Principals c; crt_ValidAfter := crt_ValidAfter c;
  crt_ValidBefore := crt_ValidBefore c; crt_CAKeyID := crt_CAKeyID c;
  crt_UserID := crt_UserID c; crt_ServiceAccountID := crt_ServiceAccountID c;
  crt_HostID := crt_HostID c;
  crt_IssuerContext := match crt_IssuerContext c with JNull => JObj [] | j => j end;
  crt_CreatedAt := now |}.

(** The table's constraints: unique serial, the CHECKs, the foreign keys. *)
Definition references {R} (ids : list R) (id_of : R → uuid) (r : option uuid) : bool :=
  match r with None => true | Some id => existsb (λ x, bool_decide (id_of x = id)) ids end.

Definition certificate_ok (db : Db) (c : Certificate) : bool :=
  negb (existsb (λ c', (crt_Serial c' =? crt_Serial c)%Z) (certificates db)) &&
  bool_decide (crt_CertType c = CertTypeUser ∨ crt_CertType c = CertTypeHost) &&
  (crt_ValidAfter c <? crt_ValidBefore c)%Z &&
  references (ca_keys db) cakey_ID (Some (crt_CAKeyID c)) &&
  references (users db) user_ID (crt_UserID c) &&
  references (service_accounts db) sa_ID (crt_ServiceAccountID c) &&
  references (hosts db) host_ID (crt_HostID c).

Definition insertCertificate (c : Certificate) : M Certificate :=
  queryOne (sql_insert certificates_table (λ id now, stored_certificate id now c)
    certificate_ok).

Definition CreateCertificate (c : Certificate) : M Certificate := insertCertificate c.

Definition GetCertificateBySerial (serial : Z) : M Certificate :=
  queryOne (sql_select (λ db,
    List.filter (λ c, (crt_Serial c =? serial)%Z) (certificates db))).

Definition ListCertificates (limit : nat) : M (list Certificate) :=
  queryAll (λ db, limit_rows limit 0
    (sort_by (λ a b, (crt_CreatedAt b <? crt_CreatedAt a)%Z ||
        ((crt_CreatedAt a =? crt_CreatedAt b)%Z && (crt_Serial b <=? crt_Serial a)%Z))
       (certificates db))).

(** [CreateCertificateWithAudit]: both rows in one transaction. *)
Definition CreateCertificateWithAudit (c : Certificate) (e : AuditEvent) : M Certificate :=
  transaction (ErrWrap "begin transaction") (ErrWrap "commit transaction")
    (let* stored := wrap "persist certificate" (insertCertificate c) in
     wrap "write audit event" (insertAuditEvent e) ;;
     ret stored).

(** ** Lemmas *)

Lemma insertAuditEvent_Ok e w u w' :
  insertAuditEvent e w = (Ok u, w') →
  ∃ fs, w' = set_db (put_rows audit_events_table
      (audit_events (w_db w) ++ [stored_audit (w_audit_seq w) (w_now w) e]) (w_db w))
    (set_seqs (w_serial_seq w) (w_audit_seq w + 1)%Z (w_uuid w) (w_random w)
       (set_faults fs w)).
Proof. intros [fs Hk]%stmt_Ok. exists fs. by simplify_eq/=. Qed.

Lemma references_spec {R} (l : list R) f id :
  references l f (Some id) = true ↔ ∃ r, r ∈ l ∧ f r = id.
Proof.
  unfold references. rewrite existsb_elem. by setoid_rewrite bool_decide_eq_true.
Qed.

(** Both rows, from the same transaction, or neither. *)
Lemma CreateCertificateWithAudit_Ok c e w stored w' :
  CreateCertificateWithAudit c e w = (Ok stored, w') →
  stored = stored_certificate (gen_uuid (w_uuid w)) (w_now w) c ∧
  certificate_ok (w_db w) stored = true ∧
  certificates (w_db w') = certificates (w_db w) ++ [stored] ∧
  audit_events (w_db w') =
    audit_events (w_db w) ++ [stored_audit (w_audit_seq w) (w_now w) e].
Proof.
  unfold CreateCertificateWithAudit, insertCertificate. intros Hr. run_all.
  apply insertAuditEvent_Ok in H2 as [? ->]. done.
Qed.
End audit.

(** Peel a successful insertAuditEvent. *)
Ltac audit_step :=
  match goal with
  | H : insertAuditEvent _ _ = (Ok _, _) |- _ => apply insertAuditEvent_Ok in H as (? & ?)
  end.
Ltac run_store := repeat (first [run_step | audit_step]; simplify_eq/=).

(** ** The audit log grows *)
#[export] Instance insertAuditEvent_audit `{Crypto} e : Keeps audit_grows (insertAuditEvent e).
Proof.
  apply keeps_stmt; [apply _|]. intros w. unfold audit_grows. simpl. by eexists.
Qed.
#[export] Instance NextCertificateSerial_audit `{Crypto} : Keeps audit_grows NextCertificateSerial.
Proof. apply keeps_stmt; [apply _|]. intros w. simpl. reflexivity. Qed.
#[export] Instance insertCertificate_audit `{Crypto} `{UUIDs} c :
  Keeps audit_grows (insertCertificate c).
Proof. unfold insertCertificate. apply _. Qed.
#[export] Instance CreateCertificateWithAudit_audit `{Crypto} `{UUIDs} c e :
  Keeps audit_grows (CreateCertificateWithAudit c e).
Proof. unfold CreateCertificateWithAudit. apply _. Qed.

#[export] Instance insertAuditEvent_frames `{Crypto} e : Frames (insertAuditEvent e).
Proof. apply frames_stmt. intros w. split; simpl; [done|lia]. Qed.
#[export] Instance NextCertificateSerial_frames `{Crypto} : Frames NextCertificateSerial.
Proof. apply frames_stmt. intros w. split; simpl; [done|lia]. Qed.
#[export] Instance CreateCertificateWithAudit_frames `{Crypto} `{UUIDs} c e :
  Frames (CreateCertificateWithAudit c e).
Proof. unfold CreateCertificateWithAudit, insertCertificate. apply _. Qed.

(** A certificate row and its audit event are written together or not at
    all, whatever statement or commit of the transaction fails: on success
    both tables gain exactly their row and every constraint of the table held,
    on any error the database is the one before the call. *)
Theorem certificate_and_audit_atomic `{Crypto} `{UUIDs} c e w r w' :
  CreateCertificateWithAudit c e w = (r, w') →
  match r with
  | Ok stored =>
      stored = stored_certificate (gen_uuid (w_uuid w)) (w_now w) c ∧
      certificate_ok (w_db w) stored = true ∧
      certificates (w_db w') = certificates (w_db w) ++ [stored] ∧
      audit_events (w_db w') =
        audit_events (w_db w) ++ [stored_audit (w_audit_seq w) (w_now w) e]
  | Err _ => w_db w' = w_db w
  end.
Proof.
  destruct r as [stored|err]; intros Hr.
  - by apply CreateCertificateWithAudit_Ok.
  - by eapply transaction_Err.
Qed.

Definition toy_certificate : Certificate := {|
  crt_ID := 0; crt_Serial := 7; crt_KeyID := "user:alice@idp"; crt_CertType := CertTypeUser;
  crt_PublicKey := "ssh-toy k"; crt_Principals := ["alice"]; crt_ValidAfter := 10;
  crt_ValidBefore := 20; crt_CAKeyID := 30; crt_UserID := Some 1%N;
  crt_ServiceAccountID := None; crt_HostID := None; crt_IssuerContext := JNull;
  crt_CreatedAt := 0 |}.

Lemma certificate_and_audit_atomic_witness :
  ∃ w', CreateCertificateWithAudit (H0:=counting_uuids) toy_certificate
          (new_audit "ca.cert_issued" "alice" JNull) (toy_world toy_db)
        = (Ok (stored_certificate 100 (1000 * Hour) toy_certificate), w') ∧
    certificates (w_db w') = [stored_certificate 100 (1000 * Hour) toy_certificate].
Proof.
  eexists. split; [vm_compute; reflexivity|].
  apply (certificate_and_audit_atomic (H0:=counting_uuids) toy_certificate
    (new_audit "ca.cert_issued" "alice" JNull) (toy_world toy_db) (Ok _) _ eq_refl).
Defined.
