(* ===== verification/StoreIdentity.v ===== *)
(** * Identities and hosts (internal/store: users.go, groups.go,
    service_accounts.go, hosts.go)

    The repository functions of users, groups, service accounts and hosts,
    with the constraints of the migrations: unique keys, foreign keys and the
    ON DELETE rules. *)
From S2P Require Export StoreAudit.

Local Open Scope string_scope.
Local Open Scope list_scope.

(** ** Constraints and cascades of the tables *)
Definition user_unique (db : Db) (u : User) : bool :=
  negb (existsb (λ u', bool_decide (user_Issuer u' = user_Issuer u) &&
                       bool_decide (user_Subject u' = user_Subject u)) (users db)).
Definition group_unique (db : Db) (g : Group) : bool :=
  negb (existsb (λ g', bool_decide (group_Issuer g' = group_Issuer g) &&
                       bool_decide (group_Name g' = group_Name g)) (groups db)).
Definition host_unique (db : Db) (h : Host) : bool :=
  negb (existsb (λ h', bool_decide (host_Name h' = host_Name h)) (hosts db)).
Definition sa_unique (db : Db) (a : ServiceAccount) : bool :=
  negb (existsb (λ a', bool_decide (sa_Name a' = sa_Name a)) (service_accounts db)).

(** user_groups: primary key and foreign keys. *)
Definition memberships_ok (db : Db) (new : list UserGroup) : bool :=
  bool_decide (NoDup (user_groups db ++ new)) &&
  forallb (λ m, references (users db) user_ID (Some (ug_UserID m)) &&
                references (groups db) group_ID (Some (ug_GroupID m))) new.
(** host_tags: primary key (host, key) and foreign key. *)
Definition tag_key (t : HostTag) : uuid * string := (tag_HostID t, tag_Key t).
Definition tags_ok (db : Db) (new : list HostTag) : bool :=
  bool_decide (NoDup (tag_key <$> host_tags db ++ new)) &&
  forallb (λ t, references (hosts db) host_ID (Some (tag_HostID t))) new.

Definition is_one_of {R} (id_of : R → uuid) (deleted : list R) (id : uuid) : bool :=
  existsb (λ r, bool_decide (id_of r = id)) deleted.
Definition opt_one_of {R} (id_of : R → uuid) (deleted : list R) (id : option uuid) : bool :=
  match id with None => false | Some id => is_one_of id_of deleted id end.

Definition users_cascade (deleted : list User) (db : Db) : Db :=
  put_rows user_groups_table
    (List.filter (λ m, negb (is_one_of user_ID deleted (ug_UserID m))) (user_groups db)) db.
Definition users_deletable (deleted : list User) (db : Db) : bool :=
  negb (existsb (λ c, opt_one_of user_ID deleted (crt_UserID c)) (certificates db)) &&
  negb (existsb (λ s, opt_one_of user_ID deleted (session_UserID s)) (host_sessions db)).

Definition groups_cascade (deleted : list Group) (db : Db) : Db :=
  let db := put_rows user_groups_table
    (List.filter (λ m, negb (is_one_of group_ID deleted (ug_GroupID m))) (user_groups db)) db in
  put_rows access_grants_table
    (List.filter (λ g, negb (is_one_of group_ID deleted (grant_GroupID g))) (access_grants db)) db.

Definition hosts_cascade (deleted : list Host) (db : Db) : Db :=
  let db := put_rows host_tags_table
    (List.filter (λ t, negb (is_one_of host_ID deleted (tag_HostID t))) (host_tags db)) db in
  put_rows host_sessions_table
    (List.filter (λ s, negb (is_one_of host_ID deleted (session_HostID s))) (host_sessions db)) db.
Definition hosts_deletable (deleted : list Host) (db : Db) : bool :=
  negb (existsb (λ c, opt_one_of host_ID deleted (crt_HostID c)) (certificates db)) &&
  negb (existsb (λ t, opt_one_of host_ID deleted (token_UsedBy t)) (enrollment_tokens db)).

Definition sa_deletable (deleted : list ServiceAccount) (db : Db) : bool :=
  negb (existsb (λ c, opt_one_of sa_ID deleted (crt_ServiceAccountID c)) (certificates db)).

(** ORDER BY a text column (in byte order), then the id. *)
Definition by_text {R} (text : R → string) (id_of : R → uuid) (a b : R) : bool :=
  String.ltb (text a) (text b) ||
  (bool_decide (text a = text b) && (id_of a <=? id_of b)%N).

Section identity.
Context `{Crypto} `{UUIDs}.

(** ** Users (users.go) *)
Definition user_row (u : User) (id : uuid) (now : Z) : User := {|
  user_ID := id; user_Issuer := user_Issuer u; user_Subject := user_Subject u;
  user_Username := user_Username u; user_Email := user_Email u;
  user_UID := user_UID u; user_GID := user_GID u; user_Active := user_Active u;
  user_CreatedAt := now; user_UpdatedAt := now |}.

Definition CreateUser (u : User) : M User :=
  queryOne (sql_insert users_table (user_row u) user_unique).
Definition GetUser (id : uuid) : M User :=
  queryOne (sql_select (λ db, List.filter (λ u, bool_decide (user_ID u = id)) (users db))).
Definition GetUserBySubject (issuer subject : string) : M User :=
  queryOne (sql_select (λ db,
    List.filter (λ u, bool_decide (user_Issuer u = issuer) &&
                      bool_decide (user_Subject u = subject)) (users db))).
Definition ListUsers : M (list User) :=
  queryAll (λ db, sort_by (by_text user_Username user_ID) (users db)).

(** The group names of a user, as [ListUsersDetailed] aggregates them. *)
Definition member_of (db : Db) (user group : uuid) : bool :=
  existsb (λ m, bool_decide (ug_UserID m = user) && bool_decide (ug_GroupID m = group))
    (user_groups db).
Definition groups_of_user (db : Db) (user : uuid) : list Group :=
  List.filter (λ g, member_of db user (group_ID g)) (groups db).
Definition ListUsersDetailed : M (list (User * list string)) :=
  queryAll (λ db,
    List.map (λ u, (u, sort_by String.leb (List.map group_Name (groups_of_user db (user_ID u)))))
      (sort_by (by_text user_Username user_ID) (users db))).

(** The columns UPDATE sets; issuer, subject and creation time stay. *)
Definition user_update (u : User) (now : Z) (old : User) : User := {|
  user_ID := user_ID old; user_Issuer := user_Issuer old; user_Subject := user_Subject old;
  user_Username := user_Username u; user_Email := user_Email u;
  user_UID := user_UID u; user_GID := user_GID u; user_Active := user_Active u;
  user_CreatedAt := user_CreatedAt old; user_UpdatedAt := now |}.
Definition UpdateUser (u : User) : M User :=
  queryOne (sql_update users_table (λ x, bool_decide (user_ID x = user_ID u))
    (user_update u) (λ _, true)).
Definition DeleteUser (id : uuid) : M unit :=
  execAffectingOne (sql_delete users_table (λ x, bool_decide (user_ID x = id))
    users_cascade users_deletable).

Definition SetUserGroups (userID : uuid) (groupIDs : list uuid) : M unit :=
  BeginFunc (
    exec (sql_delete user_groups_table (λ m, bool_decide (ug_UserID m = userID))
      no_cascade no_check) ;;
    exec (sql_insert_rows user_groups_table
      (List.map (λ g, {| ug_UserID := userID; ug_GroupID := g |}) groupIDs) memberships_ok)).
Definition ListUserGroups (userID : uuid) : M (list Group) :=
  queryAll (λ db, sort_by (by_text group_Name group_ID) (groups_of_user db userID)).

(** ** Groups (groups.go) *)
Definition group_row (g : Group) (id : uuid) (now : Z) : Group := {|
  group_ID := id; group_Issuer := group_Issuer g; group_Name := group_Name g;
  group_ExternalID := group_ExternalID g; group_CreatedAt := now |}.

Definition CreateGroup (g : Group) : M Group :=
  queryOne (sql_insert groups_table (group_row g) group_unique).
Definition GetGroup (id : uuid) : M Group :=
  queryOne (sql_select (λ db, List.filter (λ g, bool_decide (group_ID g = id)) (groups db))).
Definition groups_named (db : Db) (issuer name : string) : list Group :=
  List.filter (λ g, bool_decide (group_Issuer g = issuer) &&
                    bool_decide (group_Name g = name)) (groups db).
Definition GetGroupByName (issuer name : string) : M Group :=
  queryOne (sql_select (λ db, groups_named db issuer name)).
Definition ListGroups : M (list Group) :=
  queryAll (λ db, sort_by (by_text group_Name group_ID) (groups db)).
Definition DeleteGroup (id : uuid) : M unit :=
  execAffectingOne (sql_delete groups_table (λ g, bool_decide (group_ID g = id))
    groups_cascade no_check).

(** ** Service accounts (service_accounts.go) *)
Definition EventServiceAccountUpdated := "service_account.updated".
Definition KindGitLabCI := "gitlab-ci".

Definition sa_row (a : ServiceAccount) (id : uuid) (now : Z) : ServiceAccount := {|
  sa_ID := id; sa_Name := sa_Name a; sa_Kind := sa_Kind a; sa_Issuer := sa_Issuer a;
  sa_ClaimMatcher := sa_ClaimMatcher a; sa_Active := sa_Active a;
  sa_CreatedAt := now; sa_UpdatedAt := now |}.
Definition sa_with (kind issuer : string) (matcher : gmap string string) (active : bool)
    (now : Z) (old : ServiceAccount) : ServiceAccount := {|
  sa_ID := sa_ID old; sa_Name := sa_Name old; sa_Kind := kind; sa_Issuer := issuer;
  sa_ClaimMatcher := matcher; sa_Active := active;
  sa_CreatedAt := sa_CreatedAt old; sa_UpdatedAt := now |}.

Definition CreateServiceAccount (a : ServiceAccount) : M ServiceAccount :=
  queryOne (sql_insert service_accounts_table (sa_row a) sa_unique).

(** ON CONFLICT (name) only touches updated_at: the active flag stays. *)
Definition EnsureCIServiceAccount (issuer projectPath : string) : M ServiceAccount :=
  queryOne (sql_upsert service_accounts_table
    (sa_row {| sa_ID := 0%N; sa_Name := projectPath; sa_Kind := KindGitLabCI;
       sa_Issuer := issuer; sa_ClaimMatcher := {["project_path" := projectPath]};
       sa_Active := true; sa_CreatedAt := 0; sa_UpdatedAt := 0 |})
    sa_unique
    (λ a, bool_decide (sa_Name a = projectPath))
    (λ now a, sa_with (sa_Kind a) (sa_Issuer a) (sa_ClaimMatcher a) (sa_Active a) now a)).

Definition GetServiceAccount (id : uuid) : M ServiceAccount :=
  queryOne (sql_select (λ db,
    List.filter (λ a, bool_decide (sa_ID a = id)) (service_accounts db))).
Definition GetServiceAccountByName (name : string) : M ServiceAccount :=
  queryOne (sql_select (λ db,
    List.filter (λ a, bool_decide (sa_Name a = name)) (service_accounts db))).
Definition ListServiceAccounts : M (list ServiceAccount) :=
  queryAll (λ db, sort_by (by_text sa_Name sa_ID) (service_accounts db)).
Definition UpdateServiceAccount (a : ServiceAccount) : M ServiceAccount :=
  queryOne (sql_update service_accounts_table (λ x, bool_decide (sa_ID x = sa_ID a))
    (sa_with (sa_Kind a) (sa_Issuer a) (sa_ClaimMatcher a) (sa_Active a)) (λ _, true)).

Definition SetServiceAccountActive (actor : string) (id : uuid) (active : bool)
    : M ServiceAccount :=
  BeginFunc (
    let* u := queryOne (sql_update service_accounts_table (λ x, bool_decide (sa_ID x = id))
      (λ now a, sa_with (sa_Kind a) (sa_Issuer a) (sa_ClaimMatcher a) active now a)
      (λ _, true)) in
    insertAuditEvent (new_audit EventServiceAccountUpdated actor (JObj [
      ("active", JBool (sa_Active u)); ("kind", JStr (sa_Kind u));
      ("name", JStr (sa_Name u)); ("service_account_id", JNum (Z.of_N (sa_ID u)))])) ;;
    ret u).
Definition DeleteServiceAccount (id : uuid) : M unit :=
  execAffectingOne (sql_delete service_accounts_table (λ x, bool_decide (sa_ID x = id))
    no_cascade sa_deletable).

(** ** Hosts (hosts.go) *)
Definition host_row (h : Host) (id : uuid) (now : Z) : Host := {|
  host_ID := id; host_Name := host_Name h; host_PublicKey := host_PublicKey h;
  host_EnrolledAt := host_EnrolledAt h; host_LastSeenAt := host_LastSeenAt h;
  host_LastSeenAddr := None; host_CreatedAt := now; host_UpdatedAt := now |}.
Definition host_update (h : Host) (now : Z) (old : Host) : Host := {|
  host_ID := host_ID old; host_Name := host_Name old; host_PublicKey := host_PublicKey h;
  host_EnrolledAt := host_EnrolledAt h; host_LastSeenAt := host_LastSeenAt h;
  host_LastSeenAddr := host_LastSeenAddr old; host_CreatedAt := host_CreatedAt old;
  host_UpdatedAt := now |}.

Definition CreateHost (h : Host) : M Host :=
  queryOne (sql_insert hosts_table (host_row h) host_unique).
Definition GetHost (id : uuid) : M Host :=
  queryOne (sql_select (λ db, List.filter (λ h, bool_decide (host_ID h = id)) (hosts db))).
Definition GetHostByName (name : string) : M Host :=
  queryOne (sql_select (λ db, List.filter (λ h, bool_decide (host_Name h = name)) (hosts db))).
Definition ListHosts : M (list Host) :=
  queryAll (λ db, sort_by (by_text host_Name host_ID) (hosts db)).
Definition UpdateHost (h : Host) : M Host :=
  queryOne (sql_update hosts_table (λ x, bool_decide (host_ID x = host_ID h))
    (host_update h) (λ _, true)).
Definition DeleteHost (id : uuid) : M unit :=
  execAffectingOne (sql_delete hosts_table (λ x, bool_decide (host_ID x = id))
    hosts_cascade hosts_deletable).

(** jsonb_each_text: one row per entry of the JSON object. *)
Definition tag_rows (hostID : uuid) (tags : gmap string string) : list HostTag :=
  List.map (λ '(k, v), {| tag_HostID := hostID; tag_Key := k; tag_Value := v |})
    (map_to_list tags).
Definition replace_tags (hostID : uuid) (ctx : string) (tags : gmap string string) : M unit :=
  exec (sql_delete host_tags_table (λ t, bool_decide (tag_HostID t = hostID))
    no_cascade no_check) ;;
  (if bool_decide (ctx = "") then id else wrap ctx)
    (exec (sql_insert_rows host_tags_table (tag_rows hostID tags) tags_ok)).
Definition SetHostTags (hostID : uuid) (tags : gmap string string) : M unit :=
  BeginFunc (replace_tags hostID "" tags).

(** The tags of a host as a map: GetHostTags and jsonb_object_agg. *)
Definition tags_of_host (db : Db) (hostID : uuid) : gmap string string :=
  list_to_map (List.map (λ t, (tag_Key t, tag_Value t))
    (List.filter (λ t, bool_decide (tag_HostID t = hostID)) (host_tags db))).
Definition GetHostTags (hostID : uuid) : M (gmap string string) :=
  let* rs := sql_select (λ db, [tags_of_host db hostID]) in
  ret (hd ∅ rs).

(** The latest valid_before of the host's certificates. *)
Definition cert_valid_before (db : Db) (hostID : uuid) : option Z :=
  match List.filter (λ c, bool_decide (crt_HostID c = Some hostID) &&
                          bool_decide (crt_CertType c = CertTypeHost)) (certificates db) with
  | [] => None
  | c :: cs => Some (foldr Z.max (crt_ValidBefore c) (List.map crt_ValidBefore cs))
  end.
Definition ListHostsDetailed : M (list (Host * gmap string string * option Z)) :=
  queryAll (λ db,
    List.map (λ h, (h, tags_of_host db (host_ID h), cert_valid_before db (host_ID h)))
      (sort_by (by_text host_Name host_ID) (hosts db))).
End identity.

(** ** Lemmas *)
Lemma member_of_spec db u g :
  member_of db u g = true ↔ {| ug_UserID := u; ug_GroupID := g |} ∈ user_groups db.
Proof.
  unfold member_of. rewrite existsb_elem. split.
  - intros ([u' g'] & Hm & Hb). bool_to_prop. simpl in *. by subst.
  - intros Hm. eexists. split; [done|]. simpl. by rewrite !bool_decide_true.
Qed.

Lemma tags_of_tag_rows hostID tags :
  (λ t, (tag_Key t, tag_Value t)) <$> tag_rows hostID tags = map_to_list tags.
Proof.
  unfold tag_rows. change (List.map ?f ?l) with (f <$> l).
  rewrite <-list_fmap_compose. trans (id <$> map_to_list tags); [|apply list_fmap_id].
  apply list_fmap_ext. by intros ? [k v] _.
Qed.

(** Replacing the tag rows of a host replaces its tags and no others'. *)
Lemma tags_of_replaced db hostID tags :
  let l := List.filter (λ t, negb (bool_decide (tag_HostID t = hostID))) (host_tags db) ++
           tag_rows hostID tags in
  tags_of_host (put_rows host_tags_table l db) hostID = tags ∧
  ∀ h, h ≠ hostID → tags_of_host (put_rows host_tags_table l db) h = tags_of_host db h.
Proof.
  intros l. unfold tags_of_host. simpl. unfold l. rewrite List.filter_app.
  assert (∀ t, t ∈ tag_rows hostID tags → tag_HostID t = hostID) as Hrows.
  { unfold tag_rows. intros t ([k v] & -> & _)%list_elem_of_fmap. done. }
  split.
  - rewrite filter_false, (filter_true _ (tag_rows _ _)).
    + simpl. setoid_rewrite tags_of_tag_rows. apply list_to_map_to_list.
    + intros t Ht. by rewrite bool_decide_true by eauto.
    + intros t [Ht Hb]%filter_bool_In. bool_to_prop. by rewrite bool_decide_false.
  - intros h Hh. rewrite List.filter_app, (filter_false _ (tag_rows _ _)), app_nil_r.
    + rewrite filter_filter; [done|]. intros t Ht. bool_to_prop.
      by rewrite bool_decide_false by congruence.
    + intros t Ht. rewrite bool_decide_false; [done|]. rewrite (Hrows _ Ht). done.
Qed.

Section audit_instances.
Context `{Crypto} `{UUIDs}.

#[export] Instance users_cascade_audit : KeepsCascade audit_grows users_cascade.
Proof. intros l db. unfold audit_grows. simpl. reflexivity. Qed.
#[export] Instance groups_cascade_audit : KeepsCascade audit_grows groups_cascade.
Proof. intros l db. unfold audit_grows. simpl. reflexivity. Qed.
#[export] Instance hosts_cascade_audit : KeepsCascade audit_grows hosts_cascade.
Proof. intros l db. unfold audit_grows. simpl. reflexivity. Qed.

#[export] Instance CreateUser_audit u : Keeps audit_grows (CreateUser u).
Proof. unfold CreateUser. apply _. Qed.
#[export] Instance GetUserBySubject_audit i s : Keeps audit_grows (GetUserBySubject i s).
Proof. unfold GetUserBySubject. apply _. Qed.
#[export] Instance ListUsers_audit : Keeps audit_grows ListUsers.
Proof. unfold ListUsers. apply _. Qed.
#[export] Instance UpdateUser_audit u : Keeps audit_grows (UpdateUser u).
Proof. unfold UpdateUser. apply _. Qed.
#[export] Instance DeleteUser_audit u : Keeps audit_grows (DeleteUser u).
Proof. unfold DeleteUser. apply _. Qed.
#[export] Instance SetUserGroups_audit u ids : Keeps audit_grows (SetUserGroups u ids).
Proof. unfold SetUserGroups. apply _. Qed.
#[export] Instance CreateGroup_audit g : Keeps audit_grows (CreateGroup g).
Proof. unfold CreateGroup. apply _. Qed.
#[export] Instance GetGroupByName_audit i n : Keeps audit_grows (GetGroupByName i n).
Proof. unfold GetGroupByName. apply _. Qed.
#[export] Instance DeleteGroup_audit g : Keeps audit_grows (DeleteGroup g).
Proof. unfold DeleteGroup. apply _. Qed.
#[export] Instance EnsureCIServiceAccount_audit i p :
  Keeps audit_grows (EnsureCIServiceAccount i p).
Proof. unfold EnsureCIServiceAccount. apply _. Qed.
#[export] Instance SetServiceAccountActive_audit a i b :
  Keeps audit_grows (SetServiceAccountActive a i b).
Proof. unfold SetServiceAccountActive. apply _. Qed.
#[export] Instance CreateServiceAccount_audit a : Keeps audit_grows (CreateServiceAccount a).
Proof. unfold CreateServiceAccount. apply _. Qed.
#[export] Instance UpdateServiceAccount_audit a : Keeps audit_grows (UpdateServiceAccount a).
Proof. unfold UpdateServiceAccount. apply _. Qed.
#[export] Instance DeleteServiceAccount_audit a : Keeps audit_grows (DeleteServiceAccount a).
Proof. unfold DeleteServiceAccount. apply _. Qed.
#[export] Instance CreateHost_audit h : Keeps audit_grows (CreateHost h).
Proof. unfold CreateHost. apply _. Qed.
#[export] Instance UpdateHost_audit h : Keeps audit_grows (UpdateHost h).
Proof. unfold UpdateHost. apply _. Qed.
#[export] Instance DeleteHost_audit h : Keeps audit_grows (DeleteHost h).
Proof. unfold DeleteHost. apply _. Qed.
#[export] Instance replace_tags_audit h c t : Keeps audit_grows (replace_tags h c t).
Proof. unfold replace_tags. case_bool_decide; apply _. Qed.
#[export] Instance SetHostTags_audit h t : Keeps audit_grows (SetHostTags h t).
Proof. unfold SetHostTags. apply _. Qed.
End audit_instances.

(** ** Properties *)
Section properties.
Context `{Crypto} `{UUIDs}.

Lemma SetUserGroups_Ok userID ids w u w' :
  SetUserGroups userID ids w = (Ok u, w') →
  NoDup ids ∧
  user_groups (w_db w') =
    List.filter (λ m, negb (bool_decide (ug_UserID m = userID))) (user_groups (w_db w)) ++
    List.map (λ g, {| ug_UserID := userID; ug_GroupID := g |}) ids ∧
  users (w_db w') = users (w_db w) ∧ groups (w_db w') = groups (w_db w) ∧
  audit_events (w_db w') = audit_events (w_db w).
Proof.
  unfold SetUserGroups. intros Hr. run_all. split; [|done].
  unfold memberships_ok in *. bool_to_prop. simpl in *.
  match goal with Hn : NoDup _ |- _ => apply list.NoDup_app in Hn as (_ & _ & Hn) end.
  by eapply NoDup_fmap_1.
Qed.
End properties.

(** [SetUserGroups] replaces the memberships of one user by exactly the
    given groups, which must be distinct; the memberships of every other user
    stay; a failing statement or COMMIT leaves the database as it was. *)
Theorem set_user_groups_replaces `{Crypto} `{UUIDs} userID ids w r w' :
  SetUserGroups userID ids w = (r, w') →
  match r with
  | Ok _ => NoDup ids ∧ ∀ u g,
      member_of (w_db w') u g =
        if decide (u = userID) then bool_decide (g ∈ ids) else member_of (w_db w) u g
  | Err _ => w_db w' = w_db w
  end.
Proof.
  destruct r as [v|e]; [|by apply transaction_Err].
  intros (Hnd & Hrows & _)%SetUserGroups_Ok. split; [done|]. intros u g.
  apply eq_iff_eq_true. rewrite member_of_spec, Hrows.
  rewrite elem_of_app, filter_bool_In, negb_true_iff, bool_decide_eq_false. simpl.
  rewrite list_elem_of_fmap. case_decide as Hu.
  - subst. rewrite bool_decide_eq_true. split; [|eauto].
    intros [[_ ?]|(g' & [=] & ?)]; [done|by subst].
  - rewrite member_of_spec. split; [|auto]. by intros [[? _]|(? & [=] & _)].
Qed.

Lemma EnsureCIServiceAccount_Ok `{Crypto} `{UUIDs} issuer path w a w' :
  EnsureCIServiceAccount issuer path w = (Ok a, w') →
  sa_Name a = path ∧ a ∈ service_accounts (w_db w') ∧
  match List.filter (λ x, bool_decide (sa_Name x = path)) (service_accounts (w_db w)) with
  | [] => sa_Active a = true ∧ service_accounts (w_db w') = service_accounts (w_db w) ++ [a]
  | old :: _ => sa_ID a = sa_ID old ∧ sa_Active a = sa_Active old
  end.
Proof.
  unfold EnsureCIServiceAccount. intros Hr%queryOne_Ok. unfold sql_upsert in Hr. simpl in Hr.
  destruct (existsb _ _) eqn:E.
  - run_all. destruct (List.filter _ _) as [|old l] eqn:Ef; [done|].
    destruct l; [|done]. simpl in *. simplify_eq/=.
    assert (old ∈ List.filter (λ x, bool_decide (sa_Name x = path)) (service_accounts (w_db w)))
      as [Hin Hn]%filter_bool_In by (rewrite Ef; set_solver).
    pose proof (bool_decide_eq_true_1 _ Hn) as Hname. split_and!; try done.
    apply list_elem_of_fmap. exists old. split; [|done]. by rewrite Hn.
  - run_all. split_and!; [done|set_solver|].
    rewrite filter_false; [done|]. intros y Hy.
    apply not_true_iff_false. intros Hp. apply not_true_iff_false in E. apply E.
    apply existsb_elem. eauto.
Qed.

(** The per-project kill switch: ensuring the CI service account of a
    project returns the account of that name, creates it active only when
    there is none, and never changes the active flag of an existing one. *)
Theorem ensure_ci_account_keeps_kill_switch `{Crypto} `{UUIDs} issuer path w a w' :
  EnsureCIServiceAccount issuer path w = (Ok a, w') →
  sa_Name a = path ∧ a ∈ service_accounts (w_db w') ∧
  match List.filter (λ x, bool_decide (sa_Name x = path)) (service_accounts (w_db w)) with
  | [] => sa_Active a = true ∧ service_accounts (w_db w') = service_accounts (w_db w) ++ [a]
  | old :: _ => sa_ID a = sa_ID old ∧ sa_Active a = sa_Active old
  end.
Proof. by apply EnsureCIServiceAccount_Ok. Qed.

Lemma set_user_groups_replaces_witness :
  ∃ w', SetUserGroups 1%N [11%N] (toy_world toy_db) = (Ok (), w') ∧
    member_of (w_db w') 1 11 = true ∧ member_of (w_db w') 1 10 = false.
Proof.
  eexists. split; [vm_compute; reflexivity|].
  destruct (set_user_groups_replaces (H0:=counting_uuids) 1%N [11%N] (toy_world toy_db) (Ok ()) _
    eq_refl) as [_ Hm].
  split; [etrans; [apply (Hm 1%N 11%N)|done]|etrans; [apply (Hm 1%N 10%N)|done]].
Defined.

Definition toy_account : ServiceAccount := {|
  sa_ID := 40; sa_Name := "infra/app"; sa_Kind := KindGitLabCI; sa_Issuer := "gitlab";
  sa_ClaimMatcher := ∅; sa_Active := false; sa_CreatedAt := 0; sa_UpdatedAt := 0 |}.

Lemma ensure_ci_account_keeps_kill_switch_witness :
  ∃ a w', EnsureCIServiceAccount (H0:=counting_uuids) "gitlab" "infra/app"
      (toy_world (put_rows service_accounts_table [toy_account] toy_db)) = (Ok a, w') ∧
    sa_Active a = false.
Proof.
  do 2 eexists. split; [vm_compute; reflexivity|].
  apply (ensure_ci_account_keeps_kill_switch (H0:=counting_uuids) "gitlab" "infra/app"
    (toy_world (put_rows service_accounts_table [toy_account] toy_db)) _ _ eq_refl).
Defined.
