(* ===== verification/Reconcile.v ===== *)
(** * Declarative reconciliation

    [ApplyGrants] (internal/store/grants.go) and [ApplyCIGrants]
    (ci_grants.go) share one shape: group the inventory by key, walk the
    declared specs (validate, reject duplicates, create, update or keep), then
    delete what is left. This file has the shape, parametrised by the row and
    spec types, and the interface [Reconcilable] from which its correctness
    follows; StoreGrants.v and StoreCIGrants.v instantiate both. *)
From S2P Require Export GoJson StoreIdentity.

Local Open Scope string_scope.
Local Open Scope list_scope.

Record ApplyResult := { Created : Z; Updated : Z; Deleted : Z; Unchanged : Z }.
Definition no_changes : ApplyResult :=
  {| Created := 0; Updated := 0; Deleted := 0; Unchanged := 0 |}.
Definition add_result (c u d n : Z) (r : ApplyResult) : ApplyResult := {|
  Created := Created r + c; Updated := Updated r + u;
  Deleted := Deleted r + d; Unchanged := Unchanged r + n |}.
(** How many rows a reconciliation touched. *)
Definition changes (r : ApplyResult) : Z := (Created r + Updated r + Deleted r)%Z.

Section reconcile.
Context `{Crypto} `{UUIDs} `{MapOrder} {row spec : Type}.
Context (validate : nat → spec → result unit) (duplicate : nat → spec → error).
Context (row_key : row → string) (spec_key : spec → string).
Context (create : spec → M unit) (same : row → spec → bool).
Context (update : row → spec → M unit) (delete_row : row → M unit).

(** [byKey[key] = append(byKey[key], row)] over the inventory. *)
Definition rows_by_key (existing : list row) : gmap string (list row) :=
  foldl (λ m r, <[row_key r := default [] (m !! row_key r) ++ [r]]> m) ∅ existing.

Definition delete_rows (result : ApplyResult) (rs : list row) : M ApplyResult :=
  foldM (λ result r, delete_row r ;; ret (add_result 0 0 1 0 result)) result rs.

(** One spec against its candidates: none is created, the first is kept or
    updated, the others are deleted. *)
Definition apply_candidates (sp : spec) (candidates : list row) (result : ApplyResult)
    : M ApplyResult :=
  match candidates with
  | [] => create sp ;; ret (add_result 1 0 0 0 result)
  | current :: dups =>
      let* result := delete_rows result dups in
      if same current sp then ret (add_result 0 0 0 1 result)
      else update current sp ;; ret (add_result 0 1 0 0 result)
  end.

Fixpoint reconcile_specs (i : nat) (seen : gset string) (byKey : gmap string (list row))
    (result : ApplyResult) (specs : list spec) : M (ApplyResult * gmap string (list row)) :=
  match specs with
  | [] => ret (result, byKey)
  | sp :: specs =>
      lift (validate i sp) ;;
      let key := spec_key sp in
      if decide (key ∈ seen) then fail (duplicate i sp)
      else
        let* result := apply_candidates sp (default [] (byKey !! key)) result in
        reconcile_specs (S i) ({[key]} ∪ seen) (delete key byKey) result specs
  end.

Definition reconcile (existing : list row) (specs : list spec) : M ApplyResult :=
  let* p := reconcile_specs 0 ∅ (rows_by_key existing) no_changes specs in
  delete_rows p.1 (List.concat (snd <$> map_order p.2)).

End reconcile.

(** ** The interface a client provides

    [inventory]: the rows of the database as the client reads them, up to
    order; [matches]: a row carries exactly what a spec declares. *)
Definition audit_count (db : Db) : Z := Z.of_nat (List.length (audit_events db)).

Class Reconcilable `{Crypto} {row spec : Type} (validate : nat → spec → result unit)
    (row_key : row → string) (spec_key : spec → string)
    (create : spec → M unit) (same : row → spec → bool)
    (update : row → spec → M unit) (delete_row : row → M unit) := {
  inventory : Db → list row;
  wf : World → Prop;
  declarable : spec → Prop;
  matches : spec → row → Prop;
  matches_key sp r : declarable sp → matches sp r → row_key r = spec_key sp;
  same_matches i sp r w : declarable sp → validate i sp = Ok () → wf w →
    r ∈ inventory (w_db w) → row_key r = spec_key sp →
    same r sp = true ↔ matches sp r;
  create_law i sp w u w' : declarable sp → validate i sp = Ok () → wf w →
    create sp w = (Ok u, w') →
    wf w' ∧ audit_count (w_db w') = (audit_count (w_db w) + 1)%Z ∧
    ∃ r, matches sp r ∧ inventory (w_db w') ≡ₚ r :: inventory (w_db w);
  update_law i sp r rest w u w' : declarable sp → validate i sp = Ok () → wf w →
    inventory (w_db w) ≡ₚ r :: rest → row_key r = spec_key sp →
    update r sp w = (Ok u, w') →
    wf w' ∧ audit_count (w_db w') = (audit_count (w_db w) + 1)%Z ∧
    ∃ r', matches sp r' ∧ inventory (w_db w') ≡ₚ r' :: rest;
  delete_law r rest w u w' : wf w → inventory (w_db w) ≡ₚ r :: rest →
    delete_row r w = (Ok u, w') →
    wf w' ∧ audit_count (w_db w') = (audit_count (w_db w) + 1)%Z ∧
    inventory (w_db w') ≡ₚ rest
}.

(** ** The inventory grouped by key *)
Lemma concat_perm {A} (l1 l2 : list (list A)) :
  l1 ≡ₚ l2 → List.concat l1 ≡ₚ List.concat l2.
Proof.
  induction 1; simpl; [done|by f_equiv| |by etrans].
  rewrite !(assoc_L (++)). f_equiv. apply Permutation_app_comm.
Qed.

Section by_key.
Context {row : Type} (row_key : row → string).

Definition pending (m : gmap string (list row)) : list row :=
  List.concat (snd <$> map_to_list m).
Definition keyed (m : gmap string (list row)) : Prop :=
  ∀ k l r, m !! k = Some l → r ∈ l → row_key r = k.

Lemma pending_insert k l m : m !! k = None → pending (<[k:=l]> m) ≡ₚ l ++ pending m.
Proof.
  intros Hk. unfold pending.
  etrans; [apply concat_perm, fmap_Permutation, map_to_list_insert, Hk|done].
Qed.

Lemma pending_delete k m : pending m ≡ₚ default [] (m !! k) ++ pending (delete k m).
Proof.
  destruct (m !! k) as [l|] eqn:E; simpl; [|by rewrite delete_id].
  rewrite <-(insert_delete_id m k l E) at 1. apply pending_insert, lookup_delete_eq.
Qed.

Lemma pending_update k l m : pending (<[k:=l]> m) ≡ₚ l ++ pending (delete k m).
Proof.
  rewrite <-insert_delete_eq. apply pending_insert, lookup_delete_eq.
Qed.

Lemma keyed_delete k m : keyed m → keyed (delete k m).
Proof. intros Hm k' l r [_ Hl]%lookup_delete_Some. by eapply Hm. Qed.

Lemma rows_by_key_spec existing :
  pending (rows_by_key row_key existing) ≡ₚ existing ∧ keyed (rows_by_key row_key existing).
Proof.
  unfold rows_by_key.
  enough (∀ m, keyed m →
    let m' := foldl (λ m r, <[row_key r := default [] (m !! row_key r) ++ [r]]> m) m existing in
    pending m' ≡ₚ pending m ++ existing ∧ keyed m') as He.
  { destruct (He ∅) as [Hp ?]; [by intros k l r ?%lookup_empty_Some|].
    unfold pending at 2 in Hp. by rewrite map_to_list_empty in Hp. }
  induction existing as [|r rs IH]; intros m Hm; simpl; [by rewrite app_nil_r|].
  assert (keyed (<[row_key r:=default [] (m !! row_key r) ++ [r]]> m)) as Hm'.
  { intros k l x [[<- <-]|[_ Hl]]%lookup_insert_Some Hx; [|by eapply Hm].
    apply elem_of_app in Hx as [Hx|Hx%list_elem_of_singleton]; [|by subst].
    destruct (m !! row_key r) eqn:E; simpl in Hx; [by eapply Hm|by apply elem_of_nil in Hx]. }
  destruct (IH _ Hm') as [Hp Hk]. split; [|done].
  rewrite Hp, pending_update, (pending_delete (row_key r) m).
  rewrite <-!(assoc_L (++)). f_equiv. simpl.
  rewrite <-Permutation_middle. done.
Qed.

Lemma keyed_default k m r : keyed m → r ∈ default [] (m !! k) → row_key r = k.
Proof.
  intros Hm. destruct (m !! k) eqn:E; simpl; [by eapply Hm|by intros ?%elem_of_nil].
Qed.
End by_key.

(** ** Correctness against the interface *)
Section correct.
Context `{HC : Crypto} `{MapOrder} {row spec : Type}.
Context {validate : nat → spec → result unit} {duplicate : nat → spec → error}.
Context {row_key : row → string} {spec_key : spec → string}.
Context {create : spec → M unit} {same : row → spec → bool}.
Context {update : row → spec → M unit} {delete_row : row → M unit}.
Context `{HR : !Reconcilable validate row_key spec_key create same update delete_row}.
Implicit Types w : World.

(** The bookkeeping of a step: every change is one audit event. *)
Definition accounts w w' (res res' : ApplyResult) : Prop :=
  (audit_count (w_db w') - audit_count (w_db w) = changes res' - changes res)%Z.

Lemma accounts_trans w1 w2 w3 r1 r2 r3 :
  accounts w1 w2 r1 r2 → accounts w2 w3 r2 r3 → accounts w1 w3 r1 r3.
Proof. unfold accounts. lia. Qed.

Lemma delete_rows_Ok res rs rest w res' w' :
  wf w → inventory (w_db w) ≡ₚ rs ++ rest →
  delete_rows delete_row res rs w = (Ok res', w') →
  wf w' ∧ inventory (w_db w') ≡ₚ rest ∧ accounts w w' res res' ∧
  res' = add_result 0 0 (Z.of_nat (List.length rs)) 0 res.
Proof.
  unfold delete_rows, accounts. revert res w. induction rs as [|r rs IH]; intros res w Hwf Hinv Hr.
  { apply ret_Ok in Hr as [<- <-]. split_and!; [done..|lia|].
    destruct res; unfold add_result; simpl; f_equal; lia. }
  simpl in Hr. run_all.
  match goal with Hd : delete_row r w = _ |- _ =>
    eapply delete_law in Hd as (Hwf' & Ha & Hinv'); [|done|exact Hinv] end.
  match goal with Hd : foldM _ _ rs _ = _ |- _ =>
    apply IH in Hd as (Hwf'' & Hinv'' & Hc & ->); [|done..] end.
  split_and!; [done..| |]; unfold changes, add_result in *; simpl in *; [lia|f_equal; lia].
Qed.

Lemma apply_candidates_Ok i sp cands rest res w res' w' :
  declarable sp → validate i sp = Ok () → wf w →
  inventory (w_db w) ≡ₚ cands ++ rest → (∀ r, r ∈ cands → row_key r = spec_key sp) →
  apply_candidates create same update delete_row sp cands res w = (Ok res', w') →
  wf w' ∧ accounts w w' res res' ∧
  (Created res' + Updated res' + Unchanged res' =
     Created res + Updated res + Unchanged res + 1)%Z ∧
  ∃ r, matches sp r ∧ inventory (w_db w') ≡ₚ r :: rest.
Proof.
  intros Hd Hv Hwf Hinv Hk Hr. unfold apply_candidates, accounts in *.
  destruct cands as [|current dups].
  { run_all. match goal with Hc : create _ _ = _ |- _ =>
      eapply create_law in Hc as (Hwf' & Ha & r & Hm & Hinv'); [|done..] end.
    unfold changes. simpl. split_and!; [done|lia..|]. exists r. by rewrite Hinv', Hinv. }
  run_step. match goal with Hc : delete_rows _ _ _ _ = _ |- _ =>
    apply delete_rows_Ok with (rest := current :: rest) in Hc
      as (Hwf1 & Hinv1 & Ha1 & ->); [|done|rewrite Hinv; simpl; by rewrite Permutation_middle] end.
  unfold accounts in *.
  assert (row_key current = spec_key sp) as Hkey by (apply Hk; set_solver).
  destruct (same current sp) eqn:Es; run_all.
  - unfold changes in *; simpl in *. split_and!; [done|lia..|].
    exists current. split; [|done].
    apply (same_matches i sp current _ Hd Hv Hwf1); [rewrite Hinv1; set_solver|done..].
  - match goal with Hc : update _ _ _ = _ |- _ =>
      eapply update_law in Hc as (Hwf' & Ha & r & Hm & Hinv'); [|done..] end.
    unfold changes in *; simpl in *. split_and!; [done|lia..|]. by exists r.
Qed.

Lemma reconcile_specs_Ok i seen byKey res specs done w p w' :
  Forall declarable specs → wf w → keyed row_key byKey →
  inventory (w_db w) ≡ₚ pending byKey ++ done →
  reconcile_specs validate duplicate spec_key create same update delete_row
    i seen byKey res specs w = (Ok p, w') →
  wf w' ∧ accounts w w' res p.1 ∧
  (Created p.1 + Updated p.1 + Unchanged p.1 =
     Created res + Updated res + Unchanged res + Z.of_nat (List.length specs))%Z ∧
  ∃ rs, Forall2 matches specs rs ∧ inventory (w_db w') ≡ₚ pending p.2 ++ rs ++ done.
Proof.
  revert i seen byKey res done w. induction specs as [|sp specs IH];
    intros i seen byKey res done w Hd Hwf Hk Hinv Hr; simpl in Hr.
  { run_all. unfold accounts. split_and!; [done|lia..|]. by exists []. }
  apply Forall_cons_1 in Hd as [Hd Hds]. run_step.
  destruct (validate i sp) as [[]|] eqn:Hv; simpl in *; [|done].
  run_step. subst. destruct (decide _); [run_step|]. run_step.
  match goal with Hc : apply_candidates _ _ _ _ _ _ _ _ = _ |- _ =>
    eapply apply_candidates_Ok with (rest := pending (delete (spec_key sp) byKey) ++ done) in Hc
      as (Hwf1 & Ha1 & Hn1 & r & Hm & Hinv1); [|done..| |] end.
  2: { by rewrite Hinv, (pending_delete (spec_key sp)), (assoc_L (++)). }
  2: { intros r' Hr'. by eapply keyed_default. }
  match goal with Hc : reconcile_specs _ _ _ _ _ _ _ _ _ _ _ _ _ = _ |- _ =>
    apply IH with (done := r :: done) in Hc as (Hwf2 & Ha2 & Hn2 & rs & Hms & Hinv2) end.
  - split_and!; [done|by eapply accounts_trans|lia|].
    exists (r :: rs). split; [by constructor|]. rewrite Hinv2. f_equiv.
    simpl. by rewrite Permutation_middle.
  - done.
  - done.
  - by apply keyed_delete.
  - rewrite Hinv1. by rewrite Permutation_middle.
Qed.

Lemma reconcile_Ok existing specs w res w' :
  Forall declarable specs → wf w → inventory (w_db w) ≡ₚ existing →
  reconcile validate duplicate row_key spec_key create same update delete_row
    existing specs w = (Ok res, w') →
  wf w' ∧ (audit_count (w_db w') = audit_count (w_db w) + changes res)%Z ∧
  (Created res + Updated res + Unchanged res = Z.of_nat (List.length specs))%Z ∧
  ∃ rs, Forall2 matches specs rs ∧ inventory (w_db w') ≡ₚ rs.
Proof.
  intros Hd Hwf Hinv Hr. unfold reconcile in Hr. run_step.
  destruct (rows_by_key_spec row_key existing) as [Hp Hk].
  match goal with Hc : reconcile_specs _ _ _ _ _ _ _ _ _ _ _ _ _ = _ |- _ =>
    apply reconcile_specs_Ok with (done := []) in Hc
      as (Hwf1 & Ha1 & Hn1 & rs & Hms & Hinv1); [|done..|by rewrite Hp, app_nil_r] end.
  match goal with Hc : delete_rows _ _ _ _ = _ |- _ =>
    apply delete_rows_Ok with (rest := rs) in Hc
      as (Hwf2 & Hinv2 & Ha2 & ->); [|done|] end.
  - pose proof (accounts_trans _ _ _ _ _ _ Ha1 Ha2) as Ha.
    unfold accounts, changes in *. simpl in *. split_and!; [done|lia..|]. by exists rs.
  - rewrite Hinv1, app_nil_r. f_equiv. apply concat_perm, fmap_Permutation.
    symmetry. apply map_order_perm.
Qed.

(** *** A converged inventory stays as it is *)
Lemma reconcile_specs_fresh_keys i seen byKey res specs w p w' :
  reconcile_specs validate duplicate spec_key create same update delete_row
    i seen byKey res specs w = (Ok p, w') →
  ∀ sp, sp ∈ specs → spec_key sp ∉ seen.
Proof.
  revert i seen byKey res w. induction specs as [|sp specs IH];
    intros i seen byKey res w Hr; simpl in Hr; [by intros ? ?%elem_of_nil|].
  run_step. destruct (validate i sp); simpl in *; [|done]. run_step. subst.
  destruct (decide _); [run_step|]. run_step.
  intros sp' [->|Hin]%elem_of_cons; [done|].
  match goal with Hc : reconcile_specs _ _ _ _ _ _ _ _ _ _ _ _ _ = _ |- _ =>
    specialize (IH _ _ _ _ _ Hc _ Hin) end. set_solver.
Qed.

(** The candidates of a key, when the pending rows are known. *)
Lemma only_candidate byKey r rs :
  keyed row_key byKey → pending byKey ≡ₚ r :: rs →
  (∀ r', r' ∈ rs → row_key r' ≠ row_key r) →
  byKey !! row_key r = Some [r] ∧ pending (delete (row_key r) byKey) ≡ₚ rs.
Proof.
  intros Hk Hp Hrs. pose proof (pending_delete (row_key r) byKey) as Hd.
  assert (∀ x, x ∈ pending (delete (row_key r) byKey) → row_key x ≠ row_key r) as Hne.
  { intros x Hx. apply list_elem_of_In, in_concat in Hx
      as (l & Hl%list_elem_of_In & Hx%list_elem_of_In).
    apply list_elem_of_fmap in Hl as ([k l'] & -> & Hl%elem_of_map_to_list).
    apply lookup_delete_Some in Hl as [Hkr Hl]. simpl in *.
    rewrite (Hk _ _ _ Hl Hx). congruence. }
  assert (default [] (byKey !! row_key r) ≡ₚ [r]) as Hc.
  { pose proof (filter_bool_perm (λ x, bool_decide (row_key x = row_key r)) _ _
      (Permutation_trans (Permutation_sym Hd) Hp)) as Hf.
    rewrite List.filter_app, (filter_true _ (default [] _)), !(filter_false _ (pending _)) in Hf.
    - rewrite app_nil_r in Hf. simpl in Hf. rewrite bool_decide_true in Hf by done.
      rewrite filter_false in Hf; [done|]. intros x Hx. apply bool_decide_eq_false. auto.
    - intros x Hx. apply bool_decide_eq_false. auto.
    - intros x Hx. apply bool_decide_eq_true. by eapply keyed_default. }
  split.
  - apply Permutation_singleton_r in Hc. destruct (byKey !! row_key r); naive_solver.
  - rewrite Hd, Hc in Hp. by apply Permutation_cons_inv in Hp.
Qed.

Lemma reconcile_specs_noop i seen byKey res specs rs w p w' :
  Forall declarable specs → wf w → keyed row_key byKey →
  pending byKey ≡ₚ rs → Forall2 matches specs rs →
  (∀ r, r ∈ rs → r ∈ inventory (w_db w)) →
  reconcile_specs validate duplicate spec_key create same update delete_row
    i seen byKey res specs w = (Ok p, w') →
  w' = w ∧ p.1 = add_result 0 0 0 (Z.of_nat (List.length specs)) res ∧ pending p.2 ≡ₚ [].
Proof.
  intros Hd Hwf. revert i seen byKey res rs w Hd Hwf.
  induction specs as [|sp specs IH]; intros i seen byKey res rs w Hd Hwf Hk Hp Hm Hin Hr;
    simpl in Hr.
  { inversion Hm; subst. run_all. split_and!; [done| |done].
    destruct res; unfold add_result; simpl; f_equal; lia. }
  apply Forall_cons_1 in Hd as [Hd Hds]. inversion Hm as [|? r ? rs' Hmr Hms]; subst.
  run_step. destruct (validate i sp) as [[]|] eqn:Hv; simpl in *; [|done]. run_step. subst.
  destruct (decide _); [run_step|]. run_step.
  pose proof (matches_key _ _ Hd Hmr) as Hkey.
  destruct (only_candidate byKey r rs') as [Hl Hp']; [done..| |].
  { intros r' [j Hj]%list_elem_of_lookup Heq.
    eapply Forall2_lookup_r in Hms as (sp' & Hsp' & Hm'); [|exact Hj].
    apply list_elem_of_lookup_2 in Hsp'.
    pose proof (matches_key _ _ (proj1 (list.Forall_forall _ _) Hds _ Hsp') Hm') as Hkey'.
    match goal with Hc : reconcile_specs _ _ _ _ _ _ _ _ _ _ _ _ _ = _ |- _ =>
      apply (reconcile_specs_fresh_keys _ _ _ _ _ _ _ _ Hc _ Hsp') end.
    rewrite elem_of_union, elem_of_singleton. left. congruence. }
  rewrite <-Hkey, Hl in *. simpl in *.
  assert (same r sp = true) as Hs.
  { apply (same_matches i sp r _ Hd Hv Hwf); [apply Hin, list_elem_of_here|done..]. }
  rewrite Hs in *. unfold delete_rows in *. run_all.
  match goal with Hc : reconcile_specs _ _ _ _ _ _ _ _ _ _ _ _ _ = _ |- _ =>
    eapply IH in Hc as (-> & Hres & Hpend);
      [|done..|by apply keyed_delete|done|done|intros; by apply Hin, list_elem_of_further] end.
  split_and!; [done| |done]. rewrite Hres. unfold add_result. simpl. f_equal; lia.
Qed.

Lemma reconcile_noop existing specs rs w res w' :
  Forall declarable specs → wf w → existing ≡ₚ rs → Forall2 matches specs rs →
  (∀ r, r ∈ rs → r ∈ inventory (w_db w)) →
  reconcile validate duplicate row_key spec_key create same update delete_row
    existing specs w = (Ok res, w') →
  w' = w ∧ res = add_result 0 0 0 (Z.of_nat (List.length specs)) no_changes.
Proof.
  intros Hd Hwf He Hm Hin Hr. unfold reconcile in Hr. run_step.
  destruct (rows_by_key_spec row_key existing) as [Hp Hk].
  match goal with Hc : reconcile_specs _ _ _ _ _ _ _ _ _ _ _ _ _ = _ |- _ =>
    apply (reconcile_specs_noop _ _ _ _ _ rs) in Hc as (-> & Hres & Hpend);
      [|done..|by rewrite Hp|done|done] end.
  match goal with Hc : delete_rows _ _ _ _ = _ |- _ => rename Hc into Hdel end.
  assert (List.concat (snd <$> map_order (x.2)) = []) as Hnil.
  { apply Permutation_nil_r. etrans; [|exact Hpend].
    apply concat_perm, fmap_Permutation, map_order_perm. }
  rewrite Hnil in Hdel. apply ret_Ok in Hdel as [<- <-]. done.
Qed.
End correct.

(** ** Relations that every step keeps *)
#[export] Instance keeps_delete_rows `{Crypto} (R : relation Db) `{!PreOrder R} {row}
  (delete_row : row → M unit) res rs :
  (∀ r, Keeps R (delete_row r)) → Keeps R (delete_rows delete_row res rs).
Proof. intros. unfold delete_rows. apply _. Qed.
#[export] Instance keeps_apply_candidates `{Crypto} (R : relation Db) `{!PreOrder R} {row spec}
  create (same : row → spec → bool) update (delete_row : row → M unit) sp cands res :
  (∀ sp, Keeps R (create sp)) → (∀ r sp, Keeps R (update r sp)) →
  (∀ r, Keeps R (delete_row r)) →
  Keeps R (apply_candidates create same update delete_row sp cands res).
Proof.
  intros. unfold apply_candidates. destruct cands; [apply _|].
  apply keeps_bind; [apply _..|]. intros. case_match; apply _.
Qed.
#[export] Instance keeps_reconcile_specs `{Crypto} (R : relation Db) `{!PreOrder R} {row spec}
  validate duplicate spec_key create (same : row → spec → bool) update (delete_row : row → M unit)
  i seen byKey res specs :
  (∀ sp, Keeps R (create sp)) → (∀ r sp, Keeps R (update r sp)) →
  (∀ r, Keeps R (delete_row r)) →
  Keeps R (reconcile_specs validate duplicate spec_key create same update delete_row
    i seen byKey res specs).
Proof.
  intros. revert i seen byKey res. induction specs; intros; simpl; [apply _|].
  apply keeps_bind; [apply _..|]. intros. case_decide; apply _.
Qed.
Lemma keeps_reconcile `{Crypto} `{MapOrder} (R : relation Db) `{!PreOrder R} {row spec}
  validate duplicate row_key spec_key create (same : row → spec → bool) update
  (delete_row : row → M unit) existing specs :
  (∀ sp, Keeps R (create sp)) → (∀ r sp, Keeps R (update r sp)) →
  (∀ r, Keeps R (delete_row r)) →
  Keeps R (reconcile validate duplicate row_key spec_key create same update delete_row
    existing specs).
Proof. intros. unfold reconcile. apply _. Qed.

(** *** What reconciliation leaves alone *)
Section frames.
Context `{Crypto} `{MapOrder} {row spec : Type}.
Context (validate : nat → spec → result unit) (duplicate : nat → spec → error).
Context (row_key : row → string) (spec_key : spec → string).
Context (create : spec → M unit) (same : row → spec → bool).
Context (update : row → spec → M unit) (delete_row : row → M unit).
Context `{!∀ sp, Frames (create sp)} `{!∀ r sp, Frames (update r sp)} `{!∀ r, Frames (delete_row r)}.

#[export] Instance frames_delete_rows res rs : Frames (delete_rows delete_row res rs).
Proof. unfold delete_rows. apply _. Qed.
#[export] Instance frames_apply_candidates sp cands res :
  Frames (apply_candidates create same update delete_row sp cands res).
Proof.
  unfold apply_candidates. destruct cands; [apply _|].
  apply frames_bind; [apply _|]. intros. case_match; apply _.
Qed.
#[export] Instance frames_reconcile_specs i seen byKey res specs :
  Frames (reconcile_specs validate duplicate spec_key create same update delete_row
    i seen byKey res specs).
Proof.
  revert i seen byKey res. induction specs; intros; simpl; [apply _|].
  apply frames_bind; [apply _|]. intros. case_decide; apply _.
Qed.
Lemma frames_reconcile existing specs :
  Frames (reconcile validate duplicate row_key spec_key create same update delete_row
    existing specs).
Proof. unfold reconcile. apply _. Qed.
End frames.
