(* ===== verification/StoreGrants.v ===== *)
(** * Access grants (internal/store/grants.go)

    A grant gives the members of a group the right to log in as some local
    users on the hosts a tag selector matches. [ApplyGrants] reconciles the
    inventory with declared specs in one transaction. *)
From S2P Require Export Reconcile.

Local Open Scope string_scope.
Local Open Scope list_scope.

Definition EventGrantCreated := "grant.created".
Definition EventGrantUpdated := "grant.updated".
Definition EventGrantDeleted := "grant.deleted".

Definition grantAuditEvent (eventType actor : string) (g : AccessGrant) : AuditEvent :=
  new_audit eventType actor (JObj [
    ("grant_id", JNum (Z.of_N (grant_ID g)));
    ("group_id", JNum (Z.of_N (grant_GroupID g)));
    ("max_validity_seconds", JNum (grant_MaxValiditySeconds g));
    ("principals", JStrs (grant_Principals g));
    ("sudo", JBool (grant_Sudo g));
    ("tag_selector", JMap (grant_TagSelector g))]).

Record GrantWithGroup := {
  gwg_Grant : AccessGrant; gwg_GroupName : string; gwg_GroupIssuer : string
}.

Record GrantSpec := {
  spec_Group : string; spec_Issuer : string; spec_TagSelector : gmap string string;
  spec_Principals : list string; spec_Sudo : bool; spec_MaxValiditySeconds : Z
}.

(** FROM access_grants g JOIN groups gr ON gr.id = g.group_id. *)
Definition join_group (grs : list Group) (g : AccessGrant) : list GrantWithGroup :=
  List.map (λ gr, {| gwg_Grant := g; gwg_GroupName := group_Name gr;
                     gwg_GroupIssuer := group_Issuer gr |})
    (List.filter (λ gr, bool_decide (group_ID gr = grant_GroupID g)) grs).
Definition joined (grs : list Group) (gs : list AccessGrant) : list GrantWithGroup :=
  List.flat_map (join_group grs) gs.
Definition grants_with_group (db : Db) : list GrantWithGroup :=
  joined (groups db) (access_grants db).

(** ORDER BY created_at, id. *)
Definition oldest_first {R} (created : R → Z) (id_of : R → uuid) (a b : R) : bool :=
  (created a <? created b)%Z || ((created a =? created b)%Z && (id_of a <=? id_of b)%N).

(** The table's constraints. *)
Definition grant_ok (db : Db) (g : AccessGrant) : bool :=
  references (groups db) group_ID (Some (grant_GroupID g)) &&
  (0 <? grant_MaxValiditySeconds g)%Z.

Definition grant_row (g : AccessGrant) (id : uuid) (now : Z) : AccessGrant := {|
  grant_ID := id; grant_GroupID := grant_GroupID g; grant_TagSelector := grant_TagSelector g;
  grant_Principals := grant_Principals g; grant_Sudo := grant_Sudo g;
  grant_MaxValiditySeconds := grant_MaxValiditySeconds g;
  grant_CreatedAt := now; grant_UpdatedAt := now |}.
Definition grant_update (g : AccessGrant) (now : Z) (old : AccessGrant) : AccessGrant := {|
  grant_ID := grant_ID old; grant_GroupID := grant_GroupID old;
  grant_TagSelector := grant_TagSelector g; grant_Principals := grant_Principals g;
  grant_Sudo := grant_Sudo g; grant_MaxValiditySeconds := grant_MaxValiditySeconds g;
  grant_CreatedAt := grant_CreatedAt old; grant_UpdatedAt := now |}.

(** NUL bytes separate the parts of a key. *)
Definition nul : ascii := "000".
Definition nul_free (s : string) : Prop := ¬ in_string nul s.
Definition grantKey (issuer group : string) (selector : gmap string string) : string :=
  issuer +:+ String nul (group +:+ String nul (marshal_map selector)).

Definition validateGrantSpec (issuer : string) (index : nat) (spec : GrantSpec) : result unit :=
  let fail reason := Err (ErrWrap reason ErrInvalidGrantSpec) in
  if bool_decide (spec_Group spec = "") then fail "group is missing"
  else if bool_decide (issuer = "") then fail "issuer is missing"
  else if bool_decide (spec_Principals spec = []) then fail "principals are missing"
  else if (spec_MaxValiditySeconds spec <=? 0)%Z then fail "max_validity must be greater than 0"
  else Ok ().

Section grants.
Context `{Crypto} `{UUIDs} `{MapOrder}.

Definition createGrantTx (actor : string) (g : AccessGrant) : M AccessGrant :=
  let* created := queryOne (sql_insert access_grants_table (grant_row g) grant_ok) in
  insertAuditEvent (grantAuditEvent EventGrantCreated actor created) ;;
  ret created.
Definition CreateGrant (actor : string) (g : AccessGrant) : M AccessGrant :=
  BeginFunc (createGrantTx actor g).

Definition GetGrant (id : uuid) : M AccessGrant :=
  queryOne (sql_select (λ db,
    List.filter (λ g, bool_decide (grant_ID g = id)) (access_grants db))).
Definition GetGrantDetailed (id : uuid) : M GrantWithGroup :=
  queryOne (sql_select (λ db,
    List.filter (λ x, bool_decide (grant_ID (gwg_Grant x) = id)) (grants_with_group db))).
Definition ListGrantsDetailed : M (list GrantWithGroup) :=
  queryAll (λ db, sort_by (λ a b,
    String.ltb (gwg_GroupName a) (gwg_GroupName b) ||
    (bool_decide (gwg_GroupName a = gwg_GroupName b) &&
     oldest_first grant_CreatedAt grant_ID (gwg_Grant a) (gwg_Grant b)))
    (grants_with_group db)).
Definition ListGrants : M (list AccessGrant) :=
  queryAll (λ db, sort_by (oldest_first grant_CreatedAt grant_ID) (access_grants db)).
Definition ListGrantsForGroups (groupIDs : list uuid) : M (list AccessGrant) :=
  queryAll (λ db, sort_by (oldest_first grant_CreatedAt grant_ID)
    (List.filter (λ g, bool_decide (grant_GroupID g ∈ groupIDs)) (access_grants db))).
(** The grants that reach a user through a group membership. *)
Definition grants_of_user (db : Db) (userID : uuid) : list AccessGrant :=
  List.filter (λ g, member_of db userID (grant_GroupID g)) (access_grants db).
Definition ListGrantsForUser (userID : uuid) : M (list AccessGrant) :=
  queryAll (λ db, sort_by (oldest_first grant_CreatedAt grant_ID) (grants_of_user db userID)).

Definition updateGrantTx (actor : string) (g : AccessGrant) : M AccessGrant :=
  let* updated := queryOne (sql_update access_grants_table
    (λ x, bool_decide (grant_ID x = grant_ID g)) (grant_update g)
    (λ x, (0 <? grant_MaxValiditySeconds x)%Z)) in
  insertAuditEvent (grantAuditEvent EventGrantUpdated actor updated) ;;
  ret updated.
Definition UpdateGrant (actor : string) (g : AccessGrant) : M AccessGrant :=
  BeginFunc (updateGrantTx actor g).

Definition deleteGrantTx (actor : string) (id : uuid) : M unit :=
  let* deleted := queryOne (sql_delete access_grants_table
    (λ x, bool_decide (grant_ID x = id)) no_cascade no_check) in
  insertAuditEvent (grantAuditEvent EventGrantDeleted actor deleted).
Definition DeleteGrant (actor : string) (id : uuid) : M unit :=
  BeginFunc (deleteGrantTx actor id).

Definition ensureGroupTx (issuer name : string) : M Group :=
  let* r := try (queryOne (sql_select (λ db, groups_named db issuer name))) in
  match r with
  | Ok group => ret group
  | Err e =>
      if errors_Is e ErrNotFound
      then queryOne (sql_insert groups_table
             (group_row {| group_ID := 0%N; group_Issuer := issuer; group_Name := name;
                           group_ExternalID := None; group_CreatedAt := 0 |}) group_unique)
      else fail e
  end.

(** ** The declarative reconciliation *)
Section apply.
Context (actor defaultIssuer : string).

Definition spec_issuer (spec : GrantSpec) : string :=
  if bool_decide (spec_Issuer spec = "") then defaultIssuer else spec_Issuer spec.
Definition grant_spec_key (spec : GrantSpec) : string :=
  grantKey (spec_issuer spec) (spec_Group spec) (spec_TagSelector spec).
Definition grant_row_key (x : GrantWithGroup) : string :=
  grantKey (gwg_GroupIssuer x) (gwg_GroupName x) (grant_TagSelector (gwg_Grant x)).
Definition validate_spec (i : nat) (spec : GrantSpec) : result unit :=
  validateGrantSpec (spec_issuer spec) i spec.
Definition duplicate_spec (i : nat) (spec : GrantSpec) : error :=
  ErrWrap "duplicate entry for group and tag selector" ErrInvalidGrantSpec.

(** The three cases of [applySpecTx]. *)
Definition create_from_spec (spec : GrantSpec) : M unit :=
  let* group := ensureGroupTx (spec_issuer spec) (spec_Group spec) in
  createGrantTx actor {|
    grant_ID := 0%N; grant_GroupID := group_ID group;
    grant_TagSelector := spec_TagSelector spec; grant_Principals := spec_Principals spec;
    grant_Sudo := spec_Sudo spec; grant_MaxValiditySeconds := spec_MaxValiditySeconds spec;
    grant_CreatedAt := 0; grant_UpdatedAt := 0 |} ;;
  ret ().
Definition same_as_spec (current : GrantWithGroup) (spec : GrantSpec) : bool :=
  bool_decide (grant_Principals (gwg_Grant current) = spec_Principals spec) &&
  bool_decide (grant_Sudo (gwg_Grant current) = spec_Sudo spec) &&
  (grant_MaxValiditySeconds (gwg_Grant current) =? spec_MaxValiditySeconds spec)%Z.
Definition update_from_spec (current : GrantWithGroup) (spec : GrantSpec) : M unit :=
  let g := gwg_Grant current in
  updateGrantTx actor {|
    grant_ID := grant_ID g; grant_GroupID := grant_GroupID g;
    grant_TagSelector := grant_TagSelector g; grant_Principals := spec_Principals spec;
    grant_Sudo := spec_Sudo spec; grant_MaxValiditySeconds := spec_MaxValiditySeconds spec;
    grant_CreatedAt := grant_CreatedAt g; grant_UpdatedAt := grant_UpdatedAt g |} ;;
  ret ().
Definition delete_grant_row (x : GrantWithGroup) : M unit :=
  deleteGrantTx actor (grant_ID (gwg_Grant x)).

Definition applySpecTx : GrantSpec → list GrantWithGroup → ApplyResult → M ApplyResult :=
  apply_candidates create_from_spec same_as_spec update_from_spec delete_grant_row.

Definition ApplyGrants (specs : list GrantSpec) : M ApplyResult :=
  BeginFunc (
    let* existing := queryAll (λ db,
      sort_by (λ a b, oldest_first grant_CreatedAt grant_ID (gwg_Grant a) (gwg_Grant b))
        (grants_with_group db)) in
    reconcile validate_spec duplicate_spec grant_row_key grant_spec_key
      create_from_spec same_as_spec update_from_spec delete_grant_row existing specs).
End apply.
End grants.

(** ** Keys *)
Lemma grantKey_inj i g s i' g' s' :
  nul_free i → nul_free g → nul_free i' → nul_free g' →
  grantKey i g s = grantKey i' g' s' → i = i' ∧ g = g' ∧ s = s'.
Proof.
  unfold grantKey. intros Hi Hg Hi' Hg' [-> Heq]%sep_inj; [|done..].
  apply sep_inj in Heq as [-> Heq]; [|done..]. by apply marshal_map_inj in Heq.
Qed.

(** ** Well-formed inventory

    Group and grant ids are distinct and come from the identifiers drawn so
    far, every grant's group exists, and text columns hold no NUL byte. *)
Section inventory.
Context `{UUIDs}.

Definition drawn (n : N) (id : uuid) : Prop := ∃ k, (k < n)%N ∧ gen_uuid k = id.

Record inventory_ok (grs : list Group) (gs : list AccessGrant) (n : N) : Prop := {
  group_ids_distinct : NoDup (group_ID <$> grs);
  group_ids_drawn : ∀ gr, gr ∈ grs → drawn n (group_ID gr);
  group_text : ∀ gr, gr ∈ grs → nul_free (group_Issuer gr) ∧ nul_free (group_Name gr);
  grant_ids_distinct : NoDup (grant_ID <$> gs);
  grant_ids_drawn : ∀ g, g ∈ gs → drawn n (grant_ID g);
  grant_group_exists : ∀ g, g ∈ gs → ∃ gr, gr ∈ grs ∧ group_ID gr = grant_GroupID g
}.

Lemma drawn_fresh n id : drawn n id → id ≠ gen_uuid n.
Proof. intros (k & Hk & <-) Heq%gen_uuid_inj. lia. Qed.
Lemma drawn_next n id : drawn n id → drawn (n + 1) id.
Proof. intros (k & ? & <-). exists k. split; [lia|done]. Qed.
Lemma drawn_new n : drawn (n + 1) (gen_uuid n).
Proof. exists n. split; [lia|done]. Qed.

Lemma inventory_delete grs gs n p :
  inventory_ok grs gs n → inventory_ok grs (List.filter p gs) n.
Proof.
  intros []. split; try done.
  - by apply fmap_NoDup_filter.
  - intros g [Hg _]%filter_bool_In. auto.
  - intros g [Hg _]%filter_bool_In. auto.
Qed.

Lemma inventory_update grs gs n f :
  (∀ g, grant_ID (f g) = grant_ID g ∧ grant_GroupID (f g) = grant_GroupID g) →
  inventory_ok grs gs n → inventory_ok grs (List.map f gs) n.
Proof.
  intros Hf []. assert (grant_ID <$> List.map f gs = grant_ID <$> gs) as Hid.
  { change (List.map f gs) with (f <$> gs). rewrite <-list_fmap_compose.
    apply list_fmap_ext. intros i g _. apply Hf. }
  split; try done; [by rewrite Hid| |];
    intros g (g' & -> & Hg')%list_elem_of_fmap; destruct (Hf g') as [H1 H2];
    rewrite ?H1, ?H2; auto.
Qed.

Lemma inventory_create grs gs n g gr :
  inventory_ok grs gs n → grant_ID g = gen_uuid n → gr ∈ grs →
  group_ID gr = grant_GroupID g → inventory_ok grs (gs ++ [g]) (n + 1).
Proof.
  intros [] Hg Hgr Hid. split; try done.
  - intros. by apply drawn_next, group_ids_drawn0.
  - apply fmap_NoDup_snoc; [done|]. rewrite Hg.
    intros (g' & Heq & Hg')%list_elem_of_fmap. by eapply drawn_fresh; [apply grant_ids_drawn0|].
  - intros g' [Hg'|Hg'%list_elem_of_singleton]%elem_of_app;
      [by apply drawn_next, grant_ids_drawn0|subst; rewrite Hg; apply drawn_new].
  - intros g' [Hg'|Hg'%list_elem_of_singleton]%elem_of_app; [auto|subst; eauto].
Qed.

Lemma inventory_group grs gs n gr :
  inventory_ok grs gs n → group_ID gr = gen_uuid n →
  nul_free (group_Issuer gr) → nul_free (group_Name gr) →
  inventory_ok (grs ++ [gr]) gs (n + 1).
Proof.
  intros [] Hg Hi Hn. split; try done.
  - apply fmap_NoDup_snoc; [done|]. rewrite Hg.
    intros (g' & Heq & Hg')%list_elem_of_fmap. by eapply drawn_fresh; [apply group_ids_drawn0|].
  - intros g' [Hg'|Hg'%list_elem_of_singleton]%elem_of_app;
      [by apply drawn_next, group_ids_drawn0|subst; rewrite Hg; apply drawn_new].
  - intros g' [Hg'|Hg'%list_elem_of_singleton]%elem_of_app; [auto|by subst].
  - intros. by apply drawn_next, grant_ids_drawn0.
  - intros g Hgin. destruct (grant_group_exists0 g Hgin) as (gr' & ? & ?).
    exists gr'. split; [apply elem_of_app; auto|done].
Qed.

(** *** The join of a well-formed inventory *)
Lemma join_group_elem grs g x :
  x ∈ join_group grs g ↔ ∃ gr, gr ∈ grs ∧ group_ID gr = grant_GroupID g ∧
    x = {| gwg_Grant := g; gwg_GroupName := group_Name gr; gwg_GroupIssuer := group_Issuer gr |}.
Proof.
  unfold join_group. rewrite list_elem_of_fmap. setoid_rewrite filter_bool_In.
  setoid_rewrite bool_decide_eq_true. naive_solver.
Qed.

Lemma join_group_one grs g gr :
  NoDup (group_ID <$> grs) → gr ∈ grs → group_ID gr = grant_GroupID g →
  join_group grs g = [{| gwg_Grant := g; gwg_GroupName := group_Name gr;
                         gwg_GroupIssuer := group_Issuer gr |}].
Proof.
  intros Hnd Hin Hid. unfold join_group.
  assert (List.filter (λ gr, bool_decide (group_ID gr = grant_GroupID g)) grs = [gr]) as ->;
    [|done].
  induction grs as [|gr' grs IH]; simpl; [by apply elem_of_nil in Hin|].
  apply NoDup_cons in Hnd as [Hni Hnd].
  apply elem_of_cons in Hin as [->|Hin].
  - rewrite bool_decide_true by done. f_equal. apply filter_false. intros y Hy.
    apply bool_decide_eq_false. intros Heq. apply Hni, list_elem_of_fmap.
    exists y. split; [congruence|done].
  - rewrite bool_decide_false; [by apply IH|]. intros Heq. apply Hni, list_elem_of_fmap.
    exists gr. split; [congruence|done].
Qed.

Lemma joined_elem grs gs x :
  x ∈ joined grs gs ↔ gwg_Grant x ∈ gs ∧ x ∈ join_group grs (gwg_Grant x).
Proof.
  unfold joined. rewrite list_elem_of_In, in_flat_map. split.
  - intros (g & Hg & Hx). apply list_elem_of_In in Hg, Hx.
    assert (gwg_Grant x = g) as -> by (by apply join_group_elem in Hx as (? & _ & _ & ->)).
    done.
  - intros [Hg Hx]. exists (gwg_Grant x). by rewrite <-!list_elem_of_In.
Qed.

Lemma joined_delete grs gs p :
  joined grs (List.filter p gs) = List.filter (λ x, p (gwg_Grant x)) (joined grs gs).
Proof.
  unfold joined. induction gs as [|g gs IH]; simpl; [done|].
  rewrite List.filter_app, <-IH.
  destruct (p g) eqn:E; simpl.
  - f_equal. symmetry. apply filter_true. intros x Hx.
    apply join_group_elem in Hx as (? & _ & _ & ->). done.
  - rewrite (filter_false _ (join_group grs g)); [done|]. intros x Hx.
    apply join_group_elem in Hx as (? & _ & _ & ->). done.
Qed.

Lemma joined_ids grs gs :
  NoDup (group_ID <$> grs) → NoDup (grant_ID <$> gs) →
  NoDup ((λ x, grant_ID (gwg_Grant x)) <$> joined grs gs).
Proof.
  intros Hgr. unfold joined. induction gs as [|g gs IH]; simpl; [constructor|].
  intros [Hg Hgs]%NoDup_cons. rewrite fmap_app. apply list.NoDup_app. split; [|split; [|by apply IH]].
  - destruct (join_group grs g) as [|x l] eqn:E; [constructor|].
    assert (x ∈ join_group grs g) as Hx by (rewrite E; set_solver).
    apply join_group_elem in Hx as (gr & Hin & Hid & _).
    rewrite (join_group_one _ _ gr Hgr Hin Hid) in E. simplify_eq/=. apply NoDup_singleton.
  - intros i (x & -> & Hx)%list_elem_of_fmap (y & Hy & Hyin)%list_elem_of_fmap.
    apply join_group_elem in Hx as (? & _ & _ & ->). simpl in *.
    apply (joined_elem grs gs) in Hyin as [Hyg _].
    apply Hg, list_elem_of_fmap. eauto.
Qed.

Lemma joined_snoc_group grs gs gr :
  (∀ g, g ∈ gs → group_ID gr ≠ grant_GroupID g) →
  joined (grs ++ [gr]) gs = joined grs gs.
Proof.
  intros Hg. unfold joined. induction gs as [|g gs IH]; simpl; [done|].
  rewrite IH by (intros; apply Hg; set_solver). f_equal. unfold join_group.
  rewrite List.filter_app. simpl.
  rewrite bool_decide_false by (apply Hg; set_solver). by rewrite app_nil_r.
Qed.
End inventory.

(** Changing a grant in place changes its joined row. *)
Lemma joined_map grs gs (p : AccessGrant → bool) u :
  (∀ g, grant_GroupID (u g) = grant_GroupID g) →
  joined grs (List.map (λ g, if p g then u g else g) gs) =
  List.map (λ x, if p (gwg_Grant x)
                 then {| gwg_Grant := u (gwg_Grant x); gwg_GroupName := gwg_GroupName x;
                         gwg_GroupIssuer := gwg_GroupIssuer x |}
                 else x) (joined grs gs).
Proof.
  intros Hu. unfold joined. induction gs as [|g gs IH]; simpl; [done|].
  rewrite List.map_app, <-IH. f_equal. unfold join_group. rewrite List.map_map. simpl.
  destruct (p g); [|done]. rewrite Hu. done.
Qed.

(** ** The grants are reconcilable *)
Section laws.
Context `{Crypto} `{UUIDs} (actor defaultIssuer : string).
Implicit Types w : World.

Definition grants_wf w : Prop :=
  inventory_ok (groups (w_db w)) (access_grants (w_db w)) (w_uuid w).
Definition grants_declarable (sp : GrantSpec) : Prop :=
  nul_free (spec_issuer defaultIssuer sp) ∧ nul_free (spec_Group sp).
(** A stored grant says what a spec declares. *)
Definition carries (sp : GrantSpec) (x : GrantWithGroup) : Prop :=
  gwg_GroupIssuer x = spec_issuer defaultIssuer sp ∧ gwg_GroupName x = spec_Group sp ∧
  grant_TagSelector (gwg_Grant x) = spec_TagSelector sp ∧
  grant_Principals (gwg_Grant x) = spec_Principals sp ∧
  grant_Sudo (gwg_Grant x) = spec_Sudo sp ∧
  grant_MaxValiditySeconds (gwg_Grant x) = spec_MaxValiditySeconds sp.

Lemma carries_key sp x : carries sp x → grant_row_key x = grant_spec_key defaultIssuer sp.
Proof. intros (Hi & Hg & Hs & _). unfold grant_row_key, grant_spec_key. congruence. Qed.

Lemma row_key_parts sp x w :
  grants_declarable sp → grants_wf w → x ∈ grants_with_group (w_db w) →
  grant_row_key x = grant_spec_key defaultIssuer sp →
  gwg_GroupIssuer x = spec_issuer defaultIssuer sp ∧ gwg_GroupName x = spec_Group sp ∧
  grant_TagSelector (gwg_Grant x) = spec_TagSelector sp.
Proof.
  intros [Hi Hg] Hwf Hx. apply joined_elem in Hx as [_ (gr & Hgr & _ & ->)%join_group_elem].
  destruct (group_text _ _ _ Hwf gr Hgr). by apply grantKey_inj.
Qed.

Lemma grants_same sp x w :
  grants_declarable sp → grants_wf w → x ∈ grants_with_group (w_db w) →
  grant_row_key x = grant_spec_key defaultIssuer sp →
  same_as_spec x sp = true ↔ carries sp x.
Proof.
  intros Hd Hwf Hx Hk. destruct (row_key_parts sp x w Hd Hwf Hx Hk) as (Hi & Hg & Hs).
  unfold same_as_spec, carries. rewrite !andb_true_iff, !bool_decide_eq_true, Z.eqb_eq.
  naive_solver.
Qed.

Lemma grants_delete x rest w u w' :
  grants_wf w → grants_with_group (w_db w) ≡ₚ x :: rest →
  delete_grant_row actor x w = (Ok u, w') →
  grants_wf w' ∧ audit_count (w_db w') = (audit_count (w_db w) + 1)%Z ∧
  grants_with_group (w_db w') ≡ₚ rest.
Proof.
  intros Hwf Hinv Hr. unfold delete_grant_row, deleteGrantTx in Hr. run_store.
  split_and!.
  - by apply inventory_delete.
  - unfold audit_count. simpl. rewrite length_app. simpl. lia.
  - unfold grants_with_group. simpl. rewrite joined_delete.
    apply (filter_out_key (λ y, grant_ID (gwg_Grant y))); [|done].
    apply joined_ids; apply Hwf.
Qed.

Lemma grants_update sp x rest w u w' :
  grants_declarable sp → grants_wf w → grants_with_group (w_db w) ≡ₚ x :: rest →
  grant_row_key x = grant_spec_key defaultIssuer sp →
  update_from_spec actor x sp w = (Ok u, w') →
  grants_wf w' ∧ audit_count (w_db w') = (audit_count (w_db w) + 1)%Z ∧
  ∃ r', carries sp r' ∧ grants_with_group (w_db w') ≡ₚ r' :: rest.
Proof.
  intros Hd Hwf Hinv Hk Hr.
  destruct (row_key_parts sp x w Hd Hwf) as (Hi & Hg & Hs); [rewrite Hinv; set_solver|done|].
  unfold update_from_spec, updateGrantTx in Hr. run_store.
  split_and!.
  - apply inventory_update; [|done]. intros g. by destruct (bool_decide _).
  - unfold audit_count. simpl. rewrite length_app. simpl. lia.
  - unfold grants_with_group. simpl. rewrite joined_map by done.
    eexists. split; [|apply (map_at_key (λ y, grant_ID (gwg_Grant y)));
      [apply joined_ids; apply Hwf|exact Hinv]]. done.
Qed.

Lemma ensureGroupTx_Ok issuer name w gr w' :
  nul_free issuer → nul_free name → grants_wf w →
  ensureGroupTx issuer name w = (Ok gr, w') →
  grants_wf w' ∧ audit_count (w_db w') = audit_count (w_db w) ∧
  gr ∈ groups (w_db w') ∧ group_Issuer gr = issuer ∧ group_Name gr = name ∧
  grants_with_group (w_db w') = grants_with_group (w_db w).
Proof.
  intros Hi Hn Hwf Hr. unfold ensureGroupTx in Hr. run_step.
  run_step.
  destruct x as [gr'|e].
  - run_store.
    match goal with Hf : [gr] = groups_named _ _ _ |- _ =>
      assert (gr ∈ groups_named (w_db w) issuer name) as Hin by (rewrite <-Hf; set_solver) end.
    apply filter_bool_In in Hin as [Hin Hb]. bool_to_prop. done.
  - match goal with Ht : queryOne _ _ = (Err e, ?w1) |- _ =>
      assert (w_db w1 = w_db w ∧ w_uuid w1 = w_uuid w) as [Hdb Hu] end.
    { unfold queryOne, sql_select, stmt, bind, ret, fail in *.
      repeat (case_match; simplify_eq/=); done. }
    destruct (errors_Is e ErrNotFound); [|run_step]. run_store.
    rewrite Hdb, Hu in *. unfold grants_wf. simpl.
    split_and!; [by apply inventory_group|done|apply elem_of_app; right; by left|done|done|].
    apply joined_snoc_group. simpl. intros g Hg.
    destruct (grant_group_exists _ _ _ Hwf g Hg) as (gr' & Hin & <-).
    intros Heq. by eapply drawn_fresh; [by eapply group_ids_drawn|].
Qed.

Lemma grants_create sp w u w' :
  grants_declarable sp → grants_wf w →
  create_from_spec actor defaultIssuer sp w = (Ok u, w') →
  grants_wf w' ∧ audit_count (w_db w') = (audit_count (w_db w) + 1)%Z ∧
  ∃ r, carries sp r ∧ grants_with_group (w_db w') ≡ₚ r :: grants_with_group (w_db w).
Proof.
  intros [Hi Hn] Hwf Hr. unfold create_from_spec, createGrantTx in Hr. run_step.
  match goal with He : ensureGroupTx _ _ _ = _ |- _ =>
    apply ensureGroupTx_Ok in He as (Hwf1 & Ha & Hin & Hiss & Hname & Hj); [|done..] end.
  run_store. split_and!.
  - by eapply inventory_create.
  - unfold audit_count in *. simpl. rewrite length_app. simpl. lia.
  - rewrite <-Hj. unfold grants_with_group, joined. simpl.
    rewrite flat_map_app. simpl. rewrite app_nil_r.
    erewrite join_group_one; [|apply Hwf1|exact Hin|done].
    eexists. split; [|symmetry; apply Permutation_cons_append]. done.
Qed.

#[export] Instance grants_reconcilable :
  Reconcilable (validate_spec defaultIssuer) grant_row_key (grant_spec_key defaultIssuer)
    (create_from_spec actor defaultIssuer) same_as_spec (update_from_spec actor)
    (delete_grant_row actor).
Proof.
  refine {| inventory := grants_with_group; wf := grants_wf;
            declarable := grants_declarable; matches := carries |}.
  - intros sp r _. apply carries_key.
  - intros i sp r w Hd _. by apply grants_same.
  - intros i sp w u w' Hd _. by apply grants_create.
  - intros i sp r rest w u w' Hd _. by apply grants_update.
  - apply grants_delete.
Defined.
End laws.

(** ** The audit log grows *)
Section audit_instances.
Context `{Crypto} `{UUIDs} `{MapOrder}.

#[export] Instance createGrantTx_audit a g : Keeps audit_grows (createGrantTx a g).
Proof. unfold createGrantTx. apply _. Qed.
#[export] Instance updateGrantTx_audit a g : Keeps audit_grows (updateGrantTx a g).
Proof. unfold updateGrantTx. apply _. Qed.
#[export] Instance deleteGrantTx_audit a i : Keeps audit_grows (deleteGrantTx a i).
Proof. unfold deleteGrantTx. apply _. Qed.
#[export] Instance CreateGrant_audit a g : Keeps audit_grows (CreateGrant a g).
Proof. unfold CreateGrant. apply _. Qed.
#[export] Instance UpdateGrant_audit a g : Keeps audit_grows (UpdateGrant a g).
Proof. unfold UpdateGrant. apply _. Qed.
#[export] Instance DeleteGrant_audit a i : Keeps audit_grows (DeleteGrant a i).
Proof. unfold DeleteGrant. apply _. Qed.
#[export] Instance ensureGroupTx_audit i n : Keeps audit_grows (ensureGroupTx i n).
Proof.
  unfold ensureGroupTx. apply keeps_bind; [apply _..|]. intros [|e]; [apply _|].
  destruct (errors_Is e ErrNotFound); apply _.
Qed.
#[export] Instance ListGrantsForUser_audit u : Keeps audit_grows (ListGrantsForUser u).
Proof. unfold ListGrantsForUser. apply _. Qed.
#[export] Instance ApplyGrants_audit a d specs : Keeps audit_grows (ApplyGrants a d specs).
Proof.
  unfold ApplyGrants. apply keeps_BeginFunc; [apply _|].
  apply keeps_bind; [apply _..|]. intros existing.
  apply keeps_reconcile; [apply _..| | |].
  - intros sp. unfold create_from_spec. apply _.
  - intros r sp. unfold update_from_spec. apply _.
  - intros r. unfold delete_grant_row. apply _.
Qed.
End audit_instances.

(** ** Properties *)

(** A successful apply leaves exactly what the specs declare. *)
Lemma ApplyGrants_Ok `{Crypto} `{UUIDs} `{MapOrder} actor issuer specs w res w' :
  grants_wf w → Forall (grants_declarable issuer) specs →
  ApplyGrants actor issuer specs w = (Ok res, w') →
  grants_wf w' ∧
  (∃ rows, Forall2 (carries issuer) specs rows ∧ grants_with_group (w_db w') ≡ₚ rows) ∧
  (Created res + Updated res + Unchanged res = Z.of_nat (List.length specs))%Z ∧
  audit_count (w_db w') = (audit_count (w_db w) + changes res)%Z.
Proof.
  intros Hwf Hdecl Hrun. unfold ApplyGrants in Hrun. run_step. run_step. subst.
  match goal with Hq : queryAll _ _ = _ |- _ => apply sql_select_Ok in Hq as (fs & -> & ->) end.
  match goal with Hc : reconcile _ _ _ _ _ _ _ _ _ _ _ = _ |- _ =>
    apply (reconcile_Ok (HR := grants_reconcilable actor issuer)) in Hc
      as (Hwf' & Ha & Hn & rows & Hm & Hinv); [|done..|] end.
  - split_and!; [done|by exists rows|done|done].
  - simpl. by rewrite sort_by_perm.
Qed.
(** An apply of what is already there changes nothing. *)
Lemma ApplyGrants_noop `{Crypto} `{UUIDs} `{MapOrder} actor issuer specs rows w r w' :
  grants_wf w → Forall (grants_declarable issuer) specs →
  Forall2 (carries issuer) specs rows → grants_with_group (w_db w) ≡ₚ rows →
  ApplyGrants actor issuer specs w = (r, w') →
  w_db w' = w_db w ∧
  ∀ res, r = Ok res →
    res = {| Created := 0; Updated := 0; Deleted := 0; Unchanged := Z.of_nat (List.length specs) |}.
Proof.
  intros Hwf Hdecl Hm Hinv Hrun. destruct r as [res|e]; [|split; [by eapply transaction_Err|done]].
  unfold ApplyGrants in Hrun. apply transaction_Ok in Hrun as (? & ? & w2' & Hb & ->). run_step.
  match goal with Hq : queryAll _ _ = _ |- _ => apply sql_select_Ok in Hq as (? & -> & ->) end.
  match goal with Hc : reconcile _ _ _ _ _ _ _ _ _ _ _ = _ |- _ =>
    apply (reconcile_noop (HR := grants_reconcilable actor issuer) _ _ rows) in Hc
      as (-> & ->); [|done..| | |] end.
  - split; [done|]. by intros ? [= <-].
  - simpl. by rewrite sort_by_perm.
  - done.
  - intros row Hrow. simpl. by rewrite Hinv.
Qed.

(** C3: [ApplyGrants] converges to the declared state: when it succeeds, the
    inventory is, up to order, one grant per spec with the spec's issuer,
    group, selector, principals, sudo flag and maximum; the inventory stays
    well-formed, every spec is counted once, and the audit log has one new
    event per created, updated or deleted grant. When it fails, nothing in the
    database has changed. *)
Theorem apply_grants_converges `{Crypto} `{UUIDs} `{MapOrder} actor issuer specs w r w'
  (Hwf : grants_wf w)
  (Hdecl : Forall (grants_declarable issuer) specs)
  (Hrun : ApplyGrants actor issuer specs w = (r, w')) :
  match r with
  | Ok res =>
      grants_wf w' ∧
      (∃ rows, Forall2 (carries issuer) specs rows ∧ grants_with_group (w_db w') ≡ₚ rows) ∧
      (Created res + Updated res + Unchanged res = Z.of_nat (List.length specs))%Z ∧
      audit_count (w_db w') = (audit_count (w_db w) + changes res)%Z
  | Err _ => w_db w' = w_db w
  end.
Proof.
  destruct r as [res|e]; [by eapply ApplyGrants_Ok|by eapply transaction_Err].
Qed.

(** C4: [ApplyGrants] is idempotent: applying the same specs again to the
    database a successful run left, at any time, changes no table at all
    (audit log included) and reports every spec as unchanged. *)
Theorem apply_grants_idempotent `{Crypto} `{UUIDs} `{MapOrder}
  actor issuer specs w res w1 now ticks faults res2 w2
  (Hwf : grants_wf w)
  (Hdecl : Forall (grants_declarable issuer) specs)
  (Hfirst : ApplyGrants actor issuer specs w = (Ok res, w1))
  (Hsecond : ApplyGrants actor issuer specs (set_faults faults (set_clock now ticks w1)) =
             (Ok res2, w2)) :
  w_db w2 = w_db w1 ∧
  res2 = {| Created := 0; Updated := 0; Deleted := 0;
            Unchanged := Z.of_nat (List.length specs) |}.
Proof.
  destruct (ApplyGrants_Ok actor issuer specs w res w1) as (Hwf1 & (rows & Hm & Hinv) & _); [done..|].
  destruct (ApplyGrants_noop actor issuer specs rows (set_faults faults (set_clock now ticks w1))
    (Ok res2) w2) as [Hdb Hres]; [done..|]. split; [exact Hdb|by apply Hres].
Qed.

(** The group dev gets alice's hosts, and a group that does not exist yet. *)
Definition toy_specs : list GrantSpec := [
  {| spec_Group := "dev"; spec_Issuer := ""; spec_TagSelector := {["env" := "prod"]};
     spec_Principals := ["root"]; spec_Sudo := true; spec_MaxValiditySeconds := 3600 |};
  {| spec_Group := "web"; spec_Issuer := ""; spec_TagSelector := ∅;
     spec_Principals := ["www"]; spec_Sudo := false; spec_MaxValiditySeconds := 600 |}].

Lemma toy_grants_wf : grants_wf (H0 := counting_uuids) (toy_world toy_db).
Proof.
  split; simpl.
  - by vm_compute; repeat constructor; set_solver.
  - intros gr Hgr. exists (group_ID gr). split; [|done].
    repeat (apply elem_of_cons in Hgr as [->|Hgr]; [done|]). by apply elem_of_nil in Hgr.
  - intros gr Hgr. unfold nul_free.
    repeat (apply elem_of_cons in Hgr as [->|Hgr]; [simpl; split; naive_solver|]).
    by apply elem_of_nil in Hgr.
  - constructor.
  - by intros ? ?%elem_of_nil.
  - by intros ? ?%elem_of_nil.
Qed.

Lemma toy_specs_declarable : Forall (grants_declarable "idp") toy_specs.
Proof.
  repeat constructor; unfold nul_free; simpl; naive_solver.
Qed.

Lemma apply_grants_converges_witness :
  ∃ res w', ApplyGrants (H0 := counting_uuids) (H1 := key_order) "admin" "idp" toy_specs
      (toy_world toy_db) = (Ok res, w') ∧ Created res = 2%Z ∧
    ∃ rows, Forall2 (carries "idp") toy_specs rows ∧ grants_with_group (w_db w') ≡ₚ rows.
Proof.
  do 2 eexists. split; [vm_compute; reflexivity|]. split; [reflexivity|].
  apply (apply_grants_converges (H0 := counting_uuids) (H1 := key_order) "admin" "idp" toy_specs
    (toy_world toy_db) (Ok {| Created := 2; Updated := 0; Deleted := 0; Unchanged := 0 |})
    _ toy_grants_wf toy_specs_declarable).
  vm_compute. reflexivity.
Defined.

Definition toy_run (w : @World toy_crypto) : result ApplyResult * @World toy_crypto :=
  ApplyGrants (H0 := counting_uuids) (H1 := key_order) "admin" "idp" toy_specs w.

Lemma apply_grants_idempotent_witness :
  let w1 := (toy_run (toy_world toy_db)).2 in
  let again := toy_run (set_faults [] (set_clock 5 [] w1)) in
  again.1 = Ok {| Created := 0; Updated := 0; Deleted := 0; Unchanged := 2 |} ∧
  w_db again.2 = w_db w1.
Proof.
  split; [vm_compute; reflexivity|].
  apply (apply_grants_idempotent (H0 := counting_uuids) (H1 := key_order) "admin" "idp"
    toy_specs (toy_world toy_db) {| Created := 2; Updated := 0; Deleted := 0; Unchanged := 0 |}
    _ 5 [] [] {| Created := 0; Updated := 0; Deleted := 0; Unchanged := 2 |} _
    toy_grants_wf toy_specs_declarable); vm_compute; reflexivity.
Defined.
