(* ===== verification/StoreCIGrants.v ===== *)
(** * CI grants (internal/store/ci_grants.go)

    Rules for GitLab pipelines: project or namespace, ref and environment
    globs, protected refs. The glob matcher is proved equal to a declarative
    reference; the SQL candidate query is proved to lose no match. *)
From S2P Require Export StoreGrants.

Local Open Scope string_scope.
Local Open Scope list_scope.

Definition EventCIGrantCreated := "ci_grant.created".
Definition EventCIGrantUpdated := "ci_grant.updated".
Definition EventCIGrantDeleted := "ci_grant.deleted".

Record CIMatch := {
  match_ProjectPath : string; match_Ref : string; match_RefProtected : bool;
  match_Environment : string
}.

Record CIGrantSpec := {
  cispec_ProjectPath : string; cispec_RefPattern : string; cispec_ProtectedOnly : bool;
  cispec_EnvironmentPattern : string; cispec_TagSelector : gmap string string;
  cispec_Principals : list string; cispec_MaxValiditySeconds : Z
}.

(** ** Matching *)

(** The middle parts are found leftmost first; the last is a suffix. *)
Fixpoint wildcard_rest (parts : list string) (value : string) : bool :=
  match parts with
  | [] => true
  | [last] => HasSuffix value last
  | part :: parts =>
      match Cut value part with
      | None => false
      | Some (_, after) => wildcard_rest parts after
      end
  end.
Definition wildcardMatch (pattern value : string) : bool :=
  match Split pattern "*" with
  | [] | [_] => bool_decide (pattern = value)
  | first :: parts =>
      match CutPrefix value first with
      | None => false
      | Some value => wildcard_rest parts value
      end
  end.

Definition projectMatches (grantPath projectPath : string) : bool :=
  bool_decide (grantPath = projectPath) || HasPrefix projectPath (grantPath +:+ "/").

Definition Matches (g : CIGrant) (m : CIMatch) : bool :=
  if negb (projectMatches (cigrant_ProjectPath g) (match_ProjectPath m)) then false
  else if cigrant_ProtectedOnly g && negb (match_RefProtected m) then false
  else if negb (bool_decide (cigrant_RefPattern g = "")) &&
          negb (wildcardMatch (cigrant_RefPattern g) (match_Ref m)) then false
  else if negb (bool_decide (cigrant_EnvironmentPattern g = "")) &&
          negb (wildcardMatch (cigrant_EnvironmentPattern g) (match_Environment m)) then false
  else true.

Definition ciGrantAuditEvent (eventType actor : string) (g : CIGrant) : AuditEvent :=
  new_audit eventType actor (JObj [
    ("ci_grant_id", JNum (Z.of_N (cigrant_ID g)));
    ("environment_pattern", JStr (cigrant_EnvironmentPattern g));
    ("max_validity_seconds", JNum (cigrant_MaxValiditySeconds g));
    ("principals", JStrs (cigrant_Principals g));
    ("project_path", JStr (cigrant_ProjectPath g));
    ("protected_only", JBool (cigrant_ProtectedOnly g));
    ("ref_pattern", JStr (cigrant_RefPattern g));
    ("tag_selector", JMap (cigrant_TagSelector g))]).

Definition cigrant_row (g : CIGrant) (id : uuid) (now : Z) : CIGrant := {|
  cigrant_ID := id; cigrant_ProjectPath := cigrant_ProjectPath g;
  cigrant_RefPattern := cigrant_RefPattern g; cigrant_ProtectedOnly := cigrant_ProtectedOnly g;
  cigrant_EnvironmentPattern := cigrant_EnvironmentPattern g;
  cigrant_TagSelector := cigrant_TagSelector g; cigrant_Principals := cigrant_Principals g;
  cigrant_MaxValiditySeconds := cigrant_MaxValiditySeconds g;
  cigrant_CreatedAt := now; cigrant_UpdatedAt := now |}.
Definition cigrant_update (g : CIGrant) (now : Z) (old : CIGrant) : CIGrant := {|
  cigrant_ID := cigrant_ID old; cigrant_ProjectPath := cigrant_ProjectPath old;
  cigrant_RefPattern := cigrant_RefPattern g; cigrant_ProtectedOnly := cigrant_ProtectedOnly g;
  cigrant_EnvironmentPattern := cigrant_EnvironmentPattern g;
  cigrant_TagSelector := cigrant_TagSelector g; cigrant_Principals := cigrant_Principals g;
  cigrant_MaxValiditySeconds := cigrant_MaxValiditySeconds g;
  cigrant_CreatedAt := cigrant_CreatedAt old; cigrant_UpdatedAt := now |}.
Definition cigrant_ok (db : Db) (g : CIGrant) : bool := (0 <? cigrant_MaxValiditySeconds g)%Z.

(** WHERE project_path = $1 OR $1 LIKE project_path || '/%'. *)
Definition ci_candidate (projectPath : string) (g : CIGrant) : bool :=
  bool_decide (cigrant_ProjectPath g = projectPath) ||
  like (cigrant_ProjectPath g +:+ "/%") projectPath.

Definition ciGrantKey (projectPath refPattern : string) (protectedOnly : bool)
    (envPattern : string) (selector : gmap string string) : string :=
  GoStrings.Join [projectPath; refPattern; if protectedOnly then "true" else "false"; envPattern;
        marshal_map selector] (String nul "").

Definition validateCIGrantSpec (index : nat) (spec : CIGrantSpec) : result unit :=
  let fail reason := Err (ErrWrap reason ErrInvalidGrantSpec) in
  if bool_decide (cispec_ProjectPath spec = "") then fail "project is missing"
  else if bool_decide (cispec_Principals spec = []) then fail "principals are missing"
  else if (cispec_MaxValiditySeconds spec <=? 0)%Z then fail "max_validity must be greater than 0"
  else Ok ().

Section ci_grants.
Context `{Crypto} `{UUIDs} `{MapOrder}.

Definition createCIGrantTx (actor : string) (g : CIGrant) : M CIGrant :=
  let* created := queryOne (sql_insert ci_grants_table (cigrant_row g) cigrant_ok) in
  insertAuditEvent (ciGrantAuditEvent EventCIGrantCreated actor created) ;;
  ret created.
Definition CreateCIGrant (actor : string) (g : CIGrant) : M CIGrant :=
  BeginFunc (createCIGrantTx actor g).
Definition GetCIGrant (id : uuid) : M CIGrant :=
  queryOne (sql_select (λ db,
    List.filter (λ g, bool_decide (cigrant_ID g = id)) (ci_grants db))).
Definition ListCIGrants : M (list CIGrant) :=
  queryAll (λ db, sort_by (λ a b,
    String.ltb (cigrant_ProjectPath a) (cigrant_ProjectPath b) ||
    (bool_decide (cigrant_ProjectPath a = cigrant_ProjectPath b) &&
     oldest_first cigrant_CreatedAt cigrant_ID a b)) (ci_grants db)).
Definition MatchCIGrants (m : CIMatch) : M (list CIGrant) :=
  let* candidates := queryAll (λ db, sort_by (oldest_first cigrant_CreatedAt cigrant_ID)
    (List.filter (ci_candidate (match_ProjectPath m)) (ci_grants db))) in
  ret (List.filter (λ g, Matches g m) candidates).

Definition updateCIGrantTx (actor : string) (g : CIGrant) : M CIGrant :=
  let* updated := queryOne (sql_update ci_grants_table
    (λ x, bool_decide (cigrant_ID x = cigrant_ID g)) (cigrant_update g)
    (λ x, (0 <? cigrant_MaxValiditySeconds x)%Z)) in
  insertAuditEvent (ciGrantAuditEvent EventCIGrantUpdated actor updated) ;;
  ret updated.
Definition UpdateCIGrant (actor : string) (g : CIGrant) : M CIGrant :=
  BeginFunc (updateCIGrantTx actor g).
Definition deleteCIGrantTx (actor : string) (id : uuid) : M unit :=
  let* deleted := queryOne (sql_delete ci_grants_table
    (λ x, bool_decide (cigrant_ID x = id)) no_cascade no_check) in
  insertAuditEvent (ciGrantAuditEvent EventCIGrantDeleted actor deleted).
Definition DeleteCIGrant (actor : string) (id : uuid) : M unit :=
  BeginFunc (deleteCIGrantTx actor id).

(** ** The declarative reconciliation *)
Section apply_ci.
Context (actor : string).

Definition ci_spec_key (s : CIGrantSpec) : string :=
  ciGrantKey (cispec_ProjectPath s) (cispec_RefPattern s) (cispec_ProtectedOnly s)
    (cispec_EnvironmentPattern s) (cispec_TagSelector s).
Definition ci_row_key (g : CIGrant) : string :=
  ciGrantKey (cigrant_ProjectPath g) (cigrant_RefPattern g) (cigrant_ProtectedOnly g)
    (cigrant_EnvironmentPattern g) (cigrant_TagSelector g).
Definition duplicate_ci_spec (i : nat) (s : CIGrantSpec) : error :=
  ErrWrap "duplicate entry for the same condition" ErrInvalidGrantSpec.

(** The three cases of [applyCISpecTx]. *)
Definition create_ci_from_spec (s : CIGrantSpec) : M unit :=
  createCIGrantTx actor {|
    cigrant_ID := 0%N; cigrant_ProjectPath := cispec_ProjectPath s;
    cigrant_RefPattern := cispec_RefPattern s; cigrant_ProtectedOnly := cispec_ProtectedOnly s;
    cigrant_EnvironmentPattern := cispec_EnvironmentPattern s;
    cigrant_TagSelector := cispec_TagSelector s; cigrant_Principals := cispec_Principals s;
    cigrant_MaxValiditySeconds := cispec_MaxValiditySeconds s;
    cigrant_CreatedAt := 0; cigrant_UpdatedAt := 0 |} ;;
  ret ().
Definition same_ci_as_spec (current : CIGrant) (s : CIGrantSpec) : bool :=
  bool_decide (cigrant_Principals current = cispec_Principals s) &&
  (cigrant_MaxValiditySeconds current =? cispec_MaxValiditySeconds s)%Z.
Definition update_ci_from_spec (current : CIGrant) (s : CIGrantSpec) : M unit :=
  updateCIGrantTx actor {|
    cigrant_ID := cigrant_ID current; cigrant_ProjectPath := cigrant_ProjectPath current;
    cigrant_RefPattern := cigrant_RefPattern current;
    cigrant_ProtectedOnly := cigrant_ProtectedOnly current;
    cigrant_EnvironmentPattern := cigrant_EnvironmentPattern current;
    cigrant_TagSelector := cigrant_TagSelector current;
    cigrant_Principals := cispec_Principals s;
    cigrant_MaxValiditySeconds := cispec_MaxValiditySeconds s;
    cigrant_CreatedAt := cigrant_CreatedAt current;
    cigrant_UpdatedAt := cigrant_UpdatedAt current |} ;;
  ret ().
Definition delete_ci_row (g : CIGrant) : M unit := deleteCIGrantTx actor (cigrant_ID g).

Definition applyCISpecTx : CIGrantSpec → list CIGrant → ApplyResult → M ApplyResult :=
  apply_candidates create_ci_from_spec same_ci_as_spec update_ci_from_spec delete_ci_row.

Definition ApplyCIGrants (specs : list CIGrantSpec) : M ApplyResult :=
  BeginFunc (
    let* existing := queryAll (λ db,
      sort_by (oldest_first cigrant_CreatedAt cigrant_ID) (ci_grants db)) in
    reconcile validateCIGrantSpec duplicate_ci_spec ci_row_key ci_spec_key
      create_ci_from_spec same_ci_as_spec update_ci_from_spec delete_ci_row existing specs).
End apply_ci.
End ci_grants.

(** ** The glob language: a star matches any string, any other character
    itself. *)
Inductive Glob : string → string → Prop :=
| glob_nil : Glob "" ""
| glob_char c p v : c ≠ "*"%char → Glob p v → Glob (String c p) (String c v)
| glob_star p a v : Glob p v → Glob (String "*" p) (a +:+ v).

(** A sequence of parts occurs in order, the last one at the end. *)
Fixpoint occurs (parts : list string) (value : string) : Prop :=
  match parts with
  | [] => True
  | [last] => ∃ a, value = a +:+ last
  | part :: parts => ∃ a v, value = a +:+ part +:+ v ∧ occurs parts v
  end.

Lemma occurs_extend parts a v : occurs parts v → occurs parts (a +:+ v).
Proof.
  destruct parts as [|p [|q ps]]; simpl; [done| |].
  - intros [b ->]. exists (a +:+ b). by rewrite append_assoc.
  - intros (b & v' & -> & Hv). exists (a +:+ b), v'. by rewrite append_assoc.
Qed.

(** Leftmost search loses nothing. *)
Lemma wildcard_rest_spec parts value : wildcard_rest parts value = true ↔ occurs parts value.
Proof.
  revert value. induction parts as [|p [|q ps] IH]; intros value; [done| |].
  - simpl. apply HasSuffix_spec.
  - change (wildcard_rest (p :: q :: ps) value) with
      (match Cut value p with None => false | Some (_, after) => wildcard_rest (q :: ps) after end).
    change (occurs (p :: q :: ps) value) with
      (∃ a v, value = a +:+ p +:+ v ∧ occurs (q :: ps) v).
    destruct (Cut value p) as [[a0 b0]|] eqn:E.
    + rewrite IH. pose proof (Cut_Some _ _ _ _ E) as ->. split; [eauto|].
      intros (a & v & Heq & Hv).
      pose proof (Cut_leftmost _ _ _ _ _ _ E Heq) as Hl.
      destruct (append_split a0 (p +:+ b0) a (p +:+ v)) as (m & -> & Hm); [done..|].
      destruct (append_split p b0 (m +:+ p) v) as (m' & _ & ->);
        [by rewrite append_assoc|rewrite append_length; lia|].
      by apply occurs_extend.
    + split; [done|]. intros (a & v & -> & _). by eapply Cut_None in E.
Qed.

Lemma Split_head s c : ∃ p ps, Split s c = p :: ps.
Proof. destruct (Split s c) eqn:E; [by apply Split_nonnil in E|eauto]. Qed.

Lemma Glob_parts pattern value :
  Glob pattern value ↔
  match Split pattern "*" with
  | [] => False
  | [p] => value = p
  | p :: ps => ∃ v, value = p +:+ v ∧ occurs ps v
  end.
Proof.
  revert value. induction pattern as [|c pattern IH]; intros value; simpl.
  { split; [by inversion 1|by intros ->; constructor]. }
  destruct (Split_head pattern "*") as (p & ps & Hsp). rewrite Hsp in *.
  destruct (decide (c = "*"%char)) as [->|Hc].
  - assert (Glob (String "*" pattern) value ↔ ∃ a v, value = a +:+ v ∧ Glob pattern v) as ->.
    { split; [inversion 1; subst; [done|eauto]|]. intros (a & v & -> & Hg). by constructor. }
    setoid_rewrite IH. destruct ps as [|q ps]; simpl.
    + split; [intros (a & v & -> & ->); eauto|]. intros (v & -> & a & ->). eauto.
    + split.
      * intros (a & v & -> & w & -> & Hw). eexists. split; [done|]. eauto.
      * intros (v & -> & a & w & -> & Hw). exists a. eauto.
  - assert (Glob (String c pattern) value ↔ ∃ v, value = String c v ∧ Glob pattern v) as ->.
    { split; [inversion 1; subst; [eauto|done]|]. intros (v & -> & Hg). by constructor. }
    setoid_rewrite IH. destruct ps as [|q ps]; simpl; naive_solver.
Qed.

Lemma wildcardMatch_Glob pattern value :
  wildcardMatch pattern value = true ↔ Glob pattern value.
Proof.
  rewrite Glob_parts. unfold wildcardMatch.
  pose proof (Join_Split pattern "*") as Hj.
  destruct (Split pattern "*") as [|p [|q ps]] eqn:E.
  - by apply Split_nonnil in E.
  - simpl in Hj. subst. rewrite bool_decide_eq_true. naive_solver.
  - destruct (CutPrefix value p) as [v|] eqn:Ep.
    + apply CutPrefix_Some in Ep as ->. rewrite wildcard_rest_spec.
      split; [eauto|]. intros (v' & ->%append_inj_l & Hv). done.
    + split; [done|]. intros (v & -> & _). by rewrite CutPrefix_app in Ep.
Qed.

(** ** The SQL candidates *)
Definition no_backslash (s : string) : Prop := ¬ in_string "\" s.

Lemma like_char c p d v :
  c ≠ "%"%char → c ≠ "_"%char → c ≠ "\"%char →
  like (String c p) (String d v) = bool_decide (c = d) && like p v.
Proof.
  intros H1 H2 H3. destruct c as [[] [] [] [] [] [] [] []]; done.
Qed.

Lemma like_percent p a v : like p v = true → like (String "%" p) (a +:+ v) = true.
Proof.
  intros Hp. induction a as [|c a IH]; simpl.
  - destruct v; by rewrite Hp.
  - simpl in IH. apply orb_true_iff. right. exact IH.
Qed.

(** LIKE accepts a literal match, even if the literal has wildcards. *)
Lemma like_literal p q v r :
  no_backslash p → like q r = true → v = p +:+ r → like (p +:+ q) v = true.
Proof.
  unfold no_backslash. revert v. induction p as [|c p IH]; intros v Hp Hq ->; [done|].
  cbn [in_string String.append] in *.
  assert (like (p +:+ q) (p +:+ r) = true) as Hrec by (apply IH; tauto).
  destruct (decide (c = "%"%char)) as [->|].
  { apply (like_percent _ (String "%" "")). done. }
  destruct (decide (c = "_"%char)) as [->|]; [done|].
  rewrite like_char; [by rewrite bool_decide_true|done|done|tauto].
Qed.

Lemma ci_candidate_complete g path :
  no_backslash (cigrant_ProjectPath g) → projectMatches (cigrant_ProjectPath g) path = true →
  ci_candidate path g = true.
Proof.
  unfold projectMatches, ci_candidate. rewrite !orb_true_iff.
  intros Hb [?|(r & ->)%HasPrefix_spec]; [by left|right].
  apply (like_literal _ _ _ ("/" +:+ r)); [done| |by rewrite append_assoc].
  change (like (String "%" "") r = true). rewrite <-(append_nil_r r).
  by apply like_percent.
Qed.

(** ** The CI grants are reconcilable *)
Lemma ciGrantKey_inj p r o e s p' r' o' e' s' :
  nul_free p → nul_free r → nul_free e → nul_free p' → nul_free r' → nul_free e' →
  ciGrantKey p r o e s = ciGrantKey p' r' o' e' s' →
  p = p' ∧ r = r' ∧ o = o' ∧ e = e' ∧ s = s'.
Proof.
  unfold ciGrantKey. cbn [GoStrings.Join]. cbn [String.append]. intros Hp Hr He Hp' Hr' He' Heq.
  assert (∀ b : bool, nul_free (if b then "true" else "false")) as Hb.
  { intros []; unfold nul_free; simpl; naive_solver. }
  apply sep_inj in Heq as [-> Heq]; [|done..].
  apply sep_inj in Heq as [-> Heq]; [|done..].
  apply sep_inj in Heq as [Ho Heq]; [|apply Hb..].
  apply sep_inj in Heq as [-> Heq]; [|done..].
  apply marshal_map_inj in Heq. destruct o, o'; done.
Qed.

Section ci_laws.
Context `{Crypto} `{UUIDs} (actor : string).
Implicit Types w : World.

Definition ci_text_ok (g : CIGrant) : Prop :=
  nul_free (cigrant_ProjectPath g) ∧ nul_free (cigrant_RefPattern g) ∧
  nul_free (cigrant_EnvironmentPattern g).
Record ci_rows_ok (gs : list CIGrant) (n : N) : Prop := {
  ci_ids_distinct : NoDup (cigrant_ID <$> gs);
  ci_ids_drawn : ∀ g, g ∈ gs → drawn n (cigrant_ID g);
  ci_text : ∀ g, g ∈ gs → ci_text_ok g
}.
Definition ci_wf w : Prop := ci_rows_ok (ci_grants (w_db w)) (w_uuid w).
Definition ci_declarable (s : CIGrantSpec) : Prop :=
  nul_free (cispec_ProjectPath s) ∧ nul_free (cispec_RefPattern s) ∧
  nul_free (cispec_EnvironmentPattern s).
(** A stored CI grant says what a spec declares. *)
Definition ci_carries (s : CIGrantSpec) (g : CIGrant) : Prop :=
  cigrant_ProjectPath g = cispec_ProjectPath s ∧ cigrant_RefPattern g = cispec_RefPattern s ∧
  cigrant_ProtectedOnly g = cispec_ProtectedOnly s ∧
  cigrant_EnvironmentPattern g = cispec_EnvironmentPattern s ∧
  cigrant_TagSelector g = cispec_TagSelector s ∧
  cigrant_Principals g = cispec_Principals s ∧
  cigrant_MaxValiditySeconds g = cispec_MaxValiditySeconds s.

Lemma ci_row_key_parts s g :
  ci_declarable s → ci_text_ok g → ci_row_key g = ci_spec_key s →
  cigrant_ProjectPath g = cispec_ProjectPath s ∧ cigrant_RefPattern g = cispec_RefPattern s ∧
  cigrant_ProtectedOnly g = cispec_ProtectedOnly s ∧
  cigrant_EnvironmentPattern g = cispec_EnvironmentPattern s ∧
  cigrant_TagSelector g = cispec_TagSelector s.
Proof. intros (?&?&?) (?&?&?) Hk. by apply ciGrantKey_inj. Qed.

Lemma ci_delete x rest w u w' :
  ci_wf w → ci_grants (w_db w) ≡ₚ x :: rest → delete_ci_row actor x w = (Ok u, w') →
  ci_wf w' ∧ audit_count (w_db w') = (audit_count (w_db w) + 1)%Z ∧
  ci_grants (w_db w') ≡ₚ rest.
Proof.
  intros [] Hinv Hr. unfold delete_ci_row, deleteCIGrantTx in Hr. run_store. split_and!.
  - split; simpl; [by apply fmap_NoDup_filter|intros g [? _]%filter_bool_In; auto..].
  - unfold audit_count. simpl. rewrite length_app. simpl. lia.
  - by apply (filter_out_key cigrant_ID).
Qed.

Lemma ci_update s x rest w u w' :
  ci_declarable s → ci_wf w → ci_grants (w_db w) ≡ₚ x :: rest → ci_row_key x = ci_spec_key s →
  update_ci_from_spec actor x s w = (Ok u, w') →
  ci_wf w' ∧ audit_count (w_db w') = (audit_count (w_db w) + 1)%Z ∧
  ∃ r', ci_carries s r' ∧ ci_grants (w_db w') ≡ₚ r' :: rest.
Proof.
  intros Hd [] Hinv Hk Hr.
  assert (x ∈ ci_grants (w_db w)) as Hx by (rewrite Hinv; set_solver).
  destruct (ci_row_key_parts s x Hd (ci_text0 x Hx) Hk) as (? & ? & ? & ? & ?).
  unfold update_ci_from_spec, updateCIGrantTx in Hr. run_store. split_and!.
  - split; simpl.
    + change (List.map ?f ?l) with (f <$> l). rewrite <-list_fmap_compose.
      erewrite list_fmap_ext; [exact ci_ids_distinct0|]. intros i g _. simpl.
      by destruct (bool_decide _).
    + intros g (g' & -> & Hg')%list_elem_of_fmap. destruct (bool_decide _); exact (ci_ids_drawn0 g' Hg').
    + intros g (g' & -> & Hg')%list_elem_of_fmap.
      destruct (bool_decide _); [|by apply ci_text0].
      destruct (ci_text0 g' Hg') as (? & _ & _), (ci_text0 x Hx) as (_ & ? & ?).
      split_and!; simpl; done.
  - unfold audit_count. simpl. rewrite length_app. simpl. lia.
  - eexists. split; [|by apply (map_at_key cigrant_ID)]. done.
Qed.

Lemma ci_create s w u w' :
  ci_declarable s → ci_wf w → create_ci_from_spec actor s w = (Ok u, w') →
  ci_wf w' ∧ audit_count (w_db w') = (audit_count (w_db w) + 1)%Z ∧
  ∃ r, ci_carries s r ∧ ci_grants (w_db w') ≡ₚ r :: ci_grants (w_db w).
Proof.
  intros Hd [] Hr. unfold create_ci_from_spec, createCIGrantTx in Hr. run_store. split_and!.
  - split; simpl.
    + apply fmap_NoDup_snoc; [done|]. simpl.
      intros (g' & Heq & Hg')%list_elem_of_fmap.
      by eapply drawn_fresh; [apply ci_ids_drawn0|].
    + intros g [Hg|Hg%list_elem_of_singleton]%elem_of_app;
        [by apply drawn_next, ci_ids_drawn0|subst; apply drawn_new].
    + intros g [Hg|Hg%list_elem_of_singleton]%elem_of_app; [auto|subst; exact Hd].
  - unfold audit_count. simpl. rewrite length_app. simpl. lia.
  - eexists. split; [|symmetry; apply Permutation_cons_append]. done.
Qed.

#[export] Instance ci_grants_reconcilable :
  Reconcilable validateCIGrantSpec ci_row_key ci_spec_key (create_ci_from_spec actor)
    same_ci_as_spec (update_ci_from_spec actor) (delete_ci_row actor).
Proof.
  refine {| inventory := ci_grants; wf := ci_wf; declarable := ci_declarable;
            matches := ci_carries |}.
  - intros s g _ (? & ? & ? & ? & ? & _). unfold ci_row_key, ci_spec_key. congruence.
  - intros i s g w Hd _ Hwf Hg Hk.
    destruct (ci_row_key_parts s g Hd (ci_text _ _ Hwf g Hg) Hk) as (? & ? & ? & ? & ?).
    unfold same_ci_as_spec, ci_carries. rewrite andb_true_iff, bool_decide_eq_true, Z.eqb_eq.
    naive_solver.
  - intros i s w u w' Hd _. by apply ci_create.
  - intros i s r rest w u w' Hd _. by apply ci_update.
  - apply ci_delete.
Defined.

#[export] Instance CreateCIGrant_audit g : Keeps audit_grows (CreateCIGrant actor g).
Proof. unfold CreateCIGrant, createCIGrantTx. apply _. Qed.
#[export] Instance UpdateCIGrant_audit g : Keeps audit_grows (UpdateCIGrant actor g).
Proof. unfold UpdateCIGrant, updateCIGrantTx. apply _. Qed.
#[export] Instance DeleteCIGrant_audit i : Keeps audit_grows (DeleteCIGrant actor i).
Proof. unfold DeleteCIGrant, deleteCIGrantTx. apply _. Qed.
#[export] Instance MatchCIGrants_audit m : Keeps audit_grows (MatchCIGrants m).
Proof. unfold MatchCIGrants. apply _. Qed.
#[export] Instance ApplyCIGrants_audit `{MapOrder} specs :
  Keeps audit_grows (ApplyCIGrants actor specs).
Proof.
  unfold ApplyCIGrants. apply keeps_BeginFunc; [apply _|].
  apply keeps_bind; [apply _..|]. intros existing.
  apply keeps_reconcile; [apply _..| | |].
  - intros s. unfold create_ci_from_spec, createCIGrantTx. apply _.
  - intros r s. unfold update_ci_from_spec, updateCIGrantTx. apply _.
  - intros r. unfold delete_ci_row, deleteCIGrantTx. apply _.
Qed.
End ci_laws.

(** A successful apply leaves exactly what the specs declare. *)
Lemma ApplyCIGrants_Ok `{Crypto} `{UUIDs} `{MapOrder} actor specs w res w' :
  ci_wf w → Forall ci_declarable specs →
  ApplyCIGrants actor specs w = (Ok res, w') →
  ci_wf w' ∧
  (∃ rows, Forall2 ci_carries specs rows ∧ ci_grants (w_db w') ≡ₚ rows) ∧
  (Created res + Updated res + Unchanged res = Z.of_nat (List.length specs))%Z ∧
  audit_count (w_db w') = (audit_count (w_db w) + changes res)%Z.
Proof.
  intros Hwf Hdecl Hrun. unfold ApplyCIGrants in Hrun. run_step. run_step. subst.
  match goal with Hq : queryAll _ _ = _ |- _ => apply sql_select_Ok in Hq as (fs & -> & ->) end.
  match goal with Hc : reconcile _ _ _ _ _ _ _ _ _ _ _ = _ |- _ =>
    apply (reconcile_Ok (HR := ci_grants_reconcilable actor)) in Hc
      as (Hwf' & Ha & Hn & rows & Hm & Hinv); [|done..|] end.
  - split_and!; [done|by exists rows|done|done].
  - simpl. by rewrite sort_by_perm.
Qed.
(** An apply of what is already there changes nothing. *)
Lemma ApplyCIGrants_noop `{Crypto} `{UUIDs} `{MapOrder} actor specs rows w r w' :
  ci_wf w → Forall ci_declarable specs →
  Forall2 ci_carries specs rows → ci_grants (w_db w) ≡ₚ rows →
  ApplyCIGrants actor specs w = (r, w') →
  w_db w' = w_db w ∧
  ∀ res, r = Ok res →
    res = {| Created := 0; Updated := 0; Deleted := 0; Unchanged := Z.of_nat (List.length specs) |}.
Proof.
  intros Hwf Hdecl Hm Hinv Hrun. destruct r as [res|e]; [|split; [by eapply transaction_Err|done]].
  unfold ApplyCIGrants in Hrun. apply transaction_Ok in Hrun as (? & ? & w2' & Hb & ->). run_step.
  match goal with Hq : queryAll _ _ = _ |- _ => apply sql_select_Ok in Hq as (? & -> & ->) end.
  match goal with Hc : reconcile _ _ _ _ _ _ _ _ _ _ _ = _ |- _ =>
    apply (reconcile_noop (HR := ci_grants_reconcilable actor) _ _ rows) in Hc
      as (-> & ->); [|done..| | |] end.
  - split; [done|]. by intros ? [= <-].
  - simpl. by rewrite sort_by_perm.
  - done.
  - intros row Hrow. simpl. by rewrite Hinv.
Qed.

(** ** Properties *)

(** The wildcard matcher, which cuts the value at the leftmost occurrence
    of each part, accepts exactly the declarative glob language in which a
    star stands for any string (slashes included). *)
Theorem wildcard_matches_glob pattern value :
  wildcardMatch pattern value = true ↔ Glob pattern value.
Proof. apply wildcardMatch_Glob. Qed.

(** [MatchCIGrants] returns exactly the stored CI grants that match the
    job's claims: the LIKE query that preselects candidates by project path
    loses none of them (project paths hold no backslash, which LIKE would take
    as an escape), and no other grant gets through. *)
Theorem match_ci_grants_exact `{Crypto} `{UUIDs} m w gs w'
  (Hpaths : ∀ g, g ∈ ci_grants (w_db w) → no_backslash (cigrant_ProjectPath g))
  (Hrun : MatchCIGrants m w = (Ok gs, w')) g :
  g ∈ gs ↔ g ∈ ci_grants (w_db w) ∧ Matches g m = true.
Proof.
  unfold MatchCIGrants in Hrun. run_all.
  rewrite filter_bool_In, sort_by_elem, filter_bool_In. split; [tauto|].
  intros [Hin Hm]. split_and!; try done. apply ci_candidate_complete; [by apply Hpaths|].
  unfold Matches in Hm. by destruct (projectMatches _ _).
Qed.

(** Issuance and host authorisation agree on what a namespace grant
    covers: for a nonempty grant path, the principals of a project's CI
    certificate include ci:<grant path> exactly when the grant's project path
    matches the project (equal, or an ancestor at a slash). *)
Theorem ci_principal_iff_project_matches grantPath projectPath (Hne : grantPath ≠ "") :
  ("ci:" +:+ grantPath) ∈ CIPrincipals projectPath ↔ projectMatches grantPath projectPath = true.
Proof.
  unfold CIPrincipals, projectMatches.
  rewrite elem_of_cons, list_elem_of_fmap, orb_true_iff, bool_decide_eq_true. split.
  - intros [->%append_inj_l|(a & ->%append_inj_l & Ha)]; [by left|right].
    by apply ancestors_sound in Ha as [_ Ha].
  - intros [->|Hp]; [by left|right]. exists grantPath. split; [done|].
    by apply ancestors_complete.
Qed.

Lemma ci_principal_iff_project_matches_witness :
  projectMatches "infra" "infra/ansible" = true ∧ "ci:infra" ∈ CIPrincipals "infra/ansible".
Proof.
  split; [reflexivity|].
  apply (ci_principal_iff_project_matches "infra" "infra/ansible"); [discriminate|reflexivity].
Defined.

(** [ApplyCIGrants] converges to the declared rules: on success the
    inventory is, up to order, one CI grant per spec with exactly its
    condition, principals and maximum, every spec is counted once and every
    change has one audit event; on failure the database is unchanged. *)
Theorem apply_ci_grants_converges `{Crypto} `{UUIDs} `{MapOrder} actor specs w r w'
  (Hwf : ci_wf w)
  (Hdecl : Forall ci_declarable specs)
  (Hrun : ApplyCIGrants actor specs w = (r, w')) :
  match r with
  | Ok res =>
      ci_wf w' ∧
      (∃ rows, Forall2 ci_carries specs rows ∧ ci_grants (w_db w') ≡ₚ rows) ∧
      (Created res + Updated res + Unchanged res = Z.of_nat (List.length specs))%Z ∧
      audit_count (w_db w') = (audit_count (w_db w) + changes res)%Z
  | Err _ => w_db w' = w_db w
  end.
Proof.
  destruct r as [res|e]; [by eapply ApplyCIGrants_Ok|by eapply transaction_Err].
Qed.

(** A rule for the protected releases of a namespace, and one that is stale. *)
Definition toy_ci_grant (id : uuid) (project : string) : CIGrant := {|
  cigrant_ID := id; cigrant_ProjectPath := project; cigrant_RefPattern := "release/*";
  cigrant_ProtectedOnly := true; cigrant_EnvironmentPattern := ""; cigrant_TagSelector := ∅;
  cigrant_Principals := ["deploy"]; cigrant_MaxValiditySeconds := 600;
  cigrant_CreatedAt := 0; cigrant_UpdatedAt := 0 |}.
Definition toy_ci_specs : list CIGrantSpec := [
  {| cispec_ProjectPath := "infra"; cispec_RefPattern := "release/*";
     cispec_ProtectedOnly := true; cispec_EnvironmentPattern := ""; cispec_TagSelector := ∅;
     cispec_Principals := ["deploy"]; cispec_MaxValiditySeconds := 900 |}].
Definition toy_ci_world : @World toy_crypto :=
  toy_world (put_rows ci_grants_table [toy_ci_grant 50 "infra"; toy_ci_grant 51 "old"] toy_db).

Lemma match_ci_grants_exact_witness :
  ∃ gs w', MatchCIGrants {| match_ProjectPath := "infra/app"; match_Ref := "release/1";
      match_RefProtected := true; match_Environment := "" |} toy_ci_world = (Ok gs, w') ∧
    toy_ci_grant 50 "infra" ∈ gs.
Proof.
  do 2 eexists. split; [vm_compute; reflexivity|].
  apply (match_ci_grants_exact (H0 := counting_uuids) {| match_ProjectPath := "infra/app";
    match_Ref := "release/1"; match_RefProtected := true; match_Environment := "" |}
    toy_ci_world [toy_ci_grant 50 "infra"] toy_ci_world).
  - intros g Hg. unfold no_backslash.
    repeat (apply elem_of_cons in Hg as [->|Hg]; [simpl; naive_solver|]).
    by apply elem_of_nil in Hg.
  - vm_compute. reflexivity.
  - split; [apply list_elem_of_here|vm_compute; reflexivity].
Defined.

Lemma toy_ci_wf : ci_wf (H0 := counting_uuids) toy_ci_world.
Proof.
  split; simpl.
  - vm_compute; repeat constructor; set_solver.
  - intros g Hg. exists (cigrant_ID g). split; [|done].
    repeat (apply elem_of_cons in Hg as [->|Hg]; [done|]). by apply elem_of_nil in Hg.
  - intros g Hg. unfold ci_text_ok, nul_free.
    repeat (apply elem_of_cons in Hg as [->|Hg]; [simpl; naive_solver|]).
    by apply elem_of_nil in Hg.
Qed.

Lemma apply_ci_grants_converges_witness :
  ∃ res w', ApplyCIGrants (H0 := counting_uuids) (H1 := key_order) "admin" toy_ci_specs
      toy_ci_world = (Ok res, w') ∧ Updated res = 1%Z ∧ Deleted res = 1%Z ∧
    ∃ rows, Forall2 ci_carries toy_ci_specs rows ∧ ci_grants (w_db w') ≡ₚ rows.
Proof.
  do 2 eexists. split; [vm_compute; reflexivity|]. split; [reflexivity|]. split; [reflexivity|].
  apply (apply_ci_grants_converges (H0 := counting_uuids) (H1 := key_order) "admin" toy_ci_specs
    toy_ci_world (Ok {| Created := 0; Updated := 1; Deleted := 1; Unchanged := 0 |}) _ toy_ci_wf).
  - repeat constructor; unfold nul_free; simpl; naive_solver.
  - vm_compute. reflexivity.
Defined.
