(* ===== verification/StoreEnrollment.v ===== *)
(** * Enrollment, host contact and host authorisation
    (internal/store/enrollment.go)

    A single-use token turns a machine into a managed host; afterwards the
    host asks which certificate principals may log in as a local user. *)
From S2P Require Export StoreCIGrants.

Local Open Scope string_scope.
Local Open Scope list_scope.

Definition EventHostEnrolled := "host.enrolled".
Definition EventEnrollTokenCreated := "host.enroll_token.created".
Definition enrollTokenPrefix := "gssh-et-".

Record EnrollHostParams := {
  enroll_TokenHash : string; enroll_Name : string; enroll_PublicKey : string;
  enroll_Tags : gmap string string
}.

Definition token_unique (db : Db) (t : EnrollmentToken) : bool :=
  negb (existsb (λ t', bool_decide (token_Hash t' = token_Hash t)) (enrollment_tokens db)).

(** WHERE token_hash = $1 AND used_at IS NULL AND expires_at > now(). *)
Definition token_usable (hash : string) (now : Z) (t : EnrollmentToken) : bool :=
  bool_decide (token_Hash t = hash) && bool_decide (token_UsedAt t = None) &&
  (now <? token_ExpiresAt t)%Z.

Definition token_with (used_at : option Z) (used_by : option uuid) (t : EnrollmentToken)
    : EnrollmentToken := {|
  token_ID := token_ID t; token_Hash := token_Hash t; token_HostName := token_HostName t;
  token_Tags := token_Tags t; token_ExpiresAt := token_ExpiresAt t;
  token_UsedAt := used_at; token_UsedBy := used_by; token_CreatedAt := token_CreatedAt t |}.

(** Go's merge loops: token tags override request tags. *)
Definition merge_tags (request token : gmap string string) : gmap string string :=
  token ∪ request.

Section enrollment.
Context `{Crypto} `{UUIDs}.

(** [random_text n]: base64.RawURLEncoding of the n-th draw of 32 random bytes. *)
Definition NewEnrollmentToken (random_text : N → string) (hostname : string)
    (tags : gmap string string) (ttl : Z) : M (string * EnrollmentToken) :=
  let* buf := rand_next in
  let plaintext := enrollTokenPrefix +:+ random_text buf in
  let* now := time_Now in
  ret (plaintext, {|
    token_ID := 0%N; token_Hash := sha256 plaintext;
    token_HostName := if bool_decide (hostname = "") then None else Some hostname;
    token_Tags := tags; token_ExpiresAt := Add now ttl; token_UsedAt := None;
    token_UsedBy := None; token_CreatedAt := 0 |}).

Definition CreateEnrollmentToken (t : EnrollmentToken) : M EnrollmentToken :=
  queryOne (sql_insert enrollment_tokens_table
    (λ id now, {| token_ID := id; token_Hash := token_Hash t; token_HostName := token_HostName t;
       token_Tags := token_Tags t; token_ExpiresAt := token_ExpiresAt t; token_UsedAt := None;
       token_UsedBy := None; token_CreatedAt := now |}) token_unique).

(** Statements see the same now() in a transaction: the update takes the
    clock, and the predicate the same instant. *)
Definition consume_token (hash : string) : M EnrollmentToken :=
  let* now := gets w_now in
  queryOne (sql_update enrollment_tokens_table (token_usable hash now)
    (λ now t, token_with (Some now) (token_UsedBy t) t) (λ _, true)).

Definition upsert_host (name publicKey : string) : M Host :=
  queryOne (sql_upsert hosts_table
    (λ id now, {| host_ID := id; host_Name := name; host_PublicKey := Some publicKey;
       host_EnrolledAt := Some now; host_LastSeenAt := Some now; host_LastSeenAddr := None;
       host_CreatedAt := now; host_UpdatedAt := now |})
    host_unique (λ h, bool_decide (host_Name h = name))
    (λ now h, {| host_ID := host_ID h; host_Name := host_Name h;
       host_PublicKey := Some publicKey; host_EnrolledAt := Some now;
       host_LastSeenAt := Some now; host_LastSeenAddr := host_LastSeenAddr h;
       host_CreatedAt := host_CreatedAt h; host_UpdatedAt := now |})).

Definition EnrollHost (p : EnrollHostParams) : M Host :=
  BeginFunc (
    let* token := consume_token (enroll_TokenHash p) in
    if match token_HostName token with
       | None => false
       | Some bound => negb (bool_decide (bound = enroll_Name p))
       end
    then fail ErrTokenHostMismatch
    else
      let* host := wrap "create host" (upsert_host (enroll_Name p) (enroll_PublicKey p)) in
      let tags := merge_tags (enroll_Tags p) (token_Tags token) in
      replace_tags (host_ID host) "set tags" tags ;;
      exec (sql_update enrollment_tokens_table (λ t, bool_decide (token_ID t = token_ID token))
        (λ _ t, token_with (token_UsedAt t) (Some (host_ID host)) t) (λ _, true)) ;;
      insertAuditEvent (new_audit EventHostEnrolled ("host:" +:+ enroll_Name p) (JObj [
        ("host_id", JNum (Z.of_N (host_ID host))); ("name", JStr (host_Name host));
        ("tags", JMap tags); ("token_id", JNum (Z.of_N (token_ID token)))])) ;;
      ret host).

Definition touched (addr : string) (now : Z) (h : Host) : Host := {|
  host_ID := host_ID h; host_Name := host_Name h; host_PublicKey := host_PublicKey h;
  host_EnrolledAt := host_EnrolledAt h; host_LastSeenAt := Some now;
  host_LastSeenAddr := if bool_decide (addr = "") then host_LastSeenAddr h else Some addr;
  host_CreatedAt := host_CreatedAt h; host_UpdatedAt := host_UpdatedAt h |}.
Definition TouchHostLastSeen (id : uuid) (addr : string) : M unit :=
  execAffectingOne (sql_update hosts_table (λ h, bool_decide (host_ID h = id))
    (touched addr) (λ _, true)).

(** ** Authorised principals *)

(** selector <@ tags: JSON containment of flat objects. *)
Definition selector_matches (selector tags : gmap string string) : bool :=
  bool_decide (selector ⊆ tags).

Definition user_rows (hostID : uuid) (localUser : string) (db : Db) : list (string * string) :=
  let tags := tags_of_host db hostID in
  let grants := List.filter (λ g, bool_decide (localUser ∈ grant_Principals g) &&
                                  selector_matches (grant_TagSelector g) tags) (access_grants db) in
  sort_by (λ a b, String.ltb a.1 b.1 || (bool_decide (a.1 = b.1) && String.leb a.2 b.2))
    (remove_dups (List.map (λ u, (user_Username u, user_Email u))
      (List.filter (λ u, user_Active u &&
         existsb (λ g, member_of db (user_ID u) (grant_GroupID g)) grants) (users db)))).
Definition ci_rows (hostID : uuid) (localUser : string) (db : Db) : list string :=
  let tags := tags_of_host db hostID in
  sort_by String.leb (remove_dups (List.map (λ g, "ci:" +:+ cigrant_ProjectPath g)
    (List.filter (λ g, bool_decide (localUser ∈ cigrant_Principals g) &&
                       selector_matches (cigrant_TagSelector g) tags) (ci_grants db)))).

(** The [add] closure: nonempty and not yet seen. *)
Definition add_principal (principals : list string) (p : string) : list string :=
  if negb (bool_decide (p = "")) && negb (bool_decide (p ∈ principals))
  then principals ++ [p] else principals.

Definition ListAuthorizedPrincipals (hostID : uuid) (localUser : string) : M (list string) :=
  let* rows := sql_select (user_rows hostID localUser) in
  let principals := foldl (λ acc '(username, email),
    add_principal (add_principal acc username) email) [] rows in
  let* ciRows := sql_select (ci_rows hostID localUser) in
  ret (foldl add_principal principals ciRows).
End enrollment.

(** ** Lemmas *)

Lemma add_principal_elem acc p q :
  q ∈ add_principal acc p ↔ q ∈ acc ∨ (q = p ∧ p ≠ "").
Proof.
  unfold add_principal.
  destruct (decide (p = "")) as [->|Hp]; [rewrite bool_decide_true by done; naive_solver|].
  rewrite (bool_decide_false (p = "")) by done. simpl. case_bool_decide; simpl; set_solver.
Qed.

Lemma add_principal_NoDup acc p : NoDup acc → NoDup (add_principal acc p).
Proof.
  intros Hacc. unfold add_principal. repeat case_bool_decide; simpl; try done.
  apply NoDup_app. split_and!; [done|set_solver|apply NoDup_singleton].
Qed.

Lemma foldl_principals acc l q :
  q ∈ foldl add_principal acc l ↔ q ∈ acc ∨ (q ∈ l ∧ q ≠ "").
Proof.
  revert acc. induction l as [|p l IH]; intros acc; simpl; [set_solver|].
  rewrite IH, add_principal_elem. set_solver.
Qed.

Lemma foldl_user_principals acc (l : list (string * string)) q :
  q ∈ foldl (λ acc '(u, e), add_principal (add_principal acc u) e) acc l ↔
  q ∈ acc ∨ (q ≠ "" ∧ ∃ u e, (u, e) ∈ l ∧ (q = u ∨ q = e)).
Proof.
  revert acc. induction l as [|[u e] l IH]; intros acc; simpl; [set_solver|].
  rewrite IH, !add_principal_elem. setoid_rewrite elem_of_cons. naive_solver.
Qed.

Lemma foldl_NoDup {A} (f : list string → A → list string) acc l :
  (∀ acc x, NoDup acc → NoDup (f acc x)) → NoDup acc → NoDup (foldl f acc l).
Proof. intros Hf. revert acc. induction l; simpl; auto. Qed.

Section specs.
Context `{Crypto} `{UUIDs}.

(** A grant that opens [localUser] on the host to the user. *)
Definition user_may_login (db : Db) (hostID : uuid) (localUser : string) (u : User) : Prop :=
  u ∈ users db ∧ user_Active u = true ∧
  ∃ g, g ∈ access_grants db ∧ {| ug_UserID := user_ID u; ug_GroupID := grant_GroupID g |} ∈ user_groups db ∧
    localUser ∈ grant_Principals g ∧ grant_TagSelector g ⊆ tags_of_host db hostID.
Definition ci_may_login (db : Db) (hostID : uuid) (localUser : string) (g : CIGrant) : Prop :=
  g ∈ ci_grants db ∧ localUser ∈ cigrant_Principals g ∧
  cigrant_TagSelector g ⊆ tags_of_host db hostID.

Lemma user_rows_elem db hostID localUser a b :
  (a, b) ∈ user_rows hostID localUser db ↔
  ∃ u, user_may_login db hostID localUser u ∧ a = user_Username u ∧ b = user_Email u.
Proof.
  unfold user_rows, user_may_login. rewrite sort_by_elem, elem_of_remove_dups, list_elem_of_fmap.
  setoid_rewrite filter_bool_In. setoid_rewrite andb_true_iff.
  setoid_rewrite existsb_elem. setoid_rewrite filter_bool_In.
  unfold selector_matches. setoid_rewrite andb_true_iff. setoid_rewrite bool_decide_eq_true.
  setoid_rewrite member_of_spec. naive_solver.
Qed.

Lemma ci_rows_elem db hostID localUser p :
  p ∈ ci_rows hostID localUser db ↔
  ∃ g, ci_may_login db hostID localUser g ∧ p = "ci:" +:+ cigrant_ProjectPath g.
Proof.
  unfold ci_rows, ci_may_login. rewrite sort_by_elem, elem_of_remove_dups, list_elem_of_fmap.
  setoid_rewrite filter_bool_In. unfold selector_matches. setoid_rewrite andb_true_iff.
  setoid_rewrite bool_decide_eq_true. naive_solver.
Qed.
End specs.

(** ** What an enrollment did *)
Section enroll_lemmas.
Context `{Crypto} `{UUIDs}.
Implicit Types w : World.

Definition host_bound_ok (p : EnrollHostParams) (t : EnrollmentToken) : Prop :=
  token_HostName t = None ∨ token_HostName t = Some (enroll_Name p).

(** No row of the hash can be consumed again, now or later. *)
Definition spent (hash : string) (now : Z) (ts : list EnrollmentToken) : Prop :=
  ∀ t later, t ∈ ts → (now ≤ later)%Z → token_usable hash later t = false.

Lemma consume_token_Ok hash w t w' :
  consume_token hash w = (Ok t, w') →
  ∃ fs ts t0, t0 ∈ enrollment_tokens (w_db w) ∧ token_usable hash (w_now w) t0 = true ∧
    t = token_with (Some (w_now w)) (token_UsedBy t0) t0 ∧ spent hash (w_now w) ts ∧
    w' = set_db (put_rows enrollment_tokens_table ts (w_db w)) (set_faults fs w).
Proof.
  unfold consume_token, gets. intros Hr. run_all.
  destruct (List.filter _ _) as [|t0 l] eqn:Ef; [done|]. destruct l; [|done]. simplify_eq/=.
  assert (t0 ∈ List.filter (token_usable hash (w_now x0)) (enrollment_tokens (w_db x0)))
    as [Hin Hu]%filter_bool_In by (rewrite Ef; set_solver).
  eexists _, _, t0. split_and!; [done..| |done].
  intros t later (t' & -> & Ht')%list_elem_of_fmap Hl. destruct (token_usable _ _ t') eqn:E.
  - unfold token_usable. simpl. by rewrite andb_false_r.
  - apply not_true_iff_false. intros Hu'. apply not_true_iff_false in E. apply E.
    unfold token_usable in *. rewrite !andb_true_iff in *. destruct Hu' as [? Ht].
    split; [done|]. apply Z.ltb_lt in Ht. apply Z.ltb_lt. lia.
Qed.

Lemma spent_map hash now ts f :
  (∀ t, token_Hash (f t) = token_Hash t ∧ token_UsedAt (f t) = token_UsedAt t ∧
        token_ExpiresAt (f t) = token_ExpiresAt t) →
  spent hash now ts → spent hash now (List.map f ts).
Proof.
  intros Hf Hs t later (t' & -> & Ht')%list_elem_of_fmap Hl.
  destruct (Hf t') as (H1 & H2 & H3). unfold token_usable. rewrite H1, H2, H3. by apply Hs.
Qed.

Lemma upsert_host_Ok name key w h w' :
  upsert_host name key w = (Ok h, w') →
  host_Name h = name ∧ host_PublicKey h = Some key ∧ h ∈ hosts (w_db w') ∧
  host_EnrolledAt h = Some (w_now w) ∧
  host_tags (w_db w') = host_tags (w_db w) ∧ audit_events (w_db w') = audit_events (w_db w) ∧
  enrollment_tokens (w_db w') = enrollment_tokens (w_db w) ∧ w_now w' = w_now w.
Proof.
  unfold upsert_host. intros Hr%queryOne_Ok. unfold sql_upsert in Hr. simpl in Hr.
  destruct (existsb _ _).
  - run_all. destruct (List.filter _ _) as [|h0 l] eqn:Ef; [done|]. destruct l; [|done].
    simplify_eq/=.
    assert (h0 ∈ List.filter (λ h, bool_decide (host_Name h = name)) (hosts (w_db w)))
      as [Hin Hn]%filter_bool_In by (rewrite Ef; set_solver).
    pose proof (bool_decide_eq_true_1 _ Hn). split_and!; try done.
    apply list_elem_of_fmap. exists h0. by rewrite Hn.
  - run_all. split_and!; try done. apply elem_of_app. right. by left.
Qed.

Lemma replace_tags_Ok hostID ctx tags w u w' :
  replace_tags hostID ctx tags w = (Ok u, w') →
  tags_of_host (w_db w') hostID = tags ∧
  (∀ h, h ≠ hostID → tags_of_host (w_db w') h = tags_of_host (w_db w) h) ∧
  hosts (w_db w') = hosts (w_db w) ∧ audit_events (w_db w') = audit_events (w_db w) ∧
  enrollment_tokens (w_db w') = enrollment_tokens (w_db w) ∧ w_now w' = w_now w.
Proof.
  unfold replace_tags, exec. intros Hr. run_step. run_step. run_step. subst. run_step. subst.
  match goal with Hi : (if bool_decide (ctx = "") then id else wrap ctx) _ _ = _ |- _ =>
    rename Hi into Hins end.
  assert (∀ A (m : M A) w1 a w2,
    (if bool_decide (ctx = "") then id else wrap ctx) m w1 = (Ok a, w2) → m w1 = (Ok a, w2))
    as Hwrap.
  { intros A m w1 a w2. case_bool_decide; [done|]. apply wrap_Ok. }
  apply Hwrap in Hins. run_all.
  destruct (tags_of_replaced (w_db w) hostID tags) as [Ht Ho]. split_and!; done.
Qed.

Lemma EnrollHost_Ok p w h w' :
  EnrollHost p w = (Ok h, w') →
  (∃ t, t ∈ enrollment_tokens (w_db w) ∧
     token_usable (enroll_TokenHash p) (w_now w) t = true ∧ host_bound_ok p t ∧
     tags_of_host (w_db w') (host_ID h) = merge_tags (enroll_Tags p) (token_Tags t)) ∧
  h ∈ hosts (w_db w') ∧ host_Name h = enroll_Name p ∧
  host_PublicKey h = Some (enroll_PublicKey p) ∧
  spent (enroll_TokenHash p) (w_now w) (enrollment_tokens (w_db w')) ∧
  (∃ e, audit_events (w_db w') = audit_events (w_db w) ++ [e] ∧
        audit_EventType e = EventHostEnrolled ∧ audit_Actor e = "host:" +:+ enroll_Name p).
Proof.
  unfold EnrollHost. intros Hr. run_step. subst. run_step.
  match goal with Hc : consume_token _ _ = _ |- _ =>
    apply consume_token_Ok in Hc as (fs & ts & t & Hin & Hu & -> & Hsp & ->) end.
  cbn [token_with token_HostName token_Tags token_ID] in *.
  assert (host_bound_ok p t) as Hbound.
  { unfold host_bound_ok. destruct (token_HostName t) as [b|]; [right|by left].
    destruct (bool_decide (b = enroll_Name p)) eqn:E; [by bool_to_prop; subst|simpl in *; run_step]. }
  destruct (match token_HostName t with None => _ | Some _ => _ end); [run_step|]. run_store.
  match goal with Hc : upsert_host _ _ _ = _ |- _ =>
    apply upsert_host_Ok in Hc as (Hn & Hk & Hh & _ & Htg & Hae & Het & Hnow) end.
  match goal with Hc : replace_tags _ _ _ _ = _ |- _ =>
    apply replace_tags_Ok in Hc as (Ht & _ & Hho & Hae2 & Het2 & Hnow2) end.
  simpl in *. split_and!; try done.
  - by exists t.
  - by rewrite Hho.
  - apply spent_map; [intros t'; by destruct (bool_decide _)|]. by rewrite Het2, Het.
  - eexists. split; [rewrite Hae2, Hae; reflexivity|done].
Qed.

#[export] Instance CreateEnrollmentToken_audit t : Keeps audit_grows (CreateEnrollmentToken t).
Proof. unfold CreateEnrollmentToken. apply _. Qed.
#[export] Instance EnrollHost_audit p : Keeps audit_grows (EnrollHost p).
Proof.
  unfold EnrollHost, consume_token, upsert_host. apply keeps_BeginFunc; [apply _|].
  apply keeps_bind; [apply _..|]. intros t.
  destruct (match token_HostName t with None => _ | Some _ => _ end); apply _.
Qed.
#[export] Instance TouchHostLastSeen_audit i a : Keeps audit_grows (TouchHostLastSeen i a).
Proof. unfold TouchHostLastSeen. apply _. Qed.
#[export] Instance ListAuthorizedPrincipals_audit i u :
  Keeps audit_grows (ListAuthorizedPrincipals i u).
Proof. unfold ListAuthorizedPrincipals. apply _. Qed.
End enroll_lemmas.

(** ** Properties *)

(** Enrollment: success consumes a stored, unused, unexpired token of the
    presented hash whose hostname binding allows the name; the host then
    exists with that name and key, its tags are the request's overridden by
    the token's, one host.enrolled event is written, and no token of that
    hash is usable from then on. On failure the database is unchanged. *)
Theorem enroll_host_consumes_token `{Crypto} `{UUIDs} p w r w'
  (Hrun : EnrollHost p w = (r, w')) :
  match r with
  | Ok h =>
      (∃ t, t ∈ enrollment_tokens (w_db w) ∧
         token_usable (enroll_TokenHash p) (w_now w) t = true ∧ host_bound_ok p t ∧
         tags_of_host (w_db w') (host_ID h) = merge_tags (enroll_Tags p) (token_Tags t)) ∧
      h ∈ hosts (w_db w') ∧ host_Name h = enroll_Name p ∧
      host_PublicKey h = Some (enroll_PublicKey p) ∧
      spent (enroll_TokenHash p) (w_now w) (enrollment_tokens (w_db w')) ∧
      (∃ e, audit_events (w_db w') = audit_events (w_db w) ++ [e] ∧
            audit_EventType e = EventHostEnrolled ∧ audit_Actor e = "host:" +:+ enroll_Name p)
  | Err _ => w_db w' = w_db w
  end.
Proof. destruct r; [by apply EnrollHost_Ok|by eapply transaction_Err]. Qed.


(** Who may log in as the local user on the host, as a principal of sshd. *)
Definition authorized (db : Db) (hostID : uuid) (localUser p : string) : Prop :=
  (p ≠ "" ∧ ∃ u, user_may_login db hostID localUser u ∧ (p = user_Username u ∨ p = user_Email u)) ∨
  (∃ g, ci_may_login db hostID localUser g ∧ p = "ci:" +:+ cigrant_ProjectPath g).
Lemma ListAuthorizedPrincipals_exact `{Crypto} `{UUIDs} hostID localUser w ps w' :
  ListAuthorizedPrincipals hostID localUser w = (Ok ps, w') →
  NoDup ps ∧ w_db w' = w_db w ∧ ∀ p, p ∈ ps ↔ authorized (w_db w) hostID localUser p.
Proof.
  intros Hrun. unfold ListAuthorizedPrincipals in Hrun. unfold authorized. run_all. split_and!; [|done|].
  - apply foldl_NoDup; [intros; by apply add_principal_NoDup|].
    apply foldl_NoDup; [|constructor]. intros acc [a b] Hacc. by repeat apply add_principal_NoDup.
  - intros p. rewrite foldl_principals, foldl_user_principals, ci_rows_elem.
    setoid_rewrite user_rows_elem. split.
    + intros [[[]%elem_of_nil|(Hp & u & e & (x' & Hu & -> & ->) & Hor)]|[Hg _]]; [|by right].
      left. split; [done|]. by exists x'.
    + intros [(Hp & u & Hu & Hor)|Hg]; [left; right|right].
      * split; [done|]. exists (user_Username u), (user_Email u). split; [by exists u|done].
      * split; [done|]. by destruct Hg as (g & _ & ->).
Qed.

(** The principals a host gets for a local user are exactly the usernames
    and emails of active users who reach that local user through a group's
    grant whose selector the host's tags satisfy, and ci:<project path> of
    the matching CI grants; no principal is empty or repeated. *)
Theorem authorized_principals_exact `{Crypto} `{UUIDs} hostID localUser w ps w'
  (Hrun : ListAuthorizedPrincipals hostID localUser w = (Ok ps, w')) :
  NoDup ps ∧ w_db w' = w_db w ∧ ∀ p, p ∈ ps ↔
    (p ≠ "" ∧ ∃ u, user_may_login (w_db w) hostID localUser u ∧
                   (p = user_Username u ∨ p = user_Email u)) ∨
    (∃ g, ci_may_login (w_db w) hostID localUser g ∧ p = "ci:" +:+ cigrant_ProjectPath g).
Proof. by apply ListAuthorizedPrincipals_exact. Qed.

(** A token bound to host h2, and a host that asks with one tag of its own. *)
Definition toy_token : EnrollmentToken := {|
  token_ID := 60; token_Hash := "hash"; token_HostName := Some "h2";
  token_Tags := {["env" := "prod"]}; token_ExpiresAt := (1001 * Hour)%Z;
  token_UsedAt := None; token_UsedBy := None; token_CreatedAt := 0 |}.
Definition toy_enroll : EnrollHostParams := {|
  enroll_TokenHash := "hash"; enroll_Name := "h2"; enroll_PublicKey := "ssh-toy h2";
  enroll_Tags := {["env" := "dev"; "role" := "db"]} |}.
Definition toy_enroll_world : @World toy_crypto :=
  toy_world (put_rows enrollment_tokens_table [toy_token] toy_db).
Definition toy_enroll_run (w : @World toy_crypto) : result Host * @World toy_crypto :=
  EnrollHost (H0 := counting_uuids) toy_enroll w.
Definition toy_enrolled : Host := {|
  host_ID := 100; host_Name := "h2"; host_PublicKey := Some "ssh-toy h2";
  host_EnrolledAt := Some (1000 * Hour)%Z; host_LastSeenAt := Some (1000 * Hour)%Z;
  host_LastSeenAddr := None; host_CreatedAt := 1000 * Hour; host_UpdatedAt := 1000 * Hour |}.

Lemma enroll_host_consumes_token_witness :
  (toy_enroll_run toy_enroll_world).1 = Ok toy_enrolled ∧
  spent "hash" (1000 * Hour) (enrollment_tokens (w_db (toy_enroll_run toy_enroll_world).2)).
Proof.
  split; [vm_compute; reflexivity|].
  apply (enroll_host_consumes_token (H0 := counting_uuids) toy_enroll toy_enroll_world
    (Ok toy_enrolled)). vm_compute. reflexivity.
Defined.


Definition toy_grant : AccessGrant := {|
  grant_ID := 70; grant_GroupID := 10; grant_TagSelector := {["env" := "prod"]};
  grant_Principals := ["root"]; grant_Sudo := false; grant_MaxValiditySeconds := 3600;
  grant_CreatedAt := 0; grant_UpdatedAt := 0 |}.
Definition toy_grant_world : @World toy_crypto :=
  toy_world (put_rows access_grants_table [toy_grant] toy_db).

Lemma authorized_principals_exact_witness :
  ∃ ps w', ListAuthorizedPrincipals 20%N "root" toy_grant_world = (Ok ps, w') ∧ "alice" ∈ ps.
Proof.
  do 2 eexists. split; [vm_compute; reflexivity|].
  destruct (authorized_principals_exact (H0 := counting_uuids) 20%N "root" toy_grant_world
    ["alice"; "alice@example.org"] toy_grant_world) as (_ & _ & Hp);
    [vm_compute; reflexivity|].
  apply Hp. left. split; [discriminate|]. exists (toy_user 1 "alice").
  split; [|by left]. split; [apply list_elem_of_here|]. split; [reflexivity|].
  exists toy_grant. split_and!; [apply list_elem_of_here|apply list_elem_of_here|
    apply list_elem_of_here|]. by apply (bool_decide_unpack _); vm_compute.
Defined.
