(* ===== verification/StoreSessions.v ===== *)
(** * Host sessions (internal/store/sessions.go)

    Session start and end and sudo, as the host agents report them, stored
    together with their audit events. *)
From S2P Require Export StoreEnrollment.

Local Open Scope string_scope.
Local Open Scope list_scope.

Definition EventSessionOpened := "session.opened".
Definition EventSessionClosed := "session.closed".
Definition EventSudo := "session.sudo".

Record SessionEvent := {
  se_HostID : uuid; se_HostName : string; se_LocalUser : string; se_RemoteUser : string;
  se_RemoteAddr : string; se_TTY : string; se_CertSerial : option Z; se_KeyID : string;
  se_Command : string; se_OccurredAt : Z
}.

Definition session_actor (e : SessionEvent) : string := "host:" +:+ se_HostName e.
Definition nullableTime (t : Z) : option Z := if IsZero t then None else Some t.

(** An event the agent reports keeps its own time. *)
Definition audit_at (occurred : Z) (eventType actor : string) (payload : json) : AuditEvent := {|
  audit_ID := 0; audit_OccurredAt := occurred; audit_EventType := eventType;
  audit_Actor := actor; audit_Payload := payload |}.

Definition JUuid (id : uuid) : json := JNum (Z.of_N id).

(** The foreign keys of host_sessions. *)
Definition session_ok (db : Db) (s : HostSession) : bool :=
  references (hosts db) host_ID (Some (session_HostID s)) &&
  references (users db) user_ID (session_UserID s).

(** The open session to close: the latest start wins. *)
Definition open_sessions (e : SessionEvent) (ss : list HostSession) : list HostSession :=
  sort_by (λ a b, (session_StartedAt b <=? session_StartedAt a)%Z)
    (List.filter (λ s, bool_decide (session_HostID s = se_HostID e) &&
       bool_decide (session_LocalUser s = se_LocalUser e) &&
       bool_decide (session_TTY s = se_TTY e) && bool_decide (session_EndedAt s = None)) ss).

Definition session_ended (at_ : option Z) (now : Z) (s : HostSession) : HostSession := {|
  session_ID := session_ID s; session_HostID := session_HostID s;
  session_LocalUser := session_LocalUser s; session_RemoteUser := session_RemoteUser s;
  session_RemoteAddr := session_RemoteAddr s; session_TTY := session_TTY s;
  session_CertSerial := session_CertSerial s; session_KeyID := session_KeyID s;
  session_UserID := session_UserID s; session_StartedAt := session_StartedAt s;
  session_EndedAt := Some (default now at_); session_CreatedAt := session_CreatedAt s |}.

Section sessions.
Context `{Crypto} `{UUIDs}.

Definition OpenHostSession (e : SessionEvent) : M unit :=
  BeginFunc (
    let* userID :=
      match se_CertSerial e with
      | None => ret None
      | Some serial =>
          let* r := try (queryOne (sql_select (λ db,
            List.filter (λ c, (crt_Serial c =? serial)%Z) (certificates db)))) in
          match r with
          | Ok cert => ret (crt_UserID cert)
          | Err err => if errors_Is err ErrNotFound then ret None else fail err
          end
      end in
    let* session := queryOne (sql_insert host_sessions_table (λ id now, {|
      session_ID := id; session_HostID := se_HostID e; session_LocalUser := se_LocalUser e;
      session_RemoteUser := se_RemoteUser e; session_RemoteAddr := se_RemoteAddr e;
      session_TTY := se_TTY e; session_CertSerial := se_CertSerial e;
      session_KeyID := se_KeyID e; session_UserID := userID;
      session_StartedAt := default now (nullableTime (se_OccurredAt e));
      session_EndedAt := None; session_CreatedAt := now |}) session_ok) in
    insertAuditEvent (audit_at (se_OccurredAt e) EventSessionOpened (session_actor e) (JObj [
      ("cert_serial", JOpt JNum (se_CertSerial e)); ("host_id", JUuid (se_HostID e));
      ("key_id", JStr (se_KeyID e)); ("local_user", JStr (se_LocalUser e));
      ("remote_addr", JStr (se_RemoteAddr e)); ("session_id", JUuid (session_ID session));
      ("tty", JStr (se_TTY e)); ("user_id", JOpt JUuid userID)]))).

Definition CloseHostSession (e : SessionEvent) : M unit :=
  BeginFunc (
    let* target := gets (λ w, head (open_sessions e (host_sessions (w_db w)))) in
    let* r := try (queryOne (sql_update host_sessions_table
      (λ s, match target with
            | None => false
            | Some t => bool_decide (session_ID s = session_ID t)
            end)
      (session_ended (nullableTime (se_OccurredAt e))) (λ _, true))) in
    let common := [("host_id", JUuid (se_HostID e)); ("local_user", JStr (se_LocalUser e));
                   ("matched", JBool (is_ok r)); ("tty", JStr (se_TTY e))] in
    let event fields :=
      insertAuditEvent (audit_at (se_OccurredAt e) EventSessionClosed (session_actor e)
        (JObj fields)) in
    match r with
    | Ok closed =>
        event (common ++ [("session_id", JUuid (session_ID closed));
          ("cert_serial", JOpt JNum (session_CertSerial closed));
          ("user_id", JOpt JUuid (session_UserID closed))] ++
          match session_EndedAt closed with
          | Some t => [("duration_seconds", JNum (to_seconds (Sub t (session_StartedAt closed))))]
          | None => []
          end)
    | Err err => if errors_Is err ErrNotFound then event common else fail err
    end).

Definition RecordSudoEvent (e : SessionEvent) : M unit :=
  AppendAuditEvent (audit_at (se_OccurredAt e) EventSudo (session_actor e) (JObj [
    ("command", JStr (se_Command e)); ("host_id", JUuid (se_HostID e));
    ("invoking_user", JStr (se_RemoteUser e)); ("target_user", JStr (se_LocalUser e));
    ("tty", JStr (se_TTY e))])).

Definition ListActiveSessions (limit : nat) : M (list HostSession) :=
  queryAll (λ db, limit_rows limit 0
    (sort_by (λ a b, (session_StartedAt b <=? session_StartedAt a)%Z)
       (List.filter (λ s, bool_decide (session_EndedAt s = None)) (host_sessions db)))).

#[export] Instance OpenHostSession_audit e : Keeps audit_grows (OpenHostSession e).
Proof.
  unfold OpenHostSession. apply keeps_BeginFunc; [apply _|]. apply keeps_bind; [apply _| |].
  - destruct (se_CertSerial e); [|apply _]. apply keeps_bind; [apply _..|].
    intros [|err]; [apply _|]. destruct (errors_Is err ErrNotFound); apply _.
  - intros. apply _.
Qed.
#[export] Instance CloseHostSession_audit e : Keeps audit_grows (CloseHostSession e).
Proof.
  unfold CloseHostSession. apply keeps_BeginFunc; [apply _|]. apply keeps_bind; [apply _..|].
  intros target. apply keeps_bind; [apply _..|]. intros [|err]; [apply _|].
  destruct (errors_Is err ErrNotFound); apply _.
Qed.
#[export] Instance RecordSudoEvent_audit e : Keeps audit_grows (RecordSudoEvent e).
Proof. unfold RecordSudoEvent, AppendAuditEvent. apply _. Qed.
End sessions.

(** ** Closing a session *)
Definition open_match (e : SessionEvent) (s : HostSession) : Prop :=
  session_HostID s = se_HostID e ∧ session_LocalUser s = se_LocalUser e ∧
  session_TTY s = se_TTY e ∧ session_EndedAt s = None.

Lemma open_sessions_elem e ss s : s ∈ open_sessions e ss ↔ s ∈ ss ∧ open_match e s.
Proof.
  unfold open_sessions, open_match. rewrite sort_by_elem, filter_bool_In, !andb_true_iff.
  rewrite !bool_decide_eq_true. tauto.
Qed.

Lemma open_sessions_head e ss :
  match head (open_sessions e ss) with
  | None => ∀ s, s ∈ ss → ¬ open_match e s
  | Some t => t ∈ ss ∧ open_match e t ∧
      ∀ s, s ∈ ss → open_match e s → (session_StartedAt s ≤ session_StartedAt t)%Z
  end.
Proof.
  destruct (open_sessions e ss) as [|t l] eqn:E; simpl.
  - intros s Hs Hm. assert (s ∈ open_sessions e ss) as Hin by (by apply open_sessions_elem).
    rewrite E in Hin. by apply elem_of_nil in Hin.
  - assert (t ∈ open_sessions e ss) as Ht by (rewrite E; apply list_elem_of_here).
    apply open_sessions_elem in Ht as [? ?]. split_and!; [done..|]. intros s Hs Hm.
    assert (s ∈ open_sessions e ss) as Hin by (by apply open_sessions_elem).
    rewrite E in Hin. apply elem_of_cons in Hin as [->|Hin]; [done|].
    apply Z.leb_le. eapply (sort_by_head_min (λ a b, (session_StartedAt b <=? session_StartedAt a)%Z));
      [| |exact E|done].
    + intros x y. rewrite !Z.leb_le. lia.
    + intros x y z. rewrite !Z.leb_le. lia.
Qed.

(** The first row of a successful or empty UPDATE ... RETURNING. *)
Lemma update_one_inv `{Crypto} {R} (t : Table R) p f w r w' :
  (∀ l l' db, put_rows t l (put_rows t l' db) = put_rows t l db) →
  (∀ db, put_rows t (rows t db) db = db) →
  queryOne (sql_update t p f (λ _, true)) w = (r, w') → errors_Is (match r with Err e => e | _ => ErrNotFound end) ErrNotFound = true →
  match r with
  | Ok x => ∃ x0 fs, List.filter p (rows t (w_db w)) = [x0] ∧ x = f (w_now w) x0 ∧
      w' = set_db (put_rows t (List.map (λ y, if p y then f (w_now w) y else y) (rows t (w_db w)))
             (w_db w)) (set_faults fs w)
  | Err _ => List.filter p (rows t (w_db w)) = [] ∧ w_db w' = w_db w ∧ ∃ fs, w' = set_db (w_db w) (set_faults fs w)
  end.
Proof.
  intros Hpp Hid Hr He. destruct r as [x|e].
  - run_step. run_step. subst. destruct (List.filter p _) as [|y0 [|]] eqn:Ef; simpl in *; try done.
    simplify_eq. eauto.
  - unfold queryOne in Hr. apply bind_Err in Hr as [Hr|(rs & w1 & Hr & Hf)].
    + unfold sql_update, stmt in Hr. simpl in Hr.
      repeat (case_match; simplify_eq/=); done.
    + apply sql_update_Ok in Hr as (fs & -> & _ & ->).
      destruct (List.filter p _) as [|x0 [|]] eqn:Ef; simpl in Hf; unfold fail in Hf;
        simplify_eq/=.
      assert (List.map (λ r, if p r then f (w_now w) r else r) (rows t (w_db w)) =
              rows t (w_db w)) as Hm.
      { rewrite <-(list_fmap_id (rows t (w_db w))) at 2. apply list_fmap_ext.
        intros i y Hy%list_elem_of_lookup_2. destruct (p y) eqn:E; [|done].
        assert (y ∈ List.filter p (rows t (w_db w))) as Hin by (by apply filter_bool_In).
        rewrite Ef in Hin. by apply elem_of_nil in Hin. }
      rewrite Hm, Hid. split_and!; [done..|]. eauto.
Qed.

(** Closing a session ends the matching open session that started last,
    and only it; when none matches (its start was never reported) no session
    changes. Either way exactly one session.closed event is written, with the
    agent's own time, and it says whether a session was matched. On failure
    the database is unchanged. *)
Theorem close_session_ends_latest `{Crypto} `{UUIDs} e w r w'
  (Hrun : CloseHostSession e w = (r, w')) :
  match r with
  | Ok _ => ∃ matched ev,
      audit_events (w_db w') = audit_events (w_db w) ++ [ev] ∧
      audit_EventType ev = EventSessionClosed ∧ audit_Actor ev = session_actor e ∧
      (nullableTime (se_OccurredAt e) = Some (audit_OccurredAt ev) ∨
       nullableTime (se_OccurredAt e) = None) ∧
      jget "matched" (audit_Payload ev) = Some (JBool matched) ∧
      if matched then
        ∃ t, t ∈ host_sessions (w_db w) ∧ open_match e t ∧
          (∀ s, s ∈ host_sessions (w_db w) → open_match e s →
             (session_StartedAt s ≤ session_StartedAt t)%Z) ∧
          host_sessions (w_db w') =
            List.map (λ s, if bool_decide (session_ID s = session_ID t)
                           then session_ended (nullableTime (se_OccurredAt e)) (w_now w) s else s)
              (host_sessions (w_db w))
      else (∀ s, s ∈ host_sessions (w_db w) → ¬ open_match e s) ∧
           host_sessions (w_db w') = host_sessions (w_db w)
  | Err _ => w_db w' = w_db w
  end.
Proof.
  destruct r as [u|err]; [|by eapply transaction_Err].
  unfold CloseHostSession, gets in Hrun. run_step. subst. run_step. simplify_eq. run_step. run_step.
  pose proof (open_sessions_head e (host_sessions (w_db w))) as Hhead.
  match goal with Hq : queryOne _ _ = (?r, _) |- _ =>
    assert (errors_Is (match r with Err e => e | _ => ErrNotFound end) ErrNotFound = true) as He;
    [|apply update_one_inv in Hq; [|done|by intros []|done]] end.
  { match goal with |- context [match ?r with Ok _ => _ | Err _ => _ end] => destruct r as [|err] end;
      [apply errors_Is_refl|]. destruct (errors_Is err ErrNotFound); [done|run_step]. }
  assert (∀ ev, nullableTime (se_OccurredAt e) =
      Some (audit_OccurredAt (stored_audit ev (w_now w) (audit_at (se_OccurredAt e)
        EventSessionClosed (session_actor e) JNull))) ∨ nullableTime (se_OccurredAt e) = None) as Htime.
  { intros ev. unfold nullableTime, stored_audit. simpl.
    destruct (IsZero (se_OccurredAt e)); [by right|by left]. }
  match goal with He : errors_Is (match ?r with Ok _ => _ | Err _ => _ end) _ = true |- _ =>
    destruct r as [closed|err] end.
  - match goal with Hq : ∃ _ _, _ |- _ => destruct Hq as (s0 & fs & Hf & -> & ->) end.
    match goal with Ha : insertAuditEvent _ _ = _ |- _ => apply insertAuditEvent_Ok in Ha as (fs' & ->) end.
    simpl in *. exists true. eexists. split_and!; [done..|exact (Htime 0%Z)|done|].
    destruct (head _) as [t|] eqn:Eh.
    + destruct Hhead as (? & ? & ?). by exists t.
    + by rewrite filter_false in Hf.
  - match goal with Hq : _ ∧ _ |- _ => destruct Hq as (Hf & Hdb & fs & ->) end.
    rewrite He in *.
    match goal with Ha : insertAuditEvent _ _ = _ |- _ => apply insertAuditEvent_Ok in Ha as (fs' & ->) end.
    simpl in *. exists false. eexists. split_and!; [done..|exact (Htime 0%Z)|done| |done].
    destruct (head _) as [t|] eqn:Eh; [|done]. destruct Hhead as (Ht & _ & _).
    assert (t ∈ List.filter (λ s, bool_decide (session_ID s = session_ID t))
      (host_sessions (w_db w))) as Hin.
    { apply filter_bool_In. split; [done|]. by apply bool_decide_eq_true. }
    rewrite Hf in Hin. by apply elem_of_nil in Hin.
Qed.

Definition toy_session : HostSession := {|
  session_ID := 80; session_HostID := 20; session_LocalUser := "root"; session_RemoteUser := "";
  session_RemoteAddr := "10.0.0.1"; session_TTY := "pts/0"; session_CertSerial := None;
  session_KeyID := ""; session_UserID := None; session_StartedAt := 1000; session_EndedAt := None;
  session_CreatedAt := 1000 |}.
Definition toy_close : SessionEvent := {|
  se_HostID := 20; se_HostName := "h1"; se_LocalUser := "root"; se_RemoteUser := "";
  se_RemoteAddr := ""; se_TTY := "pts/0"; se_CertSerial := None; se_KeyID := "";
  se_Command := ""; se_OccurredAt := 2000 |}.
Definition toy_session_world : @World toy_crypto :=
  toy_world (put_rows host_sessions_table [toy_session] toy_db).

Lemma close_session_ends_latest_witness :
  ∃ w', CloseHostSession toy_close toy_session_world = (Ok (), w') ∧
    ∃ matched ev, audit_events (w_db w') = [ev] ∧
      jget "matched" (audit_Payload ev) = Some (JBool matched).
Proof.
  eexists. split; [vm_compute; reflexivity|].
  destruct (close_session_ends_latest (H0 := counting_uuids) toy_close toy_session_world (Ok ()) _
    eq_refl) as (matched & ev & Ha & _ & _ & _ & Hm & _).
  exists matched, ev. split; [exact Ha|exact Hm].
Defined.
