(* ===== verification/StoreCAKeys.v ===== *)
(** * CA keys (internal/store/ca_keys.go)

    The ca_keys rows of the three purposes and their states active, retiring
    and retired. *)
From S2P Require Export StoreSessions.

Local Open Scope string_scope.
Local Open Scope list_scope.

Definition valid_key_state (s : string) : bool :=
  bool_decide (s ∈ [CAKeyStateActive; CAKeyStateRetiring; CAKeyStateRetired]).
Definition valid_purpose (p : string) : bool :=
  bool_decide (p ∈ [CertTypeUser; CertTypeHost; CAPurposeMTLS]).
Definition same_public_key (purpose publicKey : string) (k : CAKey) : bool :=
  bool_decide (cakey_Purpose k = purpose) && bool_decide (cakey_PublicKey k = publicKey).

(** CHECK constraints and the unique index on (purpose, public_key). *)
Definition cakey_ok (db : Db) (k : CAKey) : bool :=
  valid_purpose (cakey_Purpose k) && valid_key_state (cakey_State k) &&
  negb (existsb (same_public_key (cakey_Purpose k) (cakey_PublicKey k)) (ca_keys db)).

Definition cakey_row (k : CAKey) (state : string) (id : uuid) (now : Z) : CAKey := {|
  cakey_ID := id; cakey_Purpose := cakey_Purpose k; cakey_Algorithm := cakey_Algorithm k;
  cakey_PublicKey := cakey_PublicKey k;
  cakey_EncryptedPrivateKey := cakey_EncryptedPrivateKey k;
  cakey_State := state; cakey_CreatedAt := now; cakey_RetiredAt := None |}.

Definition cakey_with_state (state : string) (retired_at : option Z) (k : CAKey) : CAKey := {|
  cakey_ID := cakey_ID k; cakey_Purpose := cakey_Purpose k; cakey_Algorithm := cakey_Algorithm k;
  cakey_PublicKey := cakey_PublicKey k;
  cakey_EncryptedPrivateKey := cakey_EncryptedPrivateKey k;
  cakey_State := state; cakey_CreatedAt := cakey_CreatedAt k; cakey_RetiredAt := retired_at |}.

(** ORDER BY created_at DESC, id. *)
Definition newest_key_first (a b : CAKey) : bool :=
  (cakey_CreatedAt b <? cakey_CreatedAt a)%Z ||
  ((cakey_CreatedAt a =? cakey_CreatedAt b)%Z && (cakey_ID a <=? cakey_ID b)%N).

Section ca_keys.
Context `{Crypto} `{UUIDs}.

Definition CreateCAKey (k : CAKey) : M CAKey :=
  let state := if bool_decide (cakey_State k = "") then CAKeyStateActive else cakey_State k in
  queryOne (sql_insert ca_keys_table (cakey_row k state) cakey_ok).

Definition GetCAKey (id : uuid) : M CAKey :=
  queryOne (sql_select (λ db, List.filter (λ k, bool_decide (cakey_ID k = id)) (ca_keys db))).
Definition ListCAKeys (purpose : string) : M (list CAKey) :=
  queryAll (λ db, sort_by newest_key_first
    (List.filter (λ k, bool_decide (cakey_Purpose k = purpose)) (ca_keys db))).
(** The keys of the bundle: everything that is not retired. *)
Definition bundle_keys (db : Db) (purpose : string) : list CAKey :=
  sort_by newest_key_first
    (List.filter (λ k, bool_decide (cakey_Purpose k = purpose) &&
                       negb (bool_decide (cakey_State k = CAKeyStateRetired))) (ca_keys db)).
Definition ListActiveCAKeys (purpose : string) : M (list CAKey) :=
  queryAll (λ db, bundle_keys db purpose).

Definition UpdateCAKeyState (id : uuid) (state : string) : M CAKey :=
  queryOne (sql_update ca_keys_table (λ k, bool_decide (cakey_ID k = id))
    (λ now k, cakey_with_state state
       (if bool_decide (state = CAKeyStateRetired) then Some now else cakey_RetiredAt k) k)
    (λ k, valid_key_state (cakey_State k))).

(** [AdoptCAKey]: the row, and whether this call inserted it. *)
Definition AdoptCAKey (purpose algorithm publicKey : string) : M (CAKey * bool) :=
  BeginFunc (
    let* r := try (queryOne (sql_insert_or_nothing ca_keys_table
      (cakey_row {| cakey_ID := 0%N; cakey_Purpose := purpose; cakey_Algorithm := algorithm;
         cakey_PublicKey := publicKey; cakey_EncryptedPrivateKey := None;
         cakey_State := CAKeyStateActive; cakey_CreatedAt := 0; cakey_RetiredAt := None |}
         CAKeyStateActive)
      cakey_ok (same_public_key purpose publicKey))) in
    match r with
    | Ok key =>
        wrap "demote previous active ca-key"
          (exec (sql_update ca_keys_table
             (λ k, bool_decide (cakey_Purpose k = purpose) &&
                   bool_decide (cakey_State k = CAKeyStateActive) &&
                   negb (bool_decide (cakey_ID k = cakey_ID key)))
             (λ _ k, cakey_with_state CAKeyStateRetiring (cakey_RetiredAt k) k) (λ _, true))) ;;
        ret (key, true)
    | Err e =>
        if errors_Is e ErrNotFound then
          let* key := wrap "re-select adopted ca-key" (queryOne (sql_select (λ db,
            List.filter (same_public_key purpose publicKey) (ca_keys db)))) in
          if bool_decide (cakey_State key = CAKeyStateRetired)
          then fail (ErrWrap "provide the current key or un-retire this one" ErrCAKeyRetired)
          else ret (key, false)
        else fail (ErrWrap "insert adopted ca-key" e)
    end).

#[export] Instance CreateCAKey_audit k : Keeps audit_grows (CreateCAKey k).
Proof. unfold CreateCAKey. apply _. Qed.
#[export] Instance ListActiveCAKeys_audit p : Keeps audit_grows (ListActiveCAKeys p).
Proof. unfold ListActiveCAKeys. apply _. Qed.
#[export] Instance UpdateCAKeyState_audit i s : Keeps audit_grows (UpdateCAKeyState i s).
Proof. unfold UpdateCAKeyState. apply _. Qed.
#[export] Instance AdoptCAKey_audit p a k : Keeps audit_grows (AdoptCAKey p a k).
Proof.
  unfold AdoptCAKey. apply keeps_BeginFunc; [apply _|]. apply keeps_bind; [apply _..|].
  intros [key|e]; [apply _|]. destruct (errors_Is e ErrNotFound); [|apply _].
  apply keeps_bind; [apply _..|]. intros key. case_bool_decide; apply _.
Qed.
End ca_keys.

(** ** Lemmas *)
Lemma bundle_keys_elem db purpose k :
  k ∈ bundle_keys db purpose ↔
  k ∈ ca_keys db ∧ cakey_Purpose k = purpose ∧ cakey_State k ≠ CAKeyStateRetired.
Proof.
  unfold bundle_keys. rewrite sort_by_elem, filter_bool_In, andb_true_iff, negb_true_iff.
  rewrite bool_decide_eq_true, bool_decide_eq_false. tauto.
Qed.

Section key_lemmas.
Context `{Crypto} `{UUIDs}.
Implicit Types w : World.

(** Key ids are distinct and drawn. *)
Record keys_ok (ks : list CAKey) (n : N) : Prop := {
  key_ids_distinct : NoDup (cakey_ID <$> ks);
  key_ids_drawn : ∀ k, k ∈ ks → drawn n (cakey_ID k)
}.
Definition keys_wf w : Prop := keys_ok (ca_keys (w_db w)) (w_uuid w).

Lemma keys_ok_map ks n f :
  (∀ k, cakey_ID (f k) = cakey_ID k) → keys_ok ks n → keys_ok (List.map f ks) n.
Proof.
  intros Hf []. split.
  - change (List.map f ks) with (f <$> ks). rewrite <-list_fmap_compose.
    erewrite list_fmap_ext; [done|]. intros; apply Hf.
  - intros k (k' & -> & Hk')%list_elem_of_fmap. rewrite Hf. auto.
Qed.

Lemma keys_ok_snoc ks n k :
  cakey_ID k = gen_uuid n → keys_ok ks n → keys_ok (ks ++ [k]) (n + 1).
Proof.
  intros Hk []. split.
  - apply fmap_NoDup_snoc; [done|]. rewrite Hk. intros (k' & Heq & Hk')%list_elem_of_fmap.
    by eapply drawn_fresh; [apply key_ids_drawn0|].
  - intros k' [Hk'|Hk'%list_elem_of_singleton]%elem_of_app;
      [by apply drawn_next, key_ids_drawn0|subst; rewrite Hk; apply drawn_new].
Qed.

Lemma key_id_inj ks n k1 k2 :
  keys_ok ks n → k1 ∈ ks → k2 ∈ ks → cakey_ID k1 = cakey_ID k2 → k1 = k2.
Proof.
  intros [Hnd _] [i Hi]%list_elem_of_lookup [j Hj]%list_elem_of_lookup Heq.
  assert (i = j) as <-; [|congruence].
  eapply NoDup_lookup; [exact Hnd|..]; rewrite list_lookup_fmap_Some; [by exists k1|].
  exists k2. split; [congruence|done].
Qed.
End key_lemmas.

(** ** Properties *)

(** Adopting a mounted key: on success the returned row has the mounted
    public key and is not retired. If this call inserted it, it is active and
    every other key of the purpose that was active is now retiring, so at most
    the new key is active; otherwise no key changed state (a retiring key is
    not promoted back). Keys of other purposes never change, and a retired row
    or any failure leaves the database unchanged. *)
Theorem adopt_key_never_promotes `{Crypto} `{UUIDs} purpose algorithm publicKey w r w'
  (Hrun : AdoptCAKey purpose algorithm publicKey w = (r, w')) :
  match r with
  | Ok (key, created) =>
      key ∈ ca_keys (w_db w') ∧ cakey_Purpose key = purpose ∧ cakey_PublicKey key = publicKey ∧
      cakey_State key ≠ CAKeyStateRetired ∧
      if created then
        cakey_State key = CAKeyStateActive ∧
        (∀ k, k ∈ ca_keys (w_db w') → cakey_Purpose k = purpose →
           cakey_State k = CAKeyStateActive → cakey_ID k = cakey_ID key) ∧
        (∀ k, k ∈ ca_keys (w_db w) → cakey_Purpose k ≠ purpose → k ∈ ca_keys (w_db w'))
      else ca_keys (w_db w') = ca_keys (w_db w)
  | Err _ => w_db w' = w_db w
  end.
Proof.
  destruct r as [[key created]|e]; [|by eapply transaction_Err].
  unfold AdoptCAKey in Hrun. run_step. subst. run_step. run_step.
  match goal with Hq : queryOne _ _ = (?r, _) |- _ => destruct r as [key'|e] eqn:Hr end.
  - match goal with Hq : queryOne _ _ = _ |- _ =>
      apply queryOne_Ok in Hq; unfold sql_insert_or_nothing in Hq; simpl in Hq end.
    destruct (existsb (same_public_key purpose publicKey) _); run_all. split_and!; [|done..| | ].
    + apply list_elem_of_fmap. eexists. split; [|apply elem_of_app; right; by left].
      simpl. by rewrite (bool_decide_true (gen_uuid _ = _)), andb_false_r by done.
    + intros k (k' & -> & Hk')%list_elem_of_fmap. simpl in *.
      destruct (_ && _ && _) eqn:E; simpl; [done|]. intros Hp Hs.
      rewrite Hp, Hs, !bool_decide_true in E by done. simpl in E. by bool_to_prop.
    + intros k Hk Hp. apply list_elem_of_fmap. exists k.
      rewrite (bool_decide_false (cakey_Purpose k = purpose)) by done. simpl.
      split; [done|]. apply elem_of_app. by left.
  - destruct (errors_Is e ErrNotFound) eqn:He; [|run_step].
    match goal with Hq : queryOne _ _ = (Err e, ?w1) |- _ =>
      assert (ca_keys (w_db w1) = ca_keys (w_db w)) as Hdb end.
    { unfold queryOne, sql_insert_or_nothing, sql_select, sql_insert, stmt, bind, ret, fail in *.
      simpl in *. repeat (case_match; simplify_eq/=); done. }
    run_all. case_bool_decide; [run_step|]. run_step. simplify_eq.
    match goal with Hf : [key] = List.filter _ _ |- _ =>
      assert (key ∈ [key]) as Hin by (by left); rewrite Hf in Hin end.
    apply filter_bool_In in Hin as [Hin Hb]. unfold same_public_key in Hb. bool_to_prop.
    split_and!; done.
Qed.

Lemma adopt_key_never_promotes_witness :
  ∃ key w', AdoptCAKey (H0 := counting_uuids) "user" "ed25519" "knew" (toy_world toy_db) =
      (Ok (key, true), w') ∧
    ∀ k, k ∈ ca_keys (w_db w') → cakey_Purpose k = "user" →
      cakey_State k = CAKeyStateActive → cakey_ID k = cakey_ID key.
Proof.
  do 2 eexists. split; [vm_compute; reflexivity|].
  apply (adopt_key_never_promotes (H0 := counting_uuids) "user" "ed25519" "knew" (toy_world toy_db)
    (Ok ({| cakey_ID := 100; cakey_Purpose := "user"; cakey_Algorithm := "ed25519";
            cakey_PublicKey := "knew"; cakey_EncryptedPrivateKey := None; cakey_State := "active";
            cakey_CreatedAt := 1000 * Hour; cakey_RetiredAt := None |}, true)) _ eq_refl).
Defined.
