(* ===== verification/Schema.v ===== *)
(** * The schema as an invariant (internal/store: every operation)

    The constraints of internal/store/migrations on a whole database: primary keys,
    unique keys, CHECKs and foreign keys. The statements check what PostgreSQL checks;
    this file shows that together with the ON DELETE rules nothing else is needed: every
    operation of the store, whichever statement fails, takes a database that satisfies
    the schema to one that does. *)
From S2P Require Export StoreCAKeys StoreSessions StoreEnrollment StoreCIGrants.

Local Open Scope string_scope.
Local Open Scope list_scope.

(** ** Constraints *)
Section constraints.
Context `{UUIDs}.

Definition unique {R K} (key : R → K) (l : list R) : Prop := NoDup (key <$> l).
(** A uuid primary key: distinct, and drawn so far. *)
Definition primary {R} (id_of : R → uuid) (n : N) (l : list R) : Prop :=
  unique id_of l ∧ ∀ r, r ∈ l → drawn n (id_of r).
(** A foreign key; NULL refers to nothing. *)
Definition refers {R} (f : R → option uuid) (l : list R) (ids : list uuid) : Prop :=
  ∀ r i, r ∈ l → f r = Some i → i ∈ ids.
Definition checked {R} (p : R → bool) (l : list R) : Prop := ∀ r, r ∈ l → p r = true.

Definition certificate_check (c : Certificate) : bool :=
  bool_decide (crt_CertType c = CertTypeUser ∨ crt_CertType c = CertTypeHost) &&
  (crt_ValidAfter c <? crt_ValidBefore c)%Z.
Definition cakey_check (k : CAKey) : bool :=
  valid_purpose (cakey_Purpose k) && valid_key_state (cakey_State k).

(** The tables, with [n] uuids and [a] audit ids drawn so far. *)
Record schema_ok (db : Db) (n : N) (a : Z) : Prop := {
  sch_users : primary user_ID n (users db);
  sch_user_key : unique (λ u, (user_Issuer u, user_Subject u)) (users db);
  sch_groups : primary group_ID n (groups db);
  sch_group_key : unique (λ g, (group_Issuer g, group_Name g)) (groups db);
  sch_members : NoDup (user_groups db);
  sch_member_user : refers (Some ∘ ug_UserID) (user_groups db) (user_ID <$> users db);
  sch_member_group : refers (Some ∘ ug_GroupID) (user_groups db) (group_ID <$> groups db);
  sch_hosts : primary host_ID n (hosts db);
  sch_host_name : unique host_Name (hosts db);
  sch_tags : unique tag_key (host_tags db);
  sch_tag_host : refers (Some ∘ tag_HostID) (host_tags db) (host_ID <$> hosts db);
  sch_grants : primary grant_ID n (access_grants db);
  sch_grant_group : refers (Some ∘ grant_GroupID) (access_grants db) (group_ID <$> groups db);
  sch_grant_check : checked (λ g, 0 <? grant_MaxValiditySeconds g)%Z (access_grants db);
  sch_ci_grants : primary cigrant_ID n (ci_grants db);
  sch_ci_check : checked (λ g, 0 <? cigrant_MaxValiditySeconds g)%Z (ci_grants db);
  sch_ca_keys : primary cakey_ID n (ca_keys db);
  sch_ca_key : unique (λ k, (cakey_Purpose k, cakey_PublicKey k)) (ca_keys db);
  sch_ca_check : checked cakey_check (ca_keys db);
  sch_accounts : primary sa_ID n (service_accounts db);
  sch_account_name : unique sa_Name (service_accounts db);
  sch_certs : primary crt_ID n (certificates db);
  sch_serial : unique crt_Serial (certificates db);
  sch_cert_check : checked certificate_check (certificates db);
  sch_cert_key : refers (Some ∘ crt_CAKeyID) (certificates db) (cakey_ID <$> ca_keys db);
  sch_cert_user : refers crt_UserID (certificates db) (user_ID <$> users db);
  sch_cert_account : refers crt_ServiceAccountID (certificates db) (sa_ID <$> service_accounts db);
  sch_cert_host : refers crt_HostID (certificates db) (host_ID <$> hosts db);
  sch_tokens : primary token_ID n (enrollment_tokens db);
  sch_token_hash : unique token_Hash (enrollment_tokens db);
  sch_token_host : refers token_UsedBy (enrollment_tokens db) (host_ID <$> hosts db);
  sch_sessions : primary session_ID n (host_sessions db);
  sch_session_host : refers (Some ∘ session_HostID) (host_sessions db) (host_ID <$> hosts db);
  sch_session_user : refers session_UserID (host_sessions db) (user_ID <$> users db);
  sch_audit : unique audit_ID (audit_events db);
  sch_audit_seq : ∀ e, e ∈ audit_events db → (audit_ID e < a)%Z
}.

(** ** What inserting, changing and dropping rows keeps *)
Implicit Types R : Type.

Lemma primary_mono {R} id_of n n' (l : list R) : (n ≤ n')%N → primary id_of n l → primary id_of n' l.
Proof. intros Hn [Hu Hd]. split; [done|]. intros r Hr. destruct (Hd r Hr) as (k & ? & ?). exists k. split; [lia|done]. Qed.
Lemma unique_snoc {R K} (key : R → K) l r : key r ∉ key <$> l → unique key l → unique key (l ++ [r]).
Proof. intros ? ?. by apply fmap_NoDup_snoc. Qed.
Lemma primary_snoc {R} id_of n (l : list R) r :
  id_of r = gen_uuid n → primary id_of n l → primary id_of (n + 1) (l ++ [r]).
Proof.
  intros Hr [Hu Hd]. split.
  - apply unique_snoc; [|done]. rewrite Hr. intros (x & Hx & Hin)%list_elem_of_fmap.
    by eapply drawn_fresh; [apply Hd|].
  - intros x [Hx| ->%list_elem_of_singleton]%elem_of_app; [by apply drawn_next, Hd|].
    rewrite Hr. apply drawn_new.
Qed.
Lemma refers_app {R} f (l l' : list R) ids :
  refers f l ids → refers f l' ids → refers f (l ++ l') ids.
Proof. intros Hl Hl' r i [Hr|Hr]%elem_of_app; [by apply Hl|by apply Hl']. Qed.
Lemma refers_one {R} f (r : R) ids : (∀ i, f r = Some i → i ∈ ids) → refers f [r] ids.
Proof. intros Hr x i ->%list_elem_of_singleton. apply Hr. Qed.
Lemma refers_more {R} f (l : list R) ids ids' : ids ⊆ ids' → refers f l ids → refers f l ids'.
Proof. intros Hi Hl r i Hr Hf. by eapply Hi, Hl. Qed.
Lemma refers_grown {R S} f (l : list R) (id_of : S → uuid) rows new :
  refers f l (id_of <$> rows) → refers f l (id_of <$> rows ++ new).
Proof. intros Hl. eapply refers_more; [|exact Hl]. intros i Hi. rewrite fmap_app. apply elem_of_app. by left. Qed.
Lemma checked_snoc {R} p (l : list R) r : p r = true → checked p l → checked p (l ++ [r]).
Proof. by intros Hr Hl x [?| ->%list_elem_of_singleton]%elem_of_app; [apply Hl|]. Qed.

Lemma fmap_map_same {R K} (key : R → K) (f : R → R) l :
  (∀ r, key (f r) = key r) → key <$> List.map f l = key <$> l.
Proof. intros Hf. induction l as [|x l IH]; csimpl; [done|]. by rewrite Hf, IH. Qed.
Lemma unique_map {R K} (key : R → K) f l : (∀ r, key (f r) = key r) → unique key l → unique key (List.map f l).
Proof. intros Hf. unfold unique. by rewrite fmap_map_same. Qed.
Lemma primary_map {R} id_of n f (l : list R) :
  (∀ r, id_of (f r) = id_of r) → primary id_of n l → primary id_of n (List.map f l).
Proof.
  intros Hf [Hu Hd]. split; [by apply unique_map|].
  intros x (r & <- & Hr%list_elem_of_In)%list_elem_of_In%in_map_iff. rewrite Hf. by apply Hd.
Qed.
Lemma refers_map {R} fk (f : R → R) l ids :
  (∀ r, fk (f r) = fk r) → refers fk l ids → refers fk (List.map f l) ids.
Proof.
  intros Hf Hl x i (r & <- & Hr%list_elem_of_In)%list_elem_of_In%in_map_iff Hx. rewrite Hf in Hx. by apply (Hl r).
Qed.
Lemma checked_map {R} p (f : R → R) l : (∀ r, p r = true → p (f r) = true) → checked p l → checked p (List.map f l).
Proof.
  intros Hf Hl x (r & <- & Hr%list_elem_of_In)%list_elem_of_In%in_map_iff. by apply Hf, Hl.
Qed.

Lemma unique_filter {R K} (key : R → K) p l : unique key l → unique key (List.filter p l).
Proof. apply fmap_NoDup_filter. Qed.
Lemma primary_filter {R} id_of n p (l : list R) : primary id_of n l → primary id_of n (List.filter p l).
Proof. intros [Hu Hd]. split; [by apply unique_filter|]. intros r [Hr _]%filter_bool_In. by apply Hd. Qed.
Lemma refers_filter {R} fk p (l : list R) ids : refers fk l ids → refers fk (List.filter p l) ids.
Proof. intros Hl r i [Hr _]%filter_bool_In. by apply Hl. Qed.
Lemma checked_filter {R} p q (l : list R) : checked p l → checked p (List.filter q l).
Proof. intros Hl r [Hr _]%filter_bool_In. by apply Hl. Qed.
Lemma NoDup_filter_bool {R} p (l : list R) : NoDup l → NoDup (List.filter p l).
Proof. intros Hl. pose proof (unique_filter id p l) as Hf. unfold unique in Hf. rewrite !list_fmap_id in Hf. auto. Qed.

(** A row that is not referred to can be dropped. *)
Lemma refers_dropped {R S} (fk : R → option uuid) (id_of : S → uuid) (p : S → bool) l (rows : list S) :
  refers fk l (id_of <$> rows) → (∀ r, r ∈ l → opt_one_of id_of (List.filter p rows) (fk r) = false) →
  refers fk l (id_of <$> List.filter (λ x, negb (p x)) rows).
Proof.
  intros Hl Hno r i Hr Hf. pose proof (Hl r i Hr Hf) as (x & -> & Hx)%list_elem_of_fmap.
  apply list_elem_of_fmap. exists x. split; [done|]. apply filter_bool_In. split; [done|].
  destruct (p x) eqn:Hp; [|done]. specialize (Hno r Hr). rewrite Hf in Hno. simpl in Hno.
  assert (is_one_of id_of (List.filter p rows) (id_of x) = true) as Hone.
  { unfold is_one_of. apply existsb_elem. exists x. split; [by apply filter_bool_In|by apply bool_decide_eq_true]. }
  congruence.
Qed.
Lemma cascade_dropped {R S} (fk : R → uuid) (id_of : S → uuid) (p : S → bool) l (rows : list S) :
  refers (Some ∘ fk) l (id_of <$> rows) →
  refers (Some ∘ fk) (List.filter (λ r, negb (is_one_of id_of (List.filter p rows) (fk r))) l)
    (id_of <$> List.filter (λ x, negb (p x)) rows).
Proof.
  intros Hl. apply refers_dropped; [by apply refers_filter|].
  intros r [_ Hr]%filter_bool_In. simpl. by apply negb_true_iff.
Qed.
Lemma references_in {R} (rows : list R) id_of i :
  references rows id_of (Some i) = true → i ∈ id_of <$> rows.
Proof. simpl. intros (r & Hr & Hb)%existsb_elem. apply list_elem_of_fmap. exists r. by bool_to_prop. Qed.
Lemma existsb_false {R} (f : R → bool) l : existsb f l = false → ∀ x, x ∈ l → f x = false.
Proof. intros He x Hx. destruct (f x) eqn:Hf; [|done]. assert (existsb f l = true) by (apply existsb_elem; eauto). congruence. Qed.
End constraints.

#[export] Hint Resolve unique_map primary_map refers_map checked_map unique_filter primary_filter
  refers_filter checked_filter NoDup_filter_bool : schema.

(** ** One statement *)
Section statements.
Context `{UUIDs}.
Implicit Types (db : Db) (n : N) (a : Z).

Lemma schema_mono db n n' a a' : (n ≤ n')%N → (a ≤ a')%Z → schema_ok db n a → schema_ok db n' a'.
Proof.
  intros Hn Ha []. split; try done; try (by eapply primary_mono).
  intros e He. specialize (sch_audit_seq0 e He). lia.
Qed.

(** Keep what the statement leaves alone; [next] has one uuid more. *)
Ltac untouched := constructor; simpl; try done; try by apply refers_grown.
Ltac draws Hs := pose proof (schema_mono _ _ (_ + 1)%N _ _ (N.le_add_r _ 1) (Z.le_refl _) Hs);
  destruct Hs; match goal with Hm : schema_ok _ _ _ |- _ => destruct Hm end.

Lemma unique_insert {R K} (key : R → K) (f : R → bool) l r :
  (∀ x, key x = key r → f x = true) → negb (existsb f l) = true → unique key l → unique key (l ++ [r]).
Proof.
  intros Hf He%negb_true_iff. apply unique_snoc. intros (x & Hx & Hin)%list_elem_of_fmap.
  pose proof (existsb_false _ _ He x Hin). by rewrite Hf in *.
Qed.

(** *** INSERT *)
Lemma insert_user db n a u :
  schema_ok db n a → user_ID u = gen_uuid n → user_unique db u = true →
  schema_ok (put_rows users_table (users db ++ [u]) db) (n + 1) a.
Proof.
  intros Hs Hu Hc. draws Hs. untouched.
  - by apply primary_snoc.
  - eapply unique_insert; [|exact Hc|done]. cbn beta. intros x [= -> ->]. by rewrite !bool_decide_true.
Qed.
Lemma insert_group db n a g :
  schema_ok db n a → group_ID g = gen_uuid n → group_unique db g = true →
  schema_ok (put_rows groups_table (groups db ++ [g]) db) (n + 1) a.
Proof.
  intros Hs Hu Hc. draws Hs. untouched.
  - by apply primary_snoc.
  - eapply unique_insert; [|exact Hc|done]. cbn beta. intros x [= -> ->]. by rewrite !bool_decide_true.
Qed.
Lemma insert_host db n a h :
  schema_ok db n a → host_ID h = gen_uuid n → host_unique db h = true →
  schema_ok (put_rows hosts_table (hosts db ++ [h]) db) (n + 1) a.
Proof.
  intros Hs Hu Hc. draws Hs. untouched.
  - by apply primary_snoc.
  - eapply unique_insert; [|exact Hc|done]. cbn beta. intros x ->. by rewrite bool_decide_true.
Qed.
Lemma insert_account db n a s :
  schema_ok db n a → sa_ID s = gen_uuid n → sa_unique db s = true →
  schema_ok (put_rows service_accounts_table (service_accounts db ++ [s]) db) (n + 1) a.
Proof.
  intros Hs Hu Hc. draws Hs. untouched.
  - by apply primary_snoc.
  - eapply unique_insert; [|exact Hc|done]. cbn beta. intros x ->. by rewrite bool_decide_true.
Qed.
Lemma insert_grant db n a g :
  schema_ok db n a → grant_ID g = gen_uuid n → grant_ok db g = true →
  schema_ok (put_rows access_grants_table (access_grants db ++ [g]) db) (n + 1) a.
Proof.
  intros Hs Hu [Hg Hv]%andb_true_iff. draws Hs. untouched.
  - by apply primary_snoc.
  - apply refers_app; [done|]. apply refers_one. intros i [= <-]. by apply references_in.
  - by apply checked_snoc.
Qed.
Lemma insert_ci_grant db n a g :
  schema_ok db n a → cigrant_ID g = gen_uuid n → cigrant_ok db g = true →
  schema_ok (put_rows ci_grants_table (ci_grants db ++ [g]) db) (n + 1) a.
Proof. intros Hs Hu Hv. draws Hs. untouched; [by apply primary_snoc|by apply checked_snoc]. Qed.
Lemma insert_ca_key db n a k :
  schema_ok db n a → cakey_ID k = gen_uuid n → cakey_ok db k = true →
  schema_ok (put_rows ca_keys_table (ca_keys db ++ [k]) db) (n + 1) a.
Proof.
  intros Hs Hu [Hk Hc]%andb_true_iff. draws Hs. untouched.
  - by apply primary_snoc.
  - eapply unique_insert; [|exact Hc|done]. unfold same_public_key. intros x [= -> ->]. by rewrite !bool_decide_true.
  - by apply checked_snoc.
Qed.
Lemma insert_certificate db n a c :
  schema_ok db n a → crt_ID c = gen_uuid n → certificate_ok db c = true →
  schema_ok (put_rows certificates_table (certificates db ++ [c]) db) (n + 1) a.
Proof.
  intros Hs Hu Hc. unfold certificate_ok in Hc.
  apply andb_true_iff in Hc as [Hc Hhost]. apply andb_true_iff in Hc as [Hc Hacc].
  apply andb_true_iff in Hc as [Hc Huser]. apply andb_true_iff in Hc as [Hc Hkey].
  apply andb_true_iff in Hc as [Hc Htime]. apply andb_true_iff in Hc as [Hserial Htype].
  draws Hs. untouched.
  - by apply primary_snoc.
  - eapply unique_insert; [|exact Hserial|done]. cbn beta. intros x ->. apply Z.eqb_refl.
  - apply checked_snoc; [|done]. unfold certificate_check. by rewrite Htype, Htime.
  - apply refers_app; [done|]. apply refers_one. intros i [= <-]. by apply references_in.
  - apply refers_app; [done|]. apply refers_one. intros i Hi. rewrite Hi in Huser. by apply references_in.
  - apply refers_app; [done|]. apply refers_one. intros i Hi. rewrite Hi in Hacc. by apply references_in.
  - apply refers_app; [done|]. apply refers_one. intros i Hi. rewrite Hi in Hhost. by apply references_in.
Qed.
Lemma insert_token db n a t :
  schema_ok db n a → token_ID t = gen_uuid n → token_UsedBy t = None → token_unique db t = true →
  schema_ok (put_rows enrollment_tokens_table (enrollment_tokens db ++ [t]) db) (n + 1) a.
Proof.
  intros Hs Hu Hb Hc. draws Hs. untouched.
  - by apply primary_snoc.
  - eapply unique_insert; [|exact Hc|done]. cbn beta. intros x ->. by rewrite bool_decide_true.
  - apply refers_app; [done|]. apply refers_one. by rewrite Hb.
Qed.
Lemma insert_session db n a s :
  schema_ok db n a → session_ID s = gen_uuid n → session_ok db s = true →
  schema_ok (put_rows host_sessions_table (host_sessions db ++ [s]) db) (n + 1) a.
Proof.
  intros Hs Hu [Hh Hus]%andb_true_iff. draws Hs. untouched.
  - by apply primary_snoc.
  - apply refers_app; [done|]. apply refers_one. intros i [= <-]. by apply references_in.
  - apply refers_app; [done|]. apply refers_one. intros i Hi. rewrite Hi in Hus. by apply references_in.
Qed.
Lemma insert_members db n a new :
  schema_ok db n a → memberships_ok db new = true →
  schema_ok (put_rows user_groups_table (user_groups db ++ new) db) n a.
Proof.
  intros [] [Hnd Hrefs]%andb_true_iff. apply bool_decide_eq_true in Hnd. rewrite forallb_forall in Hrefs.
  untouched; (apply refers_app; [done|]); intros m i Hm%list_elem_of_In%Hrefs [= <-];
    apply andb_true_iff in Hm as [Hu Hg]; by apply references_in.
Qed.
Lemma insert_tags db n a new :
  schema_ok db n a → tags_ok db new = true →
  schema_ok (put_rows host_tags_table (host_tags db ++ new) db) n a.
Proof.
  intros [] [Hnd Hrefs]%andb_true_iff. apply bool_decide_eq_true in Hnd. rewrite forallb_forall in Hrefs.
  untouched. apply refers_app; [done|]. intros t i Ht%list_elem_of_In%Hrefs [= <-]. by apply references_in.
Qed.
Lemma insert_audit db n a e :
  schema_ok db n a → audit_ID e = a → schema_ok (put_rows audit_events_table (audit_events db ++ [e]) db) n (a + 1).
Proof.
  intros [] He. untouched.
  - apply unique_snoc; [|done]. intros (x & Hx & Hin%sch_audit_seq0)%list_elem_of_fmap. lia.
  - intros x [Hx%sch_audit_seq0| ->%list_elem_of_singleton]%elem_of_app; lia.
Qed.

(** *** UPDATE: the rows that [p] picks become [f] of them *)
Definition change {R} (p : R → bool) (f : R → R) (r : R) : R := if p r then f r else r.
Lemma change_same {R K} (key : R → K) p f :
  (∀ r, key (f r) = key r) → ∀ r, key (change p f r) = key r.
Proof. intros Hf r. unfold change. by destruct (p r). Qed.
Lemma refers_to_changed {R S} fk (l : list R) (id_of : S → uuid) p f rows :
  (∀ r, id_of (f r) = id_of r) → refers fk l (id_of <$> rows) →
  refers fk l (id_of <$> List.map (change p f) rows).
Proof. intros Hf. by rewrite (fmap_map_same _ _ _ (change_same _ p f Hf)). Qed.
Lemma checked_change {R} c p (f : R → R) l :
  forallb c (List.map f (List.filter p l)) = true → checked c l → checked c (List.map (change p f) l).
Proof.
  rewrite forallb_forall. intros Hnew Hl x (r & <- & Hr%list_elem_of_In)%list_elem_of_In%in_map_iff.
  unfold change. destruct (p r) eqn:Hp; [|by apply Hl]. apply Hnew, in_map, list_elem_of_In, filter_bool_In. done.
Qed.
Hint Resolve change_same : schema.
Ltac changed Hs := destruct Hs; untouched; try (by apply refers_to_changed); eauto with schema.

Lemma update_user db n a p f :
  (∀ u, user_ID (f u) = user_ID u) → (∀ u, (user_Issuer (f u), user_Subject (f u)) = (user_Issuer u, user_Subject u)) →
  schema_ok db n a → schema_ok (put_rows users_table (List.map (change p f) (users db)) db) n a.
Proof.
  intros Hid Hkey Hs. changed Hs.
  apply unique_map; [|done]. apply (change_same (λ u, (user_Issuer u, user_Subject u)) p f Hkey).
Qed.
Lemma update_host db n a p f :
  (∀ h, host_ID (f h) = host_ID h) → (∀ h, host_Name (f h) = host_Name h) →
  schema_ok db n a → schema_ok (put_rows hosts_table (List.map (change p f) (hosts db)) db) n a.
Proof. intros Hid Hkey Hs. changed Hs. Qed.
Lemma update_account db n a p f :
  (∀ s, sa_ID (f s) = sa_ID s) → (∀ s, sa_Name (f s) = sa_Name s) →
  schema_ok db n a → schema_ok (put_rows service_accounts_table (List.map (change p f) (service_accounts db)) db) n a.
Proof. intros Hid Hkey Hs. changed Hs. Qed.
Lemma update_grant db n a p f :
  (∀ g, grant_ID (f g) = grant_ID g) → (∀ g, grant_GroupID (f g) = grant_GroupID g) →
  forallb (λ g, 0 <? grant_MaxValiditySeconds g)%Z (List.map f (List.filter p (access_grants db))) = true →
  schema_ok db n a → schema_ok (put_rows access_grants_table (List.map (change p f) (access_grants db)) db) n a.
Proof.
  intros Hid Hg Hc Hs. changed Hs; [|by apply checked_change].
  apply refers_map; [|done]. apply (change_same (Some ∘ grant_GroupID)). intros g. simpl. by rewrite Hg.
Qed.
Lemma update_ci_grant db n a p f :
  (∀ g, cigrant_ID (f g) = cigrant_ID g) →
  forallb (λ g, 0 <? cigrant_MaxValiditySeconds g)%Z (List.map f (List.filter p (ci_grants db))) = true →
  schema_ok db n a → schema_ok (put_rows ci_grants_table (List.map (change p f) (ci_grants db)) db) n a.
Proof. intros Hid Hc Hs. changed Hs. by apply checked_change. Qed.
Lemma update_ca_key db n a p f :
  (∀ k, cakey_ID (f k) = cakey_ID k) → (∀ k, (cakey_Purpose (f k), cakey_PublicKey (f k)) = (cakey_Purpose k, cakey_PublicKey k)) →
  forallb (λ k, valid_key_state (cakey_State k)) (List.map f (List.filter p (ca_keys db))) = true →
  schema_ok db n a → schema_ok (put_rows ca_keys_table (List.map (change p f) (ca_keys db)) db) n a.
Proof.
  intros Hid Hkey Hc Hs. changed Hs.
  - apply unique_map; [|done]. apply (change_same (λ k, (cakey_Purpose k, cakey_PublicKey k)) p f Hkey).
  - apply checked_change; [|done]. rewrite forallb_forall in Hc. apply forallb_forall.
    intros k Hk. specialize (Hc k Hk). unfold cakey_check. rewrite Hc, andb_true_r.
    apply in_map_iff in Hk as (k0 & <- & [Hk0 _]%list_elem_of_In%filter_bool_In).
    specialize (sch_ca_check0 k0 Hk0). apply andb_true_iff in sch_ca_check0 as [? _].
    specialize (Hkey k0). injection Hkey as -> _. done.
Qed.
Lemma update_token db n a p f :
  (∀ t, token_ID (f t) = token_ID t) → (∀ t, token_Hash (f t) = token_Hash t) →
  (∀ t i, token_UsedBy (f t) = Some i → token_UsedBy t = Some i ∨ i ∈ host_ID <$> hosts db) →
  schema_ok db n a → schema_ok (put_rows enrollment_tokens_table (List.map (change p f) (enrollment_tokens db)) db) n a.
Proof.
  intros Hid Hkey Hby Hs. changed Hs.
  intros x i (t & <- & Ht%list_elem_of_In)%list_elem_of_In%in_map_iff. unfold change.
  destruct (p t); [|by apply sch_token_host0]. intros [Hx|?]%Hby; [|done]. by apply (sch_token_host0 t).
Qed.
Lemma update_session db n a p f :
  (∀ s, session_ID (f s) = session_ID s) → (∀ s, session_HostID (f s) = session_HostID s) →
  (∀ s, session_UserID (f s) = session_UserID s) →
  schema_ok db n a → schema_ok (put_rows host_sessions_table (List.map (change p f) (host_sessions db)) db) n a.
Proof.
  intros Hid Hh Hu Hs. changed Hs.
  apply refers_map; [|done]. apply (change_same (Some ∘ session_HostID)). intros s. simpl. by rewrite Hh.
Qed.

(** *** DELETE, with its cascade or its restriction *)
Lemma restricted {R S} (fk : R → option uuid) (id_of : S → uuid) deleted (l : list R) :
  negb (existsb (λ r, opt_one_of id_of deleted (fk r)) l) = true →
  ∀ r, r ∈ l → opt_one_of id_of deleted (fk r) = false.
Proof. intros He%negb_true_iff. by apply existsb_false. Qed.
Ltac dropped Hs := destruct Hs; untouched; eauto with schema; try (by apply cascade_dropped).

Lemma delete_user db n a p :
  let deleted := List.filter p (users db) in
  users_deletable deleted db = true → schema_ok db n a →
  schema_ok (users_cascade deleted (put_rows users_table (List.filter (λ u, negb (p u)) (users db)) db)) n a.
Proof.
  intros deleted [Hc Hss]%andb_true_iff Hs. dropped Hs.
  - apply refers_dropped; [done|]. by apply restricted.
  - apply refers_dropped; [done|]. by apply restricted.
Qed.
Lemma delete_group db n a p :
  let deleted := List.filter p (groups db) in schema_ok db n a →
  schema_ok (groups_cascade deleted (put_rows groups_table (List.filter (λ g, negb (p g)) (groups db)) db)) n a.
Proof. intros deleted Hs. dropped Hs. Qed.
Lemma delete_host db n a p :
  let deleted := List.filter p (hosts db) in
  hosts_deletable deleted db = true → schema_ok db n a →
  schema_ok (hosts_cascade deleted (put_rows hosts_table (List.filter (λ h, negb (p h)) (hosts db)) db)) n a.
Proof.
  intros deleted [Hc Ht]%andb_true_iff Hs. dropped Hs.
  - apply refers_dropped; [done|]. by apply restricted.
  - apply refers_dropped; [done|]. by apply restricted.
Qed.
Lemma delete_account db n a p :
  let deleted := List.filter p (service_accounts db) in
  sa_deletable deleted db = true → schema_ok db n a →
  schema_ok (put_rows service_accounts_table (List.filter (λ s, negb (p s)) (service_accounts db)) db) n a.
Proof. intros deleted Hc Hs. dropped Hs. apply refers_dropped; [done|]. by apply restricted. Qed.
Lemma delete_members db n a p :
  schema_ok db n a → schema_ok (put_rows user_groups_table (List.filter p (user_groups db)) db) n a.
Proof. intros Hs. dropped Hs. Qed.
Lemma delete_tags db n a p :
  schema_ok db n a → schema_ok (put_rows host_tags_table (List.filter p (host_tags db)) db) n a.
Proof. intros Hs. dropped Hs. Qed.
Lemma delete_grants db n a p :
  schema_ok db n a → schema_ok (put_rows access_grants_table (List.filter p (access_grants db)) db) n a.
Proof. intros Hs. dropped Hs. Qed.
Lemma delete_ci_grants db n a p :
  schema_ok db n a → schema_ok (put_rows ci_grants_table (List.filter p (ci_grants db)) db) n a.
Proof. intros Hs. dropped Hs. Qed.
End statements.

(** ** The history: the certificate register and the audit log only grow *)
Definition history : relation Db := λ db db',
  certificates db `prefix_of` certificates db' ∧ audit_events db `prefix_of` audit_events db'.
#[export] Instance history_preorder : PreOrder history.
Proof. split; [intros db; by split|]. intros x y z [] []. split; by etrans. Qed.
(** Adding rows to the table keeps the history. *)
Class GrowsTable {R} (t : Table R) : Prop := grows_table new db : history db (put_rows t (rows t db ++ new) db).
#[export] Hint Extern 0 (GrowsTable _) =>
  (intros new db; split; simpl; first [reflexivity|by apply prefix_app_r]) : typeclass_instances.
#[export] Hint Extern 0 (KeepsTable history _) => (intros l db; split; simpl; reflexivity) : typeclass_instances.
#[export] Hint Extern 0 (KeepsCascade history _) => (intros l db; split; simpl; reflexivity) : typeclass_instances.

(** ** Operations that keep the schema *)
Section preserves.
Context `{Crypto} `{UUIDs}.
Implicit Types w : World.

Definition schema w : Prop := schema_ok (w_db w) (w_uuid w) (w_audit_seq w).
(** Ids are never given back, not even by a rollback; audit events and certificates are
    neither changed nor deleted. *)
Definition later w w' : Prop :=
  (w_uuid w ≤ w_uuid w')%N ∧ (w_audit_seq w ≤ w_audit_seq w')%Z ∧ history (w_db w) (w_db w').
#[export] Instance later_preorder : PreOrder later.
Proof.
  split; [intros w; by repeat split|].
  intros x y z (? & ? & ?) (? & ? & ?). split; [lia|split; [lia|by etrans]].
Qed.
End preserves.
Lemma history_delete {R} (t : Table R) `{!KeepsTable history t} (cascade : list R → Db → Db) `{!KeepsCascade history cascade} l deleted db :
  history db (cascade deleted (put_rows t l db)).
Proof. etrans; [apply keeps_table|apply keeps_cascade]. Qed.
Ltac later := split; [simpl; lia|split; [simpl; lia|]]; simpl;
  first [assumption|reflexivity|apply grows_table|apply keeps_table|by apply history_delete].

Class Preserves `{Crypto} `{UUIDs} {A} (m : M A) : Prop :=
  preserves w : schema w → schema (m w).2 ∧ later w (m w).2.

Section instances.
Context `{Crypto} `{UUIDs}.
Implicit Types w : World.

(** What leaves the database and its sequences alone. *)
Lemma preserves_frame {A} (m : M A) :
  (∀ w, w_db (m w).2 = w_db w ∧ w_uuid (m w).2 = w_uuid w ∧ w_audit_seq (m w).2 = w_audit_seq w) → Preserves m.
Proof.
  intros Hm w Hs. destruct (Hm w) as (Hd & Hu & Ha). unfold schema, later. rewrite Hd, Hu, Ha.
  split; [done|]. later.
Qed.
#[export] Instance preserves_ret {A} (x : A) : Preserves (ret x).
Proof. by apply preserves_frame. Qed.
#[export] Instance preserves_fail {A} e : Preserves (fail (A:=A) e).
Proof. by apply preserves_frame. Qed.
#[export] Instance preserves_lift {A} (r : result A) : Preserves (lift r).
Proof. destruct r; apply _. Qed.
#[export] Instance preserves_gets {A} (f : World → A) : Preserves (gets f).
Proof. by apply preserves_frame. Qed.
#[export] Instance preserves_signers f : Preserves (modify (λ w, set_signers (f (w_signers w)) w)).
Proof. by apply preserves_frame. Qed.
#[export] Instance preserves_time_Now : Preserves time_Now.
Proof. apply preserves_frame. intros w. unfold time_Now. by destruct (w_ticks w). Qed.
#[export] Instance preserves_rand_next : Preserves rand_next.
Proof. by apply preserves_frame. Qed.
#[export] Instance preserves_bind {A B} (m : M A) (k : A → M B) :
  Preserves m → (∀ x, Preserves (k x)) → Preserves (bind m k).
Proof.
  intros Hm Hk w Hs. unfold bind. destruct (Hm w Hs) as [Hs1 Hd1]. destruct (m w) as [[x|e] w1]; simpl in *; [|done].
  destruct (Hk x w1 Hs1) as [Hs2 Hd2]. split; [done|]. by etrans.
Qed.
#[export] Instance preserves_try {A} (m : M A) : Preserves m → Preserves (try m).
Proof. intros Hm w Hs. specialize (Hm w Hs). unfold try. by destruct (m w). Qed.
#[export] Instance preserves_wrap {A} c (m : M A) : Preserves m → Preserves (wrap c m).
Proof. intros Hm w Hs. specialize (Hm w Hs). unfold wrap. by destruct (m w) as [[]]. Qed.
#[export] Instance preserves_foldM {A B} (f : B → A → M B) b l :
  (∀ b x, Preserves (f b x)) → Preserves (foldM f b l).
Proof. intros Hf. revert b. induction l; simpl; apply _. Qed.
#[export] Instance preserves_stmt {A} (k : M A) : Preserves k → Preserves (stmt k).
Proof.
  intros Hk w Hs. unfold stmt. destruct (w_faults w) as [|[] fs]; [by apply Hk| |by apply (Hk (set_faults fs w))].
  split; [done|]. later.
Qed.
#[export] Instance preserves_select {R} (q : Db → list R) : Preserves (sql_select q).
Proof. apply preserves_stmt. by apply preserves_frame. Qed.
#[export] Instance preserves_queryAll {R} (q : Db → list R) : Preserves (queryAll q).
Proof. apply preserves_select. Qed.
#[export] Instance preserves_queryOne {R} (sql : M (list R)) : Preserves sql → Preserves (queryOne sql).
Proof. intros Hs. unfold queryOne. apply preserves_bind; [done|]. intros [|? []]; apply _. Qed.
#[export] Instance preserves_exec {R} (sql : M (list R)) : Preserves sql → Preserves (exec sql).
Proof. intros Hs. unfold exec. apply _. Qed.
#[export] Instance preserves_execAffectingOne {R} (sql : M (list R)) : Preserves sql → Preserves (execAffectingOne sql).
Proof. intros Hs. unfold execAffectingOne. apply preserves_bind; [done|]. intros []; apply _. Qed.

Lemma preserves_stmt_ret w (Hs : schema w) :
  schema (stmt (ret ()) w).2 ∧ later w (stmt (ret ()) w).2.
Proof. by apply (preserves_stmt (ret ()) (preserves_ret ())). Qed.
Lemma later_rollback w w' : later w w' → later w (set_db (w_db w) w').
Proof. intros (? & ? & _). later. Qed.
Lemma schema_rollback w w' : schema w → later w w' → schema (set_db (w_db w) w').
Proof. intros Hs (Hu & Ha & _). unfold schema. simpl. by eapply schema_mono. Qed.
#[export] Instance preserves_transaction {A} f g (body : M A) : Preserves body → Preserves (transaction f g body).
Proof.
  intros Hb w Hs. unfold transaction.
  destruct (preserves_stmt_ret w Hs) as [Hs1 Hd1].
  destruct (stmt (ret ()) w) as [[u|e] w1] eqn:E1; simpl in *; [|done].
  destruct (Hb w1 Hs1) as [Hs2 Hd2]. destruct (body w1) as [[x|e] w2]; simpl in *.
  - destruct (preserves_stmt_ret w2 Hs2) as [Hs3 Hd3].
    destruct (stmt (ret ()) w2) as [[u'|e] w3] eqn:E3; simpl in *.
    + split; [done|]. etrans; [done|]. by etrans.
    + assert (later w w3) as Hd by (etrans; [done|by etrans]). split; [by apply schema_rollback|by apply later_rollback].
  - assert (later w w2) as Hd by (by etrans). split; [by apply schema_rollback|by apply later_rollback].
Qed.
#[export] Instance preserves_BeginFunc {A} (body : M A) : Preserves body → Preserves (BeginFunc body).
Proof. apply preserves_transaction. Qed.

(** *** The statements that write *)
Lemma preserves_insert {R} (t : Table R) `{!GrowsTable t} mk check :
  (∀ db n a now, schema_ok db n a → check db (mk (gen_uuid n) now) = true →
     schema_ok (put_rows t (rows t db ++ [mk (gen_uuid n) now]) db) (n + 1) a) →
  Preserves (sql_insert t mk check).
Proof.
  intros Hk. apply preserves_stmt. intros w Hs. simpl. destruct (check _ _) eqn:Hc; simpl.
  - split; [by apply Hk|]. later.
  - split; [|later]. unfold schema. simpl. eapply schema_mono; [..|exact Hs]; lia.
Qed.
Lemma preserves_insert_rows {R} (t : Table R) `{!GrowsTable t} new check :
  (∀ db n a, schema_ok db n a → check db new = true → schema_ok (put_rows t (rows t db ++ new) db) n a) →
  Preserves (sql_insert_rows t new check).
Proof.
  intros Hk. apply preserves_stmt. intros w Hs. simpl. destruct (check _ _) eqn:Hc; simpl;
    (split; [|later]); [by apply Hk|done].
Qed.
Lemma preserves_update {R} (t : Table R) `{!KeepsTable history t} p f check :
  (∀ db n a now, schema_ok db n a → forallb check (List.map (f now) (List.filter p (rows t db))) = true →
     schema_ok (put_rows t (List.map (change p (f now)) (rows t db)) db) n a) →
  Preserves (sql_update t p f check).
Proof.
  intros Hk. apply preserves_stmt. intros w Hs. simpl. destruct (forallb _ _) eqn:Hc; simpl;
    (split; [|later]); [by apply (Hk _ _ _ (w_now w))|done].
Qed.
Lemma preserves_delete {R} (t : Table R) `{!KeepsTable history t} p cascade `{!KeepsCascade history cascade} check :
  (∀ db n a, schema_ok db n a → check (List.filter p (rows t db)) db = true →
     schema_ok (cascade (List.filter p (rows t db))
       (put_rows t (List.filter (λ r, negb (p r)) (rows t db)) db)) n a) →
  Preserves (sql_delete t p cascade check).
Proof.
  intros Hk. apply preserves_stmt. intros w Hs. simpl. destruct (check _ _) eqn:Hc; simpl;
    (split; [|later]); [by apply Hk|done].
Qed.
#[export] Instance preserves_upsert {R} (t : Table R) mk check conflict f :
  Preserves (sql_update t conflict f (λ _, true)) → Preserves (sql_insert t mk check) →
  Preserves (sql_upsert t mk check conflict f).
Proof. intros Hu Hi w. unfold sql_upsert. case_match; [apply Hu|apply Hi]. Qed.
#[export] Instance preserves_insert_or_nothing {R} (t : Table R) mk check conflict :
  Preserves (sql_insert t mk check) → Preserves (sql_insert_or_nothing t mk check conflict).
Proof. intros Hi w. unfold sql_insert_or_nothing. case_match; [apply preserves_select|apply Hi]. Qed.
End instances.

(** Follow the binds of an operation and split its cases. *)
Ltac preserve :=
  intros; lazymatch goal with
  | |- Preserves (match ?x with _ => _ end) => destruct x; preserve
  | |- Preserves (let _ := _ in _) => cbv zeta; preserve
  | |- Preserves (bind _ _) => apply preserves_bind; preserve
  | |- Preserves (wrap _ _) => apply preserves_wrap; preserve
  | |- Preserves (try _) => apply preserves_try; preserve
  | |- Preserves (foldM _ _ _) => apply preserves_foldM; preserve
  | |- Preserves (BeginFunc _) => apply preserves_BeginFunc; preserve
  | |- Preserves (queryOne _) => apply preserves_queryOne; preserve
  | |- Preserves (exec _) => apply preserves_exec; preserve
  | |- Preserves (execAffectingOne _) => apply preserves_execAffectingOne; preserve
  | |- Preserves (sql_upsert _ _ _ _ _) => apply preserves_upsert; preserve
  | |- Preserves (sql_insert_or_nothing _ _ _ _) => apply preserves_insert_or_nothing; preserve
  | |- _ => try solve [apply _]
  end.

(** ** Every operation of the store *)
Section store.
Context `{Crypto} `{UUIDs}.

(** *** Users, groups, service accounts, hosts *)
#[export] Instance CreateUser_schema u : Preserves (CreateUser u).
Proof. unfold CreateUser. preserve. apply preserves_insert; [apply _..|]. intros. by apply insert_user. Qed.
#[export] Instance UpdateUser_schema u : Preserves (UpdateUser u).
Proof. unfold UpdateUser. preserve. apply preserves_update; [apply _..|]. intros. by apply update_user. Qed.
#[export] Instance DeleteUser_schema i : Preserves (DeleteUser i).
Proof. unfold DeleteUser. preserve. apply preserves_delete; [apply _..|]. intros. by apply delete_user. Qed.
#[export] Instance SetUserGroups_schema u gs : Preserves (SetUserGroups u gs).
Proof.
  unfold SetUserGroups. preserve.
  - apply preserves_delete; [apply _..|]. intros. by apply delete_members.
  - apply preserves_insert_rows; [apply _..|]. intros. by apply insert_members.
Qed.
#[export] Instance CreateGroup_schema g : Preserves (CreateGroup g).
Proof. unfold CreateGroup. preserve. apply preserves_insert; [apply _..|]. intros. by apply insert_group. Qed.
#[export] Instance DeleteGroup_schema i : Preserves (DeleteGroup i).
Proof. unfold DeleteGroup. preserve. apply preserves_delete; [apply _..|]. intros. by apply delete_group. Qed.
#[export] Instance insertAuditEvent_schema e : Preserves (insertAuditEvent e).
Proof.
  apply preserves_stmt. intros w Hs. split; [by apply insert_audit|].
  split; [simpl; lia|split; [simpl; lia|]]. apply (grows_table (t:=audit_events_table)).
Qed.
#[export] Instance AppendAuditEvent_schema e : Preserves (AppendAuditEvent e).
Proof. unfold AppendAuditEvent. apply _. Qed.
Lemma account_update_schema p f :
  (∀ now s, sa_ID (f now s) = sa_ID s) → (∀ now s, sa_Name (f now s) = sa_Name s) →
  Preserves (sql_update service_accounts_table p f (λ _, true)).
Proof. intros. apply preserves_update; [apply _..|]. intros. by apply update_account. Qed.
Lemma account_insert_schema a : Preserves (sql_insert service_accounts_table (sa_row a) sa_unique).
Proof. apply preserves_insert; [apply _..|]. intros. by apply insert_account. Qed.
#[export] Instance CreateServiceAccount_schema a : Preserves (CreateServiceAccount a).
Proof. unfold CreateServiceAccount. preserve. apply account_insert_schema. Qed.
#[export] Instance EnsureCIServiceAccount_schema i p : Preserves (EnsureCIServiceAccount i p).
Proof. unfold EnsureCIServiceAccount. preserve; [by apply account_update_schema|apply account_insert_schema]. Qed.
#[export] Instance UpdateServiceAccount_schema a : Preserves (UpdateServiceAccount a).
Proof. unfold UpdateServiceAccount. preserve. by apply account_update_schema. Qed.
#[export] Instance SetServiceAccountActive_schema r i b : Preserves (SetServiceAccountActive r i b).
Proof. unfold SetServiceAccountActive. preserve. by apply account_update_schema. Qed.
#[export] Instance DeleteServiceAccount_schema i : Preserves (DeleteServiceAccount i).
Proof. unfold DeleteServiceAccount. preserve. apply preserves_delete; [apply _..|]. intros. by apply delete_account. Qed.
Lemma host_update_schema p f :
  (∀ now h, host_ID (f now h) = host_ID h) → (∀ now h, host_Name (f now h) = host_Name h) →
  Preserves (sql_update hosts_table p f (λ _, true)).
Proof. intros. apply preserves_update; [apply _..|]. intros. by apply update_host. Qed.
#[export] Instance CreateHost_schema h : Preserves (CreateHost h).
Proof. unfold CreateHost. preserve. apply preserves_insert; [apply _..|]. intros. by apply insert_host. Qed.
#[export] Instance UpdateHost_schema h : Preserves (UpdateHost h).
Proof. unfold UpdateHost. preserve. by apply host_update_schema. Qed.
#[export] Instance DeleteHost_schema i : Preserves (DeleteHost i).
Proof. unfold DeleteHost. preserve. apply preserves_delete; [apply _..|]. intros. by apply delete_host. Qed.
#[export] Instance replace_tags_schema h c tags : Preserves (replace_tags h c tags).
Proof.
  unfold replace_tags. apply preserves_bind.
  - preserve. apply preserves_delete; [apply _..|]. intros. by apply delete_tags.
  - intros _. assert (Preserves (exec (sql_insert_rows host_tags_table (tag_rows h tags) tags_ok))).
    { preserve. apply preserves_insert_rows; [apply _..|]. intros. by apply insert_tags. }
    case_bool_decide; [done|apply _].
Qed.
#[export] Instance SetHostTags_schema h tags : Preserves (SetHostTags h tags).
Proof. unfold SetHostTags. apply _. Qed.
#[export] Instance TouchHostLastSeen_schema i addr : Preserves (TouchHostLastSeen i addr).
Proof. unfold TouchHostLastSeen. preserve. by apply host_update_schema. Qed.

(** *** Certificates, CA keys *)
#[export] Instance NextCertificateSerial_schema : Preserves NextCertificateSerial.
Proof. apply preserves_stmt. by apply preserves_frame. Qed.
#[export] Instance insertCertificate_schema c : Preserves (insertCertificate c).
Proof. unfold insertCertificate. preserve. apply preserves_insert; [apply _..|]. intros. by apply insert_certificate. Qed.
#[export] Instance CreateCAKey_schema k : Preserves (CreateCAKey k).
Proof. unfold CreateCAKey. preserve. apply preserves_insert; [apply _..|]. intros. by apply insert_ca_key. Qed.
#[export] Instance UpdateCAKeyState_schema i s : Preserves (UpdateCAKeyState i s).
Proof. unfold UpdateCAKeyState. preserve. apply preserves_update; [apply _..|]. intros. by apply update_ca_key. Qed.
#[export] Instance AdoptCAKey_schema p a k : Preserves (AdoptCAKey p a k).
Proof.
  unfold AdoptCAKey. preserve.
  - apply preserves_insert; [apply _..|]. intros. by apply insert_ca_key.
  - apply preserves_update; [apply _..|]. intros db n aud now Hs _. apply update_ca_key; [done..| |done].
    apply forallb_forall. intros x (y & <- & _)%in_map_iff. done.
Qed.

(** *** Grants *)
#[export] Instance createGrantTx_schema r g : Preserves (createGrantTx r g).
Proof. unfold createGrantTx. preserve. apply preserves_insert; [apply _..|]. intros. by apply insert_grant. Qed.
#[export] Instance updateGrantTx_schema r g : Preserves (updateGrantTx r g).
Proof. unfold updateGrantTx. preserve. apply preserves_update; [apply _..|]. intros. by apply update_grant. Qed.
#[export] Instance deleteGrantTx_schema r i : Preserves (deleteGrantTx r i).
Proof. unfold deleteGrantTx. preserve. apply preserves_delete; [apply _..|]. intros. by apply delete_grants. Qed.
#[export] Instance ensureGroupTx_schema i m : Preserves (ensureGroupTx i m).
Proof. unfold ensureGroupTx. preserve. apply preserves_insert; [apply _..|]. intros. by apply insert_group. Qed.
#[export] Instance createCIGrantTx_schema r g : Preserves (createCIGrantTx r g).
Proof. unfold createCIGrantTx. preserve. apply preserves_insert; [apply _..|]. intros. by apply insert_ci_grant. Qed.
#[export] Instance updateCIGrantTx_schema r g : Preserves (updateCIGrantTx r g).
Proof. unfold updateCIGrantTx. preserve. apply preserves_update; [apply _..|]. intros. by apply update_ci_grant. Qed.
#[export] Instance deleteCIGrantTx_schema r i : Preserves (deleteCIGrantTx r i).
Proof. unfold deleteCIGrantTx. preserve. apply preserves_delete; [apply _..|]. intros. by apply delete_ci_grants. Qed.

(** *** Enrollment tokens and sessions *)
#[export] Instance CreateEnrollmentToken_schema t : Preserves (CreateEnrollmentToken t).
Proof. unfold CreateEnrollmentToken. preserve. apply preserves_insert; [apply _..|]. intros. by apply insert_token. Qed.
#[export] Instance consume_token_schema hash : Preserves (consume_token hash).
Proof. unfold consume_token. preserve. apply preserves_update; [apply _..|]. intros. apply update_token; [done..|by left|done]. Qed.
#[export] Instance upsert_host_schema m k : Preserves (upsert_host m k).
Proof.
  unfold upsert_host. preserve; [by apply host_update_schema|].
  apply preserves_insert; [apply _..|]. intros. by apply insert_host.
Qed.
#[export] Instance OpenHostSession_schema e : Preserves (OpenHostSession e).
Proof. unfold OpenHostSession. preserve; apply preserves_insert; [apply _..|]; intros; by apply insert_session. Qed.
#[export] Instance CloseHostSession_schema e : Preserves (CloseHostSession e).
Proof. unfold CloseHostSession. preserve; apply preserves_update; [apply _..|]; intros; by apply update_session. Qed.
#[export] Instance RecordSudoEvent_schema e : Preserves (RecordSudoEvent e).
Proof. unfold RecordSudoEvent. apply _. Qed.
End store.

(** *** Enrollment: the token refers to the host of the same transaction *)
Definition same_hosts : relation Db := λ a b, hosts b = hosts a.
#[export] Instance same_hosts_preorder : PreOrder same_hosts.
Proof. unfold same_hosts. split; [done|]. intros x y z. congruence. Qed.
#[export] Instance tags_same_hosts : KeepsTable same_hosts host_tags_table.
Proof. by intros l db. Qed.

Section enroll.
Context `{Crypto} `{UUIDs}.
Implicit Types w : World.

(** One run, for steps that need what the steps before them did. *)
Definition keeps_schema {A} (m : M A) w : Prop := schema (m w).2 ∧ later w (m w).2.
Lemma keeps_schema_bind {A B} (m : M A) (k : A → M B) w :
  keeps_schema m w → (∀ x w', m w = (Ok x, w') → schema w' → keeps_schema (k x) w') → keeps_schema (bind m k) w.
Proof.
  unfold keeps_schema, bind. intros [Hs Hd] Hk. destruct (m w) as [[x|e] w1]; simpl in *; [|done].
  destruct (Hk x w1 eq_refl Hs). split; [done|]. by etrans.
Qed.
Lemma upsert_host_in name key w h w' :
  upsert_host name key w = (Ok h, w') → host_ID h ∈ host_ID <$> hosts (w_db w').
Proof.
  unfold upsert_host, sql_upsert. intros Hr. apply queryOne_Ok in Hr. destruct (existsb _ _).
  - apply sql_update_Ok in Hr as (fs & Hrs & _ & ->). simpl.
    assert (h ∈ [h]) as Hin by (by left). rewrite Hrs in Hin. apply list_elem_of_In, in_map_iff in Hin as (h0 & <- & Hh0).
    apply list_elem_of_In, filter_bool_In in Hh0 as [Hin Hp]. apply list_elem_of_fmap. eexists. split; [reflexivity|].
    apply list_elem_of_In, in_map_iff. exists h0. rewrite Hp. split; [done|]. by apply list_elem_of_In.
  - apply sql_insert_Ok in Hr as (fs & Hrs & _ & ->). simpl. rewrite fmap_app. apply elem_of_app. right. by left.
Qed.
Lemma token_of_host_schema id host f w :
  (∀ t, token_ID (f t) = token_ID t) → (∀ t, token_Hash (f t) = token_Hash t) →
  (∀ t, token_UsedBy (f t) = Some host) → host ∈ host_ID <$> hosts (w_db w) → schema w →
  keeps_schema (exec (sql_update enrollment_tokens_table (λ t, bool_decide (token_ID t = id)) (λ _ t, f t)
    (λ _, true))) w.
Proof.
  intros Hi Hh Hb Hin Hs. unfold keeps_schema, exec, bind, ret.
  destruct (sql_update _ _ _ _ w) as [[rs|e] w1] eqn:E; simpl.
  - apply sql_update_Ok in E as (fs & _ & _ & ->). split; [|split; [simpl; lia|split; [simpl; lia|]]; apply (keeps_table (t:=enrollment_tokens_table))]. unfold schema. simpl.
    apply (update_token _ _ _ _ f); [done..| |done]. intros t i. rewrite Hb. intros [= <-]. by right.
  - apply sql_update_Err in E as (fs & ->). split; [done|]. later.
Qed.
#[export] Instance EnrollHost_schema p : Preserves (EnrollHost p).
Proof.
  unfold EnrollHost. apply preserves_BeginFunc, preserves_bind; [apply _|]. intros token.
  destruct (match token_HostName token with Some _ => _ | None => _ end); [apply _|]. cbv zeta.
  set (tags := merge_tags _ _). intros w Hs. apply keeps_schema_bind; [by apply preserves_wrap; [apply _|]|].
  intros host w1 Hin Hs1. apply wrap_Ok in Hin. apply upsert_host_in in Hin. apply keeps_schema_bind; [by apply replace_tags_schema|].
  intros [] w2 Hr Hs2.
  assert (hosts (w_db w2) = hosts (w_db w1)) as Hk.
  { assert (Keeps same_hosts (replace_tags (host_ID host) "set tags" tags)) as Hk.
    { unfold replace_tags. apply keeps_bind; [apply _..|]. intros _. case_bool_decide; apply _. }
    specialize (Hk w1). rewrite Hr in Hk. exact Hk. }
  apply keeps_schema_bind; [eapply (token_of_host_schema _ (host_ID host)); [done..|by rewrite Hk|done]|].
  intros [] w3 _ Hs3. apply keeps_schema_bind; [by apply insertAuditEvent_schema|]. intros ? w4 _ Hs4. by apply preserves_ret.
Qed.
End enroll.

(** *** Reconciliation *)
Section apply.
Context `{Crypto} `{UUIDs} `{MapOrder}.

#[export] Instance reconcile_schema {row spec} validate duplicate (row_key : row → string)
    (spec_key : spec → string) create same update delete existing specs :
  (∀ sp, Preserves (create sp)) → (∀ r sp, Preserves (update r sp)) → (∀ r, Preserves (delete r)) →
  Preserves (reconcile validate duplicate row_key spec_key create same update delete existing specs).
Proof.
  intros Hc Hu Hd. assert (∀ res rs, Preserves (delete_rows delete res rs)) as Hrows by (unfold delete_rows; preserve).
  assert (∀ sp cands res, Preserves (apply_candidates create same update delete sp cands res)) as Hcands
    by (unfold apply_candidates; preserve).
  unfold reconcile. apply preserves_bind; [|by preserve].
  generalize 0%nat (∅ : gset string) (rows_by_key row_key existing) no_changes.
  induction specs as [|sp specs IH]; intros i seen byKey res; simpl; [apply _|].
  apply preserves_bind; [apply _|]. intros _. destruct (decide _); [apply _|].
  apply preserves_bind; [apply _|]. intros res'. apply IH.
Qed.
#[export] Instance ApplyGrants_schema r i specs : Preserves (ApplyGrants r i specs).
Proof. unfold ApplyGrants. preserve. Qed.
#[export] Instance ApplyCIGrants_schema r specs : Preserves (ApplyCIGrants r specs).
Proof. unfold ApplyCIGrants. preserve. Qed.
End apply.

#[export] Hint Opaque CreateUser UpdateUser DeleteUser SetUserGroups CreateGroup DeleteGroup insertAuditEvent
  AppendAuditEvent CreateServiceAccount EnsureCIServiceAccount UpdateServiceAccount SetServiceAccountActive
  DeleteServiceAccount CreateHost UpdateHost DeleteHost replace_tags SetHostTags TouchHostLastSeen
  NextCertificateSerial insertCertificate CreateCAKey UpdateCAKeyState AdoptCAKey createGrantTx updateGrantTx
  deleteGrantTx ensureGroupTx createCIGrantTx updateCIGrantTx deleteCIGrantTx CreateEnrollmentToken
  consume_token upsert_host OpenHostSession CloseHostSession RecordSudoEvent EnrollHost reconcile ApplyGrants
  ApplyCIGrants : typeclass_instances.
