(* ===== verification/CA.v ===== *)
(** * The certification authority (internal/ca: ca.go, softsigner.go,
    filesigner.go, keycrypt.go, keyfiles.go)

    Issuance under the policy engine, key creation, rotation, retirement and
    adoption, and the signer cache of the process ([w_signers]). *)
From S2P Require Export StoreCAKeys.

Local Open Scope string_scope.
Local Open Scope list_scope.

Definition EventCertIssued := "ca.cert_issued".
Definition EventKeyCreated := "ca.key_created".
Definition EventKeyRotated := "ca.key_rotated".
Definition EventKeyRetired := "ca.key_retired".
Definition EventKeyAdopted := "ca.key_adopted".

Definition MasterKeySize : nat := 32.

Record IssueRef := {
  ref_Actor : string; ref_UserID : option uuid; ref_ServiceAccountID : option uuid;
  ref_HostID : option uuid; ref_Context : list (string * json)
}.

Section external.
Context `{Crypto}.

Record ExternalSSHKey := {
  ext_Signer : private_key; ext_PublicKey : string; ext_Algorithm : string
}.
Record ExternalMTLSKey := {
  ext_Certificate : X509Cert; ext_PrivateKey : string; ext_CertPEM : string;
  ext_MTLSAlgorithm : string
}.
Record ExternalKeys := {
  ext_User : ExternalSSHKey; ext_Host : ExternalSSHKey; ext_MTLS : ExternalMTLSKey
}.

(** A [CA] value: what [New] sets and no operation changes. *)
Record CA := {
  ca_masterKey : string; ca_policies : gmap string Policy; ca_external : option ExternalKeys
}.

(** [sshKeyAlgorithm]: the wire type without its ssh- prefix. *)
Definition sshKeyAlgorithm (pub : PublicKey) : string := TrimPrefix (key_type pub) "ssh-".

(** [loadSSHKeyFile]; [readFile] is os.ReadFile. *)
Definition loadSSHKeyFile (readFile : string → option string) (path purpose : string)
    : result ExternalSSHKey :=
  match readFile path with
  | None => Err (ErrOther "read ca key file")
  | Some raw =>
      match parse_private raw with
      | None => Err (ErrOther "parse ca key file")
      | Some signer => Ok {|
          ext_Signer := signer;
          ext_PublicKey := TrimSpace (marshal_key (public_of signer));
          ext_Algorithm := sshKeyAlgorithm (public_of signer) |}
      end
  end.

(** [New]. *)
Definition New (masterKey : string) (policies : gmap string Policy)
    (external : option ExternalKeys) : result CA :=
  if negb (String.length masterKey =? MasterKeySize)%nat
  then Err (ErrWrap "wrong size" ErrInvalidMasterKey)
  else Ok {| ca_masterKey := masterKey; ca_policies := policies; ca_external := external |}.

Definition selfManaged (ca : CA) : bool :=
  match ca_external ca with Some _ => true | None => false end.
End external.

(** ** Keys at rest (keycrypt.go) *)
Section keycrypt.
Context `{Crypto} `{UUIDs}.

Definition newGCM (masterKey : string) : result unit :=
  if negb (String.length masterKey =? MasterKeySize)%nat
  then Err (ErrWrap "wrong size" ErrInvalidMasterKey) else Ok ().

(** nonce || ciphertext. *)
Definition encryptPrivateKey (masterKey plaintext : string) : M string :=
  lift (newGCM masterKey) ;;
  let* n := rand_next in
  let nonce := gcm_nonce n in
  ret (nonce +:+ gcm_seal masterKey nonce plaintext).

Definition decryptPrivateKey (masterKey data : string) : result string :=
  match newGCM masterKey with
  | Err e => Err e
  | Ok _ =>
      if (String.length data <? gcm_nonce_size)%nat
      then Err (ErrWrap "ciphertext too short" ErrInvalidMasterKey)
      else match gcm_open masterKey (take_str gcm_nonce_size data) (drop_str gcm_nonce_size data) with
           | Some plaintext => Ok plaintext
           | None => Err (ErrWrap "decryption failed" ErrInvalidMasterKey)
           end
  end.

(** ** Software and file signers *)
Definition NewCAKey (purpose masterKey : string) : M CAKey :=
  if negb (bool_decide (purpose = CertTypeUser)) && negb (bool_decide (purpose = CertTypeHost))
  then fail (ErrOther "unknown key purpose")
  else
    let* n := rand_next in
    let '(pub, priv) := generate_key n in
    let* encrypted := encryptPrivateKey masterKey priv in
    ret {| cakey_ID := 0%N; cakey_Purpose := purpose; cakey_Algorithm := "ed25519";
           cakey_PublicKey := pub; cakey_EncryptedPrivateKey := Some encrypted;
           cakey_State := CAKeyStateActive; cakey_CreatedAt := 0; cakey_RetiredAt := None |}.

Definition NewSoftwareSigner (k : CAKey) (masterKey : string) : result Signer :=
  match cakey_EncryptedPrivateKey k with
  | None | Some "" => Err (ErrOther "ca key has no private key")
  | Some data =>
      match decryptPrivateKey masterKey data with
      | Err e => Err (ErrWrap "ca key" e)
      | Ok pem =>
          match parse_private pem with
          | None => Err (ErrOther "parse ca key")
          | Some key => Ok {| signer_CAKeyID := cakey_ID k; signer_key := key |}
          end
      end
  end.

Definition NewFileSigner (caKeyID : uuid) (key : private_key) : Signer :=
  {| signer_CAKeyID := caKeyID; signer_key := key |}.

(** [SoftwareSigner.Sign] and [FileSigner.Sign]. *)
Definition Sign (s : Signer) (req : CertRequest) : result SSHCertificate :=
  match buildCert req with
  | Err e => Err e
  | Ok cert =>
      match SignCert (signer_key s) cert with
      | Err e => Err (ErrWrap "ca: sign" e)
      | Ok cert => Ok cert
      end
  end.
End keycrypt.

(** ** The CA operations (ca.go) *)
Section operations.
Context `{Crypto} `{UUIDs} (ca : CA).

Definition cache_signer (purpose : string) (s : Signer) : M unit :=
  modify (λ w, set_signers (<[purpose := s]> (w_signers w)) w).

Definition invalidateSigner (purpose : string) : M unit :=
  if selfManaged ca then ret ()
  else modify (λ w, set_signers (delete purpose (w_signers w)) w).

Definition first_active (keys : list CAKey) : option CAKey :=
  List.find (λ k, bool_decide (cakey_State k = CAKeyStateActive)) keys.

Definition activeSigner (purpose : string) : M Signer :=
  let* cached := gets (λ w, w_signers w !! purpose) in
  match cached with
  | Some s => ret s
  | None =>
      if selfManaged ca then fail (ErrOther "no external ca key adopted")
      else
        let* keys := ListActiveCAKeys purpose in
        match first_active keys with
        | Some k =>
            let* signer := lift (NewSoftwareSigner k (ca_masterKey ca)) in
            cache_signer purpose signer ;;
            ret signer
        | None => fail (ErrOther "no active ca key")
        end
  end.

(** The audit payload of a key event. *)
Definition key_payload (key : CAKey) (purpose : string) : json :=
  JObj [("ca_key_id", JUuid (cakey_ID key)); ("public_key", JStr (cakey_PublicKey key));
        ("purpose", JStr purpose)].

Definition createKey (purpose eventType : string) : M CAKey :=
  if selfManaged ca then fail (ErrWrap "cannot create a ca key" ErrSelfManaged)
  else
    let* key := NewCAKey purpose (ca_masterKey ca) in
    let* key := wrap "ca: persist key" (CreateCAKey key) in
    AppendAuditEvent (new_audit eventType "" (key_payload key purpose)) ;;
    invalidateSigner purpose ;;
    ret key.

(** The step of the bootstrap for one purpose. *)
Definition ensure_key (purpose : string) : M unit :=
  let* keys := ListActiveCAKeys purpose in
  match keys with
  | [] => createKey purpose EventKeyCreated ;; ret ()
  | _ => ret ()
  end.
Definition EnsureCAKeys : M unit :=
  if selfManaged ca then fail (ErrWrap "call AdoptExternalKeys" ErrSelfManaged)
  else foldM (λ _ purpose, ensure_key purpose) () [CertTypeUser; CertTypeHost].

(** A key to adopt: purpose, algorithm, public key, and the signer of an SSH key. *)
Definition adoption : Type := string * string * string * option private_key.
Definition adopt_key (item : adoption) : M unit :=
  let '(purpose, algorithm, publicKey, signer) := item in
  let* r := try (AdoptCAKey purpose algorithm publicKey) in
  match r with
  | Err e => fail (ErrWrap (if errors_Is e ErrCAKeyRetired
                            then "the mounted ca key was retired" else "adopt ca key") e)
  | Ok (key, created) =>
      match signer with
      | Some s => cache_signer purpose (NewFileSigner (cakey_ID key) s)
      | None => ret ()
      end ;;
      if negb created then ret ()
      else AppendAuditEvent (new_audit EventKeyAdopted "" (key_payload key purpose))
  end.
Definition adoptions (ext : ExternalKeys) : list adoption :=
  [(CertTypeUser, ext_Algorithm (ext_User ext), ext_PublicKey (ext_User ext),
    Some (ext_Signer (ext_User ext)));
   (CertTypeHost, ext_Algorithm (ext_Host ext), ext_PublicKey (ext_Host ext),
    Some (ext_Signer (ext_Host ext)));
   (CAPurposeMTLS, ext_MTLSAlgorithm (ext_MTLS ext), ext_CertPEM (ext_MTLS ext), None)].
Definition AdoptExternalKeys : M unit :=
  match ca_external ca with
  | None => fail (ErrOther "requires self-managed mode")
  | Some ext => foldM (λ _ item, adopt_key item) () (adoptions ext)
  end.

(** The engine reads its clock, then checks the rules. *)
Definition validate_now (requesterType : string) (req : CertRequest) : M unit :=
  let* now := time_Now in
  lift (Validate (ca_policies ca) now requesterType req).

Definition issue_record (serial : Z) (req : CertRequest) (ref : IssueRef) (s : Signer)
    : Certificate := {|
  crt_ID := 0%N; crt_Serial := serial; crt_KeyID := KeyID req; crt_CertType := CertType req;
  crt_PublicKey := match RequestKey req with Some k => TrimSpace (marshal_key k) | None => "" end;
  crt_Principals := Principals req; crt_ValidAfter := ValidAfter req;
  crt_ValidBefore := ValidBefore req; crt_CAKeyID := signer_CAKeyID s;
  crt_UserID := ref_UserID ref; crt_ServiceAccountID := ref_ServiceAccountID ref;
  crt_HostID := ref_HostID ref; crt_IssuerContext := JObj (ref_Context ref);
  crt_CreatedAt := 0 |}.

Definition issue_event (requesterType : string) (serial : Z) (req : CertRequest)
    (ref : IssueRef) (s : Signer) : AuditEvent :=
  new_audit EventCertIssued (ref_Actor ref) (JObj [
    ("ca_key_id", JUuid (signer_CAKeyID s)); ("cert_type", JStr (CertType req));
    ("context", JObj (ref_Context ref)); ("key_id", JStr (KeyID req));
    ("principals", JStrs (Principals req)); ("requester_type", JStr requesterType);
    ("serial", JNum serial); ("valid_after", JNum (ValidAfter req));
    ("valid_before", JNum (ValidBefore req))]).

Definition Issue (requesterType : string) (req : CertRequest) (ref : IssueRef)
    : M (SSHCertificate * Certificate) :=
  validate_now requesterType req ;;
  let* signer := activeSigner (CertType req) in
  let* serial := wrap "ca: allocate serial" NextCertificateSerial in
  let req := with_serial req (uint64 serial) in
  let* cert := lift (Sign signer req) in
  let* record := CreateCertificateWithAudit (issue_record serial req ref signer)
                   (issue_event requesterType serial req ref signer) in
  ret (cert, record).

Definition Rotate (purpose : string) : M CAKey :=
  if selfManaged ca then fail (ErrWrap "rotate by committing a new key file" ErrSelfManaged)
  else
    let* previous := ListActiveCAKeys purpose in
    let* newKey := createKey purpose EventKeyRotated in
    foldM (λ _ k,
      if negb (bool_decide (cakey_State k = CAKeyStateActive)) then ret ()
      else wrap "ca: set key to retiring" (UpdateCAKeyState (cakey_ID k) CAKeyStateRetiring) ;;
           ret ()) () previous ;;
    invalidateSigner purpose ;;
    ret newKey.

Definition RetireKey (id : uuid) : M unit :=
  let* key := UpdateCAKeyState id CAKeyStateRetired in
  AppendAuditEvent (new_audit EventKeyRetired "" (JObj
    [("ca_key_id", JUuid (cakey_ID key)); ("purpose", JStr (cakey_Purpose key))])) ;;
  invalidateSigner (cakey_Purpose key).

Definition bundle_line (k : CAKey) : string := TrimSpace (cakey_PublicKey k) +:+ String "010" "".
Definition Bundle (purpose : string) : M string :=
  if negb (bool_decide (purpose = CertTypeUser)) && negb (bool_decide (purpose = CertTypeHost))
  then fail (ErrOther "unknown key purpose")
  else
    let* keys := ListActiveCAKeys purpose in
    ret (foldr String.append "" (List.map bundle_line keys)).
End operations.

(** ** Lemmas *)
Section lemmas.
Context `{Crypto} `{UUIDs}.
Implicit Types w : World.

Lemma newGCM_Ok k u : newGCM k = Ok u → String.length k = MasterKeySize.
Proof. unfold newGCM. destruct (Nat.eqb_spec (String.length k) MasterKeySize); simpl; done. Qed.

(** What is encrypted under a master key decrypts under it. *)
Lemma encryptPrivateKey_Ok masterKey plaintext w data w' :
  encryptPrivateKey masterKey plaintext w = (Ok data, w') →
  decryptPrivateKey masterKey data = Ok plaintext ∧ data ≠ "" ∧
  w_db w' = w_db w ∧ w_uuid w' = w_uuid w ∧ w_signers w' = w_signers w.
Proof.
  unfold encryptPrivateKey, decryptPrivateKey, rand_next. intros Hr. run_all.
  match goal with Hg : newGCM _ = _ |- _ => rewrite Hg end.
  pose proof gcm_nonce_size_pos as Hpos. rewrite append_length, gcm_nonce_length.
  rewrite (proj2 (Nat.ltb_ge _ _)) by lia.
  rewrite <-(gcm_nonce_length (w_random w)) at 1 2.
  rewrite take_str_app, drop_str_app, gcm_open_seal. split_and!; try done.
  intros Hd. apply (f_equal String.length) in Hd.
  rewrite append_length, gcm_nonce_length in Hd. simpl in Hd. lia.
Qed.

(** A generated key can be loaded, under the id of any row that holds it. *)
Lemma NewCAKey_Ok purpose masterKey w k w' :
  NewCAKey purpose masterKey w = (Ok k, w') →
  cakey_Purpose k = purpose ∧ cakey_State k = CAKeyStateActive ∧
  w_db w' = w_db w ∧ w_uuid w' = w_uuid w ∧ w_signers w' = w_signers w ∧
  ∀ k', cakey_EncryptedPrivateKey k' = cakey_EncryptedPrivateKey k →
    cakey_PublicKey k' = cakey_PublicKey k →
    ∃ s, NewSoftwareSigner k' masterKey = Ok s ∧ signer_CAKeyID s = cakey_ID k' ∧
         marshal_key (public_of (signer_key s)) = cakey_PublicKey k'.
Proof.
  unfold NewCAKey. destruct (_ && _); [by intros ?%fail_Ok|]. unfold rand_next.
  intros Hr. run_step. simplify_eq/=.
  destruct (generate_key (w_random w)) as [pub priv] eqn:Eg. run_step.
  match goal with He : encryptPrivateKey _ _ _ = _ |- _ =>
    apply encryptPrivateKey_Ok in He as (Hd & Hne & Hdb & Hu & Hs) end.
  run_step. subst. simpl in *. split_and!; try done. intros k' Henc Hpub.
  unfold NewSoftwareSigner. rewrite Henc. destruct x as [|c x]; [done|]. rewrite Hd.
  destruct (parse_generated (w_random w)) as [key Hkey].
  pose proof (generated_public _ _ Hkey) as Hp. rewrite Eg in Hkey, Hp. simpl in *.
  rewrite Hkey. eexists. split_and!; [done..|]. simpl. congruence.
Qed.

Lemma Sign_Ok s req cert :
  Sign s req = Ok cert →
  Some (cert_Key cert) = RequestKey req ∧ cert_Serial cert = Serial req ∧
  (CertType req = CertTypeUser ∧ cert_CertType cert = UserCert ∨
   CertType req = CertTypeHost ∧ cert_CertType cert = HostCert) ∧
  cert_KeyId cert = KeyID req ∧ cert_ValidPrincipals cert = Principals req ∧
  cert_ValidAfter cert = uint64 (Unix (ValidAfter req)) ∧
  cert_ValidBefore cert = uint64 (Unix (ValidBefore req)) ∧
  cert_CriticalOptions cert = CriticalOptions req ∧ cert_Extensions cert = Extensions req ∧
  cert_SignatureKey cert = Some (public_of (signer_key s)).
Proof.
  unfold Sign. destruct (buildCert req) as [c|] eqn:Eb; [|done].
  destruct (SignCert (signer_key s) c) as [c'|] eqn:Es; [|done]. intros [= <-].
  apply buildCert_Ok in Eb as (? & ? & ? & ? & ? & ? & ? & ? & ?).
  apply SignCert_Ok in Es as (-> & -> & -> & -> & -> & -> & -> & -> & -> & ->). done.
Qed.
End lemmas.

(** ** The signer cache *)
Section cache.
Context `{Crypto} `{UUIDs} (ca : CA).
Implicit Types w : World.

(** [k] is an active row of the purpose and [s] its decrypted key. *)
Definition signs_for (db : Db) (purpose : string) (s : Signer) : Prop :=
  ∃ k, k ∈ ca_keys db ∧ cakey_Purpose k = purpose ∧ cakey_State k = CAKeyStateActive ∧
       NewSoftwareSigner k (ca_masterKey ca) = Ok s.
Definition cache_ok w : Prop :=
  ∀ purpose s, w_signers w !! purpose = Some s → signs_for (w_db w) purpose s.

Lemma first_active_spec keys k :
  first_active keys = Some k → k ∈ keys ∧ cakey_State k = CAKeyStateActive.
Proof.
  unfold first_active. intros [Hin Hs]%find_some. apply list_elem_of_In in Hin. by bool_to_prop.
Qed.

Lemma NewSoftwareSigner_id k m s : NewSoftwareSigner k m = Ok s → signer_CAKeyID s = cakey_ID k.
Proof.
  unfold NewSoftwareSigner. repeat (case_match; try done). by intros [= <-].
Qed.

(** Looking a signer up changes no table; it may fill the cache. *)
Lemma activeSigner_run purpose w r w' :
  activeSigner ca purpose w = (r, w') →
  w_db w' = w_db w ∧ w_uuid w' = w_uuid w ∧ w_audit_seq w' = w_audit_seq w ∧
  (w_signers w' = w_signers w ∧ (∀ s, r = Ok s → w_signers w !! purpose = Some s) ∨
   selfManaged ca = false ∧ ∃ s, signs_for (w_db w) purpose s ∧
     w_signers w' = <[purpose := s]> (w_signers w) ∧ r = Ok s).
Proof.
  unfold activeSigner, gets. unfold bind at 1.
  destruct (w_signers w !! purpose) as [s0|] eqn:Ec.
  { unfold ret. intros [= <- <-]. split_and!; [done..|]. left. split; [done|]. by intros s [= <-]. }
  destruct (selfManaged ca); [unfold fail; intros [= <- <-]; split_and!; [done..|]; left; done|].
  unfold bind, ListActiveCAKeys, queryAll, sql_select, stmt.
  assert (∀ w1, w_db w1 = w_db w → w_signers w1 = w_signers w → w_uuid w1 = w_uuid w →
    w_audit_seq w1 = w_audit_seq w →
    (match first_active (bundle_keys (w_db w) purpose) with
     | Some k => let* signer := lift (NewSoftwareSigner k (ca_masterKey ca)) in
                 cache_signer purpose signer ;; ret signer
     | None => fail (ErrOther "no active ca key")
     end) w1 = (r, w') →
    w_db w' = w_db w ∧ w_uuid w' = w_uuid w ∧ w_audit_seq w' = w_audit_seq w ∧
    (w_signers w' = w_signers w ∧ (∀ s, r = Ok s → None = Some s) ∨
     false = false ∧ ∃ s, signs_for (w_db w) purpose s ∧
       w_signers w' = <[purpose := s]> (w_signers w) ∧ r = Ok s)) as Hrest.
  { intros w1 Hdb Hsg Hu Ha. destruct (first_active _) as [k|] eqn:Ef.
    - apply first_active_spec in Ef as [Hin Hst]. apply bundle_keys_elem in Hin as (Hin & Hp & _).
      unfold bind, lift, cache_signer, modify, ret, fail.
      destruct (NewSoftwareSigner k (ca_masterKey ca)) as [s|e] eqn:Es; intros [= <- <-].
      + simpl. rewrite Hdb, Hsg, Hu, Ha. split_and!; [done..|]. right. split; [done|].
        exists s. split_and!; [by exists k|done..].
      + split_and!; [done..|]. by left.
    - unfold fail. intros [= <- <-]. split_and!; [done..|]. by left. }
  destruct (w_faults w) as [|[] fs]; [by apply Hrest| |by apply Hrest].
  intros [= <- <-]. split_and!; [done..|]. by left.
Qed.

Lemma activeSigner_cache purpose w r w' :
  cache_ok w → activeSigner ca purpose w = (r, w') →
  cache_ok w' ∧ ∀ s, r = Ok s → signs_for (w_db w) purpose s.
Proof.
  intros Hc Hr. apply activeSigner_run in Hr as (Hdb & _ & _ & [[Hs Hhit]|(_ & s & Hok & Hs & ->)]).
  - split; [by unfold cache_ok; rewrite Hdb, Hs|]. intros s Hrs. by apply Hc, Hhit.
  - split; [|by intros s' [= <-]]. intros p s'. rewrite Hs, Hdb.
    intros [[<- <-]|[_ Hp]]%lookup_insert_Some; [done|by apply Hc].
Qed.

(** What the next [time.Now()] returns. *)
Definition clock_reading w : Z := (w_now w + hd 0%Z (w_ticks w))%Z.

Lemma time_Now_run w r w' :
  time_Now w = (r, w') → r = Ok (clock_reading w) ∧ w_db w' = w_db w ∧
  w_uuid w' = w_uuid w ∧ w_signers w' = w_signers w ∧ w_audit_seq w' = w_audit_seq w ∧
  w_serial_seq w' = w_serial_seq w ∧ w_faults w' = w_faults w ∧
  w_now w' = clock_reading w.
Proof.
  unfold time_Now, clock_reading. destruct (w_ticks w); intros [= <- <-]; simpl; rewrite ?Z.add_0_r; done.
Qed.

Lemma validate_now_run rt req w r w' :
  validate_now ca rt req w = (r, w') →
  r = Validate (ca_policies ca) (clock_reading w) rt req ∧ w_db w' = w_db w ∧
  w_uuid w' = w_uuid w ∧ w_signers w' = w_signers w ∧ w_audit_seq w' = w_audit_seq w ∧
  w_serial_seq w' = w_serial_seq w.
Proof.
  unfold validate_now, bind. destruct (time_Now w) as [t w1] eqn:Et.
  apply time_Now_run in Et as (-> & Hdb & Hu & Hs & Ha & Hq & _).
  destruct (Validate _ _ _ _) as [[]|e]; simpl; unfold ret, fail; intros [= <- <-]; done.
Qed.

Lemma NextCertificateSerial_run w r w' :
  NextCertificateSerial w = (r, w') →
  w_db w' = w_db w ∧ w_uuid w' = w_uuid w ∧ w_signers w' = w_signers w ∧
  w_audit_seq w' = w_audit_seq w ∧ (∀ n, r = Ok n → n = w_serial_seq w).
Proof.
  unfold NextCertificateSerial, stmt.
  destruct (w_faults w) as [|[] fs]; intros [= <- <-]; simpl; split_and!; try done; congruence.
Qed.

(** Everything a successful issuance implies. *)
Lemma Issue_Ok rt req ref w cert record w' :
  Issue ca rt req ref w = (Ok (cert, record), w') →
  ∃ s serial id now,
    Validate (ca_policies ca) (clock_reading w) rt req = Ok () ∧
    (cache_ok w → signs_for (w_db w) (CertType req) s) ∧
    Sign s (with_serial req (uint64 serial)) = Ok cert ∧
    record = stored_certificate id now
      (issue_record serial (with_serial req (uint64 serial)) ref s) ∧
    certificate_ok (w_db w) record = true ∧
    certificates (w_db w') = certificates (w_db w) ++ [record] ∧
    audit_events (w_db w') = audit_events (w_db w) ++
      [stored_audit (w_audit_seq w) now
         (issue_event rt serial (with_serial req (uint64 serial)) ref s)].
Proof.
  unfold Issue. intros Hr. repeat run_step. simplify_eq.
  match goal with Hv : validate_now _ _ _ _ = _ |- _ =>
    apply validate_now_run in Hv as (Hv & Hdb & _ & Hsg & Ha & _) end.
  match goal with Hs : activeSigner _ _ _ = _ |- _ =>
    pose proof (activeSigner_run _ _ _ _ Hs) as (Hdb2 & _ & Ha2 & _);
    pose proof (λ Hc, activeSigner_cache _ _ _ _ Hc Hs) as Hsign end.
  match goal with Hn : NextCertificateSerial _ = _ |- _ =>
    apply NextCertificateSerial_run in Hn as (Hdb3 & _ & _ & Ha3 & _) end.
  match goal with Hl : Sign _ _ = _ |- _ => rename Hl into Hsi end.
  match goal with Hc : CreateCertificateWithAudit _ _ _ = _ |- _ =>
    pose proof (CreateCertificateWithAudit_Ok _ _ _ _ _ Hc) as (Hrec & Hok & Hcs & Hae) end.
  rewrite Hdb3, Hdb2, Hdb, ?Ha3, ?Ha2, ?Ha in *.
  match goal with u : unit |- _ => destruct u end.
  do 4 eexists. split_and!; [done| |exact Hsi|exact Hrec|exact Hok|exact Hcs|exact Hae].
  intros Hc. apply Hsign; [|done]. unfold cache_ok in *. by rewrite Hdb, Hsg.
Qed.

(** A failed issuance wrote nothing. *)
Lemma Issue_Err rt req ref w e w' : Issue ca rt req ref w = (Err e, w') → w_db w' = w_db w.
Proof.
  unfold Issue. intros Hr.
  apply bind_Err in Hr as [Hr|(u & w1 & Hv & Hr)]; [by apply validate_now_run in Hr as (_ & ? & _)|].
  apply validate_now_run in Hv as (_ & Hdb & _).
  apply bind_Err in Hr as [Hr|(s & w2 & Hs & Hr)];
    [apply activeSigner_run in Hr as (? & _); congruence|].
  apply activeSigner_run in Hs as (Hdb2 & _).
  apply bind_Err in Hr as [Hr|(n & w3 & Hn & Hr)].
  { unfold wrap in Hr. destruct (NextCertificateSerial w2) as [[]] eqn:En; [done|].
    apply NextCertificateSerial_run in En as (? & _). simplify_eq. congruence. }
  apply wrap_Ok, NextCertificateSerial_run in Hn as (Hdb3 & _).
  apply bind_Err in Hr as [Hr|(c & w4 & Hl & Hr)].
  { unfold lift in Hr. destruct (Sign _ _); unfold ret, fail in Hr; simplify_eq. congruence. }
  apply lift_Ok in Hl as [_ ->].
  apply bind_Err in Hr as [Hr|(rec & w5 & _ & Hr)]; [|done].
  apply transaction_Err in Hr. congruence.
Qed.

Lemma Issue_uuid rt req ref w r w' :
  Issue ca rt req ref w = (r, w') → ca_keys (w_db w') = ca_keys (w_db w).
Proof.
  destruct r as [[cert record]|e]; [|by intros ->%Issue_Err].
  unfold Issue. intros Hr. repeat run_step. simplify_eq.
  match goal with Hv : validate_now _ _ _ _ = _ |- _ =>
    apply validate_now_run in Hv as (_ & Hdb & _) end.
  match goal with Hs : activeSigner _ _ _ = _ |- _ => apply activeSigner_run in Hs as (Hdb2 & _) end.
  match goal with Hn : NextCertificateSerial _ = _ |- _ =>
    apply NextCertificateSerial_run in Hn as (Hdb3 & _) end.
  match goal with Hl : Sign _ _ = _ |- _ => rename Hl into Hsi end.
  unfold CreateCertificateWithAudit, insertCertificate in *. run_store.
  congruence.
Qed.
End cache.

(** ** Key creation, rotation and retirement *)
Section key_operations.
Context `{Crypto} `{UUIDs} (ca : CA).
Implicit Types w : World.

(** The invariant of the process: well-formed key rows, and every cached
    signer belongs to an active row of its purpose. *)
Definition ca_inv w : Prop := keys_wf w ∧ cache_ok ca w.

Lemma signs_for_mono db db' purpose s :
  (∀ k, k ∈ ca_keys db → cakey_Purpose k = purpose → cakey_State k = CAKeyStateActive →
     k ∈ ca_keys db') →
  signs_for ca db purpose s → signs_for ca db' purpose s.
Proof. intros Hm (k & Hk & Hp & Hs & Hn). exists k. auto. Qed.

Lemma invalidateSigner_run purpose w r w' :
  invalidateSigner ca purpose w = (r, w') →
  r = Ok () ∧ w_db w' = w_db w ∧ w_uuid w' = w_uuid w ∧
  w_signers w' = (if selfManaged ca then w_signers w else delete purpose (w_signers w)).
Proof.
  unfold invalidateSigner. destruct (selfManaged ca); unfold ret, modify; by intros [= <- <-].
Qed.

Lemma AppendAuditEvent_run e w r w' :
  AppendAuditEvent e w = (r, w') →
  ca_keys (w_db w') = ca_keys (w_db w) ∧ w_uuid w' = w_uuid w ∧ w_signers w' = w_signers w.
Proof.
  unfold AppendAuditEvent, insertAuditEvent, stmt.
  destruct (w_faults w) as [|[] fs]; by intros [= <- <-].
Qed.

Lemma CreateCAKey_run k w r w' :
  CreateCAKey k w = (r, w') →
  w_signers w' = w_signers w ∧
  match r with
  | Ok k' => ca_keys (w_db w') = ca_keys (w_db w) ++ [k'] ∧ w_uuid w' = (w_uuid w + 1)%N ∧
      k' = cakey_row k (if bool_decide (cakey_State k = "") then CAKeyStateActive
                        else cakey_State k) (gen_uuid (w_uuid w)) (w_now w)
  | Err _ => w_db w' = w_db w ∧ (w_uuid w ≤ w_uuid w')%N
  end.
Proof.
  unfold CreateCAKey, queryOne, sql_insert, stmt, bind, ret, fail.
  destruct (w_faults w) as [|[] fs]; simpl; intros Hr;
    repeat (case_match; simplify_eq/=); split_and!; done || lia.
Qed.

Lemma NewCAKey_Err purpose m w e w' :
  NewCAKey purpose m w = (Err e, w') →
  w_db w' = w_db w ∧ w_uuid w' = w_uuid w ∧ w_signers w' = w_signers w.
Proof.
  unfold NewCAKey. destruct (_ && _); [by intros [= <- <-]|].
  unfold bind, rand_next, encryptPrivateKey, lift, ret, fail.
  destruct (generate_key (w_random w)); simpl. unfold bind.
  destruct (newGCM m); simpl; by intros [= <- <-].
Qed.

Lemma createKey_run purpose ev w r w' :
  selfManaged ca = false → createKey ca purpose ev w = (r, w') →
  (w_uuid w ≤ w_uuid w')%N ∧
  match r with
  | Ok k => ca_keys (w_db w') = ca_keys (w_db w) ++ [k] ∧ w_uuid w' = (w_uuid w + 1)%N ∧
      cakey_ID k = gen_uuid (w_uuid w) ∧ cakey_State k = CAKeyStateActive ∧
      cakey_Purpose k = purpose ∧ w_signers w' = delete purpose (w_signers w) ∧
      ∃ s, NewSoftwareSigner k (ca_masterKey ca) = Ok s ∧
           marshal_key (public_of (signer_key s)) = cakey_PublicKey k
  | Err _ => w_signers w' = w_signers w ∧
      (ca_keys (w_db w') = ca_keys (w_db w) ∨
       ∃ k, ca_keys (w_db w') = ca_keys (w_db w) ++ [k] ∧ w_uuid w' = (w_uuid w + 1)%N ∧
            cakey_ID k = gen_uuid (w_uuid w))
  end.
Proof.
  intros Hm. unfold createKey. rewrite Hm.
  destruct (NewCAKey purpose (ca_masterKey ca) w) as [[k0|e] w1] eqn:En; unfold bind at 1;
    rewrite En; cycle 1.
  { apply NewCAKey_Err in En as (Hdb & Hu & Hs). intros [= <- <-].
    rewrite Hdb, Hu, Hs. split_and!; [lia|done|by left]. }
  apply NewCAKey_Ok in En as (Hp & Hst & Hdb & Hu & Hs & Hload).
  unfold bind at 1, wrap.
  destruct (CreateCAKey k0 w1) as [[k|e] w2] eqn:Ec; apply CreateCAKey_run in Ec as (Hs2 & Hc);
    cycle 1.
  { destruct Hc as [Hdb2 Hu2]. intros [= <- <-]. rewrite Hdb2, Hdb, Hs2, Hs.
    split_and!; [lia|done|by left]. }
  destruct Hc as (Hk & Hu2 & ->). rewrite Hst in *. simpl in *.
  unfold bind at 1. destruct (AppendAuditEvent _ w2) as [[u|e] w3] eqn:Ea;
    apply AppendAuditEvent_run in Ea as (Hk3 & Hu3 & Hs3); cycle 1.
  { intros [= <- <-]. rewrite Hk3, Hu3, Hs3, Hk, Hdb, Hs2, Hu2, Hs, Hu.
    split_and!; [lia|done|right]. eauto. }
  unfold bind at 1. destruct (invalidateSigner ca purpose w3) as [r4 w4] eqn:Ei.
  apply invalidateSigner_run in Ei as (-> & Hdb4 & Hu4 & Hs4). rewrite Hm in Hs4.
  intros [= <- <-]. rewrite Hdb4, Hu4, Hs4, Hk3, Hu3, Hs3, Hk, Hdb, Hs2, Hu2, Hs, Hu.
  split_and!; try done; [lia|].
  edestruct Hload as (s & Hn & _ & Hpub); [| |exists s; split; [exact Hn|exact Hpub]]; done.
Qed.

Lemma createKey_inv purpose ev w r w' :
  selfManaged ca = false → ca_inv w → createKey ca purpose ev w = (r, w') → ca_inv w'.
Proof.
  intros Hm [Hk Hc] Hr. apply createKey_run in Hr as [Hu Hr]; [|done].
  assert (∀ n, (w_uuid w ≤ n)%N → keys_ok (ca_keys (w_db w)) n) as Hmono.
  { intros n Hn. destruct Hk as [Hd Hdr]. split; [done|]. intros k Hin.
    destruct (Hdr k Hin) as (i & Hi & ?). exists i. split; [lia|done]. }
  destruct r as [k|e].
  - destruct Hr as (Hks & Hu' & Hid & _ & _ & Hs & _). split.
    + unfold keys_wf. rewrite Hks, Hu'. by apply keys_ok_snoc.
    + intros p s. rewrite Hs. intros [_ Hp]%lookup_delete_Some.
      eapply signs_for_mono; [|by apply Hc]. intros k' Hk' _ _. rewrite Hks. set_solver.
  - destruct Hr as [Hs [Hks|(k & Hks & Hu' & Hid)]]; split;
      try (intros p s; rewrite Hs; intros Hp; eapply signs_for_mono; [|by apply Hc];
           intros k' Hk' _ _; rewrite Hks; set_solver).
    + unfold keys_wf. rewrite Hks. by apply Hmono.
    + unfold keys_wf. rewrite Hks, Hu'. by apply keys_ok_snoc.
Qed.

(** Setting the state of one key. *)
Lemma UpdateCAKeyState_run id state w r w' :
  UpdateCAKeyState id state w = (r, w') →
  w_uuid w' = w_uuid w ∧ w_signers w' = w_signers w ∧ audit_events (w_db w') = audit_events (w_db w) ∧
  match r with
  | Ok k => ∃ k0 ret_at, k0 ∈ ca_keys (w_db w) ∧ cakey_ID k0 = id ∧
      k = cakey_with_state state (ret_at k0) k0 ∧ k ∈ ca_keys (w_db w') ∧
      (state ≠ CAKeyStateRetired → ∀ x, ret_at x = cakey_RetiredAt x) ∧
      ca_keys (w_db w') = List.map (λ k, if bool_decide (cakey_ID k = id)
        then cakey_with_state state (ret_at k) k else k) (ca_keys (w_db w))
  | Err _ => ca_keys (w_db w') = ca_keys (w_db w) ∨
      ∃ ret_at, ca_keys (w_db w') = List.map (λ k, if bool_decide (cakey_ID k = id)
        then cakey_with_state state (ret_at k) k else k) (ca_keys (w_db w))
  end.
Proof.
  unfold UpdateCAKeyState. intros Hr.
  set (ret_at := λ k, if bool_decide (state = CAKeyStateRetired) then Some (w_now w)
                      else cakey_RetiredAt k).
  destruct r as [k|e].
  - run_step. run_step. subst. destruct (List.filter _ _) as [|k0 [|]] eqn:Ef; simplify_eq/=.
    split_and!; [done..|]. exists k0, ret_at.
    assert (k0 ∈ List.filter (λ k, bool_decide (cakey_ID k = id)) (ca_keys (w_db w)))
      as [Hin Hid]%filter_bool_In by (rewrite Ef; by left).
    apply bool_decide_eq_true in Hid. split_and!; try done.
    + apply list_elem_of_fmap. exists k0. by rewrite (bool_decide_true (cakey_ID k0 = id)).
    + intros Hs y. unfold ret_at. by rewrite (bool_decide_false (state = _)).
  - apply bind_Err in Hr as [[fs ->]%sql_update_Err|(rs & w1 & Hr & Hf)];
      [split_and!; [done..|by left]|].
    apply sql_update_Ok in Hr as (fs & _ & _ & ->).
    assert (w' = set_db (put_rows ca_keys_table (List.map (λ k, if bool_decide (cakey_ID k = id)
      then cakey_with_state state (ret_at k) k else k) (ca_keys (w_db w))) (w_db w))
      (set_faults fs w)) as ->.
    { unfold fail, ret in Hf. by repeat (case_match; simplify_eq/=). }
    split_and!; [done..|]. right. by exists ret_at.
Qed.
End key_operations.

(** ** Rotation *)
Section rotation.
Context `{Crypto} `{UUIDs} (ca : CA).
Implicit Types w : World.

Definition is_active (k : CAKey) : bool := bool_decide (cakey_State k = CAKeyStateActive).
Definition demoted_ids (l : list CAKey) : list uuid := cakey_ID <$> List.filter is_active l.

(** A change of key rows that only moves the keys of [ids] to retiring. *)
Record demotion (ids : list uuid) (f : CAKey → CAKey) : Prop := {
  demotion_key : ∀ k, cakey_ID (f k) = cakey_ID k ∧ cakey_Purpose (f k) = cakey_Purpose k ∧
    cakey_PublicKey (f k) = cakey_PublicKey k;
  demotion_state : ∀ k, f k = k ∨ cakey_ID k ∈ ids ∧ cakey_State (f k) = CAKeyStateRetiring
}.

Lemma demotion_id ids : demotion ids id.
Proof. split; [done|]. intros k. by left. Qed.

Lemma demotion_compose ids f g : demotion ids f → demotion ids g → demotion ids (λ k, g (f k)).
Proof.
  intros [Hf1 Hf2] [Hg1 Hg2]. split; intros k.
  - destruct (Hf1 k) as (? & ? & ?), (Hg1 (f k)) as (? & ? & ?). split_and!; congruence.
  - destruct (Hg2 (f k)) as [->|[Hin Hs]]; [apply Hf2|]. right. split; [|done].
    destruct (Hf1 k) as (<- & _). done.
Qed.

Lemma demotion_one ids id ret_at :
  id ∈ ids → demotion ids (λ k, if bool_decide (cakey_ID k = id)
    then cakey_with_state CAKeyStateRetiring (ret_at k) k else k).
Proof.
  intros Hin. split; intros k; case_bool_decide; simpl; try done; [|by left].
  right. by subst.
Qed.

Lemma demote_run l w r w' :
  foldM (λ _ k,
      if negb (is_active k) then ret ()
      else wrap "ca: set key to retiring" (UpdateCAKeyState (cakey_ID k) CAKeyStateRetiring) ;;
           ret ()) () l w = (r, w') →
  w_uuid w' = w_uuid w ∧ w_signers w' = w_signers w ∧
  audit_events (w_db w') = audit_events (w_db w) ∧
  ∃ f, demotion (demoted_ids l) f ∧ ca_keys (w_db w') = List.map f (ca_keys (w_db w)) ∧
    (r = Ok () → ∀ k, cakey_ID k ∈ demoted_ids l → cakey_State (f k) = CAKeyStateRetiring).
Proof.
  unfold demoted_ids. revert w. induction l as [|k l IH]; intros w; simpl.
  { intros [= <- <-]. split_and!; [done..|]. exists id. split; [apply demotion_id|].
    split; [by rewrite List.map_id|]. by intros _ k ?%elem_of_nil. }
  unfold bind at 1. destruct (is_active k) eqn:Ea; simpl; [|by apply IH].
  unfold bind at 1, wrap.
  destruct (UpdateCAKeyState (cakey_ID k) CAKeyStateRetiring w) as [[k'|e] w1] eqn:Eu;
    apply UpdateCAKeyState_run in Eu as (Hu & Hs & Hau & Hr).
  - destruct Hr as (k0 & ret_at & _ & Hid & _ & _ & _ & Hks). cbn [ret].
    intros (Hu2 & Hs2 & Hau2 & f & Hf & Hks2 & Hall)%IH.
    split_and!; [congruence..|].
    assert (demotion (cakey_ID k :: (cakey_ID <$> List.filter is_active l)) f) as Hf'.
    { destruct Hf as [H1 H2]. split; [done|]. intros x. destruct (H2 x) as [|[]]; [by left|].
      right. split; [by right|done]. }
    eexists. split; [eapply demotion_compose; [apply (demotion_one _ (cakey_ID k)); by left|exact Hf']|].
    split; [rewrite Hks2, Hks, List.map_map; reflexivity|].
    intros Hok x [Hx|Hx]%elem_of_cons.
    + rewrite (bool_decide_true (cakey_ID x = cakey_ID k)) by done.
      destruct (demotion_state _ _ Hf (cakey_with_state CAKeyStateRetiring (ret_at x) x))
        as [->|[_ ->]]; done.
    + apply (Hall Hok). destruct (bool_decide _); done.
  - intros [= <- <-]. split_and!; [done..|]. destruct Hr as [Hks|(ret_at & Hks)].
    + exists id. split; [apply demotion_id|]. split; [by rewrite List.map_id|done].
    + eexists. split; [apply (demotion_one _ (cakey_ID k)); by left|]. split; [exact Hks|done].
Qed.

(** What every run of [Rotate] leaves, failures included. *)
Lemma Rotate_run purpose w r w' :
  selfManaged ca = false → ca_inv ca w → Rotate ca purpose w = (r, w') →
  ca_inv ca w' ∧
  match r with
  | Ok k => cakey_State k = CAKeyStateActive ∧ cakey_Purpose k = purpose ∧
      k ∈ ca_keys (w_db w') ∧ w_signers w' !! purpose = None ∧
      ∃ f, demotion (demoted_ids (bundle_keys (w_db w) purpose)) f ∧
        ca_keys (w_db w') = List.map f (ca_keys (w_db w)) ++ [k] ∧
        ∀ x, x ∈ ca_keys (w_db w) → cakey_Purpose x = purpose →
          cakey_State x = CAKeyStateActive → cakey_State (f x) = CAKeyStateRetiring
  | Err _ => True
  end.
Proof.
  intros Hm Hinv. unfold Rotate. rewrite Hm. unfold bind at 1.
  destruct (ListActiveCAKeys purpose w) as [[previous|e] w1] eqn:El; cycle 1.
  { intros [= <- <-]. split; [|done]. unfold ListActiveCAKeys, queryAll, sql_select, stmt in El.
    destruct (w_faults w) as [|[] fs]; by simplify_eq. }
  apply sql_select_Ok in El as (fs & -> & ->).
  assert (ca_inv ca (set_faults fs w)) as Hinv1 by done.
  unfold bind at 1. destruct (createKey ca purpose EventKeyRotated _) as [[k|e] w2] eqn:Ec;
    pose proof (createKey_inv _ _ _ _ _ _ Hm Hinv1 Ec) as Hinv2; cycle 1.
  { by intros [= <- <-]. }
  apply createKey_run in Ec as (_ & Hks & Hu & Hid & Hst & Hp & Hsg & _); [|done].
  simpl in Hks, Hu, Hid, Hsg. unfold bind at 1.
  destruct (foldM _ () (bundle_keys (w_db w) purpose) w2) as [r3 w3] eqn:Ef.
  apply demote_run in Ef as (Hu3 & Hs3 & _ & f & Hf & Hks3 & Hall).
  assert (∀ x, x ∈ ca_keys (w_db w2) → cakey_ID x ∈ demoted_ids (bundle_keys (w_db w) purpose) →
    x ∈ ca_keys (w_db w) ∧ cakey_Purpose x = purpose ∧ cakey_State x = CAKeyStateActive) as Hdem.
  { intros x Hx (y & Hid' & [Hy Hya]%filter_bool_In)%list_elem_of_fmap.
    apply bundle_keys_elem in Hy as (Hy & Hyp & _). unfold is_active in Hya. bool_to_prop.
    destruct Hinv2 as [Hwf2 _].
    assert (x = y) as ->; [|done]. eapply key_id_inj; [exact Hwf2|done| |done].
    rewrite Hks. apply elem_of_app. by left. }
  assert (f k = k) as Hfk.
  { destruct (demotion_state _ _ Hf k) as [|[Hin _]]; [done|]. exfalso.
    apply Hdem in Hin as (Hin & _); [|rewrite Hks; apply elem_of_app; right; by left].
    destruct Hinv as [[_ Hdr] _]. apply (drawn_fresh _ _ (Hdr k Hin) Hid). }
  assert (ca_inv ca w3 ∧ w_signers w3 !! purpose = None) as [Hinv3 Hnone].
  { split; [|by rewrite Hs3, Hsg, lookup_delete_eq]. destruct Hinv2 as [Hwf2 Hc2]. split.
    - unfold keys_wf. rewrite Hks3, Hu3. apply keys_ok_map; [|done]. intros x. apply Hf.
    - intros p s. rewrite Hs3. intros Hps. assert (p ≠ purpose) as Hne.
      { intros ->. by rewrite Hsg, lookup_delete_eq in Hps. }
      eapply signs_for_mono; [|by apply Hc2]. intros x Hx Hxp _. rewrite Hks3.
      apply list_elem_of_fmap. exists x. split; [|done].
      destruct (demotion_state _ _ Hf x) as [->|[Hin _]]; [done|].
      apply Hdem in Hin as (_ & ? & _); [congruence|done]. }
  destruct r3 as [[]|e]; [|by intros [= <- <-]]. unfold bind.
  destruct (invalidateSigner ca purpose w3) as [r4 w4] eqn:Ei.
  apply invalidateSigner_run in Ei as (-> & Hdb4 & Hu4 & Hs4). rewrite Hm in Hs4.
  intros [= <- <-]. split.
  { destruct Hinv3 as [Hwf3 Hc3]. split; [unfold keys_wf; by rewrite Hdb4, Hu4|].
    intros p s. rewrite Hs4, Hdb4. intros [_ Hps]%lookup_delete_Some. by apply Hc3. }
  rewrite Hdb4, Hks3, Hks, List.map_app, Hs4. simpl. rewrite Hfk.
  split_and!; try done.
  - apply elem_of_app. right. by left.
  - apply lookup_delete_eq.
  - exists f. split_and!; [done..|]. intros x Hx Hxp Hxs. apply (Hall eq_refl).
    apply list_elem_of_fmap. exists x. split; [done|]. apply filter_bool_In.
    unfold is_active. rewrite bool_decide_eq_true. split; [|done].
    apply bundle_keys_elem. split_and!; [done..|]. by rewrite Hxs.
Qed.

Lemma RetireKey_run id w u w' :
  selfManaged ca = false → ca_inv ca w → RetireKey ca id w = (Ok u, w') →
  ca_inv ca w' ∧ ∃ k, k ∈ ca_keys (w_db w) ∧ cakey_ID k = id ∧
    (∀ k', k' ∈ ca_keys (w_db w') → cakey_ID k' = id → cakey_State k' = CAKeyStateRetired) ∧
    (∀ k', k' ∈ ca_keys (w_db w) → cakey_ID k' ≠ id → k' ∈ ca_keys (w_db w')) ∧
    w_signers w' !! cakey_Purpose k = None.
Proof.
  intros Hm [Hwf Hc]. unfold RetireKey. intros Hr. run_step. run_step.
  match goal with Hu : UpdateCAKeyState _ _ _ = _ |- _ =>
    apply UpdateCAKeyState_run in Hu as (Hu & Hs & _ & k0 & ret_at & Hin & Hid & -> & _ & _ & Hks) end.
  match goal with Ha : AppendAuditEvent _ _ = _ |- _ =>
    apply AppendAuditEvent_run in Ha as (Hk2 & Hu2 & Hs2) end.
  match goal with Hi : invalidateSigner _ _ _ = _ |- _ =>
    apply invalidateSigner_run in Hi as (_ & Hdb3 & Hu3 & Hs3) end.
  rewrite Hm in Hs3. simpl in Hs3.
  assert (ca_keys (w_db w') = List.map (λ k, if bool_decide (cakey_ID k = id)
    then cakey_with_state CAKeyStateRetired (ret_at k) k else k) (ca_keys (w_db w))) as Hall
    by congruence.
  assert (w_signers w' = delete (cakey_Purpose k0) (w_signers w)) as Hsg by congruence.
  assert (∀ k', k' ∈ ca_keys (w_db w) → cakey_ID k' ≠ id → k' ∈ ca_keys (w_db w')) as Hkeep.
  { intros k' Hk' Hne. rewrite Hall. apply list_elem_of_fmap. exists k'.
    by rewrite bool_decide_false. }
  split.
  - split.
    + unfold keys_wf. rewrite Hall. replace (w_uuid w') with (w_uuid w) by congruence.
      apply keys_ok_map; [|done]. intros k. by destruct (bool_decide _).
    + intros p s. rewrite Hsg. intros [Hne Hps]%lookup_delete_Some.
      eapply signs_for_mono; [|by apply Hc]. intros k Hk Hp _. apply Hkeep; [done|].
      intros Heq. rewrite <-Hid in Heq. eapply key_id_inj in Heq; [|done..]. congruence.
  - exists k0. split_and!; [done..| |done|by rewrite Hsg, lookup_delete_eq].
    intros k'. rewrite Hall. intros (k & -> & Hk)%list_elem_of_fmap.
    destruct (bool_decide (cakey_ID k = id)) eqn:E; [done|]. bool_to_prop. done.
Qed.
End rotation.

(** ** The life of a CA process

    Steps of one managed process: issuances, bootstrap, rotations,
    retirements, the clock and the failure schedule. A retirement step is one
    that succeeded or did not touch the row; the remaining case is
    [retire_key_audit_failure_keeps_signer]. *)
Section life.
Context `{Crypto} `{UUIDs} (ca : CA).
Implicit Types w : World.

Inductive ca_step : World → World → Prop :=
| step_issue rt req ref w : ca_step w (Issue ca rt req ref w).2
| step_ensure w : ca_step w (EnsureCAKeys ca w).2
| step_rotate purpose w : ca_step w (Rotate ca purpose w).2
| step_retire id w : is_ok (RetireKey ca id w).1 = true → ca_step w (RetireKey ca id w).2
| step_time now ticks w : ca_step w (set_clock now ticks w)
| step_faults fs w : ca_step w (set_faults fs w).

Lemma keys_ok_le ks n m : (n ≤ m)%N → keys_ok ks n → keys_ok ks m.
Proof.
  intros Hle [Hd Hdr]. split; [done|]. intros k Hk. destruct (Hdr k Hk) as (i & ? & ?).
  exists i. split; [lia|done].
Qed.

Lemma Issue_inv rt req ref w : ca_inv ca w → ca_inv ca (Issue ca rt req ref w).2.
Proof.
  intros [Hwf Hc]. pose proof (Issue_uuid ca rt req ref w _ _ (surjective_pairing _)) as Hks.
  unfold Issue in *. unfold bind at 1 in Hks; unfold bind at 1.
  destruct (validate_now ca rt req w) as [r1 w1] eqn:Ev.
  apply validate_now_run in Ev as (_ & Hdb & Hu & Hs & _).
  assert (ca_inv ca w1) as Hinv1.
  { unfold ca_inv, keys_wf, cache_ok. by rewrite Hdb, Hu, Hs. }
  destruct r1 as [[]|e]; [|done]. unfold bind at 1 in Hks; unfold bind at 1.
  destruct (activeSigner ca (CertType req) w1) as [r2 w2] eqn:Es.
  pose proof (activeSigner_run _ _ _ _ _ Es) as (Hdb2 & Hu2 & _).
  apply activeSigner_cache in Es as [Hc2 _]; [|apply Hinv1].
  destruct r2 as [s|e].
  2: { split; [|done]. unfold keys_wf. simpl. rewrite Hdb2, Hu2. apply Hinv1. }
  simpl in *. match goal with |- ca_inv ca (?m w2).2 => assert (Frames m) as Hf by apply _ end.
  destruct (Hf w2) as [Hsg Hu3]. destruct Hinv1 as [Hwf1 _]. split.
  - unfold keys_wf. rewrite Hks. eapply keys_ok_le; [|exact Hwf]. etrans; [|exact Hu3]. lia.
  - intros p s'. rewrite Hsg. intros Hp. eapply signs_for_mono; [|by apply Hc2].
    intros k Hk _ _. rewrite Hks, <-Hdb, <-Hdb2. done.
Qed.

Lemma EnsureCAKeys_inv w : ca_inv ca w → ca_inv ca (EnsureCAKeys ca w).2.
Proof.
  intros Hinv. unfold EnsureCAKeys. destruct (selfManaged ca) eqn:Hm; [done|].
  generalize (@eq_refl (list string) [CertTypeUser; CertTypeHost]).
  generalize [CertTypeUser; CertTypeHost] at 1 3. intros l _. revert w Hinv.
  induction l as [|p l IH]; intros w Hinv; simpl; [done|].
  unfold bind at 1. unfold ensure_key at 1. unfold bind at 1.
  destruct (ListActiveCAKeys p w) as [[keys|e] w1] eqn:El; cycle 1.
  { unfold ListActiveCAKeys, queryAll, sql_select, stmt in El.
    destruct (w_faults w) as [|[] fs]; by simplify_eq. }
  apply sql_select_Ok in El as (fs & -> & ->).
  destruct (bundle_keys (w_db w) p); simpl; [|by apply IH].
  unfold bind. destruct (createKey ca p EventKeyCreated (set_faults fs w)) as [r w2] eqn:Ec.
  apply createKey_inv in Ec; [|done..]. destruct r; simpl; [by apply IH|done].
Qed.

Lemma ca_step_inv w w' : selfManaged ca = false → ca_step w w' → ca_inv ca w → ca_inv ca w'.
Proof.
  intros Hm Hstep Hinv. destruct Hstep.
  - by apply Issue_inv.
  - by apply EnsureCAKeys_inv.
  - by eapply Rotate_run in Hinv as [? _]; [|done|apply surjective_pairing].
  - destruct (RetireKey ca id w) as [[u|e] w'] eqn:Er; [|done].
    by apply RetireKey_run in Er as [? _].
  - done.
  - done.
Qed.
End life.

(** ** Properties *)

(** C21: issuance: success means the request passed the policy of its requester
    type at the time the CA read the clock, the certificate carries the
    request's key, KeyID, principals, options and times with the allocated
    serial, and exactly one certificate row with a serial never used before
    and one ca.cert_issued event naming that serial and actor were written.
    A failed issuance wrote nothing. *)
Theorem issue_is_policy_checked_and_recorded `{Crypto} `{UUIDs} ca rt req ref w r w'
  (Hrun : Issue ca rt req ref w = (r, w')) :
  match r with
  | Ok (cert, record) =>
      Validate (ca_policies ca) (clock_reading w) rt req = Ok () ∧
      Some (cert_Key cert) = RequestKey req ∧ cert_KeyId cert = KeyID req ∧
      cert_ValidPrincipals cert = Principals req ∧ cert_Extensions cert = Extensions req ∧
      cert_CriticalOptions cert = CriticalOptions req ∧
      cert_ValidAfter cert = uint64 (Unix (ValidAfter req)) ∧
      cert_ValidBefore cert = uint64 (Unix (ValidBefore req)) ∧
      cert_Serial cert = uint64 (crt_Serial record) ∧
      crt_KeyID record = KeyID req ∧ crt_Principals record = Principals req ∧
      crt_UserID record = ref_UserID ref ∧
      (∀ c, c ∈ certificates (w_db w) → crt_Serial c ≠ crt_Serial record) ∧
      certificates (w_db w') = certificates (w_db w) ++ [record] ∧
      ∃ e, audit_events (w_db w') = audit_events (w_db w) ++ [e] ∧
        audit_EventType e = EventCertIssued ∧ audit_Actor e = ref_Actor ref ∧
        jget "serial" (audit_Payload e) = Some (JNum (crt_Serial record))
  | Err _ => w_db w' = w_db w
  end.
Proof.
  destruct r as [[cert record]|e]; [|by eapply Issue_Err].
  apply Issue_Ok in Hrun as (s & serial & id & now & Hv & _ & Hs & -> & Hok & Hcs & Hae).
  apply Sign_Ok in Hs as (? & ? & _ & ? & ? & ? & ? & ? & ? & _). simpl in *.
  unfold certificate_ok in Hok. simpl in Hok. bool_to_prop.
  split_and!; try done; [|by eexists].
  intros c Hc Heq. match goal with Hex : existsb _ _ = false |- _ =>
    apply not_true_iff_false in Hex; apply Hex end.
  apply existsb_elem. exists c. split; [done|]. by apply Z.eqb_eq.
Qed.


(** Rotation: on success the new key is the only active key of its
    purpose, nothing is cached for the purpose (the next issuance loads the
    new key), every public key that was in the bundle is still in it, and the
    keys of other purposes are untouched. *)
Theorem rotate_leaves_one_active_key `{Crypto} `{UUIDs} ca purpose w k w'
  (Hmanaged : selfManaged ca = false)
  (Hinv : ca_inv ca w)
  (Hrun : Rotate ca purpose w = (Ok k, w')) :
  k ∈ bundle_keys (w_db w') purpose ∧
  (∀ x, x ∈ ca_keys (w_db w') → cakey_Purpose x = purpose →
     cakey_State x = CAKeyStateActive → x = k) ∧
  w_signers w' !! purpose = None ∧
  (∀ x, x ∈ bundle_keys (w_db w) purpose →
     cakey_PublicKey x ∈ (cakey_PublicKey <$> bundle_keys (w_db w') purpose)) ∧
  (∀ x, x ∈ ca_keys (w_db w) → cakey_Purpose x ≠ purpose → x ∈ ca_keys (w_db w')).
Proof.
  pose proof Hinv as [[Hnd _] _]. pose proof Hinv as [Hwf _].
  apply Rotate_run in Hrun as (_ & Hst & Hp & Hin & Hsg & f & Hf & Hks & Hdem); [|done..].
  split_and!.
  - apply bundle_keys_elem. split_and!; [done..|]. by rewrite Hst.
  - intros x. rewrite Hks. intros [Hx|Hx%list_elem_of_singleton]%elem_of_app; [|done].
    apply list_elem_of_fmap in Hx as (y & -> & Hy). intros Hxp Hxs.
    destruct (demotion_key _ _ Hf y) as (_ & Hpur & _).
    destruct (demotion_state _ _ Hf y) as [Hfy|[_ Hfy]]; [|by rewrite Hfy in Hxs].
    rewrite Hfy in Hxs. rewrite Hpur in Hxp. specialize (Hdem y Hy Hxp Hxs).
    by rewrite Hfy, Hxs in Hdem.
  - done.
  - intros x Hx. apply list_elem_of_fmap. exists (f x).
    destruct (demotion_key _ _ Hf x) as (_ & Hpur & Hpub). split; [done|].
    apply bundle_keys_elem in Hx as (Hx & Hxp & Hxs). apply bundle_keys_elem. split_and!.
    + rewrite Hks. apply elem_of_app. left. apply list_elem_of_fmap. eauto.
    + congruence.
    + destruct (demotion_state _ _ Hf x) as [->|[_ ->]]; done.
  - intros x Hx Hxp. rewrite Hks. apply elem_of_app. left. apply list_elem_of_fmap.
    exists x. split; [|done]. destruct (demotion_state _ _ Hf x) as [->|[Hid _]]; [done|].
    exfalso. apply Hxp. apply list_elem_of_fmap in Hid as (y & Hid & [Hy _]%filter_bool_In).
    apply bundle_keys_elem in Hy as (Hy & Hyp & _).
    assert (x = y) as ->; [|done]. by eapply key_id_inj.
Qed.

(** A generated CA key round-trips through its encryption at rest: loading
    the stored row under the master key it was created with succeeds, and the
    signer's public key is the one the row publishes. *)
Theorem stored_key_loads_as_published `{Crypto} `{UUIDs} purpose masterKey w k w' id state now
  (Hrun : NewCAKey purpose masterKey w = (Ok k, w')) :
  ∃ s, NewSoftwareSigner (cakey_row k state id now) masterKey = Ok s ∧
       signer_CAKeyID s = id ∧
       marshal_key (public_of (signer_key s)) = cakey_PublicKey k.
Proof.
  apply NewCAKey_Ok in Hrun as (_ & _ & _ & _ & _ & Hl).
  by apply (Hl (cakey_row k state id now)).
Qed.

(** In self-managed mode the application never creates or rotates key
    material: bootstrap, creation and rotation all fail with [ErrSelfManaged]
    before they change anything, for every purpose and every failure
    schedule. *)
Theorem self_managed_creates_no_key `{Crypto} `{UUIDs} ca purpose ev w
  (Hself : selfManaged ca = true) :
  (∃ e, EnsureCAKeys ca w = (Err e, w) ∧ errors_Is e ErrSelfManaged = true) ∧
  (∃ e, createKey ca purpose ev w = (Err e, w) ∧ errors_Is e ErrSelfManaged = true) ∧
  (∃ e, Rotate ca purpose w = (Err e, w) ∧ errors_Is e ErrSelfManaged = true).
Proof.
  unfold EnsureCAKeys, createKey, Rotate. rewrite Hself. unfold fail.
  split_and!; eexists; (split; [reflexivity|]); vm_compute; reflexivity.
Qed.

(** ** Concrete runs *)
Definition toy_master : string := "0123456789abcdef0123456789abcdef".
Definition toy_ca : @CA toy_crypto := {|
  ca_masterKey := toy_master; ca_policies := DefaultPolicies; ca_external := None |}.

(** A world whose only user key was made by the CA itself. *)
Definition toy_key_row : CAKey := {|
  cakey_ID := 30; cakey_Purpose := "user"; cakey_Algorithm := "ed25519"; cakey_PublicKey := "k";
  cakey_EncryptedPrivateKey := Some "nk"; cakey_State := CAKeyStateActive;
  cakey_CreatedAt := 0; cakey_RetiredAt := None |}.
Definition toy_ca_world : @World toy_crypto :=
  set_seqs 1 1 100 5 (toy_world (put_rows ca_keys_table [toy_key_row] toy_db)).
Definition toy_request (serial : Z) : CertRequest := with_serial example_request serial.
Definition toy_ref : IssueRef := {|
  ref_Actor := "user:alice@idp"; ref_UserID := Some 1%N; ref_ServiceAccountID := None;
  ref_HostID := None; ref_Context := [] |}.
Definition toy_issue (w : @World toy_crypto) :
    result (SSHCertificate * Certificate) * @World toy_crypto :=
  Issue (H0 := counting_uuids) toy_ca RequesterUser example_request toy_ref w.

Lemma toy_ca_inv : ca_inv (H0 := counting_uuids) toy_ca toy_ca_world.
Proof.
  split; [split; simpl|].
  - apply NoDup_singleton.
  - intros k ->%list_elem_of_singleton. by exists 30%N.
  - intros p s. simpl. rewrite lookup_empty. done.
Qed.

Lemma issue_is_policy_checked_and_recorded_witness :
  ∃ cert record w', toy_issue toy_ca_world = (Ok (cert, record), w') ∧
    cert_KeyId cert = "user:alice@idp" ∧ certificates (w_db w') = [record].
Proof.
  destruct (toy_issue toy_ca_world) as [[[cert record]|e] w'] eqn:E;
    [|vm_compute in E; discriminate E].
  exists cert, record, w'. split; [reflexivity|].
  destruct (issue_is_policy_checked_and_recorded (H0 := counting_uuids) toy_ca RequesterUser
    example_request toy_ref toy_ca_world _ _ E) as (_ & _ & Hk & _ & _ & _ & _ & _ & _ & _ & _ & _
    & _ & Hc & _).
  split; [exact Hk|exact Hc].
Defined.


Lemma rotate_leaves_one_active_key_witness :
  ∃ k w', Rotate (H0 := counting_uuids) toy_ca "user" toy_ca_world = (Ok k, w') ∧
    ∀ x, x ∈ ca_keys (w_db w') → cakey_Purpose x = "user" →
      cakey_State x = CAKeyStateActive → x = k.
Proof.
  do 2 eexists. split; [vm_compute; reflexivity|].
  eapply (rotate_leaves_one_active_key (H0 := counting_uuids) toy_ca "user" toy_ca_world);
    [reflexivity|exact toy_ca_inv|vm_compute; reflexivity].
Defined.

Lemma stored_key_loads_as_published_witness :
  ∃ k w', NewCAKey (H := toy_crypto) "host" toy_master toy_ca_world = (Ok k, w') ∧
    ∃ s : @Signer toy_crypto,
      NewSoftwareSigner (cakey_row k CAKeyStateActive 99 0) toy_master = Ok s ∧
      signer_CAKeyID s = 99%N ∧
      marshal_key (Crypto := toy_crypto) (public_of (signer_key s)) = cakey_PublicKey k.
Proof.
  do 2 eexists. split; [vm_compute; reflexivity|].
  eapply (stored_key_loads_as_published (H0 := counting_uuids) "host" toy_master toy_ca_world).
  vm_compute. reflexivity.
Defined.

Definition toy_mtls_cert : X509Cert := {|
  x509_Serial := 1; x509_CommonName := "ca"; x509_NotBefore := 0; x509_NotAfter := Hour;
  x509_IsCA := true; x509_CertSign := true; x509_ClientAuth := false; x509_ServerAuth := false;
  x509_IPAddresses := []; x509_DNSNames := []; x509_PublicKey := "m" |}.
Definition toy_self_managed : @CA toy_crypto := {|
  ca_masterKey := toy_master; ca_policies := DefaultPolicies;
  ca_external := Some (Build_ExternalKeys (H := toy_crypto)
    (Build_ExternalSSHKey (H := toy_crypto) "u" "u" "ed25519")
    (Build_ExternalSSHKey (H := toy_crypto) "h" "h" "ed25519")
    {| ext_Certificate := toy_mtls_cert; ext_PrivateKey := "m"; ext_CertPEM := "pem";
       ext_MTLSAlgorithm := "ed25519" |}) |}.

Lemma self_managed_creates_no_key_witness :
  ∃ e, Rotate (H0 := counting_uuids) toy_self_managed "user" toy_ca_world = (Err e, toy_ca_world).
Proof.
  destruct (self_managed_creates_no_key (H0 := counting_uuids) toy_self_managed "user"
    EventKeyCreated toy_ca_world eq_refl) as (_ & _ & e & He & _).
  exists e. exact He.
Defined.

(** The gap in [RetireKey]: it drops the cached signer only after the
    audit insert. When that insert fails, the call returns an error although
    the row is already retired, and the process goes on signing with the
    retired key: the next issuance succeeds under a key that is in no bundle. *)
Theorem retire_key_audit_failure_keeps_signer :
  let w1 := (toy_issue toy_ca_world).2 in                      (* the signer is cached *)
  let '(r, w2) := RetireKey toy_ca 30%N (set_faults [false; true] w1) in
  is_ok r = false ∧ bundle_keys (w_db w2) "user" = [] ∧
  ∃ cert record w3, toy_issue w2 = (Ok (cert, record), w3) ∧ crt_CAKeyID record = 30%N.
Proof.
  vm_compute. split; [reflexivity|]. split; [reflexivity|].
  do 3 eexists. split; reflexivity.
Qed.
