(* ===== verification/Auth.v ===== *)
(** * Token validation and the mapping onto users (internal/auth:
    verifier.go, gitlab.go, mapper.go)

    The OIDC library (signature, issuer, audience and expiry checks against
    the IdP's keys) is the class [OIDC]; the claims it hands over, the
    username and principal derivation, and [EnsureUser] are the code's. *)
From S2P Require Export GoDecode StoreGrants.

Local Open Scope string_scope.
Local Open Scope list_scope.

(** ** go-oidc *)
Record IDToken := {
  idt_Issuer : string; idt_Subject : string; idt_Expiry : Z; idt_Claims : json
}.

(** [IDTokenVerifier.Verify] for an issuer and an audience at a given time,
    and whether discovery of the issuer succeeds. *)
Class OIDC := {
  oidc_discover : string → bool;
  oidc_Verify : string → string → Z → string → option IDToken;
  oidc_issuer iss aud now raw t :
    oidc_Verify iss aud now raw = Some t → idt_Issuer t = iss;
  oidc_not_expired iss aud now raw t :
    oidc_Verify iss aud now raw = Some t → (now ≤ idt_Expiry t)%Z
}.

(** ** Claims of a user token *)
Record Claims := {
  claims_Issuer : string; claims_Subject : string; claims_Email : string;
  claims_PreferredUsername : string; claims_Groups : list string
}.

Definition Username (c : Claims) : string :=
  if negb (bool_decide (claims_PreferredUsername c = "")) then claims_PreferredUsername c
  else match Cut (claims_Email c) "@" with
       | Some (local, _) =>
           if negb (bool_decide (local = "")) then local else claims_Subject c
       | None => claims_Subject c
       end.

(** [Claims.Principals]. *)
Definition Claims_Principals (c : Claims) : list string :=
  let principals := [Username c] in
  if negb (bool_decide (claims_Email c = "")) && negb (bool_decide (claims_Email c = Username c))
  then principals ++ [claims_Email c] else principals.

Definition normalizeGroups (groups : list string) : list string :=
  List.filter (λ g, negb (bool_decide (g = ""))) (List.map (λ g, TrimPrefix g "/") groups).

(** ** Verifiers *)
Record Verifier := { verifier_Issuer : string; verifier_Audience : string }.

Definition DefaultCIAudience := "guided-ssh".

Record CIClaims := {
  ci_Issuer : string; ci_Subject : string; ci_ProjectPath : string;
  ci_NamespacePath : string; ci_Ref : string; ci_RefType : string;
  ci_RefProtected : bool; ci_PipelineID : string; ci_JobID : string;
  ci_Environment : string; ci_UserLogin : string; ci_ExpiresAt : Z
}.

(** [flexString.UnmarshalJSON]: a string, a number or a bool, as text (null
    decodes as the empty string). *)
Definition flexString : decoder string := λ _ v,
  match v with
  | JNull => Some ""
  | JStr s => Some s
  | JNum n => Some (number_text n)
  | JBool b => Some (if b then "true" else "false")
  | JArr _ | JObj _ => None
  end.

(** The payload struct of [CIVerifier.Verify]. *)
Record CIPayload := {
  pay_ProjectPath : string; pay_NamespacePath : string; pay_Ref : string;
  pay_RefType : string; pay_RefProtected : string; pay_PipelineID : string;
  pay_JobID : string; pay_Environment : string; pay_UserLogin : string
}.
Definition decode_ci_payload (v : json) : option CIPayload :=
  m ← struct_members v;
  project ← dec_field dec_string "project_path" "" m;
  namespace ← dec_field dec_string "namespace_path" "" m;
  ref ← dec_field dec_string "ref" "" m;
  ref_type ← dec_field dec_string "ref_type" "" m;
  protected ← dec_field flexString "ref_protected" "" m;
  pipeline ← dec_field flexString "pipeline_id" "" m;
  job ← dec_field flexString "job_id" "" m;
  environment ← dec_field dec_string "environment" "" m;
  login ← dec_field dec_string "user_login" "" m;
  Some {| pay_ProjectPath := project; pay_NamespacePath := namespace; pay_Ref := ref;
          pay_RefType := ref_type; pay_RefProtected := protected; pay_PipelineID := pipeline;
          pay_JobID := job; pay_Environment := environment; pay_UserLogin := login |}.

(** The first required claim that is empty. *)
Definition missing_claim (p : CIPayload) : option string :=
  fst <$> List.find (λ '(_, value), bool_decide (value = ""))
    [("project_path", pay_ProjectPath p); ("ref", pay_Ref p);
     ("pipeline_id", pay_PipelineID p); ("job_id", pay_JobID p)].

Section verifiers.
Context `{Crypto} `{OIDC}.

Definition invalid_token {A} (why : string) : M A := fail (ErrWrap why ErrInvalidToken).

Definition NewVerifier (issuer clientID : string) : result Verifier :=
  if oidc_discover issuer
  then Ok {| verifier_Issuer := issuer; verifier_Audience := clientID |}
  else Err (ErrOther "auth: oidc discovery").

Definition NewCIVerifier (issuer audience : string) : result Verifier :=
  if oidc_discover issuer
  then Ok {| verifier_Issuer := issuer;
             verifier_Audience := if bool_decide (audience = "") then DefaultCIAudience
                                  else audience |}
  else Err (ErrOther "auth: oidc discovery").

(** The library reads the clock for the expiry check. *)
Definition verify_token (v : Verifier) (raw : string) : M IDToken :=
  let* now := time_Now in
  match oidc_Verify (verifier_Issuer v) (verifier_Audience v) now raw with
  | Some token => ret token
  | None => invalid_token "rejected"
  end.

(** [Verifier.Verify]. *)
Definition Verify (v : Verifier) (raw : string) : M Claims :=
  let* token := verify_token v raw in
  match (m ← struct_members (idt_Claims token);
         email ← dec_field dec_string "email" "" m;
         username ← dec_field dec_string "preferred_username" "" m;
         groups ← dec_field dec_strings "groups" [] m;
         Some (email, username, groups)) with
  | None => invalid_token "decoding claims"
  | Some (email, username, groups) =>
      ret {| claims_Issuer := idt_Issuer token; claims_Subject := idt_Subject token;
             claims_Email := email; claims_PreferredUsername := username;
             claims_Groups := normalizeGroups groups |}
  end.

(** [CIVerifier.Verify]. *)
Definition VerifyCI (v : Verifier) (raw : string) : M CIClaims :=
  let* token := verify_token v raw in
  match decode_ci_payload (idt_Claims token) with
  | None => invalid_token "decoding claims"
  | Some payload =>
      match missing_claim payload with
      | Some name => invalid_token name
      | None =>
          ret {| ci_Issuer := idt_Issuer token; ci_Subject := idt_Subject token;
                 ci_ProjectPath := pay_ProjectPath payload;
                 ci_NamespacePath := pay_NamespacePath payload; ci_Ref := pay_Ref payload;
                 ci_RefType := pay_RefType payload;
                 ci_RefProtected := bool_decide (pay_RefProtected payload = "true");
                 ci_PipelineID := pay_PipelineID payload; ci_JobID := pay_JobID payload;
                 ci_Environment := pay_Environment payload;
                 ci_UserLogin := pay_UserLogin payload; ci_ExpiresAt := idt_Expiry token |}
      end
  end.
End verifiers.

(** ** The mapper *)
Section mapper.
Context `{Crypto} `{UUIDs}.

(** The group of the name, created when there is none. *)
Definition ensureGroup (issuer name : string) : M Group :=
  let* r := try (GetGroupByName issuer name) in
  match r with
  | Ok group => ret group
  | Err e =>
      if errors_Is e ErrNotFound
      then wrap "auth: creating group" (CreateGroup {|
             group_ID := 0%N; group_Issuer := issuer; group_Name := name;
             group_ExternalID := None; group_CreatedAt := 0 |})
      else fail e
  end.
Definition ensureGroups (issuer : string) (names : list string) : M (list uuid) :=
  foldM (λ ids name, let* group := ensureGroup issuer name in ret (ids ++ [group_ID group]))
    [] names.

Definition with_profile (u : User) (username email : string) (active : bool) : User := {|
  user_ID := user_ID u; user_Issuer := user_Issuer u; user_Subject := user_Subject u;
  user_Username := username; user_Email := email; user_UID := user_UID u;
  user_GID := user_GID u; user_Active := active; user_CreatedAt := user_CreatedAt u;
  user_UpdatedAt := user_UpdatedAt u |}.

(** The user row for the claims: created, updated or refused. *)
Definition ensure_account (c : Claims) : M User :=
  let* r := try (GetUserBySubject (claims_Issuer c) (claims_Subject c)) in
  match r with
  | Err e =>
      if errors_Is e ErrNotFound
      then wrap "auth: creating user" (CreateUser {|
             user_ID := 0%N; user_Issuer := claims_Issuer c; user_Subject := claims_Subject c;
             user_Username := Username c; user_Email := claims_Email c; user_UID := None;
             user_GID := None; user_Active := true; user_CreatedAt := 0; user_UpdatedAt := 0 |})
      else fail e
  | Ok user =>
      if negb (user_Active user) then fail (ErrWrap (claims_Subject c) ErrUserInactive)
      else if negb (bool_decide (user_Username user = Username c)) ||
              negb (bool_decide (user_Email user = claims_Email c))
      then wrap "auth: updating user"
             (UpdateUser (with_profile user (Username c) (claims_Email c) (user_Active user)))
      else ret user
  end.

Definition EnsureUser (c : Claims) : M User :=
  let* user := ensure_account c in
  let* groupIDs := ensureGroups (claims_Issuer c) (claims_Groups c) in
  wrap "auth: setting groups" (SetUserGroups (user_ID user) groupIDs) ;;
  ret user.
End mapper.

(** ** Lemmas on user rows *)

(** The rows with a given user id; there is at most one. *)
Definition user_rows_of (db : Db) (id : uuid) : list User :=
  List.filter (λ u, bool_decide (user_ID u = id)) (users db).
Definition users_of_subject (db : Db) (issuer subject : string) : list User :=
  List.filter (λ u, bool_decide (user_Issuer u = issuer) &&
                    bool_decide (user_Subject u = subject)) (users db).

Lemma filter_map_key {A B} `{EqDecision B} (key : A → B) (f : A → A) (j i : B) l :
  (∀ x, key (f x) = key x) →
  List.filter (λ x, bool_decide (key x = i))
    (List.map (λ x, if bool_decide (key x = j) then f x else x) l) =
  if decide (i = j) then List.map f (List.filter (λ x, bool_decide (key x = i)) l)
  else List.filter (λ x, bool_decide (key x = i)) l.
Proof.
  intros Hf. induction l as [|x l IH]; simpl; [by case_decide|].
  rewrite IH. destruct (decide (key x = j)) as [Hj|Hj].
  - rewrite (bool_decide_true (key x = j)), Hf by done.
    destruct (decide (i = j)) as [->|Hij]; repeat case_bool_decide; simpl; congruence.
  - rewrite (bool_decide_false (key x = j)) by done.
    destruct (decide (i = j)) as [->|Hij]; repeat case_bool_decide; simpl; congruence.
Qed.

Lemma filter_snoc {A} (p : A → bool) l x :
  List.filter p (l ++ [x]) = List.filter p l ++ (if p x then [x] else []).
Proof. rewrite List.filter_app. simpl. by destruct (p x). Qed.

Section lemmas.
Context `{Crypto} `{UUIDs}.
Implicit Types w : World.

(** A lookup changes nothing and tells what is there. *)
Lemma queryOne_select_run {R} (q : Db → list R) w r w' :
  queryOne (sql_select q) w = (r, w') →
  w_db w' = w_db w ∧ w_uuid w' = w_uuid w ∧ w_now w' = w_now w ∧
  match r with
  | Ok x => q (w_db w) = [x]
  | Err e => errors_Is e ErrNotFound = true → q (w_db w) = []
  end.
Proof.
  unfold queryOne, sql_select, stmt, bind, ret, fail.
  destruct (w_faults w) as [|[] fs]; [..|simpl]; simpl.
  - destruct (q (w_db w)) as [|x [|]]; intros [= <- <-]; done.
  - intros [= <- <-]; done.
  - destruct (q (w_db w)) as [|x [|]]; intros [= <- <-]; done.
Qed.

Lemma UpdateUser_Ok u w u' w' :
  UpdateUser u w = (Ok u', w') →
  ∃ old, user_rows_of (w_db w) (user_ID u) = [old] ∧ u' = user_update u (w_now w) old ∧
    users (w_db w') = List.map (λ x, if bool_decide (user_ID x = user_ID u)
                                     then user_update u (w_now w) x else x) (users (w_db w)) ∧
    groups (w_db w') = groups (w_db w) ∧ user_groups (w_db w') = user_groups (w_db w) ∧
    w_uuid w' = w_uuid w ∧ w_now w' = w_now w.
Proof.
  unfold UpdateUser. intros Hr. run_all. unfold user_rows_of.
  destruct (List.filter _ _) as [|old [|]] eqn:E; simpl in *; simplify_eq.
  by exists old.
Qed.

(** Reading the clock leaves the world at the time it returns. *)
Lemma time_Now_reads w : ∃ w1, time_Now w = (Ok (w_now w1), w1) ∧ w_db w1 = w_db w.
Proof.
  unfold time_Now. destruct (w_ticks w) as [|t ts].
  - by exists w.
  - by exists (set_clock (w_now w + t)%Z ts w).
Qed.

(** What updating one row means for each lookup by id. *)
Lemma user_rows_update db u now i :
  List.filter (λ x, bool_decide (user_ID x = i))
    (List.map (λ x, if bool_decide (user_ID x = user_ID u) then user_update u now x else x)
       (users db)) =
  if decide (i = user_ID u) then List.map (user_update u now) (user_rows_of db i)
  else user_rows_of db i.
Proof. by rewrite filter_map_key. Qed.

Lemma UpdateUser_rows u w u' w' :
  UpdateUser u w = (Ok u', w') →
  user_rows_of (w_db w') (user_ID u) = [u'] ∧
  ∀ i, i ≠ user_ID u → user_rows_of (w_db w') i = user_rows_of (w_db w) i.
Proof.
  intros (old & Hold & -> & Hus & _)%UpdateUser_Ok. unfold user_rows_of at 1 2. rewrite Hus.
  split; [|intros i Hi]; rewrite user_rows_update;
    [by rewrite decide_True, Hold by done|by rewrite decide_False].
Qed.

(** ** Groups *)

(** Distinct names per issuer; distinct, drawn ids. *)
Definition group_key (gr : Group) : string * string := (group_Issuer gr, group_Name gr).
Record groups_ok (grs : list Group) (n : N) : Prop := {
  gkeys_distinct : NoDup (group_key <$> grs);
  gids_distinct : NoDup (group_ID <$> grs);
  gids_drawn : ∀ gr, gr ∈ grs → drawn n (group_ID gr)
}.
Definition groups_wf w : Prop := groups_ok (groups (w_db w)) (w_uuid w).

Lemma groups_ok_snoc db n gr :
  group_ID gr = gen_uuid n → group_unique db gr = true → groups_ok (groups db) n →
  groups_ok (groups db ++ [gr]) (n + 1).
Proof.
  intros Hg Hun []. split.
  - apply fmap_NoDup_snoc; [done|]. intros (k & [=] & Hk)%list_elem_of_fmap.
    unfold group_unique in Hun. bool_to_prop. apply not_true_iff_false in Hun. apply Hun.
    apply existsb_elem. exists k. split; [done|]. by rewrite !bool_decide_true.
  - apply fmap_NoDup_snoc; [done|]. rewrite Hg. intros (k & Heq & Hk)%list_elem_of_fmap.
    by eapply drawn_fresh; [apply gids_drawn0|].
  - intros k [Hk|Hk%list_elem_of_singleton]%elem_of_app;
      [by apply drawn_next, gids_drawn0|subst; rewrite Hg; apply drawn_new].
Qed.

Lemma groups_ok_more grs n m : (n ≤ m)%N → groups_ok grs n → groups_ok grs m.
Proof.
  intros Hnm []. split; [done..|]. intros gr (k & ? & ?)%gids_drawn0. exists k. split; [lia|done].
Qed.

(** Statements that add no group keep the ids distinct and drawn. *)
Lemma groups_wf_frames {A} (m : M A) `{!Frames m} w r w' :
  m w = (r, w') → groups (w_db w') = groups (w_db w) → groups_wf w → groups_wf w'.
Proof.
  intros Hm Hg. unfold groups_wf. rewrite Hg. apply groups_ok_more.
  destruct (frames (m := m) w) as [_ Hu]. by rewrite Hm in Hu.
Qed.

(** What no group lookup or creation touches. *)
Definition same_accounts (db db' : Db) : Prop :=
  users db' = users db ∧ user_groups db' = user_groups db ∧
  groups db `prefix_of` groups db'.
#[export] Instance same_accounts_preorder : PreOrder same_accounts.
Proof.
  split; [done|]. intros a b c (? & ? & ?) (? & ? & ?). split_and!; [congruence..|by etrans].
Qed.

Lemma ensureGroup_Ok issuer name w gr w' :
  ensureGroup issuer name w = (Ok gr, w') →
  same_accounts (w_db w) (w_db w') ∧ gr ∈ groups (w_db w') ∧
  group_Issuer gr = issuer ∧ group_Name gr = name ∧ (groups_wf w → groups_wf w') ∧
  w_now w' = w_now w.
Proof.
  unfold ensureGroup, GetGroupByName. intros Hr. run_step. run_step.
  match goal with Hq : queryOne _ _ = _ |- _ =>
    apply queryOne_select_run in Hq as (Hdb & Hu & Hn & Hres) end.
  destruct x as [g|e].
  - run_all. rewrite Hdb. assert (gr ∈ groups_named (w_db w) issuer name) as Hin
      by (rewrite Hres; by left).
    apply filter_bool_In in Hin as [Hin Hb]. bool_to_prop. split_and!; try done.
    unfold groups_wf. by rewrite Hdb, Hu.
  - destruct (errors_Is e ErrNotFound); [|run_step]. unfold CreateGroup in *. run_all.
    rewrite Hdb, Hu in *. split_and!; try done.
    + unfold same_accounts. simpl. split_and!; [done..|by apply prefix_app_r].
    + apply elem_of_app. right. by left.
    + unfold groups_wf. simpl. by apply groups_ok_snoc.
Qed.

Lemma ensureGroups_Ok issuer names w ids w' :
  ensureGroups issuer names w = (Ok ids, w') →
  same_accounts (w_db w) (w_db w') ∧ (groups_wf w → groups_wf w') ∧ w_now w' = w_now w ∧
  Forall2 (λ name id, ∃ gr, gr ∈ groups (w_db w') ∧ group_Issuer gr = issuer ∧
             group_Name gr = name ∧ group_ID gr = id) names ids.
Proof.
  unfold ensureGroups. intros Hr.
  cut (∀ acc w, foldM (λ ids name, let* group := ensureGroup issuer name in
                         ret (ids ++ [group_ID group])) acc names w = (Ok ids, w') →
    ∃ new, ids = acc ++ new ∧ same_accounts (w_db w) (w_db w') ∧ (groups_wf w → groups_wf w') ∧
    w_now w' = w_now w ∧ Forall2 (λ name id, ∃ gr, gr ∈ groups (w_db w') ∧
      group_Issuer gr = issuer ∧ group_Name gr = name ∧ group_ID gr = id) names new).
  { intros Hcut. by destruct (Hcut [] w Hr) as (new & -> & ?). }
  clear w Hr. induction names as [|name names IH]; intros acc w Hr.
  - simpl in Hr. run_all. exists []. rewrite app_nil_r. split_and!; done || constructor.
  - simpl in Hr. run_step. run_step. run_step. subst.
    match goal with He : ensureGroup _ _ _ = _ |- _ =>
      apply ensureGroup_Ok in He as (Hs & Hin & Hi & Hn & Hwf & Hnow) end.
    match goal with Hf : foldM _ _ _ _ = _ |- _ => apply IH in Hf as (new & -> & Hs' & Hwf' & Hnow' & Hall) end.
    match goal with Hn : group_Name ?x = name |- _ => exists (group_ID x :: new) end.
    rewrite <-app_assoc. split_and!; [done|by etrans|auto|congruence|].
    constructor; [|done]. eexists. split_and!; [|done..].
    destruct Hs' as (_ & _ & Hp). by eapply elem_of_prefix.
Qed.

(** A user's memberships are the groups of these names, all of which exist. *)
Definition holds_groups (db : Db) (user : uuid) (issuer : string) (names : list string) : Prop :=
  (∀ g, member_of db user g = true ↔
     ∃ gr, gr ∈ groups db ∧ group_ID gr = g ∧ group_Issuer gr = issuer ∧ group_Name gr ∈ names) ∧
  (∀ name, name ∈ names → ∃ gr, gr ∈ groups db ∧ group_Issuer gr = issuer ∧ group_Name gr = name).

(** New groups do not change what a user holds. *)
Lemma holds_groups_more db db' user issuer names :
  NoDup (group_key <$> groups db') → groups db `prefix_of` groups db' →
  (∀ g, member_of db' user g = member_of db user g) →
  holds_groups db user issuer names → holds_groups db' user issuer names.
Proof.
  intros Hnd Hp Hm [Hin Hex]. split.
  - intros g. rewrite Hm, Hin. split.
    + intros (gr & ? & ?). exists gr. split; [|done]. by eapply elem_of_prefix.
    + intros (gr & Hgr & Hid & His & Hna). destruct (Hex _ Hna) as (gr0 & Hgr0 & His0 & Hna0).
      assert (gr0 = gr) as ->.
      { eapply key_inj; [exact Hnd|by eapply elem_of_prefix|done|]. unfold group_key. congruence. }
      by exists gr.
  - intros name (gr & ? & ?)%Hex. exists gr. split; [|done]. by eapply elem_of_prefix.
Qed.

(** The memberships after [SetUserGroups] on the ids of the named groups. *)
Lemma named_memberships issuer names ids w user u w' :
  groups_wf w →
  Forall2 (λ name id, ∃ gr, gr ∈ groups (w_db w) ∧ group_Issuer gr = issuer ∧
             group_Name gr = name ∧ group_ID gr = id) names ids →
  SetUserGroups user ids w = (Ok u, w') →
  users (w_db w') = users (w_db w) ∧ groups (w_db w') = groups (w_db w) ∧
  (∀ v g, v ≠ user → member_of (w_db w') v g = member_of (w_db w) v g) ∧
  holds_groups (w_db w') user issuer names.
Proof.
  intros Hwf Hall (_ & Hrows & Hus & Hgs & _)%SetUserGroups_Ok.
  assert (∀ g, member_of (w_db w') user g = true ↔ g ∈ ids) as Hmem.
  { intros g. rewrite member_of_spec, Hrows, elem_of_app, filter_bool_In, negb_true_iff,
      bool_decide_eq_false, list_elem_of_fmap. simpl. split; [|eauto].
    intros [[_ ?]|(g' & [=] & ?)]; [done|by subst]. }
  split_and!; [done..| |unfold holds_groups; rewrite Hgs; split].
  - intros v g Hv. apply eq_iff_eq_true. rewrite !member_of_spec, Hrows, elem_of_app,
      filter_bool_In, negb_true_iff, bool_decide_eq_false, list_elem_of_fmap. simpl.
    split; [|tauto]. by intros [[? _]|(? & [=] & _)].
  - intros g. rewrite Hmem. split.
    + intros (i & Hi)%list_elem_of_lookup.
      destruct (Forall2_lookup_r _ _ _ _ _ Hall Hi) as (name & Hn & gr & Hin & His & Hna & Hid).
      exists gr. split_and!; [done..|]. rewrite Hna. by eapply list_elem_of_lookup_2.
    + intros (gr & Hgr & <- & His & (i & Hi)%list_elem_of_lookup).
      destruct (Forall2_lookup_l _ _ _ _ _ Hall Hi) as (id & Hid & gr' & Hin & His' & Hna & <-).
      assert (gr' = gr) as ->.
      { eapply key_inj; [exact (gkeys_distinct _ _ Hwf)|done..|]. unfold group_key. congruence. }
      by eapply list_elem_of_lookup_2.
  - intros name (i & Hi)%list_elem_of_lookup.
    destruct (Forall2_lookup_l _ _ _ _ _ Hall Hi) as (id & Hid & gr' & Hin & His' & Hna & <-).
    by exists gr'.
Qed.

(** Distinct group ids need distinct names. *)
Lemma named_ids_distinct issuer names ids w :
  groups_wf w → NoDup ids →
  Forall2 (λ name id, ∃ gr, gr ∈ groups (w_db w) ∧ group_Issuer gr = issuer ∧
             group_Name gr = name ∧ group_ID gr = id) names ids →
  NoDup names.
Proof.
  intros Hwf Hnd Hall. apply NoDup_alt. intros i j name Hi Hj.
  destruct (Forall2_lookup_l _ _ _ _ _ Hall Hi) as (id & Hid & g & Hg & ? & ? & <-).
  destruct (Forall2_lookup_l _ _ _ _ _ Hall Hj) as (id' & Hid' & g' & Hg' & ? & ? & <-).
  assert (g = g') as ->.
  { eapply key_inj; [exact (gkeys_distinct _ _ Hwf)|done..|]. unfold group_key. congruence. }
  by eapply NoDup_lookup.
Qed.

(** ** Users *)

(** Distinct, drawn user ids. *)
Record users_ok (us : list User) (n : N) : Prop := {
  uids_distinct : NoDup (user_ID <$> us);
  uids_drawn : ∀ u, u ∈ us → drawn n (user_ID u)
}.
Definition users_wf w : Prop := users_ok (users (w_db w)) (w_uuid w).

Lemma user_rows_unique us u :
  NoDup (user_ID <$> us) → u ∈ us → List.filter (λ x, bool_decide (user_ID x = user_ID u)) us = [u].
Proof.
  induction us as [|x us IH]; simpl; [by intros _ ?%elem_of_nil|].
  intros [Hx Hnd]%NoDup_cons [->|Hu]%elem_of_cons.
  - rewrite bool_decide_true by done. f_equal. apply filter_false. intros y Hy.
    apply bool_decide_eq_false. intros Heq. apply Hx, list_elem_of_fmap. by exists y.
  - rewrite bool_decide_false; [by apply IH|]. intros Heq. apply Hx, list_elem_of_fmap. by exists u.
Qed.

(** The account of a token: one row, with the token's profile, active; no
    other row, group or membership changed. *)
Lemma ensure_account_Ok c w u w' :
  users_wf w → ensure_account c w = (Ok u, w') →
  user_Issuer u = claims_Issuer c ∧ user_Subject u = claims_Subject c ∧
  user_Username u = Username c ∧ user_Email u = claims_Email c ∧ user_Active u = true ∧
  user_rows_of (w_db w') (user_ID u) = [u] ∧
  (∀ i, i ≠ user_ID u → user_rows_of (w_db w') i = user_rows_of (w_db w) i) ∧
  groups (w_db w') = groups (w_db w) ∧ user_groups (w_db w') = user_groups (w_db w) ∧
  (w_uuid w ≤ w_uuid w')%N.
Proof.
  intros Hwf Hr. unfold ensure_account, GetUserBySubject in Hr. run_step. run_step.
  match goal with Hq : queryOne _ _ = _ |- _ =>
    apply queryOne_select_run in Hq as (Hdb & Hu & Hn & Hres) end.
  destruct x as [old|e].
  - assert (old ∈ users (w_db w) ∧ user_Issuer old = claims_Issuer c ∧
            user_Subject old = claims_Subject c) as (Hin & Hiss & Hsub).
    { assert (old ∈ [old]) as Ho by (by left). rewrite <-Hres in Ho.
      apply filter_bool_In in Ho as [? Ho]. by bool_to_prop. }
    destruct (user_Active old) eqn:Ea; simpl in *; [|run_step].
    pose proof (user_rows_unique _ _ (uids_distinct _ _ Hwf) Hin) as Hrow.
    destruct (negb _ || negb _) eqn:Eq.
    + run_step. match goal with Hp : UpdateUser _ _ = _ |- _ =>
        pose proof (UpdateUser_rows _ _ _ _ Hp) as [Hr1 Hr2];
        apply UpdateUser_Ok in Hp as (old' & Ho & -> & _ & Hg & Hug & Hu' & _) end.
      simpl in *. rewrite Hdb in *. unfold user_rows_of in Ho. rewrite Hrow in Ho.
      simplify_eq. split_and!; [done..|lia].
    + run_step. simplify_eq. bool_to_prop. rewrite Hdb. split_and!; [done..|lia].
  - destruct (errors_Is e ErrNotFound); [|run_step]. unfold CreateUser in *. run_all.
    unfold user_rows_of. simpl. rewrite Hdb, Hu in *. split_and!; [done..| | |done|done|lia].
    + rewrite filter_snoc, filter_false; [simpl; by rewrite bool_decide_true|].
      intros y Hy. apply bool_decide_eq_false, drawn_fresh, (uids_drawn _ _ Hwf _ Hy).
    + intros i Hi. rewrite filter_snoc. simpl. rewrite bool_decide_false by done.
      by rewrite app_nil_r.
Qed.
End lemmas.

(** ** [EnsureUser] *)
Lemma EnsureUser_Ok `{Crypto} `{UUIDs} c w u w' :
  users_wf w → groups_wf w → EnsureUser c w = (Ok u, w') →
  user_Issuer u = claims_Issuer c ∧ user_Subject u = claims_Subject c ∧
  user_Username u = Username c ∧ user_Email u = claims_Email c ∧ user_Active u = true ∧
  user_rows_of (w_db w') (user_ID u) = [u] ∧
  NoDup (claims_Groups c) ∧
  holds_groups (w_db w') (user_ID u) (claims_Issuer c) (claims_Groups c) ∧
  (∀ i, i ≠ user_ID u → user_rows_of (w_db w') i = user_rows_of (w_db w) i ∧
     ∀ g, member_of (w_db w') i g = member_of (w_db w) i g).
Proof.
  intros Husers Hgroups Hrun.   unfold EnsureUser in Hrun. repeat run_step. simplify_eq.
  match goal with Ha : ensure_account _ _ = _ |- _ =>
    apply ensure_account_Ok in Ha as (? & ? & ? & ? & ? & Hrow & Hothers & Hg & Hm & Hle); [|done] end.
  match goal with He : ensureGroups _ _ ?w1 = (_, ?w2) |- _ =>
    assert (groups_wf w1) as Hwf1 by (unfold groups_wf; rewrite Hg; by eapply groups_ok_more);
    apply ensureGroups_Ok in He as ((Hus & Hug & _) & Hwf2 & _ & Hall) end.
  match goal with Hs : SetUserGroups _ _ _ = _ |- _ =>
    pose proof (SetUserGroups_Ok _ _ _ _ _ Hs) as [Hnd _];
    eapply named_memberships in Hs as (Hus' & Hg' & Hmem & Hholds); [|by auto|done] end.
  split_and!; try done.
  - unfold user_rows_of in *. by rewrite Hus', Hus.
  - eapply named_ids_distinct; [by apply Hwf2|done..].
  - intros i Hi. split.
    + unfold user_rows_of in *. rewrite Hus', Hus. by apply Hothers.
    + intros g. rewrite Hmem by done. unfold member_of. by rewrite Hug, Hm.
Qed.

Lemma EnsureUser_inactive `{Crypto} `{UUIDs} c w r w' account
  (Haccount : users_of_subject (w_db w) (claims_Issuer c) (claims_Subject c) = [account])
  (Hinactive : user_Active account = false)
  (Hrun : EnsureUser c w = (r, w')) :
  w_db w' = w_db w ∧ ∃ e, r = Err e ∧ (w_faults w = [] → errors_Is e ErrUserInactive = true).
Proof.
  unfold EnsureUser, bind at 1, ensure_account, bind at 1, try, GetUserBySubject in Hrun.
  destruct (queryOne _ w) as [q w1] eqn:Eq.
  pose proof (queryOne_select_run _ _ _ _ Eq) as (Hdb & _ & _ & Hres).
  unfold users_of_subject in Haccount. destruct q as [x|e].
  - rewrite Haccount in Hres. simplify_eq. rewrite Hinactive in Hrun. simpl in Hrun.
    unfold fail in Hrun. simplify_eq. split; [done|]. eexists. split; [done|]. intros _. done.
  - destruct (errors_Is e ErrNotFound) eqn:Ee; [by rewrite Hres in Haccount|].
    unfold fail in Hrun. simplify_eq. split; [done|]. exists e. split; [done|]. intros Hf.
    unfold queryOne, bind, sql_select in Eq. rewrite stmt_nofault in Eq by done.
    simpl in Eq. by rewrite Haccount in Eq.
Qed.

(** ** Properties *)

(** C31: [EnsureUser] maps a valid token onto exactly one account: on success
    the account row has the token's issuer, subject, username and email and is
    active, its memberships are exactly the token's groups (which therefore
    have to be distinct), each of them an existing or new group of the token's
    issuer, and the rows and memberships of every other user are unchanged. *)
Theorem ensure_user_maps_token `{Crypto} `{UUIDs} c w u w'
  (Husers : users_wf w) (Hgroups : groups_wf w) (Hrun : EnsureUser c w = (Ok u, w')) :
  user_Issuer u = claims_Issuer c ∧ user_Subject u = claims_Subject c ∧
  user_Username u = Username c ∧ user_Email u = claims_Email c ∧ user_Active u = true ∧
  user_rows_of (w_db w') (user_ID u) = [u] ∧
  NoDup (claims_Groups c) ∧
  holds_groups (w_db w') (user_ID u) (claims_Issuer c) (claims_Groups c) ∧
  (∀ i, i ≠ user_ID u → user_rows_of (w_db w') i = user_rows_of (w_db w) i ∧
     ∀ g, member_of (w_db w') i g = member_of (w_db w) i g).
Proof. by apply EnsureUser_Ok. Qed.

(** The kill switch for users: when the account of the token's subject is
    deactivated, [EnsureUser] fails and writes nothing, so neither the flag
    nor the memberships come back; unless the database itself fails, the error
    is [ErrUserInactive]. *)
Theorem inactive_user_refused `{Crypto} `{UUIDs} c w r w' account
  (Haccount : users_of_subject (w_db w) (claims_Issuer c) (claims_Subject c) = [account])
  (Hinactive : user_Active account = false)
  (Hrun : EnsureUser c w = (r, w')) :
  w_db w' = w_db w ∧ ∃ e, r = Err e ∧ (w_faults w = [] → errors_Is e ErrUserInactive = true).
Proof. by eapply EnsureUser_inactive. Qed.

(** A job token that [CIVerifier.Verify] accepts was issued by the
    configured issuer, has not expired at the time of the check, and carries
    every claim the certificate identity is built from; validation never
    touches the database and fails only with [ErrInvalidToken]. *)
Theorem ci_token_claims_complete `{Crypto} `{OIDC} v raw w r w'
  (Hrun : VerifyCI v raw w = (r, w')) :
  w_db w' = w_db w ∧
  match r with
  | Ok c => ci_Issuer c = verifier_Issuer v ∧ ci_ProjectPath c ≠ "" ∧ ci_Ref c ≠ "" ∧
            ci_PipelineID c ≠ "" ∧ ci_JobID c ≠ "" ∧ (w_now w' ≤ ci_ExpiresAt c)%Z
  | Err e => errors_Is e ErrInvalidToken = true
  end.
Proof.
  unfold VerifyCI, verify_token, bind in Hrun.
  destruct (time_Now_reads w) as (w1 & Ht & Hdb). rewrite Ht in Hrun.
  destruct (oidc_Verify _ _ _ raw) as [t|] eqn:Ev; unfold ret, invalid_token, fail in Hrun;
    [|by simplify_eq].
  pose proof (oidc_issuer _ _ _ _ _ Ev) as Hiss. pose proof (oidc_not_expired _ _ _ _ _ Ev) as Hexp.
  destruct (decode_ci_payload _) as [pay|]; [|by simplify_eq].
  unfold missing_claim in Hrun. simpl in Hrun.
  repeat (case_bool_decide; [by simplify_eq/=|]). simplify_eq/=. by split_and!.
Qed.

(** ** Concrete runs *)

(** A toy IdP: a raw token is its subject, valid for an hour; an empty one is
    rejected. *)
Program Definition toy_oidc : OIDC := {|
  oidc_discover _ := true;
  oidc_Verify iss aud now raw :=
    if bool_decide (raw = "") then None
    else Some {| idt_Issuer := iss; idt_Subject := raw; idt_Expiry := (now + Hour)%Z;
      idt_Claims := JObj [("email", JStr (raw +:+ "@example.org")); ("groups", JStrs ["/dev"; ""]);
        ("Project_Path", JStr "infra/app"); ("ref", JStr "release/1"); ("ref_protected", JBool true);
        ("pipeline_id", JNum 7); ("job_id", JStr "8"); ("environment", JNull)] |}
|}.
Next Obligation. intros iss aud now raw t Ht. simpl in Ht. case_bool_decide; by simplify_eq. Qed.
Next Obligation.
  intros iss aud now raw t Ht. simpl in Ht. case_bool_decide; simplify_eq/=.
  unfold Hour, Minute, Second. lia.
Qed.

Definition toy_verifier : Verifier := {| verifier_Issuer := "idp"; verifier_Audience := "gssh" |}.
Definition toy_claims : Claims := {|
  claims_Issuer := "idp"; claims_Subject := "alice"; claims_Email := "alice@example.org";
  claims_PreferredUsername := ""; claims_Groups := ["ops"; "new"] |}.

Example toy_verify : (Verify (H := toy_crypto) (H0 := toy_oidc) toy_verifier "alice" (toy_world toy_db)).1 =
  Ok {| claims_Issuer := "idp"; claims_Subject := "alice"; claims_Email := "alice@example.org";
        claims_PreferredUsername := ""; claims_Groups := ["dev"] |}.
Proof. vm_compute. reflexivity. Qed.

Lemma toy_users_wf : users_wf (H0 := counting_uuids) (toy_world toy_db).
Proof.
  split; simpl.
  - apply (bool_decide_unpack _). vm_compute. done.
  - intros u Hu. exists (user_ID u). split; [|done].
    repeat (apply elem_of_cons in Hu as [->|Hu]; [done|]). by apply elem_of_nil in Hu.
Qed.
Lemma toy_groups_wf : groups_wf (H0 := counting_uuids) (toy_world toy_db).
Proof.
  split; simpl.
  - apply (bool_decide_unpack _). vm_compute. done.
  - apply (bool_decide_unpack _). vm_compute. done.
  - intros g Hg. exists (group_ID g). split; [|done].
    repeat (apply elem_of_cons in Hg as [->|Hg]; [done|]). by apply elem_of_nil in Hg.
Qed.

Lemma ensure_user_maps_token_witness :
  ∃ u w', EnsureUser (H0 := counting_uuids) toy_claims (toy_world toy_db) = (Ok u, w') ∧
    user_Username u = "alice" ∧
    ∃ gr, gr ∈ groups (w_db w') ∧ group_Issuer gr = "idp" ∧ group_Name gr = "new".
Proof.
  destruct (EnsureUser (H0 := counting_uuids) toy_claims (toy_world toy_db)) as [[u|e] w'] eqn:E;
    [|vm_compute in E; discriminate E].
  exists u, w'. split; [reflexivity|].
  destruct (ensure_user_maps_token (H0 := counting_uuids) toy_claims (toy_world toy_db) u w'
    toy_users_wf toy_groups_wf E) as (_ & _ & Hu & _ & _ & _ & _ & [_ Hex] & _).
  split; [exact Hu|]. apply (Hex "new"). right. left.
Defined.

Definition toy_inactive_world : @World toy_crypto :=
  toy_world (put_rows users_table [with_profile (toy_user 1 "alice") "alice" "" false] toy_db).

Lemma inactive_user_refused_witness :
  ∃ e w', EnsureUser (H0 := counting_uuids) toy_claims toy_inactive_world = (Err e, w') ∧
    w_db w' = w_db toy_inactive_world ∧ errors_Is e ErrUserInactive = true.
Proof.
  destruct (EnsureUser (H0 := counting_uuids) toy_claims toy_inactive_world) as [r w'] eqn:E.
  destruct (inactive_user_refused (H0 := counting_uuids) toy_claims toy_inactive_world r w'
    (with_profile (toy_user 1 "alice") "alice" "" false) eq_refl eq_refl E) as [Hdb (e & -> & He)].
  exists e, w'. split; [reflexivity|]. split; [exact Hdb|exact (He eq_refl)].
Defined.

Lemma ci_token_claims_complete_witness :
  ∃ c w', VerifyCI (H := toy_crypto) (H0 := toy_oidc) toy_verifier "job" (toy_world toy_db) =
      (Ok c, w') ∧ ci_Issuer c = "idp" ∧ ci_ProjectPath c = "infra/app" ∧ ci_PipelineID c = "7".
Proof.
  destruct (VerifyCI (H := toy_crypto) (H0 := toy_oidc) toy_verifier "job" (toy_world toy_db))
    as [[c|e] w'] eqn:E; [|vm_compute in E; discriminate E].
  exists c, w'. split; [reflexivity|].
  destruct (ci_token_claims_complete (H0 := toy_oidc) toy_verifier "job" (toy_world toy_db)
    (Ok c) w' E) as (_ & Hi & _).
  split; [exact Hi|]. vm_compute in E. injection E as <- _. split; reflexivity.
Defined.
