(* ===== verification/GroupSync.v ===== *)
(** * The group sync (internal/auth: sync.go, keycloak.go)

    One reconciliation pass of the local users against the IdP's directory,
    and the paging through Keycloak's admin API. *)
From S2P Require Export Auth.

Local Open Scope string_scope.
Local Open Scope list_scope.

Definition EventUserDeactivated := "auth.user_deactivated".
Definition EventUserReactivated := "auth.user_reactivated".

Record DirectoryUser := {
  du_Subject : string; du_Username : string; du_Email : string;
  du_Groups : list string; du_Active : bool
}.

(** A directory: its issuer and what it answers at a point in time. *)
Record DirectorySource := {
  source_Issuer : string;
  source_Users : Z → result (list DirectoryUser)
}.

(** ** Keycloak *)
Definition keycloakPageSize : nat := 100.

Record keycloakUser := {
  kc_ID : string; kc_Username : string; kc_Email : string; kc_Enabled : bool
}.

(** The admin API: a page of users (first, max) and the groups of a user. *)
Record KeycloakAPI := {
  api_users : nat → nat → result (list keycloakUser);
  api_groups : string → result (list string)
}.

Definition directory_user (ku : keycloakUser) (names : list string) : DirectoryUser := {|
  du_Subject := kc_ID ku; du_Username := kc_Username ku; du_Email := kc_Email ku;
  du_Groups := names; du_Active := kc_Enabled ku |}.

(** The inner loop: the groups of every user of a page. *)
Fixpoint page_users (api : KeycloakAPI) (page : list keycloakUser) : result (list DirectoryUser) :=
  match page with
  | [] => Ok []
  | ku :: page =>
      match api_groups api (kc_ID ku) with
      | Err e => Err e
      | Ok names =>
          match page_users api page with
          | Err e => Err e
          | Ok out => Ok (directory_user ku names :: out)
          end
      end
  end.

(** The outer loop, from an offset on; [None] is out of fuel. *)
Fixpoint users_from (api : KeycloakAPI) (fuel first : nat) (out : list DirectoryUser)
    : option (result (list DirectoryUser)) :=
  match fuel with
  | O => None
  | S fuel =>
      match api_users api first keycloakPageSize with
      | Err e => Some (Err e)
      | Ok page =>
          match page_users api page with
          | Err e => Some (Err e)
          | Ok us =>
              if (List.length page <? keycloakPageSize)%nat then Some (Ok (out ++ us))
              else users_from api fuel (first + keycloakPageSize) (out ++ us)
          end
      end
  end.

(** [KeycloakSource.Users]. *)
Definition Users (api : KeycloakAPI) (fuel : nat) : option (result (list DirectoryUser)) :=
  users_from api fuel 0 [].

(** ** The syncer *)
Section syncer.
Context `{Crypto} `{UUIDs} (source : DirectorySource).

Definition sync_audit (eventType : string) (user : User) : M unit :=
  AppendAuditEvent (new_audit eventType "group-sync" (JObj [
    ("issuer", JStr (user_Issuer user)); ("subject", JStr (user_Subject user));
    ("user_id", JNum (Z.of_N (user_ID user)))])).

Definition deactivate (user : User) : M unit :=
  if negb (user_Active user) then ret ()
  else
    let user := with_profile user (user_Username user) (user_Email user) false in
    wrap "auth: deactivating user" (UpdateUser user) ;;
    wrap "auth: revoking groups" (SetUserGroups (user_ID user) []) ;;
    sync_audit EventUserDeactivated user.

Definition nonempty_or (new old : string) : string :=
  if negb (bool_decide (new = "")) then new else old.

Definition reconcile_user (user : User) (du : DirectoryUser) : M unit :=
  let reactivated := negb (user_Active user) in
  let username := nonempty_or (du_Username du) (user_Username user) in
  let email := nonempty_or (du_Email du) (user_Email user) in
  (if reactivated || negb (bool_decide (user_Username user = username)) ||
      negb (bool_decide (user_Email user = email))
   then wrap "auth: updating user" (UpdateUser (with_profile user username email true)) ;; ret ()
   else ret ()) ;;
  let* groupIDs := ensureGroups (user_Issuer user) (normalizeGroups (du_Groups du)) in
  wrap "auth: setting groups" (SetUserGroups (user_ID user) groupIDs) ;;
  if reactivated then sync_audit EventUserReactivated user else ret ().

(** Of several entries with one subject the last one counts. *)
Definition bySubject (directory : list DirectoryUser) : gmap string DirectoryUser :=
  foldl (λ m du, <[du_Subject du := du]> m) ∅ directory.

Definition sync_user (dir : gmap string DirectoryUser) (user : User) : M unit :=
  if negb (bool_decide (user_Issuer user = source_Issuer source)) then ret ()
  else match dir !! user_Subject user with
       | None => deactivate user
       | Some du => if negb (du_Active du) then deactivate user else reconcile_user user du
       end.

Definition SyncOnce : M unit :=
  let* now := gets w_now in
  let* directory := wrap "auth: loading idp users" (lift (source_Users source now)) in
  let* users := wrap "auth: loading local users" ListUsers in
  foldM (λ _ user, sync_user (bySubject directory) user) () users.
End syncer.

(** ** Paging *)
Section paging.
Context (api : KeycloakAPI) (realm : list keycloakUser) (groups_of : keycloakUser → list string).
(** The documented behaviour of the admin API: a window of the realm's users. *)
Hypothesis api_users_window : ∀ first, api_users api first keycloakPageSize =
  Ok (take keycloakPageSize (drop first realm)).
Hypothesis api_groups_of : ∀ ku, ku ∈ realm → api_groups api (kc_ID ku) = Ok (groups_of ku).

Lemma page_users_all page :
  (∀ ku, ku ∈ page → ku ∈ realm) →
  page_users api page = Ok (List.map (λ ku, directory_user ku (groups_of ku)) page).
Proof.
  induction page as [|ku page IH]; simpl; [done|]. intros Hin.
  rewrite api_groups_of by set_solver. rewrite IH by set_solver. done.
Qed.

Lemma users_from_all fuel first out :
  (List.length (drop first realm) < fuel * keycloakPageSize)%nat →
  users_from api fuel first out =
  Some (Ok (out ++ List.map (λ ku, directory_user ku (groups_of ku)) (drop first realm))).
Proof.
  revert first out. induction fuel as [|fuel IH]; intros first out Hf; [simpl in Hf; lia|].
  cbn [users_from]. rewrite api_users_window, page_users_all.
  2: { intros ku [i [Hi _]%lookup_take_Some]%list_elem_of_lookup.
       rewrite lookup_drop in Hi. by eapply list_elem_of_lookup_2. }
  rewrite length_take. case_match eqn:E.
  - apply Nat.ltb_lt in E. rewrite take_ge by lia. done.
  - apply Nat.ltb_ge in E. rewrite IH.
    + rewrite <-app_assoc. do 3 f_equal. rewrite !(λ l, eq_refl : List.map _ l = _ <$> l).
      rewrite <-drop_drop, <-fmap_app, take_drop. done.
    + rewrite <-drop_drop, length_drop. lia.
Qed.
End paging.

(** ** One pass of the sync *)
Section pass.
Context `{Crypto} `{UUIDs} (source : DirectorySource).
Implicit Types w : World.

(** A step that concerns one user: the rows and memberships of all others
    stay, groups are only added. *)
Definition only_user (id : uuid) (db db' : Db) : Prop :=
  (∀ i, i ≠ id → user_rows_of db' i = user_rows_of db i ∧
     ∀ g, member_of db' i g = member_of db i g) ∧
  groups db `prefix_of` groups db'.

(** What the pass owes a listed user. *)
Definition synced (dir : gmap string DirectoryUser) (u : User) (db db' : Db) : Prop :=
  if bool_decide (user_Issuer u = source_Issuer source) then
    match List.filter du_Active (option_list (dir !! user_Subject u)) with
    | [] => ∃ u', user_rows_of db' (user_ID u) = [u'] ∧ user_Active u' = false ∧
              (user_Active u = true → ∀ g, member_of db' (user_ID u) g = false)
    | du :: _ => ∃ u', user_rows_of db' (user_ID u) = [u'] ∧ user_Active u' = true ∧
              user_Username u' = nonempty_or (du_Username du) (user_Username u) ∧
              user_Email u' = nonempty_or (du_Email du) (user_Email u) ∧
              holds_groups db' (user_ID u) (user_Issuer u) (normalizeGroups (du_Groups du))
    end
  else user_rows_of db' (user_ID u) = [u] ∧
       ∀ g, member_of db' (user_ID u) g = member_of db (user_ID u) g.

Lemma audit_append_db e w u w' :
  AppendAuditEvent e w = (Ok u, w') →
  users (w_db w') = users (w_db w) ∧ groups (w_db w') = groups (w_db w) ∧
  user_groups (w_db w') = user_groups (w_db w) ∧ w_uuid w' = w_uuid w.
Proof. by intros (fs & ->)%insertAuditEvent_Ok. Qed.

#[export] Instance UpdateUser_frames u : Frames (UpdateUser u).
Proof. unfold UpdateUser. apply _. Qed.
#[export] Instance SetUserGroups_frames u ids : Frames (SetUserGroups u ids).
Proof. unfold SetUserGroups. apply _. Qed.
#[export] Instance AppendAuditEvent_frames e : Frames (AppendAuditEvent e).
Proof. unfold AppendAuditEvent. apply _. Qed.

(** Resolving a user's groups and setting them. *)
Lemma set_named_groups id issuer names ids w w1 r w2 :
  groups_wf w → ensureGroups issuer names w = (Ok ids, w1) →
  SetUserGroups id ids w1 = (Ok r, w2) →
  groups_wf w2 ∧ users (w_db w2) = users (w_db w) ∧
  (∀ i g, i ≠ id → member_of (w_db w2) i g = member_of (w_db w) i g) ∧
  groups (w_db w) `prefix_of` groups (w_db w2) ∧
  holds_groups (w_db w2) id issuer names.
Proof.
  intros Hwf ((Hus & Hug & Hp) & Hwf1 & _ & Hall)%ensureGroups_Ok Hs. specialize (Hwf1 Hwf).
  destruct (named_memberships _ _ _ _ _ _ _ Hwf1 Hall Hs) as (Hus' & Hg & Hm & Hh).
  split_and!; [exact (groups_wf_frames _ _ _ _ Hs Hg Hwf1)|congruence| |by rewrite Hg|done].
  intros i g Hi. rewrite Hm by done. unfold member_of. by rewrite Hug.
Qed.

(** An audit event at the end changes neither users nor groups. *)
Definition same_people (db db' : Db) : Prop :=
  users db' = users db ∧ groups db' = groups db ∧ user_groups db' = user_groups db.
Lemma sync_audit_Ok ev u w r w' :
  sync_audit ev u w = (Ok r, w') → same_people (w_db w) (w_db w') ∧ (groups_wf w → groups_wf w').
Proof.
  intros Hr. assert (same_people (w_db w) (w_db w')) as Hs.
  { unfold sync_audit, AppendAuditEvent in Hr. by apply insertAuditEvent_Ok in Hr as (fs & ->). }
  split; [done|]. unfold sync_audit in Hr. destruct Hs as (_ & Hg & _).
  exact (groups_wf_frames _ _ _ _ Hr Hg).
Qed.

Lemma deactivate_Ok user w r w' :
  groups_wf w → user_rows_of (w_db w) (user_ID user) = [user] →
  deactivate user w = (Ok r, w') →
  only_user (user_ID user) (w_db w) (w_db w') ∧ groups_wf w' ∧
  ∃ u', user_rows_of (w_db w') (user_ID user) = [u'] ∧ user_Active u' = false ∧
    (user_Active user = true → ∀ g, member_of (w_db w') (user_ID user) g = false).
Proof.
  intros Hwf Hrow. unfold deactivate. destruct (user_Active user) eqn:Ea; simpl; intros Hr.
  2: { run_step. simplify_eq. split_and!; [done..|]. by exists user. }
  repeat run_step.
  match goal with Ha : sync_audit _ _ _ = _ |- _ =>
    apply sync_audit_Ok in Ha as ((Hus2 & Hgs2 & Hug2) & Hwf2) end.
  match goal with Hp : UpdateUser _ _ = _ |- _ =>
    destruct (UpdateUser_rows _ _ _ _ Hp) as [Hrow1 Hrows];
    pose proof (groups_wf_frames _ _ _ _ Hp) as Hwf1;
    apply UpdateUser_Ok in Hp as (old & _ & -> & _ & Hg1 & Hm1 & _) end.
  match goal with Hs : SetUserGroups _ _ ?w1 = _ |- _ =>
    eapply (set_named_groups _ (user_Issuer user) []) in Hs as (Hwf3 & Hus3 & Hm3 & Hg3 & Hno & _);
      [|by apply Hwf1|reflexivity] end.
  unfold only_user, user_rows_of, member_of in *. rewrite Hus2, Hus3, Hgs2, Hug2, <-Hg1, <-Hm1.
  split_and!; [|done|by apply Hwf2|].
  - intros i Hi. split; [by apply Hrows|]. intros g. by apply Hm3.
  - eexists. split_and!; [exact Hrow1|done|]. intros _ g. apply not_true_iff_false.
    intros Hg. apply Hno in Hg as (gr & _ & _ & _ & Hn). by apply elem_of_nil in Hn.
Qed.

Lemma reconcile_user_Ok user du w r w' :
  groups_wf w → user_rows_of (w_db w) (user_ID user) = [user] →
  reconcile_user user du w = (Ok r, w') →
  only_user (user_ID user) (w_db w) (w_db w') ∧ groups_wf w' ∧
  ∃ u', user_rows_of (w_db w') (user_ID user) = [u'] ∧ user_Active u' = true ∧
    user_Username u' = nonempty_or (du_Username du) (user_Username user) ∧
    user_Email u' = nonempty_or (du_Email du) (user_Email user) ∧
    holds_groups (w_db w') (user_ID user) (user_Issuer user) (normalizeGroups (du_Groups du)).
Proof.
  intros Hwf Hrow. unfold reconcile_user. intros Hr.
  apply bind_Ok in Hr as (u0 & w1 & Hfirst & Hr).
  assert (groups_wf w1 ∧ groups (w_db w1) = groups (w_db w) ∧
    user_groups (w_db w1) = user_groups (w_db w) ∧
    (∀ i, i ≠ user_ID user → user_rows_of (w_db w1) i = user_rows_of (w_db w) i) ∧
    ∃ u', user_rows_of (w_db w1) (user_ID user) = [u'] ∧ user_Active u' = true ∧
      user_Username u' = nonempty_or (du_Username du) (user_Username user) ∧
      user_Email u' = nonempty_or (du_Email du) (user_Email user))
    as (Hwf1 & Hg1 & Hm1 & Hrows & u' & Hrow1 & Hu').
  { clear Hr. destruct (_ || _) eqn:Eq.
    - repeat run_step. match goal with Hp : UpdateUser _ _ = _ |- _ =>
        destruct (UpdateUser_rows _ _ _ _ Hp) as [Hrow1 Hrows];
        pose proof (groups_wf_frames _ _ _ _ Hp) as Hwf1;
        apply UpdateUser_Ok in Hp as (old & _ & -> & _ & Hg1 & Hm1 & _) end.
      simplify_eq. split_and!; [by apply Hwf1|done..|].
      eexists. split_and!; [exact Hrow1|done..].
    - run_step. simplify_eq. bool_to_prop. split_and!; [done..|]. exists user. split_and!; congruence. }
  apply bind_Ok in Hr as (ids & w2 & Hens & Hr). apply bind_Ok in Hr as (u2 & w3 & Hset & Hr).
  apply wrap_Ok in Hset.
  destruct (set_named_groups _ _ _ _ _ _ _ _ Hwf1 Hens Hset) as (Hwf3 & Hus3 & Hm3 & Hg3 & Hh).
  assert (same_people (w_db w3) (w_db w') ∧ groups_wf w') as ((Hus & Hgs & Hug) & Hwf').
  { destruct (negb _); [apply sync_audit_Ok in Hr as [? ?]; auto|]. run_step. by simplify_eq. }
  unfold only_user, user_rows_of, member_of, holds_groups in *.
  unfold member_of in *. rewrite Hus, Hus3, Hgs, Hug, <-Hg1, <-Hm1.
  split_and!; [|done..|exists u'; tauto].
  intros i Hi. split; [by apply Hrows|]. intros g. by apply Hm3.
Qed.

(** ** The loop *)
Lemma only_user_refl id db : only_user id db db.
Proof. by split. Qed.

(** A later step for another user leaves what the pass did. *)
Lemma synced_stable dir u db0 db1 db2 :
  NoDup (group_key <$> groups db2) → groups db1 `prefix_of` groups db2 →
  user_rows_of db2 (user_ID u) = user_rows_of db1 (user_ID u) →
  (∀ g, member_of db2 (user_ID u) g = member_of db1 (user_ID u) g) →
  synced dir u db0 db1 → synced dir u db0 db2.
Proof.
  intros Hnd Hp Hrow Hmem. unfold synced.
  case_bool_decide; [|by rewrite Hrow; setoid_rewrite Hmem].
  destruct (List.filter _ _) as [|du l].
  - rewrite Hrow. intros (u' & ? & ? & Hno). exists u'. split_and!; [done..|].
    intros Ha g. rewrite Hmem. by apply Hno.
  - rewrite Hrow. intros (u' & ? & ? & ? & ? & Hh). exists u'. split_and!; [done..|].
    by eapply holds_groups_more.
Qed.

Lemma sync_user_Ok dir u w r w' :
  groups_wf w → user_rows_of (w_db w) (user_ID u) = [u] →
  sync_user source dir u w = (Ok r, w') →
  only_user (user_ID u) (w_db w) (w_db w') ∧ groups_wf w' ∧ synced dir u (w_db w) (w_db w').
Proof.
  intros Hwf Hrow. unfold sync_user, synced. case_bool_decide; simpl.
  2: { intros Hr. run_step. simplify_eq. by split_and!; [apply only_user_refl|..]. }
  destruct (dir !! user_Subject u) as [du|]; simpl.
  - destruct (du_Active du) eqn:Ea; simpl; intros Hr.
    + by eapply reconcile_user_Ok.
    + by eapply deactivate_Ok.
  - intros Hr. by eapply deactivate_Ok.
Qed.

Lemma sync_loop dir l w r w' :
  groups_wf w → NoDup (user_ID <$> l) →
  (∀ u, u ∈ l → user_rows_of (w_db w) (user_ID u) = [u]) →
  foldM (λ _ u, sync_user source dir u) () l w = (Ok r, w') →
  (∀ i, i ∉ user_ID <$> l → user_rows_of (w_db w') i = user_rows_of (w_db w) i ∧
     ∀ g, member_of (w_db w') i g = member_of (w_db w) i g) ∧
  groups (w_db w) `prefix_of` groups (w_db w') ∧ groups_wf w' ∧
  ∀ u, u ∈ l → synced dir u (w_db w) (w_db w').
Proof.
  revert w. induction l as [|u l IH]; intros w Hwf Hnd Hrows Hr.
  { simpl in Hr. run_step. subst. split_and!; [done..|]. by intros u ?%elem_of_nil. }
  simpl in Hr, Hnd. apply NoDup_cons in Hnd as [Hu Hnd].
  apply bind_Ok in Hr as ([] & w1 & Hs & Hr).
  apply sync_user_Ok in Hs as (Hone & Hwf1 & Hsync); [|done|apply Hrows; by left].
  assert (∀ v, v ∈ l → user_ID v ≠ user_ID u) as Hne.
  { intros v Hv Heq. apply Hu. rewrite <-Heq. apply list_elem_of_fmap. by exists v. }
  apply IH in Hr as (Hothers & Hp & Hwf' & Hall); [|done..|].
  2: { intros v Hv. destruct Hone as [Ho _]. destruct (Ho (user_ID v)) as [-> _]; [by apply Hne|].
       apply Hrows. by right. }
  pose proof (gkeys_distinct _ _ Hwf') as Hkeys. destruct Hone as [Ho Hp1].
  split_and!; [|by etrans|done|].
  - intros i Hi. rewrite fmap_cons, not_elem_of_cons in Hi. destruct Hi as [Hi1 Hi2].
    destruct (Ho i Hi1) as [Ho1 Ho2]. destruct (Hothers i Hi2) as [-> Ho4]. split; [done|].
    intros g. by rewrite Ho4.
  - intros v [->|Hv]%elem_of_cons.
    + destruct (Hothers _ Hu) as [Hr1 Hr2]. by eapply synced_stable.
    + specialize (Hall v Hv). unfold synced in *. case_bool_decide; [done|].
      destruct Hall as [? Hm]. split; [done|]. intros g. rewrite Hm. apply Ho. by apply Hne.
Qed.
End pass.

(** ** The audit log grows *)
Section audit_instances.
Context `{Crypto} `{UUIDs}.

#[export] Instance ensureGroups_audit i l : Keeps audit_grows (ensureGroups i l).
Proof.
  unfold ensureGroups, ensureGroup. apply keeps_foldM; [apply _|]. intros ids name.
  apply keeps_bind; [apply _| |intros; apply _].
  apply keeps_bind; [apply _..|]. intros [g|e]; [apply _|]. destruct (errors_Is _ _); apply _.
Qed.
#[export] Instance EnsureUser_audit c : Keeps audit_grows (EnsureUser c).
Proof.
  unfold EnsureUser, ensure_account. apply keeps_bind; [apply _| |intros; apply _].
  apply keeps_bind; [apply _..|]. intros [u|e].
  - destruct (negb _); [apply _|]. destruct (_ || _); apply _.
  - destruct (errors_Is _ _); apply _.
Qed.
#[export] Instance sync_audit_audit ev u : Keeps audit_grows (sync_audit ev u).
Proof. unfold sync_audit, AppendAuditEvent. apply _. Qed.
#[export] Instance deactivate_audit u : Keeps audit_grows (deactivate u).
Proof. unfold deactivate. destruct (negb _); apply _. Qed.
#[export] Instance reconcile_user_audit u du : Keeps audit_grows (reconcile_user u du).
Proof.
  unfold reconcile_user. apply keeps_bind; [apply _|destruct (_ || _); apply _|]. intros _.
  apply keeps_bind; [apply _..|]. intros ids. apply keeps_bind; [apply _..|]. intros _.
  destruct (negb _); apply _.
Qed.
#[export] Instance SyncOnce_audit s : Keeps audit_grows (SyncOnce s).
Proof.
  unfold SyncOnce. apply keeps_bind; [apply _..|]. intros now.
  apply keeps_bind; [apply _..|]. intros d. apply keeps_bind; [apply _..|]. intros us.
  apply keeps_foldM; [apply _|]. intros _ u. unfold sync_user.
  destruct (negb _); [apply _|]. destruct (_ !! _); [|apply _]. destruct (negb _); apply _.
Qed.
End audit_instances.

(** ** Properties *)

(** C30: a completed pass makes every local user of the directory's issuer what
    the directory says ([synced]): a user the directory does not list, or
    lists as disabled, is inactive, and one that was active lost all
    memberships; an enabled user is active, has the directory's non-empty
    profile fields and exactly the normalised groups. Users of other issuers
    keep their row and their memberships. *)
Theorem sync_applies_directory `{Crypto} `{UUIDs} source directory w w'
  (Husers : users_wf w) (Hgroups : groups_wf w)
  (Hdir : source_Users source (w_now w) = Ok directory)
  (Hrun : SyncOnce source w = (Ok (), w')) u (Hu : u ∈ users (w_db w)) :
  synced source (bySubject directory) u (w_db w) (w_db w').
Proof.
  unfold SyncOnce, gets, ListUsers in Hrun.
  apply bind_Ok in Hrun as (now & w1 & [= <- <-] & Hrun).
  apply bind_Ok in Hrun as (d & w1 & Hd & Hrun). rewrite Hdir in Hd. simpl in Hd.
  apply wrap_Ok, ret_Ok in Hd as [-> <-].
  apply bind_Ok in Hrun as (us & w1 & Hus & Hrun). apply wrap_Ok in Hus. run_step. subst.
  apply sync_loop in Hrun as (_ & _ & _ & Hall); [|exact Hgroups| |].
  - apply (Hall u). by apply sort_by_elem.
  - rewrite sort_by_perm. apply (uids_distinct _ _ Husers).
  - intros v Hv%sort_by_elem. apply user_rows_unique; [apply (uids_distinct _ _ Husers)|done].
Qed.

(** Paging through Keycloak returns every user of the realm once, in order
    and with its groups, and the loop ends: one request more than there are
    full pages is enough fuel, whatever the size of the realm (a last page
    that is exactly full costs one empty page). *)
Theorem keycloak_users_complete api realm groups_of
  (Hpages : ∀ first, api_users api first keycloakPageSize =
     Ok (take keycloakPageSize (drop first realm)))
  (Hgroups : ∀ ku, ku ∈ realm → api_groups api (kc_ID ku) = Ok (groups_of ku)) :
  Users api (S (List.length realm / keycloakPageSize)) =
  Some (Ok (List.map (λ ku, directory_user ku (groups_of ku)) realm)).
Proof.
  unfold Users. rewrite (users_from_all api realm groups_of Hpages Hgroups); [done|].
  rewrite drop_0. pose proof (Nat.div_mod_eq (List.length realm) keycloakPageSize).
  pose proof (Nat.mod_upper_bound (List.length realm) keycloakPageSize).
  assert (keycloakPageSize ≠ 0)%nat by done. lia.
Qed.

(** ** Concrete runs *)
Definition toy_member (name : string) (groups : list string) (active : bool) : DirectoryUser := {|
  du_Subject := name; du_Username := ""; du_Email := name +:+ "@corp.example";
  du_Groups := groups; du_Active := active |}.
Definition toy_source (l : list DirectoryUser) : DirectorySource := {|
  source_Issuer := "idp"; source_Users _ := Ok l |}.

Definition toy_dir : list DirectoryUser := [toy_member "alice" ["/ops"] true].

Lemma sync_applies_directory_witness :
  ∃ w', SyncOnce (H0 := counting_uuids) (toy_source toy_dir) (toy_world toy_db) = (Ok (), w') ∧
    synced (toy_source toy_dir) (bySubject toy_dir) (toy_user 1 "alice") toy_db (w_db w') ∧
    ∃ u', user_rows_of (w_db w') 2 = [u'] ∧ user_Active u' = false.
Proof.
  destruct (SyncOnce (H0 := counting_uuids) (toy_source toy_dir) (toy_world toy_db))
    as [[[]|e] w'] eqn:E; [|vm_compute in E; discriminate E].
  pose proof (sync_applies_directory (H0 := counting_uuids) (toy_source toy_dir) toy_dir _ _
    toy_users_wf toy_groups_wf eq_refl E) as Hall.
  exists w'. split; [reflexivity|]. split; [apply (Hall (toy_user 1 "alice")); by left|].
  destruct (Hall (toy_user 2 "bob")) as (u' & Hrow & Ha & _); [right; by left|].
  exists u'. split; [exact Hrow|exact Ha].
Defined.

Definition toy_keycloak : KeycloakAPI := {|
  api_users first max := Ok (take max (drop first
    [{| kc_ID := "a"; kc_Username := "alice"; kc_Email := ""; kc_Enabled := true |}]));
  api_groups _ := Ok ["dev"] |}.
Lemma keycloak_users_complete_witness :
  Users toy_keycloak 1 = Some (Ok [{| du_Subject := "a"; du_Username := "alice"; du_Email := "";
                                       du_Groups := ["dev"]; du_Active := true |}]).
Proof.
  apply (keycloak_users_complete toy_keycloak
    [{| kc_ID := "a"; kc_Username := "alice"; kc_Email := ""; kc_Enabled := true |}]
    (λ _, ["dev"])); reflexivity.
Defined.

(** Two groups of one user with the same name (Keycloak's admin API gives
    leaf names, so subgroups of different parents can share one) violate the
    key of user_groups. The error ends the whole pass: users that come later
    in the list are not deactivated, and every further pass fails the same
    way. *)
Theorem duplicate_group_names_stop_sync :
  let source := toy_source [toy_member "alice" ["dev"; "dev"] true] in
  let '(r1, w1) := SyncOnce (H0 := counting_uuids) source (toy_world toy_db) in
  let '(r2, w2) := SyncOnce (H0 := counting_uuids) source w1 in
  is_ok r1 = false ∧ is_ok r2 = false ∧
  user_Active <$> user_rows_of (w_db w2) 2 = [true].
Proof. vm_compute. split_and!; reflexivity. Qed.

(** [deactivate] is not atomic and not retried: when the database fails
    between the two statements, the user is inactive but keeps the
    memberships, and the next pass, finding the user inactive already, returns
    without error and revokes nothing. *)
Theorem interrupted_deactivation_keeps_groups :
  let '(r1, w1) := SyncOnce (H0 := counting_uuids) (toy_source [])
      (set_faults [false; false; true] (toy_world toy_db)) in
  let '(r2, w2) := SyncOnce (H0 := counting_uuids) (toy_source []) w1 in
  is_ok r1 = false ∧ r2 = Ok () ∧
  user_Active <$> user_rows_of (w_db w2) 1 = [false] ∧ member_of (w_db w2) 1 10 = true.
Proof. vm_compute. split_and!; reflexivity. Qed.
