(* ===== verification/Http.v ===== *)
(** * HTTP requests and responses (net/http, internal/api/server.go and
    sign.go, ratelimit.go)

    A handler is a computation that answers a [Request] with a [Response]; it
    returns no Go error. The body of a request is the JSON value it holds and
    the offset at which that value ends, or nothing when it is not JSON. *)
From S2P Require Export GroupSync CA.

Local Open Scope string_scope.
Local Open Scope list_scope.

Record Request := {
  req_Authorization : string;          (* the Authorization header *)
  req_Body : option (Z * json);
  req_EmptyBody : bool;                (* the body ends before any value *)
  req_RemoteAddr : string;
  req_ForwardedFor : string;           (* the X-Forwarded-For header *)
  req_PeerCN : option string;          (* CommonName of the verified client certificate *)
  req_Query : gmap string string;
  req_PathID : string;                 (* the {id} of the path *)
  req_RequestedWith : string;          (* the X-Requested-With header *)
  req_Cookies : gmap string string;
  req_Host : string; req_ForwardedProto : string; req_TLS : bool
}.

(** A certificate response keeps the certificate itself: its text form is
    [ssh.MarshalAuthorizedKey]'s. *)
Record signUserResponse := {
  resp_Certificate : SSHCertificate; resp_Serial : Z; resp_KeyID : string;
  resp_Principals : list string; resp_ValidAfter : Z; resp_ValidBefore : Z
}.

(** The answer to an enrollment (enroll.go). *)
Record enrollResponse := {
  en_HostID : uuid; en_HostCertificate : SSHCertificate; en_ValidBefore : Z;
  en_UserCABundle : string; en_MTLSCertificate : string; en_MTLSCA : string
}.

Inductive body :=
| NoBody
| Plain (s : string)                            (* w.Write *)
| Text (s : string)                             (* http.Error, text/plain *)
| ErrorText (e : error)                         (* http.Error with err.Error() *)
| PolicyText (requesterType : string) (why : violation)   (* violation.Error() *)
| Signed (r : signUserResponse)
| RenewedCert (cert : SSHCertificate) (validBefore : Z)
| Principals_ (l : list string)
| JsonBody (j : json)
| Enrolled (r : enrollResponse)
| AuditCSV (events : list AuditEvent).          (* one line per event, after a header *)

Record Response := { status : Z; content : body }.

Definition StatusOK : Z := 200.
Definition StatusCreated : Z := 201.
Definition StatusNoContent : Z := 204.
Definition StatusFound : Z := 302.
Definition StatusBadRequest : Z := 400.
Definition StatusUnauthorized : Z := 401.
Definition StatusForbidden : Z := 403.
Definition StatusNotFound : Z := 404.
Definition StatusConflict : Z := 409.
Definition StatusTooManyRequests : Z := 429.
Definition StatusInternalServerError : Z := 500.
Definition StatusBadGateway : Z := 502.
Definition StatusServiceUnavailable : Z := 503.

(** [http.Error(w, msg, code)]. *)
Definition HttpError (msg : string) (code : Z) : Response :=
  {| status := code; content := Text msg |}.
Definition internalError : Response := HttpError "internal server error" StatusInternalServerError.

(** [json.NewDecoder(http.MaxBytesReader(w, r.Body, limit)).Decode]: the first
    JSON value of the body, if it ends within the limit. *)
Definition maxRequestBody : Z := 64 * 1024.
Definition decode_body (limit : Z) (r : Request) : option json :=
  match req_Body r with
  | Some (size, j) => if (size <=? limit)%Z then Some j else None
  | None => None
  end.

(** [bearerToken]. *)
Definition bearerToken (r : Request) : option string :=
  match Cut (req_Authorization r) " " with
  | Some (scheme, token) =>
      if negb (EqualFold scheme "Bearer") || bool_decide (token = "") then None else Some token
  | None => None
  end.

(** [net.SplitHostPort]. *)
Definition SplitHostPort (hostport : string) : option (string * string) :=
  match before_last hostport ":" with
  | None => None
  | Some pre =>
      let port := drop_str (S (String.length pre)) hostport in
      match hostport with
      | String "[" _ =>
          match Cut hostport "]" with
          | None => None
          | Some (upto, rest) =>
              if bool_decide (rest = String ":" port) &&
                 negb (bool_decide (in_string "[" (drop_str 1 hostport))) &&
                 negb (bool_decide (in_string "]" rest))
              then Some (drop_str 1 upto, port) else None
          end
      | _ =>
          if bool_decide (in_string ":" pre) || bool_decide (in_string "[" hostport) ||
             bool_decide (in_string "]" hostport)
          then None else Some (pre, port)
      end
  end.

(** The peer's address without the port ([remoteIP]). *)
Definition remoteIP (r : Request) : string :=
  match SplitHostPort (req_RemoteAddr r) with Some (host, _) => host | None => req_RemoteAddr r end.

(** ** The interface of token validation

    What the handlers may assume of a verifier: it reads the token, it does
    not write. [Auth.Verify] and [Auth.VerifyCI] implement it. *)
Class TokenVerifier `{Crypto} (C : Type) := {
  token_Verify : string → M C;
  token_frames raw w :
    w_db (token_Verify raw w).2 = w_db w ∧ w_uuid (token_Verify raw w).2 = w_uuid w ∧
    w_audit_seq (token_Verify raw w).2 = w_audit_seq w
}.

Section implementations.
Context `{Crypto} `{OIDC}.

Lemma verify_token_frames v raw w :
  w_db (verify_token v raw w).2 = w_db w ∧ w_uuid (verify_token v raw w).2 = w_uuid w ∧
  w_audit_seq (verify_token v raw w).2 = w_audit_seq w.
Proof.
  unfold verify_token, bind, time_Now, ret, invalid_token, fail.
  destruct (w_ticks w); simpl; by case_match.
Qed.

#[refine] Definition user_verifier (v : Verifier) : TokenVerifier Claims := {|
  token_Verify := Verify v |}.
Proof.
  intros raw w. unfold Verify, bind. destruct (verify_token_frames v raw w) as (Hdb & Hu & Ha).
  destruct (verify_token v raw w) as [[t|e] w1]; simpl in *; [|done].
  case_match; simpl; [|done]. destruct p as [[? ?] ?]. done.
Defined.

#[refine] Definition ci_verifier (v : Verifier) : TokenVerifier CIClaims := {|
  token_Verify := VerifyCI v |}.
Proof.
  intros raw w. unfold VerifyCI, bind. destruct (verify_token_frames v raw w) as (Hdb & Hu & Ha).
  destruct (verify_token v raw w) as [[t|e] w1]; simpl in *; [|done].
  repeat (case_match; simpl; try done).
Defined.
End implementations.
