(* ===== verification/RateLimit.v ===== *)
(** * The rate limiter (internal/api/ratelimit.go)

    Two token buckets per client address: requests, and rejected requests. The
    critical sections under the mutex ([allow], [recordFailure]) are functions
    on the limiter's state; [limit] wraps a handler with them. A bucket counts
    in rational numbers: float64 rounding is not modelled. *)
From Stdlib Require Import QArith Qminmax Lqa.
From S2P Require Export Http.

Local Open Scope string_scope.
Local Open Scope list_scope.

Record RateLimiterConfig := {
  RequestsPerMinute : Q; Burst : Q; FailuresPerMinute : Q; FailureBurst : Q;
  TrustProxyHeader : bool
}.
Definition DefaultRateLimiterConfig : RateLimiterConfig := {|
  RequestsPerMinute := 60; Burst := 20; FailuresPerMinute := 10; FailureBurst := 10;
  TrustProxyHeader := false |}.

Definition maxClients : N := 65536.
Definition clientIdleTTL : Z := (5 * Minute)%Z.

(** A bucket that was never refilled has the zero time. *)
Record bucket := { tokens : Q; last : Z }.
Record clientBuckets := { requests : bucket; failures : bucket; lastSeen : Z }.
Notation RateLimiter := (gmap string clientBuckets).

Definition new_bucket : bucket := {| tokens := 0; last := time_zero |}.

(** [d.Minutes()]. *)
Definition Minutes (d : Z) : Q := inject_Z d / inject_Z Minute.

Definition refill (b : bucket) (now : Z) (perMinute burst : Q) : bucket := {|
  tokens := if IsZero (last b) then burst
            else Qmin burst (tokens b + Minutes (Sub now (last b)) * perMinute);
  last := now |}.
(** The bucket afterwards, and whether a token was there. *)
Definition take (b : bucket) : bucket * bool :=
  if Qle_bool 1 (tokens b) then ({| tokens := tokens b - 1; last := last b |}, true) else (b, false).

(** Rates that are not positive become the defaults. *)
Definition or_default (q d : Q) : Q := if Qle_bool q 0 then d else q.
Definition NewRateLimiter (cfg : RateLimiterConfig) : RateLimiterConfig * RateLimiter :=
  let defaults := DefaultRateLimiterConfig in
  ({| RequestsPerMinute := or_default (RequestsPerMinute cfg) (RequestsPerMinute defaults);
      Burst := or_default (Burst cfg) (Burst defaults);
      FailuresPerMinute := or_default (FailuresPerMinute cfg) (FailuresPerMinute defaults);
      FailureBurst := or_default (FailureBurst cfg) (FailureBurst defaults);
      TrustProxyHeader := TrustProxyHeader cfg |}, ∅).

Section limiter.
Context `{MapOrder} (cfg : RateLimiterConfig).
Implicit Types l : RateLimiter.

(** The first loop drops idle entries, the second makes room. *)
Definition idle (now : Z) (c : clientBuckets) : bool := (clientIdleTTL <? Sub now (lastSeen c))%Z.
Definition full l : bool := (maxClients <=? N.of_nat (size l))%N.
Definition make_room (keys : list string) l : RateLimiter :=
  foldl (λ l key, if full l then delete key l else l) l keys.
Definition evict (now : Z) l : RateLimiter :=
  let l := filter (λ '(_, c), idle now c = false) l in
  make_room (List.map fst (map_order l)) l.

(** The client's entry, made if there is none, and the clients with it. *)
Definition client (key : string) (now : Z) l : clientBuckets * RateLimiter :=
  match l !! key with
  | Some c => (c, l)
  | None =>
      let c := {| requests := new_bucket; failures := new_bucket; lastSeen := now |} in
      (c, <[key := c]> (if full l then evict now l else l))
  end.

Definition allow (key : string) (now : Z) l : bool * RateLimiter :=
  let '(c, l) := client key now l in
  let req := refill (requests c) now (RequestsPerMinute cfg) (Burst cfg) in
  let fail := refill (failures c) now (FailuresPerMinute cfg) (FailureBurst cfg) in
  let '(req, ok) := if Qle_bool 1 (tokens fail) then take req else (req, false) in
  (ok, <[key := {| requests := req; failures := fail; lastSeen := now |}]> l).

Definition recordFailure (key : string) (now : Z) l : RateLimiter :=
  let '(c, l) := client key now l in
  let fail := refill (failures c) now (FailuresPerMinute cfg) (FailureBurst cfg) in
  <[key := {| requests := requests c; failures := (take fail).1; lastSeen := lastSeen c |}]> l.

(** The last entry of X-Forwarded-For behind a trusted proxy, else the peer. *)
Definition clientKey (r : Request) : string :=
  let ip := TrimSpace (List.last (Split (req_ForwardedFor r) ",") "") in
  if TrustProxyHeader cfg && negb (bool_decide (req_ForwardedFor r = "")) &&
     negb (bool_decide (ip = ""))
  then ip else remoteIP r.

Definition tooManyRequests : Response :=
  HttpError "too many requests — please try again later" StatusTooManyRequests.
Definition rejected (resp : Response) : bool :=
  (status resp =? StatusUnauthorized)%Z || (status resp =? StatusForbidden)%Z.
End limiter.

(** The wrapped handler; no limiter is no limit. An answer is any value with a
    response in it ([of_response] makes one). *)
Definition limit `{Crypto} `{MapOrder} {A} (response_of : A → Response) (of_response : Response → A)
    (limiter : option RateLimiterConfig) (next : Request → M A) (r : Request) (l : RateLimiter)
    : M (A * RateLimiter) :=
  match limiter with
  | None => let* resp := next r in ret (resp, l)
  | Some cfg =>
      let key := clientKey cfg r in
      let* now := time_Now in
      let '(ok, l) := allow cfg key now l in
      if negb ok then ret (of_response tooManyRequests, l)
      else
        let* resp := next r in
        if rejected (response_of resp)
        then let* now := time_Now in ret (resp, recordFailure cfg key now l)
        else ret (resp, l)
  end.

(** ** Configuration from the environment (cmd/gssh-server/main.go) *)

(** [strconv.ParseFloat] of plain decimal notation; exponents, hexadecimal
    notation, infinities and NaN are not modelled. *)
Definition unsigned_decimal (s : string) : option Q :=
  let '(int, frac) := default (s, "") (Cut s ".") in
  n ← (if bool_decide (int +:+ frac = "") then None else digits 0 (int +:+ frac));
  Some (n # Z.to_pos (10 ^ Z.of_nat (String.length frac)))%Q.
Definition ParseFloat (s : string) : option Q :=
  match s with
  | String "-" s => Qopp <$> unsigned_decimal s
  | String "+" s => unsigned_decimal s
  | _ => unsigned_decimal s
  end.

Definition envRatePerMinute := "GSSH_SIGN_RATE_PER_MINUTE".
Definition envFailPerMinute := "GSSH_SIGN_FAIL_PER_MINUTE".
Definition envRateTrustXFF := "GSSH_RATE_TRUST_PROXY".
Definition envAgentDownloadRPM := "GSSH_AGENT_DOWNLOAD_RPM".
Definition defaultAgentDownloadRPM : Q := 10.
Definition defaultAgentDownloadBurst : Q := 5.

Section setup.
Variable Getenv : string → string.
(** No limiter is [None]. *)

(** A rate from the environment: kept, switched off, or a new one. *)
Inductive rate_setting := KeepRate | NoLimit | NewRate (q : Q).
Definition rate_from_env (name : string) : rate_setting :=
  let raw := Getenv name in
  if bool_decide (raw = "") then KeepRate
  else match ParseFloat raw with
       | None => KeepRate
       | Some parsed =>
           if negb (Qle_bool 0 parsed) then KeepRate
           else if Qeq_bool parsed 0 then NoLimit else NewRate parsed
       end.
Definition with_requests (cfg : RateLimiterConfig) (rate burst : Q) : RateLimiterConfig := {|
  RequestsPerMinute := rate; Burst := burst; FailuresPerMinute := FailuresPerMinute cfg;
  FailureBurst := FailureBurst cfg; TrustProxyHeader := TrustProxyHeader cfg |}.
Definition with_failures (cfg : RateLimiterConfig) (rate burst : Q) : RateLimiterConfig := {|
  RequestsPerMinute := RequestsPerMinute cfg; Burst := Burst cfg; FailuresPerMinute := rate;
  FailureBurst := burst; TrustProxyHeader := TrustProxyHeader cfg |}.
Definition with_trust (cfg : RateLimiterConfig) (trust : bool) : RateLimiterConfig := {|
  RequestsPerMinute := RequestsPerMinute cfg; Burst := Burst cfg;
  FailuresPerMinute := FailuresPerMinute cfg; FailureBurst := FailureBurst cfg;
  TrustProxyHeader := trust |}.
Definition trust_from_env : bool := bool_decide (Getenv envRateTrustXFF = "true").

(** Any positive failure rate is taken, as its own burst. *)
Definition failures_from_env (cfg : RateLimiterConfig) : RateLimiterConfig :=
  let raw := Getenv envFailPerMinute in
  if bool_decide (raw = "") then cfg
  else match ParseFloat raw with
       | Some parsed => if negb (Qle_bool parsed 0) then with_failures cfg parsed parsed else cfg
       | None => cfg
       end.
Definition setupRateLimit : option (RateLimiterConfig * RateLimiter) :=
  let finish cfg := Some (NewRateLimiter (with_trust (failures_from_env cfg) trust_from_env)) in
  match rate_from_env envRatePerMinute with
  | KeepRate => finish DefaultRateLimiterConfig
  | NoLimit => None
  | NewRate q => finish (with_requests DefaultRateLimiterConfig q (Qmax 10 (q / 3)))
  end.
Definition setupDownloadRateLimit : option (RateLimiterConfig * RateLimiter) :=
  let base := {| RequestsPerMinute := defaultAgentDownloadRPM; Burst := defaultAgentDownloadBurst;
                 FailuresPerMinute := 0; FailureBurst := 0; TrustProxyHeader := trust_from_env |} in
  match rate_from_env envAgentDownloadRPM with
  | KeepRate => Some (NewRateLimiter base)
  | NoLimit => None
  | NewRate q => Some (NewRateLimiter (with_requests base q (Qmax 1 (q / 2))))
  end.
End setup.

(** ** Runs

    The critical sections of concurrent requests interleave in any order: a run
    is a list of them. *)
Inductive event := Allow (key : string) (now : Z) | Failure (key : string) (now : Z).
Definition event_time (e : event) : Z := match e with Allow _ t | Failure _ t => t end.
Definition event_key (e : event) : string := match e with Allow k _ | Failure k _ => k end.
Definition run_event `{MapOrder} (cfg : RateLimiterConfig) (e : event) (l : RateLimiter)
    : bool * RateLimiter :=
  match e with
  | Allow key now => allow cfg key now l
  | Failure key now => (false, recordFailure cfg key now l)
  end.
(** The requests of the client that were let through, and the limiter. *)
Fixpoint run_events `{MapOrder} (cfg : RateLimiterConfig) (key : string) (es : list event)
    (l : RateLimiter) : nat * RateLimiter :=
  match es with
  | [] => (O, l)
  | e :: es =>
      let '(ok, l) := run_event cfg e l in
      let '(n, l) := run_events cfg key es l in
      (((if bool_decide (event_key e = key) && ok then 1 else 0) + n)%nat, l)
  end.
(** The clock does not go back. *)
Fixpoint events_from (t : Z) (es : list event) : Prop :=
  match es with [] => True | e :: es => (t ≤ event_time e)%Z ∧ events_from (event_time e) es end.
Fixpoint last_time (t : Z) (es : list event) : Z :=
  match es with [] => t | e :: es => last_time (event_time e) es end.

(** A round is one whole request of a client, with no other request of that
    client at the same time: the time of its [allow], and the time of
    [recordFailure] when the handler rejected it. *)
Record round := { rd_key : string; rd_now : Z; rd_rejected : option Z }.

Section runs.
Context `{MapOrder} (cfg : RateLimiterConfig).

(** The limiter after a round, and whether the request was let through. *)
Definition play (l : RateLimiter) (r : round) : bool * RateLimiter :=
  let '(ok, l) := allow cfg (rd_key r) (rd_now r) l in
  (ok, match rd_rejected r with
       | Some at_ => if ok then recordFailure cfg (rd_key r) at_ l else l
       | None => l
       end).
Fixpoint play_all (l : RateLimiter) (rs : list round) : list bool * RateLimiter :=
  match rs with
  | [] => ([], l)
  | r :: rs =>
      let '(ok, l) := play l r in
      let '(oks, l) := play_all l rs in (ok :: oks, l)
  end.
(** How many requests of the client were let through and rejected. *)
Definition was_rejected (r : round) : bool := bool_decide (is_Some (rd_rejected r)).
Definition count_rejected (key : string) (rs : list round) (oks : list bool) : nat :=
  List.length (List.filter (λ '(r, ok), bool_decide (rd_key r = key) && ok && was_rejected r)
                 (combine rs oks)).

(** Rounds one after the other, from a time on. *)
Fixpoint in_order (t : Z) (rs : list round) : Prop :=
  match rs with
  | [] => True
  | r :: rs =>
      (t ≤ rd_now r)%Z ∧ match rd_rejected r with
                         | Some at_ => (rd_now r ≤ at_)%Z ∧ in_order at_ rs
                         | None => in_order (rd_now r) rs
                         end
  end.
Definition round_end (r : round) : Z := default (rd_now r) (rd_rejected r).
Fixpoint end_time (t : Z) (rs : list round) : Z :=
  match rs with [] => t | r :: rs => end_time (round_end r) rs end.
End runs.

(** ** Buckets over time *)

Lemma Minutes_add a b : Minutes (a + b) == Minutes a + Minutes b.
Proof. unfold Minutes. rewrite inject_Z_plus. field. discriminate. Qed.
Lemma Minutes_0 x : Minutes 0 * x == 0.
Proof. unfold Minutes, Qdiv. change (inject_Z 0) with 0%Q. by rewrite !Qmult_0_l. Qed.
Lemma Minutes_split a b c : Minutes (c - a) == Minutes (b - a) + Minutes (c - b).
Proof. rewrite <-Minutes_add. by replace (b - a + (c - b))%Z with (c - a)%Z by lia. Qed.
Lemma Minutes_le a b : (a ≤ b)%Z → (Minutes a <= Minutes b)%Q.
Proof.
  intros Hab. unfold Minutes, Qdiv. apply Qmult_le_compat_r; [|discriminate].
  by rewrite <-Zle_Qle.
Qed.
Lemma Minutes_nonneg a : (0 ≤ a)%Z → (0 <= Minutes a)%Q.
Proof. intros Ha. eapply Qle_trans; [|exact (Minutes_le _ _ Ha)]. discriminate. Qed.

(** Stored values: never negative, and not from the future. *)
Definition bucket_ok (t : Z) (b : bucket) : Prop :=
  IsZero (last b) = true ∨ (0 <= tokens b)%Q ∧ (last b ≤ t)%Z.
Definition limiter_ok (t : Z) (l : RateLimiter) : Prop :=
  map_Forall (λ _ c, bucket_ok t (requests c) ∧ bucket_ok t (failures c)) l.

(** What a bucket can give at time [t]. *)
Definition level (rate burst : Q) (b : bucket) (t : Z) : Q :=
  if IsZero (last b) then burst
  else Qmin burst (tokens b + Minutes (t - last b) * rate).

Section buckets.
Context (rate burst : Q) (Hrate : (0 <= rate)%Q) (Hburst : (0 <= burst)%Q).

Lemma bucket_ok_later t t' b : (t ≤ t')%Z → bucket_ok t b → bucket_ok t' b.
Proof. intros Ht [?|[? ?]]; [by left|right; split; [done|lia]]. Qed.

Lemma level_burst b t : (level rate burst b t <= burst)%Q.
Proof. unfold level. destruct (IsZero _); [apply Qle_refl|apply Q.le_min_l]. Qed.

(** Waiting adds at most the rate. *)
Lemma level_later b t t' :
  (t ≤ t')%Z → (level rate burst b t' <= level rate burst b t + Minutes (t' - t) * rate)%Q.
Proof.
  intros Ht. pose proof (Minutes_nonneg (t' - t) ltac:(lia)) as Hm.
  assert (0 <= Minutes (t' - t) * rate)%Q as Hmr by (by apply Qmult_le_0_compat).
  unfold level. destruct (IsZero (last b)); [lra|].
  set (x := (tokens b + Minutes (t - last b) * rate)%Q).
  set (y := (tokens b + Minutes (t' - last b) * rate)%Q).
  assert (y == x + Minutes (t' - t) * rate)%Q as Hy.
  { unfold x, y. replace (t' - last b)%Z with ((t - last b) + (t' - t))%Z by lia.
    rewrite Minutes_add. ring. }
  pose proof (Q.le_min_l burst y) as H1. pose proof (Q.le_min_r burst y) as H2.
  destruct (Q.min_spec burst x) as [[_ E]|[_ E]]; rewrite E; lra.
Qed.

(** A refill stays within the bounds and gives at most the level. *)
Lemma refill_bounds b t now :
  bucket_ok t b → (t ≤ now)%Z →
  (0 <= tokens (refill b now rate burst) <= burst)%Q ∧
  (tokens (refill b now rate burst) <= level rate burst b now)%Q ∧
  last (refill b now rate burst) = now.
Proof.
  intros Hok Ht. unfold refill, level. simpl. destruct (IsZero (last b)) eqn:Ez.
  { split_and!; [lra|lra|apply Qle_refl|done]. }
  destruct Hok as [?|[Htok Hlast]]; [congruence|].
  assert (0 ≤ Sub now (last b) ≤ now - last b)%Z as [Hs1 Hs2].
  { unfold Sub, int64_min, int64_max. lia. }
  pose proof (Minutes_nonneg _ Hs1) as Hm. apply Minutes_le in Hs2.
  assert (0 <= Minutes (Sub now (last b)) * rate)%Q as Hmr by (by apply Qmult_le_0_compat).
  assert (Minutes (Sub now (last b)) * rate <= Minutes (now - last b) * rate)%Q as Hmr2
    by (by apply Qmult_le_compat_r).
  split_and!; [apply Q.min_glb; lra|apply Q.le_min_l| |done].
  apply Q.min_le_compat_l. lra.
Qed.

(** A bucket that was just refilled has its tokens as level. *)
Lemma refilled_level tok now :
  IsZero now = false → (level rate burst {| tokens := tok; last := now |} now <= tok)%Q.
Proof.
  intros Hz. unfold level. simpl. rewrite Hz, Z.sub_diag.
  eapply Qle_trans; [apply Q.le_min_r|]. unfold Minutes. change (inject_Z 0) with 0%Q.
  unfold Qdiv. rewrite Qmult_0_l, Qmult_0_l, Qplus_0_r. apply Qle_refl.
Qed.
End buckets.

(** ** Clients *)
Section clients.
Context `{MapOrder}.
Implicit Types l : RateLimiter.

Definition fresh (now : Z) : clientBuckets :=
  {| requests := new_bucket; failures := new_bucket; lastSeen := now |}.

Definition client_ok (t : Z) (c : clientBuckets) : Prop :=
  bucket_ok t (requests c) ∧ bucket_ok t (failures c).
Lemma fresh_ok now t : bucket_ok t (requests (fresh now)) ∧ bucket_ok t (failures (fresh now)).
Proof. by split; left. Qed.

Lemma client_ok_later t t' c : (t ≤ t')%Z → client_ok t c → client_ok t' c.
Proof. intros Ht [? ?]. split; by eapply bucket_ok_later. Qed.

Lemma make_room_room keys l : full l = false → make_room keys l = l.
Proof. revert l. induction keys as [|k ks IH]; intros l Hl; [done|]. simpl. rewrite Hl. by apply IH. Qed.
Lemma make_room_makes_room keys l :
  (∀ k, is_Some (l !! k) → k ∈ keys) → full (make_room keys l) = false.
Proof.
  revert l. induction keys as [|k ks IH]; intros l Hall.
  { assert (l = ∅) as ->; [|done]. apply map_empty. intros k.
    destruct (l !! k) eqn:E; [|done]. specialize (Hall k). rewrite E in Hall.
    apply (not_elem_of_nil k) in Hall as []. done. }
  simpl. destruct (full l) eqn:Hf; [|by rewrite make_room_room].
  apply IH. intros k' Hk'. destruct (decide (k' = k)) as [->|Hne].
  { rewrite lookup_delete_eq in Hk'. by destruct Hk'. }
  rewrite lookup_delete_ne in Hk' by done. apply Hall in Hk'. set_solver.
Qed.
Lemma evict_makes_room now l : full (evict now l) = false.
Proof.
  apply make_room_makes_room. intros k [c Hc]. apply list_elem_of_fmap. exists (k, c).
  split; [done|]. rewrite map_order_perm. by apply elem_of_map_to_list.
Qed.
Lemma make_room_ok keys t l : limiter_ok t l → limiter_ok t (make_room keys l).
Proof.
  revert l. induction keys as [|k ks IH]; intros l Hl; [done|]. simpl. apply IH.
  destruct (full l); [|done]. by apply map_Forall_delete.
Qed.
Lemma evict_ok now t l : limiter_ok t l → limiter_ok t (evict now l).
Proof.
  intros Hl. apply make_room_ok. intros k c Hc. apply map_lookup_filter_Some in Hc as [Hc _].
  by eapply Hl.
Qed.

(** The client's entry exists, is as good as before, and there is room. *)
Lemma client_keeps key now t l c l' :
  limiter_ok t l → client key now l = (c, l') →
  client_ok t c ∧ limiter_ok t l' ∧ l' !! key = Some c ∧
  ((N.of_nat (size l) <= maxClients)%N → (N.of_nat (size l') <= maxClients)%N).
Proof.
  unfold client. intros Hl. destruct (l !! key) as [c0|] eqn:Hk; intros [= <- <-].
  { split_and!; [by eapply Hl|done|done|done]. }
  split_and!; [apply fresh_ok| |by rewrite lookup_insert_eq|].
  - apply map_Forall_insert_2; [apply fresh_ok|]. destruct (full l); [by apply evict_ok|done].
  - intros Hsize. rewrite map_size_insert. destruct (full l) eqn:Hf.
    + pose proof (evict_makes_room now l) as Hroom. unfold full in Hroom.
      apply N.leb_gt in Hroom. destruct (evict now l !! key); simpl; lia.
    + unfold full in Hf. apply N.leb_gt in Hf. rewrite Hk. simpl. lia.
Qed.
Lemma size_update (l : gmap string clientBuckets) k c c' :
  l !! k = Some c → size (<[k := c']> l) = size l.
Proof. intros E. by rewrite map_size_insert, E. Qed.

End clients.

(** ** Rounds *)
Section rounds.
Context `{MapOrder} (cfg : RateLimiterConfig).
Implicit Types l : RateLimiter.

(** The rates and capacities of a configuration that limits. *)
Definition cfg_ok : Prop :=
  (0 <= RequestsPerMinute cfg ∧ 0 <= Burst cfg ∧ 0 <= FailuresPerMinute cfg ∧
   0 <= FailureBurst cfg)%Q.

(** With room for another client, nobody is evicted. *)
Lemma client_room key now l :
  (N.of_nat (size l) < maxClients)%N →
  client key now l = (default (fresh now) (l !! key),
                      if l !! key is Some _ then l else <[key := fresh now]> l).
Proof.
  intros Hroom. unfold client. destruct (l !! key); [done|]. unfold full.
  by rewrite (proj2 (N.leb_gt _ _)).
Qed.

(** The buckets after an attempt, in terms of those before. *)
Definition attempt (now : Z) (c : clientBuckets) : bool * clientBuckets :=
  let req := refill (requests c) now (RequestsPerMinute cfg) (Burst cfg) in
  let fail := refill (failures c) now (FailuresPerMinute cfg) (FailureBurst cfg) in
  let '(req, ok) := if Qle_bool 1 (tokens fail) then take req else (req, false) in
  (ok, {| requests := req; failures := fail; lastSeen := now |}).
Definition fail_once (now : Z) (c : clientBuckets) : clientBuckets := {|
  requests := requests c;
  failures := (take (refill (failures c) now (FailuresPerMinute cfg) (FailureBurst cfg))).1;
  lastSeen := lastSeen c |}.
Definition play_client (r : round) (c : clientBuckets) : bool * clientBuckets :=
  let '(ok, c) := attempt (rd_now r) c in
  (ok, match rd_rejected r with
       | Some at_ => if ok then fail_once at_ c else c
       | None => c
       end).

Lemma play_room l r :
  (N.of_nat (size l) < maxClients)%N →
  play cfg l r = ((play_client r (default (fresh (rd_now r)) (l !! rd_key r))).1,
    <[rd_key r := (play_client r (default (fresh (rd_now r)) (l !! rd_key r))).2]> l).
Proof.
  intros Hroom. unfold play, allow. rewrite client_room by done. unfold play_client, attempt.
  set (c := default (fresh (rd_now r)) (l !! rd_key r)).
  destruct (if Qle_bool _ _ then _ else _) as [req ok]. simpl.
  assert (∀ c' : clientBuckets, <[rd_key r := c']> (if l !! rd_key r is Some _ then l
            else <[rd_key r := fresh (rd_now r)]> l) = <[rd_key r := c']> l) as Hins.
  { intros c'. destruct (l !! rd_key r); [done|]. apply insert_insert_eq. }
  rewrite Hins. destruct (rd_rejected r) as [at_|]; [|done]. destruct ok; [|done].
  unfold recordFailure, client. rewrite lookup_insert_eq. simpl.
  by rewrite insert_insert_eq.
Qed.

Lemma play_size l r :
  (N.of_nat (size l) < maxClients)%N →
  (size (play cfg l r).2 ≤ S (size l))%nat.
Proof.
  intros Hroom. rewrite play_room by done. simpl. rewrite map_size_insert.
  destruct (l !! rd_key r); simpl; lia.
Qed.

Context (Hcfg : cfg_ok).

Definition request_level (c : clientBuckets) (t : Z) : Q :=
  level (RequestsPerMinute cfg) (Burst cfg) (requests c) t.
Definition failure_level (c : clientBuckets) (t : Z) : Q :=
  level (FailuresPerMinute cfg) (FailureBurst cfg) (failures c) t.
Definition one_if (b : bool) : Q := if b then 1 else 0.

Lemma levels_later c t t' : (t ≤ t')%Z →
  (request_level c t' <= request_level c t + Minutes (t' - t) * RequestsPerMinute cfg)%Q ∧
  (failure_level c t' <= failure_level c t + Minutes (t' - t) * FailuresPerMinute cfg)%Q.
Proof. destruct Hcfg as (? & ? & ? & ?). intros Ht. split; by apply level_later. Qed.

(** Both buckets after an attempt: within the levels, a request token less if
    it was let through. *)
Lemma attempt_spec t now c ok c' :
  client_ok t c → (t ≤ now)%Z → IsZero now = false → attempt now c = (ok, c') →
  client_ok now c' ∧
  (request_level c' now + one_if ok <= request_level c now)%Q ∧
  (failure_level c' now <= failure_level c now)%Q ∧
  (ok = true → 1 <= tokens (failures c') <= FailureBurst cfg)%Q ∧ last (failures c') = now.
Proof.
  destruct Hcfg as (Hr & Hb & Hfr & Hfb). intros [Hreq Hfail] Ht Hz.
  unfold attempt, request_level, failure_level, client_ok.
  pose proof (refill_bounds _ _ Hr Hb _ t now Hreq Ht) as ([Hq0 Hq2] & Hq1 & Hql).
  pose proof (refill_bounds _ _ Hfr Hfb _ t now Hfail Ht) as ([Hf0 Hf2] & Hf1 & Hfl).
  revert Hq0 Hq1 Hq2 Hql Hf0 Hf1 Hf2 Hfl.
  generalize (refill (requests c) now (RequestsPerMinute cfg) (Burst cfg)) as req.
  generalize (refill (failures c) now (FailuresPerMinute cfg) (FailureBurst cfg)) as fail.
  intros [ft fl] [qt ql] Hq0 Hq1 Hq2 Hql Hf0 Hf1 Hf2 Hfl. simpl in *. subst.
  pose proof (refilled_level (RequestsPerMinute cfg) (Burst cfg) qt now Hz) as Hl1.
  pose proof (refilled_level (RequestsPerMinute cfg) (Burst cfg) (qt - 1) now Hz) as Hl2.
  pose proof (refilled_level (FailuresPerMinute cfg) (FailureBurst cfg) ft now Hz) as Hl3.
  unfold take. simpl.
  destruct (Qle_bool 1 ft) eqn:Ef; [destruct (Qle_bool 1 qt) eqn:Er|]; rewrite ?Qle_bool_iff in *;
    intros [= <- <-]; simpl; unfold bucket_ok, one_if; simpl;
    (split_and!; [right; split; [lra|lia]|right; split; [lra|lia]|lra|lra|done|done]).
Qed.

(** A failure leaves the requests alone, *)
Lemma fail_once_ok t now c :
  client_ok t c → (t ≤ now)%Z →
  client_ok now (fail_once now c) ∧ requests (fail_once now c) = requests c.
Proof.
  destruct Hcfg as (Hr & Hb & Hfr & Hfb). intros [Hreq Hfail] Ht.
  pose proof (refill_bounds _ _ Hfr Hfb _ t now Hfail Ht) as ([Hf0 _] & _ & Hfl).
  unfold fail_once, client_ok. simpl. revert Hf0 Hfl.
  generalize (refill (failures c) now (FailuresPerMinute cfg) (FailureBurst cfg)) as fail.
  intros [ft fl] Hf0 Hfl. simpl in *. subst fl. unfold take. simpl.
  split; [split; [by eapply bucket_ok_later|]|done].
  destruct (Qle_bool 1 ft) eqn:E; [rewrite Qle_bool_iff in E|]; right; simpl; split; lra || lia.
Qed.
(** and takes a token of a bucket that had one. *)
Lemma fail_once_takes t now c :
  client_ok t c → (t ≤ now)%Z → IsZero now = false → last (failures c) = t → IsZero t = false →
  (1 <= tokens (failures c) <= FailureBurst cfg)%Q →
  (failure_level (fail_once now c) now + 1 <= failure_level c now)%Q.
Proof.
  destruct Hcfg as (Hr & Hb & Hfr & Hfb). intros [Hreq Hfail] Ht Hz Hlast Hz' Htok.
  pose proof (refill_bounds _ _ Hfr Hfb _ t now Hfail Ht) as (_ & Hf1 & Hfl).
  assert (1 <= tokens (refill (failures c) now (FailuresPerMinute cfg) (FailureBurst cfg)))%Q as Hone.
  { unfold refill. simpl. rewrite Hlast, Hz'. apply Q.min_glb; [lra|].
    assert (0 ≤ Sub now t)%Z as Hs by (unfold Sub, int64_min, int64_max; lia).
    pose proof (Qmult_le_0_compat _ _ (Minutes_nonneg _ Hs) Hfr). lra. }
  unfold fail_once, failure_level in *. simpl. revert Hf1 Hfl Hone.
  generalize (refill (failures c) now (FailuresPerMinute cfg) (FailureBurst cfg)) as fail.
  intros [ft fl] Hf1 Hfl Hone. simpl in *. unfold take. simpl.
  rewrite (proj2 (Qle_bool_iff _ _) Hone). simpl. subst fl.
  pose proof (refilled_level (FailuresPerMinute cfg) (FailureBurst cfg) (ft - 1) now Hz). lra.
Qed.

(** A round: a rejection comes off the level, which grows with time. *)
Definition timed (t : Z) (r : round) : Prop :=
  (t ≤ rd_now r ≤ round_end r)%Z ∧ IsZero (rd_now r) = false ∧ IsZero (round_end r) = false.

Lemma play_client_spec t r c ok c' :
  client_ok t c → timed t r → play_client r c = (ok, c') →
  client_ok (round_end r) c' ∧
  (failure_level c' (round_end r) + one_if (ok && was_rejected r) <=
     failure_level c t + Minutes (round_end r - t) * FailuresPerMinute cfg)%Q.
Proof.
  intros Hc [Hle [Hz Hz']]. unfold play_client, was_rejected.
  destruct (attempt (rd_now r) c) as [ok1 c1] eqn:Hatt.
  destruct (attempt_spec t (rd_now r) _ _ _ Hc ltac:(lia) Hz Hatt) as (Hc1 & _ & Hf1 & Htok & Hlast).
  pose proof (levels_later c t (rd_now r) ltac:(lia)) as [_ Hf0].
  pose proof (levels_later c1 (rd_now r) (round_end r) ltac:(lia)) as [_ Hf2].
  pose proof (Minutes_split t (rd_now r) (round_end r)) as Hm.
  assert (Minutes (round_end r - t) * FailuresPerMinute cfg ==
    Minutes (rd_now r - t) * FailuresPerMinute cfg +
    Minutes (round_end r - rd_now r) * FailuresPerMinute cfg)%Q as Hmf by (rewrite Hm; ring).
  unfold round_end in *. destruct (rd_rejected r) as [at_|] eqn:Hrej; simpl in *.
  - destruct ok1; intros [= <- <-]; simpl in *.
    + pose proof (fail_once_takes (rd_now r) at_ c1 Hc1 ltac:(lia) Hz' Hlast Hz (Htok eq_refl)).
      destruct (fail_once_ok (rd_now r) at_ c1 Hc1) as [Hc2 _]; [lia|].
      unfold one_if in *. by split; [|lra].
    + unfold one_if in *. split; [by eapply client_ok_later; [|exact Hc1]; lia|lra].
  - intros [= <- <-]. rewrite andb_false_r. unfold one_if. by split; [|lra].
Qed.
(** The entry of a client, a fresh one if there is none. *)
Definition entry l (key : string) : clientBuckets := default (fresh 0) (l !! key).

Lemma entry_ok t l key : limiter_ok t l → client_ok t (entry l key).
Proof.
  intros Hl. unfold entry. destruct (l !! key) eqn:E; simpl; [by eapply Hl|apply fresh_ok].
Qed.
Lemma entry_insert l k c key : entry (<[k := c]> l) key = if decide (k = key) then c else entry l key.
Proof. unfold entry. rewrite lookup_insert. by case_decide. Qed.
Lemma play_fresh l r :
  play_client r (default (fresh (rd_now r)) (l !! rd_key r)) = play_client r (entry l (rd_key r)).
Proof. unfold entry. by destruct (l !! rd_key r). Qed.

Lemma in_order_cons t r rs :
  (time_zero < t)%Z → in_order t (r :: rs) →
  timed t r ∧ (time_zero < round_end r)%Z ∧ in_order (round_end r) rs.
Proof.
  unfold timed, round_end, IsZero. simpl. intros Ht [Hle Hrej].
  destruct (rd_rejected r) as [at_|]; simpl; [destruct Hrej|];
    (split_and!; [lia|lia|apply Z.eqb_neq; lia|apply Z.eqb_neq; lia|lia|done]).
Qed.

(** One round, seen from any client. *)
Lemma play_step l r t ok l' key :
  limiter_ok t l → (N.of_nat (size l) < maxClients)%N → timed t r → play cfg l r = (ok, l') →
  limiter_ok (round_end r) l' ∧
  (failure_level (entry l' key) (round_end r) +
     one_if (bool_decide (rd_key r = key) && ok && was_rejected r) <=
     failure_level (entry l key) t + Minutes (round_end r - t) * FailuresPerMinute cfg)%Q.
Proof.
  intros Hl Hroom Hr. rewrite play_room, play_fresh by done. intros [= <- <-].
  destruct (play_client r (entry l (rd_key r))) as [ok c'] eqn:Hp. simpl.
  destruct (play_client_spec t r _ _ _ (entry_ok _ _ _ Hl) Hr Hp) as (Hc & Hf).
  assert (t ≤ round_end r)%Z as Hle by (destruct Hr; lia). split.
  { apply map_Forall_insert_2; [done|]. eapply map_Forall_impl; [exact Hl|].
    intros k c Hkc. by eapply client_ok_later. }
  rewrite entry_insert. case_decide as Hk; [subst key; rewrite bool_decide_eq_true_2 by done|].
  - done.
  - rewrite bool_decide_eq_false_2 by done. unfold one_if. simpl.
    pose proof (levels_later (entry l key) _ _ Hle) as [? ?]. lra.
Qed.

Definition count (n : nat) : Q := inject_Z (Z.of_nat n).
Lemma count_if (b : bool) n : count ((if b then 1 else 0) + n) == one_if b + count n.
Proof. unfold count. rewrite Nat2Z.inj_add, inject_Z_plus. by destruct b. Qed.

Lemma count_rejected_cons key r rs ok oks :
  count_rejected key (r :: rs) (ok :: oks) =
  ((if bool_decide (rd_key r = key) && ok && was_rejected r then 1 else 0) +
   count_rejected key rs oks)%nat.
Proof. unfold count_rejected. simpl. by destruct (_ && _ && _). Qed.

Lemma end_time_le t rs : in_order t rs → (t ≤ end_time t rs)%Z.
Proof.
  revert t. induction rs as [|r rs IH]; intros t; simpl; [lia|]. intros [Hle Hrej].
  unfold round_end. destruct (rd_rejected r); simpl;
    [destruct Hrej as [? Hrej]|]; specialize (IH _ Hrej); lia.
Qed.

(** A whole run, seen from any client. *)
Lemma run_bounds key rs l t oks l' :
  (time_zero < t)%Z → in_order t rs → limiter_ok t l →
  (N.of_nat (size l + List.length rs) <= maxClients)%N → play_all cfg l rs = (oks, l') →
  limiter_ok (end_time t rs) l' ∧
  (failure_level (entry l' key) (end_time t rs) + count (count_rejected key rs oks) <=
     failure_level (entry l key) t + Minutes (end_time t rs - t) * FailuresPerMinute cfg)%Q.
Proof.
  revert l t oks l'. induction rs as [|r rs IH]; intros l t oks l' Ht Hord Hl Hroom; simpl.
  { intros [= <- <-]. rewrite Z.sub_diag. unfold count, count_rejected. simpl.
    pose proof (Minutes_0 (FailuresPerMinute cfg)).
    change (inject_Z (Z.of_nat 0)) with 0%Q. split; [done|lra]. }
  destruct (play cfg l r) as [ok l1] eqn:Hp.
  destruct (play_all cfg l1 rs) as [oks1 l2] eqn:Hps. intros [= <- <-].
  cbn [List.length] in Hroom. apply in_order_cons in Hord as (Hr & Ht1 & Hord); [|done].
  destruct (play_step l r t ok l1 key Hl ltac:(lia) Hr Hp) as (Hl1 & Hf1).
  pose proof (play_size l r ltac:(lia)) as Hsize. rewrite Hp in Hsize. simpl in Hsize.
  destruct (IH l1 _ _ _ Ht1 Hord Hl1 ltac:(lia) Hps) as (Hl2 & Hf2).
  split; [done|].
  pose proof (Minutes_split t (round_end r) (end_time (round_end r) rs)) as Hm.
  change (end_time t (r :: rs)) with (end_time (round_end r) rs).
  rewrite Hm, count_rejected_cons, count_if. lra.
Qed.

Lemma level_nonneg rate burst t b :
  (0 <= rate)%Q → (0 <= burst)%Q → bucket_ok t b → (0 <= level rate burst b t)%Q.
Proof.
  intros Hr Hb Hok. unfold level. destruct (IsZero (last b)) eqn:Ez; [done|].
  destruct Hok as [?|[Htok Hlast]]; [congruence|]. apply Q.min_glb; [done|].
  pose proof (Qmult_le_0_compat _ _ (Minutes_nonneg (t - last b) ltac:(lia)) Hr). lra.
Qed.
Lemma levels_within c t : client_ok t c →
  (0 <= request_level c t <= Burst cfg)%Q ∧ (0 <= failure_level c t <= FailureBurst cfg)%Q.
Proof.
  destruct Hcfg as (? & ? & ? & ?). intros [? ?].
  split; (split; [by apply level_nonneg|apply level_burst]).
Qed.

(** ** Events *)

Lemma allow_attempt key now l : ∀ c l1, client key now l = (c, l1) →
  allow cfg key now l = ((attempt now c).1, <[key := (attempt now c).2]> l1).
Proof.
  intros c l1 E. unfold allow, attempt. rewrite E. by destruct (if Qle_bool _ _ then _ else _).
Qed.

(** Whatever happens, the entries stay sound and the map bounded. *)
Lemma run_event_ok t e l :
  limiter_ok t l → (t ≤ event_time e)%Z → (N.of_nat (size l) <= maxClients)%N →
  IsZero (event_time e) = false →
  limiter_ok (event_time e) (run_event cfg e l).2 ∧
  (N.of_nat (size (run_event cfg e l).2) <= maxClients)%N.
Proof.
  intros Hl Ht Hsize Hz. destruct (client (event_key e) (event_time e) l) as [c l1] eqn:E.
  destruct (client_keeps _ _ _ _ _ _ Hl E) as (Hc & Hl1 & Hk & Hs).
  assert (limiter_ok (event_time e) l1) as Hl1'.
  { eapply map_Forall_impl; [exact Hl1|]. intros k c' Hc'. by eapply client_ok_later. }
  destruct e as [key now|key now]; simpl in *.
  - rewrite (allow_attempt _ _ _ _ _ E). simpl. rewrite (size_update _ _ _ _ Hk).
    destruct (attempt now c) as [ok c'] eqn:Ha.
    destruct (attempt_spec t now c ok c' Hc Ht Hz Ha) as (Hc' & _). split; [|auto].
    by apply map_Forall_insert_2.
  - unfold recordFailure. rewrite E. simpl. rewrite (size_update _ _ _ _ Hk). split; [|auto].
    apply map_Forall_insert_2; [|done]. apply (fail_once_ok t now c Hc Ht).
Qed.

(** With room for another client, an event changes the entry of its own. *)
Lemma run_event_room e l :
  (N.of_nat (size l) < maxClients)%N →
  ∃ c', (run_event cfg e l).2 = <[event_key e := c']> l ∧
  let c := default (fresh (event_time e)) (l !! event_key e) in
  match e with
  | Allow _ now => attempt now c = ((run_event cfg e l).1, c')
  | Failure _ now => fail_once now c = c' ∧ (run_event cfg e l).1 = false
  end.
Proof.
  intros Hroom. destruct e as [key now|key now]; simpl.
  - rewrite (allow_attempt _ _ _ _ _ (client_room key now l Hroom)).
    destruct (attempt now (default (fresh now) (l !! key))) as [ok c'] eqn:Ha.
    exists c'. split; [|done]. simpl. by destruct (l !! key); [|apply insert_insert_eq].
  - unfold recordFailure. rewrite (client_room key now l Hroom).
    eexists. split; [|by split]. by destruct (l !! key); [|apply insert_insert_eq].
Qed.

Lemma request_level_fresh t now l key :
  request_level (default (fresh now) (l !! key)) t = request_level (entry l key) t.
Proof. unfold entry. by destruct (l !! key). Qed.
Lemma default_ok t now l key : limiter_ok t l → client_ok t (default (fresh now) (l !! key)).
Proof. intros Hl. destruct (l !! key) eqn:E; simpl; [by eapply Hl|apply fresh_ok]. Qed.

Lemma event_step e l t key :
  limiter_ok t l → (N.of_nat (size l) < maxClients)%N → (t ≤ event_time e)%Z →
  IsZero (event_time e) = false →
  (request_level (entry (run_event cfg e l).2 key) (event_time e) +
     one_if (bool_decide (event_key e = key) && (run_event cfg e l).1) <=
     request_level (entry l key) t + Minutes (event_time e - t) * RequestsPerMinute cfg)%Q.
Proof.
  intros Hl Hroom Ht Hz. destruct (run_event_room e l Hroom) as (c' & -> & Hc').
  rewrite entry_insert. pose proof (levels_later (entry l key) _ _ Ht) as [Hlater _].
  pose proof (default_ok t (event_time e) l (event_key e) Hl) as Hc.
  case_decide as Hk; [subst key; rewrite bool_decide_eq_true_2 by done|
    rewrite bool_decide_eq_false_2 by done; unfold one_if; simpl; lra].
  rewrite <-(request_level_fresh t (event_time e)) in *.
  rewrite <-(request_level_fresh (event_time e) (event_time e)) in Hlater.
  destruct e as [k now|k now]; simpl in *.
  - destruct (attempt_spec t now _ _ _ Hc Ht Hz Hc') as (_ & Hq & _). lra.
  - destruct Hc' as [<- _]. destruct (fail_once_ok t now _ Hc Ht) as [_ Hreq].
    unfold request_level, one_if in *. rewrite Hreq. lra.
Qed.

Lemma events_bounds key es l t n l' :
  (time_zero < t)%Z → events_from t es → limiter_ok t l →
  (N.of_nat (size l + List.length es) <= maxClients)%N → run_events cfg key es l = (n, l') →
  limiter_ok (last_time t es) l' ∧
  (request_level (entry l' key) (last_time t es) + count n <=
     request_level (entry l key) t + Minutes (last_time t es - t) * RequestsPerMinute cfg)%Q.
Proof.
  revert l t n l'. induction es as [|e es IH]; intros l t n l' Ht Hord Hl Hroom; simpl.
  { intros [= <- <-]. rewrite Z.sub_diag. unfold count. pose proof (Minutes_0 (RequestsPerMinute cfg)).
    change (inject_Z (Z.of_nat 0)) with 0%Q. split; [done|lra]. }
  destruct Hord as [Hle Hord]. cbn [List.length] in Hroom.
  assert (IsZero (event_time e) = false) as Hz by (apply Z.eqb_neq; lia).
  pose proof (event_step e l t key Hl ltac:(lia) Hle Hz) as Hstep.
  pose proof (run_event_ok t e l Hl Hle ltac:(lia) Hz) as [Hl1 _].
  assert (size (run_event cfg e l).2 ≤ S (size l))%nat as Hsize.
  { destruct (run_event_room e l ltac:(lia)) as (c' & -> & _). rewrite map_size_insert.
    destruct (l !! event_key e); simpl; lia. }
  destruct (run_event cfg e l) as [ok l1]. simpl in *.
  destruct (run_events cfg key es l1) as [m l2] eqn:Hes. intros [= <- <-].
  destruct (IH l1 (event_time e) _ _ ltac:(lia) Hord Hl1 ltac:(lia) Hes) as [Hl2 Hq]. split; [done|].
  rewrite (Minutes_split t (event_time e) (last_time (event_time e) es)), count_if. lra.
Qed.
End rounds.

(** ** What the limiter guarantees *)
Section guarantees.
Context `{MapOrder} (cfg : RateLimiterConfig).


(** Brute force: a client that sends one request after the other has at
    most the failure burst and the failure rate times the duration rejected
    with 401 or 403; every further request gets the limiter's 429. *)
Theorem rejections_bounded key l t rs :
  cfg_ok cfg → (time_zero < t)%Z → in_order t rs → limiter_ok t l →
  (N.of_nat (size l + List.length rs) <= maxClients)%N →
  (count (count_rejected key rs (play_all cfg l rs).1) <=
     FailureBurst cfg + Minutes (end_time t rs - t) * FailuresPerMinute cfg)%Q.
Proof.
  intros Hcfg Ht Hord Hl Hroom. destruct (play_all cfg l rs) as [oks l'] eqn:Hrs.
  destruct (run_bounds cfg Hcfg key rs l t oks l' Ht Hord Hl Hroom Hrs) as [Hl' Hq].
  pose proof (levels_within cfg Hcfg _ _ (entry_ok _ l' key Hl')) as [_ [? _]].
  pose proof (levels_within cfg Hcfg _ _ (entry_ok _ l key Hl)) as [_ [_ ?]]. simpl. lra.
Qed.

(** The state stays well-formed: no bucket holds a negative number of tokens
    or a time of the future, and the map never tracks more than maxClients
    addresses, evictions included. *)
Theorem limiter_stays_bounded t e l :
  cfg_ok cfg → limiter_ok t l → (N.of_nat (size l) <= maxClients)%N →
  (t ≤ event_time e)%Z → (time_zero < event_time e)%Z →
  limiter_ok (event_time e) (run_event cfg e l).2 ∧
  (N.of_nat (size (run_event cfg e l).2) <= maxClients)%N.
Proof.
  intros Hcfg Hl Hsize Ht Hz. apply run_event_ok with t; try done. apply Z.eqb_neq. lia.
Qed.

(** A bucket left alone for [d] holds a token. *)
Lemma refill_after rate burst b t d :
  bucket_ok t b → (0 ≤ d ≤ int64_max)%Z → (1 <= burst)%Q → (0 <= rate)%Q →
  (1 <= Minutes d * rate)%Q → (1 <= tokens (refill b (t + d) rate burst))%Q.
Proof.
  intros Hok Hd Hb Hr Hm. unfold refill. simpl. destruct (IsZero (last b)) eqn:Ez; [done|].
  destruct Hok as [?|[Htok Hlast]]; [congruence|]. apply Q.min_glb; [done|].
  assert (d ≤ Sub (t + d) (last b))%Z as Hs by (unfold Sub, int64_min, int64_max in *; lia).
  apply Minutes_le in Hs. pose proof (Qmult_le_compat_r _ _ _ Hs Hr). lra.
Qed.


(** No capacity for a whole token is no service. *)
Lemma small_failure_burst key now l : (FailureBurst cfg < 1)%Q → (allow cfg key now l).1 = false.
Proof.
  intros Hsmall. destruct (client key now l) as [c l1] eqn:E.
  rewrite (allow_attempt _ _ _ _ _ _ E). unfold attempt.
  assert (Qle_bool 1 (tokens (refill (failures c) now (FailuresPerMinute cfg) (FailureBurst cfg)))
    = false) as ->; [|done].
  apply not_true_iff_false. rewrite Qle_bool_iff. unfold refill. simpl.
  destruct (IsZero _); [lra|]. pose proof (Q.le_min_l (FailureBurst cfg)
    (tokens (failures c) + Minutes (Sub now (last (failures c))) * FailuresPerMinute cfg)). lra.
Qed.
End guarantees.

(** ** What the environment can set *)

Lemma or_default_pos q d : (0 < d)%Q → (0 < or_default q d)%Q.
Proof.
  intros Hd. unfold or_default. destruct (Qle_bool q 0) eqn:E; [done|].
  apply Qnot_le_lt. intros Hq. apply Qle_bool_iff in Hq. congruence.
Qed.
Lemma or_default_ge1 q d : (1 <= d)%Q → (1 <= q ∨ q <= 0)%Q → (1 <= or_default q d)%Q.
Proof.
  intros Hd Hq. unfold or_default. destruct (Qle_bool q 0) eqn:E; [done|].
  destruct Hq as [?|Hq]; [done|]. apply Qle_bool_iff in Hq. congruence.
Qed.
Lemma NewRateLimiter_ok cfg :
  (1 <= Burst cfg ∨ Burst cfg <= 0)%Q →
  cfg_ok (NewRateLimiter cfg).1 ∧ (1 <= Burst (NewRateLimiter cfg).1)%Q.
Proof.
  intros Hb. split; [|by apply or_default_ge1].
  repeat split; apply Qlt_le_weak, or_default_pos; reflexivity.
Qed.
Lemma failures_burst Getenv cfg : Burst (failures_from_env Getenv cfg) = Burst cfg.
Proof. unfold failures_from_env. by repeat case_match. Qed.

(** Every limiter that main.go sets up has positive rates and capacities
    that the bounds above need, room for at least one request, and starts
    without clients. *)
Theorem setup_limits Getenv cfg l :
  setupRateLimit Getenv = Some (cfg, l) ∨ setupDownloadRateLimit Getenv = Some (cfg, l) →
  cfg_ok cfg ∧ (1 <= Burst cfg)%Q ∧ l = ∅.
Proof.
  assert (∀ c, (1 <= Burst c ∨ Burst c <= 0)%Q → NewRateLimiter c = (cfg, l) →
    cfg_ok cfg ∧ (1 <= Burst cfg)%Q ∧ l = ∅) as Hnew.
  { intros c Hc E. destruct (NewRateLimiter_ok c Hc) as [Hok Hb]. rewrite E in Hok, Hb.
    split; [done|]. split; [done|]. by injection E. }
  unfold setupRateLimit, setupDownloadRateLimit.
  intros [E|E]; destruct (rate_from_env _ _); try discriminate E; apply (inj Some) in E;
    (eapply Hnew; [|exact E]); left; cbn -[Qmax]; rewrite ?failures_burst; cbn -[Qmax];
    try discriminate.
  - pose proof (Q.le_max_l 10 (q / 3)). lra.
  - pose proof (Q.le_max_l 1 (q / 2)). lra.
Qed.

(** A failure rate below one per minute, which main.go accepts as it is,
    becomes a failure burst below one token: every request of every client is
    refused, at all times. *)
Theorem low_failure_rate_refuses_all `{MapOrder} Getenv q :
  Getenv envRatePerMinute = "" → ParseFloat (Getenv envFailPerMinute) = Some q →
  (0 < q < 1)%Q →
  ∃ cfg, setupRateLimit Getenv = Some (cfg, ∅) ∧
  ∀ key now l, (allow cfg key now l).1 = false.
Proof.
  intros Hrate Hfail [Hpos Hsmall].
  assert (Getenv envFailPerMinute ≠ "") as Hne by (intros E; by rewrite E in Hfail).
  assert (Qle_bool q 0 = false) as Hq.
  { apply not_true_iff_false. rewrite Qle_bool_iff. lra. }
  unfold setupRateLimit, rate_from_env. rewrite Hrate. simpl.
  eexists. split; [reflexivity|]. intros key now l. apply small_failure_burst. simpl.
  unfold failures_from_env. rewrite bool_decide_eq_false_2, Hfail, Hq by done. simpl.
  unfold or_default. by rewrite Hq.
Qed.

(** ** Concrete runs *)
Definition toy_env (name : string) : string :=
  if bool_decide (name = envFailPerMinute) then "0.5" else "".
Definition default_limits : RateLimiterConfig := (NewRateLimiter DefaultRateLimiterConfig).1.
Notation toy_allow k t := (Allow k (t * Second)%Z).

Lemma default_limits_ok : cfg_ok default_limits.
Proof. apply NewRateLimiter_ok. left. discriminate. Qed.

(** Twenty-two requests at once: two are refused, and one more a second later
    is served. *)
Definition toy_burst : list event :=
  repeat (toy_allow "10.0.0.1" 0) 22 ++ [toy_allow "10.0.0.2" 0; Failure "10.0.0.1" 0;
    toy_allow "10.0.0.1" 1].
Notation toy_served :=
  (run_events (H := key_order) default_limits "10.0.0.1" toy_burst ∅).1 (only parsing).
Example toy_served_count : toy_served = 21%nat.
Proof. vm_compute. reflexivity. Qed.

(** Eleven rejected logins within eleven milliseconds: the last is not let in. *)
Definition toy_guesses : list round :=
  List.map (λ n, {| rd_key := "10.0.0.1"; rd_now := (Z.of_nat n * Millisecond)%Z;
                    rd_rejected := Some (Z.of_nat n * Millisecond)%Z |}) (seq 0 11).
Notation toy_guess_run := (play_all (H := key_order) default_limits ∅ toy_guesses).1 (only parsing).
Example toy_guess_run_stops : toy_guess_run = repeat true 10 ++ [false].
Proof. vm_compute. reflexivity. Qed.
Lemma rejections_bounded_witness :
  (count (count_rejected "10.0.0.1" toy_guesses toy_guess_run) < 11)%Q.
Proof.
  eapply Qle_lt_trans; [apply (rejections_bounded (H := key_order) default_limits "10.0.0.1" ∅ 0)|].
  - apply default_limits_ok.
  - reflexivity.
  - repeat split; discriminate.
  - apply map_Forall_empty.
  - discriminate.
  - vm_compute. reflexivity.
Defined.

Lemma limiter_stays_bounded_witness :
  limiter_ok (1 * Second) (run_event (H := key_order) default_limits (toy_allow "a" 1) ∅).2 ∧
  (N.of_nat (size (run_event (H := key_order) default_limits (toy_allow "a" 1) ∅).2) <= maxClients)%N.
Proof.
  apply (limiter_stays_bounded (H := key_order) default_limits 0 (toy_allow "a" 1)).
  - apply default_limits_ok.
  - apply map_Forall_empty.
  - discriminate.
  - discriminate.
  - reflexivity.
Defined.

(** Locked out after the guesses, served again six seconds after the last. *)
Definition toy_locked : RateLimiter := (play_all (H := key_order) default_limits ∅ toy_guesses).2.

Lemma setup_limits_witness : ∃ cfg l,
  setupRateLimit toy_env = Some (cfg, l) ∧ cfg_ok cfg ∧ (1 <= Burst cfg)%Q ∧ l = ∅.
Proof.
  do 2 eexists. split; [reflexivity|]. eapply (setup_limits toy_env). left. reflexivity.
Defined.

Lemma low_failure_rate_refuses_all_witness : ∃ cfg, setupRateLimit toy_env = Some (cfg, ∅) ∧
  ∀ key now l, (allow (H := key_order) cfg key now l).1 = false.
Proof.
  apply (low_failure_rate_refuses_all (H := key_order) toy_env (5 # 10)).
  - reflexivity.
  - vm_compute. reflexivity.
  - split; reflexivity.
Defined.
