(* ===== verification/SignAPI.v ===== *)
(** * Certificate issuance over HTTP (internal/api: sign.go, sign_ci.go)

    [handleSignUser] exchanges an ID token, [handleSignCI] a GitLab job token
    for a certificate. Logging is left out; a refused request is answered with
    the code's status and text. *)
From S2P Require Export Http StoreCIGrants.

Local Open Scope string_scope.
Local Open Scope list_scope.

Record signUserRequest := { sreq_PublicKey : string; sreq_ValiditySeconds : Z }.

Definition defaultUserValidity : Z := (16 * Hour)%Z.
Definition defaultCIValidity : Z := Hour.
Definition signBackdate : Z := Minute.

Definition noGrantsMessage (groups : list string) : string :=
  match groups with
  | [] => "no access grants for this user — the token carries no groups claim; check that the client requests the `groups` scope (config.yaml: scopes) and that the IdP releases it — certificate will not be issued"
  | _ => "no access grants for this user — certificate will not be issued"
  end.

Definition userExtensions : gmap string string := list_to_map [
  ("permit-X11-forwarding", ""); ("permit-agent-forwarding", "");
  ("permit-port-forwarding", ""); ("permit-pty", ""); ("permit-user-rc", "")].

(** The highest lifetime of the grants; the loop starts at 0. *)
Definition maxGrantValidity (grants : list AccessGrant) : Z :=
  foldl (λ allowed g, if (allowed <? AccessGrant_MaxValidity g)%Z
                      then AccessGrant_MaxValidity g else allowed) 0%Z grants.
Definition maxCIGrantValidity (grants : list CIGrant) : Z :=
  foldl (λ allowed g, if (allowed <? CIGrant_MaxValidity g)%Z
                      then CIGrant_MaxValidity g else allowed) 0%Z grants.

(** The requested lifetime, or the default, capped by what the grants allow. *)
Definition capped_validity (default requested allowed : Z) : Z :=
  let validity := if (0 <? requested)%Z then seconds requested else default in
  if (allowed <? validity)%Z then allowed else validity.

Section sign.
Context `{Crypto} `{UUIDs}.

(** The key and the request, or the 400 answer. *)
Definition decodeSignRequest (r : Request) : sum Response (PublicKey * signUserRequest) :=
  match (j ← decode_body maxRequestBody r; m ← struct_members j;
         key ← dec_field dec_string "public_key" "" m;
         secs ← dec_field dec_int64 "validity_seconds" 0%Z m; Some (key, secs)) with
  | None => inl (HttpError "request body invalid" StatusBadRequest)
  | Some (key, secs) =>
      match parse_authorized_key key with
      | None => inl (HttpError "public_key invalid (authorized_keys format expected)"
                       StatusBadRequest)
      | Some publicKey =>
          if key_is_cert publicKey
          then inl (HttpError "public_key is already a certificate" StatusBadRequest)
          else inr (publicKey, {| sreq_PublicKey := key; sreq_ValiditySeconds := secs |})
      end
  end.

(** What both handlers do with the result of [Issue]. *)
Definition sign_response (issued : result (SSHCertificate * Certificate)) : Response :=
  match issued with
  | Ok (cert, record) => {| status := StatusOK; content := Signed {|
      resp_Certificate := cert; resp_Serial := crt_Serial record;
      resp_KeyID := crt_KeyID record; resp_Principals := crt_Principals record;
      resp_ValidAfter := crt_ValidAfter record; resp_ValidBefore := crt_ValidBefore record |} |}
  | Err e =>
      match errors_As_violation e with
      | Some (rt, why) => {| status := StatusBadRequest; content := PolicyText rt why |}
      | None => internalError
      end
  end.

Definition user_request (key : PublicKey) (claims : Claims) (validAfter validity : Z)
    : CertRequest := {|
  CertType := CertTypeUser; RequestKey := Some key;
  KeyID := UserKeyID (claims_Subject claims) (claims_Issuer claims);
  Principals := Claims_Principals claims; ValidAfter := validAfter;
  ValidBefore := Add validAfter validity; Extensions := userExtensions;
  CriticalOptions := ∅; Serial := 0 |}.
Definition user_ref (claims : Claims) (user : User) : IssueRef := {|
  ref_Actor := UserKeyID (claims_Subject claims) (claims_Issuer claims);
  ref_UserID := Some (user_ID user); ref_ServiceAccountID := None; ref_HostID := None;
  ref_Context := [("email", JStr (claims_Email claims)); ("groups", JStrs (claims_Groups claims));
                  ("issuer", JStr (claims_Issuer claims))] |}.

Definition handleSignUser (ca : CA) `{!TokenVerifier Claims} (r : Request) : M Response :=
  match bearerToken r with
  | None => ret (HttpError "authorization: bearer token missing" StatusUnauthorized)
  | Some rawToken =>
  let* verified := try (token_Verify rawToken) in
  match verified with
  | Err _ => ret (HttpError "id token invalid" StatusUnauthorized)
  | Ok claims =>
  match decodeSignRequest r with
  | inl response => ret response
  | inr (publicKey, req) =>
  let* mapped := try (EnsureUser claims) in
  match mapped with
  | Err e => ret (if errors_Is e ErrUserInactive
                  then HttpError "user is disabled" StatusForbidden else internalError)
  | Ok user =>
  let* listed := try (ListGrantsForUser (user_ID user)) in
  match listed with
  | Err _ => ret internalError
  | Ok [] => ret (HttpError (noGrantsMessage (claims_Groups claims)) StatusForbidden)
  | Ok userGrants =>
      let validity := capped_validity defaultUserValidity (sreq_ValiditySeconds req)
                        (maxGrantValidity userGrants) in
      let* now := time_Now in
      let* issued := try (Issue ca RequesterUser
        (user_request publicKey claims (Add now (- signBackdate)) validity)
        (user_ref claims user)) in
      ret (sign_response issued)
  end end end end end.

Definition ci_request (key : PublicKey) (claims : CIClaims) (validAfter validBefore : Z)
    : CertRequest := {|
  CertType := CertTypeUser; RequestKey := Some key;
  KeyID := CIKeyID (ci_ProjectPath claims) (ci_PipelineID claims) (ci_JobID claims);
  Principals := CIPrincipals (ci_ProjectPath claims); ValidAfter := validAfter;
  ValidBefore := validBefore; Extensions := {["permit-pty" := ""]};
  CriticalOptions := ∅; Serial := 0 |}.
Definition ci_ref (claims : CIClaims) (account : ServiceAccount) : IssueRef := {|
  ref_Actor := CIKeyID (ci_ProjectPath claims) (ci_PipelineID claims) (ci_JobID claims);
  ref_UserID := None; ref_ServiceAccountID := Some (sa_ID account); ref_HostID := None;
  ref_Context := [("environment", JStr (ci_Environment claims)); ("issuer", JStr (ci_Issuer claims));
    ("job_id", JStr (ci_JobID claims)); ("pipeline_id", JStr (ci_PipelineID claims));
    ("project_path", JStr (ci_ProjectPath claims)); ("ref", JStr (ci_Ref claims));
    ("ref_protected", JBool (ci_RefProtected claims)); ("user_login", JStr (ci_UserLogin claims))] |}.

(** GitLab sets the token expiry to the job timeout. *)
Definition cap_to_expiry (validBefore expiresAt : Z) : Z :=
  if negb (IsZero expiresAt) && After validBefore expiresAt then expiresAt else validBefore.

Definition handleSignCI (ca : CA) `{!TokenVerifier CIClaims} (r : Request) : M Response :=
  match bearerToken r with
  | None => ret (HttpError "authorization: bearer token missing" StatusUnauthorized)
  | Some rawToken =>
  let* verified := try (token_Verify rawToken) in
  match verified with
  | Err _ => ret (HttpError "job token invalid" StatusUnauthorized)
  | Ok claims =>
  match decodeSignRequest r with
  | inl response => ret response
  | inr (publicKey, req) =>
  let* matched := try (MatchCIGrants {|
    match_ProjectPath := ci_ProjectPath claims; match_Ref := ci_Ref claims;
    match_RefProtected := ci_RefProtected claims; match_Environment := ci_Environment claims |}) in
  match matched with
  | Err _ => ret internalError
  | Ok [] => ret (HttpError "no matching ci grant for this project/ref — certificate will not be issued" StatusForbidden)
  | Ok grants =>
  let* ensured := try (EnsureCIServiceAccount (ci_Issuer claims) (ci_ProjectPath claims)) in
  match ensured with
  | Err _ => ret internalError
  | Ok account =>
      if negb (sa_Active account)
      then ret (HttpError "ci access for this project is disabled" StatusForbidden)
      else
        let validity := capped_validity defaultCIValidity (sreq_ValiditySeconds req)
                          (maxCIGrantValidity grants) in
        let* now := time_Now in
        let validAfter := Add now (- signBackdate) in
        let validBefore := cap_to_expiry (Add validAfter validity) (ci_ExpiresAt claims) in
        if negb (After validBefore validAfter)
        then ret (HttpError "job token expires too soon for a certificate" StatusBadRequest)
        else
          let* issued := try (Issue ca RequesterCI
            (ci_request publicKey claims validAfter validBefore) (ci_ref claims account)) in
          ret (sign_response issued)
  end end end end end.
End sign.

(** ** Lemmas *)

(** The handlers look at every error: the computation never fails. *)
Lemma bind_try `{Crypto} {A B} (m : M A) (k : result A → M B) w :
  bind (try m) k w = let '(r, w1) := m w in k r w1.
Proof. unfold bind, try. by destruct (m w). Qed.

(** The maximum starts at zero and is reached by a grant when it is positive. *)
Lemma max_validity_reached {G} (f : G → Z) gs acc :
  let m := foldl (λ allowed g, if (allowed <? f g)%Z then f g else allowed) acc gs in
  (acc ≤ m)%Z ∧ (m = acc ∨ ∃ g, g ∈ gs ∧ f g = m).
Proof.
  revert acc. induction gs as [|g gs IH]; intros acc; simpl; [auto with lia|].
  destruct (IH (if (acc <? f g)%Z then f g else acc)) as [Hle Hor].
  destruct (Z.ltb_spec acc (f g)); (split; [lia|]).
  - destruct Hor as [->|(g' & ? & ?)]; right; [exists g|exists g']; split; set_solver.
  - destruct Hor as [->|(g' & ? & ?)]; [by left|right; exists g'; split; set_solver].
Qed.

Lemma capped_validity_bound default requested allowed :
  (capped_validity default requested allowed ≤ allowed)%Z.
Proof. unfold capped_validity. destruct (Z.ltb_spec allowed (if (0 <? requested)%Z then seconds requested else default)); lia. Qed.

(** A positive lifetime within the cap is within one grant's maximum. *)
Lemma capped_by_a_grant {G} (f : G → Z) gs default requested :
  (0 < capped_validity default requested
     (foldl (λ allowed g, if (allowed <? f g)%Z then f g else allowed) 0 gs))%Z →
  ∃ g, g ∈ gs ∧ (capped_validity default requested
     (foldl (λ allowed g, if (allowed <? f g)%Z then f g else allowed) 0 gs) ≤ f g)%Z.
Proof.
  intros Hpos. pose proof (capped_validity_bound default requested
    (foldl (λ allowed g, if (allowed <? f g)%Z then f g else allowed) 0%Z gs)) as Hb.
  destruct (max_validity_reached f gs 0) as [Hle [Heq|(g & Hg & Heq)]]; [lia|].
  exists g. split; [done|]. lia.
Qed.

(** ** What issuance and the mapping leave alone *)
Definition identity_kept : relation Db := λ db db',
  users db' = users db ∧ groups db' = groups db ∧ user_groups db' = user_groups db ∧
  access_grants db' = access_grants db ∧ ci_grants db' = ci_grants db ∧
  service_accounts db' = service_accounts db.
#[export] Instance identity_kept_preorder : PreOrder identity_kept.
Proof.
  split; [done|]. intros a b c (?&?&?&?&?&?) (?&?&?&?&?&?). unfold identity_kept. split_and!; congruence.
Qed.
#[export] Instance certificates_identity : KeepsTable identity_kept certificates_table.
Proof. by intros l db. Qed.

Definition certs_kept : relation Db := λ db db', certificates db' = certificates db.
#[export] Instance certs_kept_preorder : PreOrder certs_kept.
Proof. split; [done|]. intros a b c ? ?. unfold certs_kept in *. congruence. Qed.
#[export] Instance users_certs : KeepsTable certs_kept users_table.
Proof. by intros l db. Qed.
#[export] Instance groups_certs : KeepsTable certs_kept groups_table.
Proof. by intros l db. Qed.
#[export] Instance user_groups_certs : KeepsTable certs_kept user_groups_table.
Proof. by intros l db. Qed.
#[export] Instance service_accounts_certs : KeepsTable certs_kept service_accounts_table.
Proof. by intros l db. Qed.

Section frames.
Context `{Crypto} `{UUIDs}.

(** Issuance writes certificates and audit events only. *)
Lemma keeps_Issue (R : relation Db) `{!PreOrder R} ca rt req ref :
  KeepsTable R certificates_table → KeepsTable R audit_events_table →
  Keeps R (Issue ca rt req ref).
Proof.
  intros Hc Ha.
  assert (Keeps R NextCertificateSerial) as HN.
  { apply keeps_stmt; [apply _|]. intros w. simpl. reflexivity. }
  assert (∀ e, Keeps R (insertAuditEvent e)) as HA.
  { intros e. apply keeps_stmt; [apply _|]. intros w. apply Ha. }
  assert (∀ p, Keeps R (activeSigner ca p)) as HS.
  { intros p w. destruct (activeSigner ca p w) as [r w'] eqn:E.
    apply activeSigner_run in E as (Hdb & _). simpl. rewrite Hdb. reflexivity. }
  assert (Keeps R (validate_now ca rt req)) as HV by (unfold validate_now; apply _).
  unfold Issue, CreateCertificateWithAudit, insertCertificate. apply _.
Qed.
#[export] Instance Issue_identity ca rt req ref : Keeps identity_kept (Issue ca rt req ref).
Proof. apply keeps_Issue; by try apply _. Qed.

#[export] Instance EnsureUser_certs c : Keeps certs_kept (EnsureUser c).
Proof.
  assert (∀ i n, Keeps certs_kept (ensureGroup i n)) as HG.
  { intros i n. unfold ensureGroup, GetGroupByName, CreateGroup.
    apply keeps_bind; [apply _..|]. intros [g|e]; [apply _|]. destruct (errors_Is _ _); apply _. }
  assert (Keeps certs_kept (ensure_account c)) as HA.
  { unfold ensure_account, GetUserBySubject, CreateUser, UpdateUser.
    apply keeps_bind; [apply _..|]. intros [u|e].
    - destruct (negb _); [apply _|]. destruct (_ || _); apply _.
    - destruct (errors_Is _ _); apply _. }
  unfold EnsureUser, ensureGroups, SetUserGroups. apply _.
Qed.

#[export] Instance EnsureCIServiceAccount_certs i p :
  Keeps certs_kept (EnsureCIServiceAccount i p).
Proof. unfold EnsureCIServiceAccount. apply _. Qed.
End frames.

(** ** The last step of both handlers *)
Definition not_signed (resp : Response) : Prop :=
  match content resp with Signed _ => False | _ => status resp ≠ StatusOK end.

Section tail.
Context `{Crypto} `{UUIDs}.

Lemma sign_tail ca rt req ref w o w' :
  bind (try (Issue ca rt req ref)) (λ issued, ret (sign_response issued)) w = (o, w') →
  identity_kept (w_db w) (w_db w') ∧ ∃ resp, o = Ok resp ∧
  (not_signed resp ∧ certificates (w_db w') = certificates (w_db w) ∨
   ∃ s now, content resp = Signed s ∧ status resp = StatusOK ∧
     Validate (ca_policies ca) now rt req = Ok () ∧
     Some (cert_Key (resp_Certificate s)) = RequestKey req ∧
     cert_ValidPrincipals (resp_Certificate s) = Principals req ∧ resp_KeyID s = KeyID req ∧
     resp_ValidAfter s = ValidAfter req ∧ resp_ValidBefore s = ValidBefore req).
Proof.
  rewrite bind_try. pose proof (keeps (R := identity_kept) (m := Issue ca rt req ref) w) as Hk.
  destruct (Issue ca rt req ref w) as [[[cert record]|e] w1] eqn:Ei; simpl in Hk;
    unfold ret; intros [= <- <-]; (split; [done|]); eexists; (split; [done|]).
  - right. apply Issue_Ok in Ei as (s & serial & id & now & Hv & _ & Hs & -> & _).
    apply Sign_Ok in Hs as (? & _ & _ & _ & ? & _).
    eexists _, _. split_and!; [reflexivity|done|exact Hv|done..].
  - left. split; [|by eapply f_equal, Issue_Err].
    unfold not_signed, sign_response. by destruct (errors_As_violation e) as [[]|].
Qed.

Lemma positive_lifetime policies now rt req :
  Validate policies now rt req = Ok () → (ValidAfter req < ValidBefore req)%Z.
Proof. by intros (? & _ & _ & _ & _ & _ & _ & _ & ? & _)%Validate_Ok_iff. Qed.

Lemma decodeSignRequest_plain r key req :
  decodeSignRequest r = inr (key, req) → key_is_cert key = false.
Proof.
  unfold decodeSignRequest. repeat (case_match; try done). by intros [= <- _].
Qed.
Lemma decodeSignRequest_refused r resp : decodeSignRequest r = inl resp → not_signed resp.
Proof.
  unfold decodeSignRequest. repeat (case_match; try done); by intros [= <-].
Qed.
End tail.

(** Issuing under the user's grants, from the reading of the clock on. *)
Lemma sign_user_tail `{Crypto} `{UUIDs} ca claims key user gs requested w o w' :
  (let* now := time_Now in
   let* issued := try (Issue ca RequesterUser
     (user_request key claims (Add now (- signBackdate))
        (capped_validity defaultUserValidity requested (maxGrantValidity gs)))
     (user_ref claims user)) in
   ret (sign_response issued)) w = (o, w') →
  identity_kept (w_db w) (w_db w') ∧ ∃ resp, o = Ok resp ∧
  (not_signed resp ∧ certificates (w_db w') = certificates (w_db w) ∨
   ∃ s now g, content resp = Signed s ∧ status resp = StatusOK ∧ g ∈ gs ∧
     (0 < resp_ValidBefore s - resp_ValidAfter s ≤ AccessGrant_MaxValidity g)%Z ∧
     resp_KeyID s = UserKeyID (claims_Subject claims) (claims_Issuer claims) ∧
     cert_ValidPrincipals (resp_Certificate s) = Claims_Principals claims ∧
     cert_Key (resp_Certificate s) = key ∧
     Validate (ca_policies ca) now RequesterUser (user_request key claims
       (resp_ValidAfter s) (resp_ValidBefore s - resp_ValidAfter s)) = Ok ()).
Proof.
  intros Hrun. destruct (time_Now_reads w) as (w4 & Ht & Hdb4).
  unfold bind at 1 in Hrun. rewrite Ht in Hrun. apply sign_tail in Hrun as (Hk & resp & -> & Hor).
  rewrite Hdb4 in *. split; [done|]. exists resp. split; [done|].
  destruct Hor as [Hor|(s & now & Hs & Hst & Hv & Hkey & Hp & Hid & Hva & Hvb)]; [by left|right].
  pose proof (positive_lifetime _ _ _ _ Hv) as Hpos. simpl in *. unfold Add in *.
  destruct (capped_by_a_grant AccessGrant_MaxValidity gs defaultUserValidity requested)
    as (g & Hg & Hle); [unfold maxGrantValidity in *; lia|]. simplify_eq.
  exists s, now, g. rewrite Hva, Hvb. unfold maxGrantValidity in *.
  split_and!; [done..|lia|lia|done|done|done|].
  match goal with |- context [(?a + ?b - ?a)%Z] => replace (a + b - a)%Z with b by lia end. done.
Qed.

(** One step of a handler: a refusal answers, the rest goes on. *)
Ltac refused := unfold ret in *; simplify_eq; eexists; (split; [reflexivity|]).

(** An answer given before anything was written, and any answer. *)
Ltac unchanged := unfold ret in *; simplify_eq; split; [by eexists|by left].
Ltac answered := unfold ret in *; simplify_eq; by eexists.

(** Nothing is written before the verifier accepted the bearer token. *)
Definition verified_bearer `{Crypto} {C} `{!TokenVerifier C} (r : Request) (w : World) : Prop :=
  ∃ raw claims w1, bearerToken r = Some raw ∧ token_Verify raw w = (Ok claims, w1).
Lemma sign_user_changes `{Crypto} `{UUIDs} `{!TokenVerifier Claims} ca r w o w' :
  handleSignUser ca r w = (o, w') →
  (∃ resp, o = Ok resp) ∧ (w_db w' = w_db w ∨ verified_bearer r w).
Proof.
  unfold handleSignUser. destruct (bearerToken r) as [raw|] eqn:Eb; [|intros Hrun; unchanged].
  rewrite bind_try. destruct (token_frames raw w) as [Hdb _].
  destruct (token_Verify raw w) as [[claims|e] w1] eqn:Ev; intros Hrun; simpl in Hdb;
    [|unchanged].
  assert (verified_bearer r w) as Hv by (by exists raw, claims, w1).
  split; [|by right]. clear Hv Ev Hdb. destruct (decodeSignRequest r) as [resp|[key req]]; [answered|].
  rewrite bind_try in Hrun. destruct (EnsureUser claims w1) as [[user|e] w2]; [|answered].
  rewrite bind_try in Hrun. destruct (ListGrantsForUser _ w2) as [[[|g gs]|e] w3]; [answered| |answered].
  apply sign_user_tail in Hrun as (_ & resp & -> & _). by exists resp.
Qed.

(** ** Properties *)

(** What stands behind a user certificate: the submitted plain public key, an accepted
    token, an active account with the token's groups, and one of its grants. *)
Definition granted_to_user `{Crypto} `{UUIDs} `{!TokenVerifier Claims} ca r w w' (s : signUserResponse) : Prop :=
  ∃ raw claims w1 user g now req,
    bearerToken r = Some raw ∧ token_Verify raw w = (Ok claims, w1) ∧
    decodeSignRequest r = inr (cert_Key (resp_Certificate s), req) ∧
    user_Issuer user = claims_Issuer claims ∧ user_Subject user = claims_Subject claims ∧
    user_Active user = true ∧ user_rows_of (w_db w') (user_ID user) = [user] ∧
    holds_groups (w_db w') (user_ID user) (claims_Issuer claims) (claims_Groups claims) ∧
    g ∈ grants_of_user (w_db w') (user_ID user) ∧
    (0 < resp_ValidBefore s - resp_ValidAfter s ≤ AccessGrant_MaxValidity g)%Z ∧
    resp_KeyID s = UserKeyID (claims_Subject claims) (claims_Issuer claims) ∧
    cert_ValidPrincipals (resp_Certificate s) = Claims_Principals claims ∧
    key_is_cert (cert_Key (resp_Certificate s)) = false ∧
    Validate (ca_policies ca) now RequesterUser (user_request (cert_Key (resp_Certificate s))
      claims (resp_ValidAfter s) (resp_ValidBefore s - resp_ValidAfter s)) = Ok ().
Lemma sign_user_run `{Crypto} `{UUIDs} `{!TokenVerifier Claims} ca r w o w' :
  users_wf w → groups_wf w → handleSignUser ca r w = (o, w') →
  ∃ resp, o = Ok resp ∧
  match content resp with
  | Signed s => status resp = StatusOK ∧ granted_to_user ca r w w' s
  | _ => status resp ≠ StatusOK ∧ certificates (w_db w') = certificates (w_db w)
  end.
Proof.
  intros Husers Hgroups Hrun. unfold handleSignUser in Hrun.
  destruct (bearerToken r) as [raw|] eqn:Eb; [|by refused].
  rewrite bind_try in Hrun. destruct (token_frames raw w) as (Hdb1 & Hu1 & _).
  destruct (token_Verify raw w) as [[claims|e] w1] eqn:Ev; simpl in Hdb1, Hu1;
    [|by refused; simpl; rewrite Hdb1].
  destruct (decodeSignRequest r) as [resp|[key req]] eqn:Ed.
  { apply decodeSignRequest_refused in Ed. refused. unfold not_signed in Ed.
    destruct (content resp); rewrite ?Hdb1; done. }
  rewrite bind_try in Hrun.
  pose proof (keeps (R := certs_kept) (m := EnsureUser claims) w1) as Hc2. unfold certs_kept in Hc2.
  destruct (EnsureUser claims w1) as [[user|e] w2] eqn:Ee; simpl in Hc2; rewrite Hdb1 in Hc2.
  2: { destruct (errors_Is e ErrUserInactive); by refused. }
  apply EnsureUser_Ok in Ee as (Hi & Hs & _ & _ & Ha & Hrow & _ & Hh & _);
    [|unfold users_wf, groups_wf; by rewrite Hdb1, Hu1..].
  rewrite bind_try in Hrun. destruct (ListGrantsForUser (user_ID user) w2) as [[gs|e] w3] eqn:El.
  2: { pose proof (keeps (R := certs_kept) (m := ListGrantsForUser (user_ID user)) w2) as Hc3.
       rewrite El in Hc3. unfold certs_kept in Hc3. simpl in Hc3. refused. simpl. split; [done|congruence]. }
  unfold ListGrantsForUser in El. run_step. destruct gs as [|g0 gs]; [by refused|].
  apply sign_user_tail in Hrun as ((Hus & Hgs & Hug & Hag & _) & resp & -> & Hor).
  subst w3. simpl in *. exists resp. split; [done|].
  destruct Hor as [[Hno Hc]|(s & now & g & -> & Hst & Hg & Hlife & Hid & Hp & Hkey & Hv)].
  { unfold not_signed in Hno. by destruct (content resp); (split; [done|congruence]) || done. }
  split; [done|]. exists raw, claims, w1, user, g, now, req.
  unfold user_rows_of, holds_groups, grants_of_user, member_of in *.
  rewrite Hus, Hgs, Hug, Hag, Hkey. pose proof (decodeSignRequest_plain _ _ _ Ed) as Hplain.
  split_and!; try done; try apply Hh; try lia.
  match goal with Heq : _ :: _ = sort_by _ _ |- _ => by rewrite Heq, sort_by_elem in Hg end.
Qed.

(** C7: a user certificate is only ever issued for a bearer token that the
    verifier accepted, whose subject has an active account with at least one
    access grant; it certifies the submitted plain public key for exactly the
    token's identity principals, its lifetime is positive and within the
    maximum of one of the user's grants, and the request passed the policy.
    Every other answer is no 200 and leaves the certificate table as it was. The
    handler always answers. *)
Theorem sign_user_issues_only_with_grant `{Crypto} `{UUIDs} `{!TokenVerifier Claims} ca r w o w'
  (Husers : users_wf w) (Hgroups : groups_wf w)
  (Hrun : handleSignUser ca r w = (o, w')) :
  ∃ resp, o = Ok resp ∧
  match content resp with
  | Signed s => status resp = StatusOK ∧ ∃ raw claims w1 user g now req,
      bearerToken r = Some raw ∧ token_Verify raw w = (Ok claims, w1) ∧
      decodeSignRequest r = inr (cert_Key (resp_Certificate s), req) ∧
      user_Issuer user = claims_Issuer claims ∧ user_Subject user = claims_Subject claims ∧
      user_Active user = true ∧ user_rows_of (w_db w') (user_ID user) = [user] ∧
      holds_groups (w_db w') (user_ID user) (claims_Issuer claims) (claims_Groups claims) ∧
      g ∈ grants_of_user (w_db w') (user_ID user) ∧
      (0 < resp_ValidBefore s - resp_ValidAfter s ≤ AccessGrant_MaxValidity g)%Z ∧
      resp_KeyID s = UserKeyID (claims_Subject claims) (claims_Issuer claims) ∧
      cert_ValidPrincipals (resp_Certificate s) = Claims_Principals claims ∧
      key_is_cert (cert_Key (resp_Certificate s)) = false ∧
      Validate (ca_policies ca) now RequesterUser (user_request (cert_Key (resp_Certificate s))
        claims (resp_ValidAfter s) (resp_ValidBefore s - resp_ValidAfter s)) = Ok ()
  | _ => status resp ≠ StatusOK ∧ certificates (w_db w') = certificates (w_db w)
  end.
Proof. exact (sign_user_run ca r w o w' Husers Hgroups Hrun). Qed.

(** ** The CI handler *)
Definition ci_grants_kept : relation Db := λ db db', ci_grants db' = ci_grants db.
#[export] Instance ci_grants_kept_preorder : PreOrder ci_grants_kept.
Proof. split; [done|]. intros a b c ? ?. unfold ci_grants_kept in *. congruence. Qed.
#[export] Instance service_accounts_ci_grants : KeepsTable ci_grants_kept service_accounts_table.
Proof. by intros l db. Qed.
#[export] Instance EnsureCIServiceAccount_ci_grants `{Crypto} `{UUIDs} i p :
  Keeps ci_grants_kept (EnsureCIServiceAccount i p).
Proof. unfold EnsureCIServiceAccount. apply _. Qed.

Lemma MatchCIGrants_run `{Crypto} `{UUIDs} m w r w' :
  MatchCIGrants m w = (r, w') → w_db w' = w_db w ∧
  ∀ gs g, r = Ok gs → g ∈ gs → g ∈ ci_grants (w_db w) ∧ Matches g m = true.
Proof.
  intros Hr. split.
  - unfold MatchCIGrants, bind, queryAll, sql_select, stmt, ret in Hr.
    destruct (w_faults w) as [|[]]; by simplify_eq/=.
  - intros gs g -> Hg. unfold MatchCIGrants in Hr. run_all.
    apply filter_bool_In in Hg as [Hg ?]. apply sort_by_elem, filter_bool_In in Hg as [? _]. done.
Qed.

Lemma cap_to_expiry_bound vb e :
  (cap_to_expiry vb e ≤ vb)%Z ∧ (IsZero e = false → cap_to_expiry vb e ≤ e)%Z.
Proof.
  unfold cap_to_expiry, After. destruct (IsZero e); simpl; [lia|].
  destruct (Z.ltb_spec e vb); lia.
Qed.

(** Issuing under the matching grants, from the reading of the clock on. *)
Lemma sign_ci_tail `{Crypto} `{UUIDs} ca claims key account gs requested w o w' :
  (let* now := time_Now in
   let validAfter := Add now (- signBackdate) in
   let validBefore := cap_to_expiry (Add validAfter
     (capped_validity defaultCIValidity requested (maxCIGrantValidity gs))) (ci_ExpiresAt claims) in
   if negb (After validBefore validAfter)
   then ret (HttpError "job token expires too soon for a certificate" StatusBadRequest)
   else
     let* issued := try (Issue ca RequesterCI (ci_request key claims validAfter validBefore)
                           (ci_ref claims account)) in
     ret (sign_response issued)) w = (o, w') →
  identity_kept (w_db w) (w_db w') ∧ ∃ resp, o = Ok resp ∧
  (not_signed resp ∧ certificates (w_db w') = certificates (w_db w) ∨
   ∃ s now g, content resp = Signed s ∧ status resp = StatusOK ∧ g ∈ gs ∧
     (0 < resp_ValidBefore s - resp_ValidAfter s ≤ CIGrant_MaxValidity g)%Z ∧
     (IsZero (ci_ExpiresAt claims) = false → resp_ValidBefore s ≤ ci_ExpiresAt claims)%Z ∧
     cert_Key (resp_Certificate s) = key ∧
     resp_KeyID s = CIKeyID (ci_ProjectPath claims) (ci_PipelineID claims) (ci_JobID claims) ∧
     cert_ValidPrincipals (resp_Certificate s) = CIPrincipals (ci_ProjectPath claims) ∧
     Validate (ca_policies ca) now RequesterCI
       (ci_request key claims (resp_ValidAfter s) (resp_ValidBefore s)) = Ok ()).
Proof.
  intros Hrun. destruct (time_Now_reads w) as (w4 & Ht & Hdb4).
  unfold bind at 1 in Hrun. rewrite Ht in Hrun. cbv zeta in Hrun.
  set (validAfter := Add (w_now w4) _) in *. set (validBefore := cap_to_expiry _ _) in *.
  destruct (negb _) eqn:Epos.
  { unfold ret in Hrun. simplify_eq. rewrite Hdb4. split; [done|]. eexists. split; [done|by left]. }
  apply sign_tail in Hrun as (Hk & resp & -> & Hor). rewrite Hdb4 in *. split; [done|].
  exists resp. split; [done|].
  destruct Hor as [Hor|(s & now & Hs & Hst & Hv & Hkey & Hp & Hid & Hva & Hvb)]; [by left|right].
  unfold After in Epos. bool_to_prop. simpl in *. injection Hkey as Hkey.
  destruct (cap_to_expiry_bound (Add validAfter (capped_validity defaultCIValidity requested
    (maxCIGrantValidity gs))) (ci_ExpiresAt claims)) as [Hb1 Hb2].
  fold validBefore in Hb1, Hb2. unfold Add in Hb1 at 1.
  destruct (capped_by_a_grant CIGrant_MaxValidity gs defaultCIValidity requested)
    as (g & Hg & Hle); [unfold maxCIGrantValidity in *; lia|].
  exists s, now, g. rewrite Hva, Hvb. unfold maxCIGrantValidity in *. by split_and!; try lia.
Qed.

Lemma sign_ci_changes `{Crypto} `{UUIDs} `{!TokenVerifier CIClaims} ca r w o w' :
  handleSignCI ca r w = (o, w') →
  (∃ resp, o = Ok resp) ∧ (w_db w' = w_db w ∨ verified_bearer r w).
Proof.
  unfold handleSignCI. destruct (bearerToken r) as [raw|] eqn:Eb; [|intros Hrun; unchanged].
  rewrite bind_try. destruct (token_frames raw w) as [Hdb _].
  destruct (token_Verify raw w) as [[claims|e] w1] eqn:Ev; intros Hrun; simpl in Hdb;
    [|unchanged].
  assert (verified_bearer r w) as Hv by (by exists raw, claims, w1).
  split; [|by right]. clear Hv Ev Hdb. destruct (decodeSignRequest r) as [resp|[key req]]; [answered|].
  rewrite bind_try in Hrun. destruct (MatchCIGrants _ w1) as [[[|g gs]|e] w2]; [answered| |answered].
  rewrite bind_try in Hrun. destruct (EnsureCIServiceAccount _ _ w2) as [[account|e] w3]; [|answered].
  destruct (negb (sa_Active account)); [answered|].
  apply sign_ci_tail in Hrun as (_ & resp & -> & _). by exists resp.
Qed.

(** What stands behind a CI certificate. *)
Definition granted_to_job `{Crypto} `{UUIDs} `{!TokenVerifier CIClaims} ca r w w' (s : signUserResponse) : Prop :=
  ∃ raw claims w1 account g now req,
    bearerToken r = Some raw ∧ token_Verify raw w = (Ok claims, w1) ∧
    decodeSignRequest r = inr (cert_Key (resp_Certificate s), req) ∧
    account ∈ service_accounts (w_db w') ∧ sa_Name account = ci_ProjectPath claims ∧
    sa_Active account = true ∧
    g ∈ ci_grants (w_db w') ∧ Matches g {| match_ProjectPath := ci_ProjectPath claims;
      match_Ref := ci_Ref claims; match_RefProtected := ci_RefProtected claims;
      match_Environment := ci_Environment claims |} = true ∧
    (0 < resp_ValidBefore s - resp_ValidAfter s ≤ CIGrant_MaxValidity g)%Z ∧
    (IsZero (ci_ExpiresAt claims) = false → resp_ValidBefore s ≤ ci_ExpiresAt claims)%Z ∧
    resp_KeyID s = CIKeyID (ci_ProjectPath claims) (ci_PipelineID claims) (ci_JobID claims) ∧
    cert_ValidPrincipals (resp_Certificate s) = CIPrincipals (ci_ProjectPath claims) ∧
    key_is_cert (cert_Key (resp_Certificate s)) = false ∧
    Validate (ca_policies ca) now RequesterCI (ci_request (cert_Key (resp_Certificate s))
      claims (resp_ValidAfter s) (resp_ValidBefore s)) = Ok ().
Lemma sign_ci_run `{Crypto} `{UUIDs} `{!TokenVerifier CIClaims} ca r w o w' :
  handleSignCI ca r w = (o, w') →
  ∃ resp, o = Ok resp ∧
  match content resp with
  | Signed s => status resp = StatusOK ∧ granted_to_job ca r w w' s
  | _ => status resp ≠ StatusOK ∧ certificates (w_db w') = certificates (w_db w)
  end.
Proof.
  intros Hrun. unfold handleSignCI in Hrun.
  destruct (bearerToken r) as [raw|] eqn:Eb; [|by refused].
  rewrite bind_try in Hrun. destruct (token_frames raw w) as [Hdb1 _].
  destruct (token_Verify raw w) as [[claims|e] w1] eqn:Ev; simpl in Hdb1;
    [|by refused; simpl; rewrite Hdb1].
  destruct (decodeSignRequest r) as [resp|[key req]] eqn:Ed.
  { apply decodeSignRequest_refused in Ed. refused. unfold not_signed in Ed.
    destruct (content resp); rewrite ?Hdb1; done. }
  rewrite bind_try in Hrun.
  destruct (MatchCIGrants _ w1) as [[gs|e] w2] eqn:Em; apply MatchCIGrants_run in Em as [Hdb2 Hm];
    rewrite Hdb1 in *; [|by refused; simpl; rewrite Hdb2].
  destruct gs as [|g0 gs]; [by refused; simpl; rewrite Hdb2|].
  rewrite bind_try in Hrun.
  pose proof (keeps (R := certs_kept) (m := EnsureCIServiceAccount (ci_Issuer claims)
    (ci_ProjectPath claims)) w2) as Hc3.
  pose proof (keeps (R := ci_grants_kept) (m := EnsureCIServiceAccount (ci_Issuer claims)
    (ci_ProjectPath claims)) w2) as Hg3.
  unfold certs_kept, ci_grants_kept in *.
  destruct (EnsureCIServiceAccount _ _ w2) as [[account|e] w3] eqn:Ea; simpl in Hc3, Hg3;
    rewrite Hdb2 in Hc3, Hg3; [|by refused].
  apply EnsureCIServiceAccount_Ok in Ea as (Hname & Hin & _).
  destruct (sa_Active account) eqn:Eact; simpl in Hrun; [|by refused].
  apply sign_ci_tail in Hrun as ((_ & _ & _ & _ & Hci & Hsa) & resp & -> & Hor).
  exists resp. split; [done|].
  destruct Hor as [[Hno Hc]|(s & now & g & -> & Hst & Hg & Hlife & Hexp & Hkey & Hid & Hp & Hv)].
  { unfold not_signed in Hno. by destruct (content resp); (split; [done|congruence]) || done. }
  split; [done|]. exists raw, claims, w1, account, g, now, req. rewrite Hci, Hg3, Hsa, Hkey.
  pose proof (decodeSignRequest_plain _ _ _ Ed) as Hplain. destruct (Hm _ _ eq_refl Hg) as [? ?].
  split_and!; try done; lia.
Qed.

(** C9: a CI certificate is only ever issued for an accepted job token whose
    project matches a stored CI grant and whose project account is active; it
    certifies the submitted plain key for the project's principals, its
    lifetime is positive, within the maximum of a matching grant and never
    beyond the expiry of the token, and the request passed the policy. Every
    other answer is no 200 and leaves the certificate table as it was. The handler
    always answers. *)
Theorem sign_ci_issues_only_with_grant `{Crypto} `{UUIDs} `{!TokenVerifier CIClaims} ca r w o w'
  (Hrun : handleSignCI ca r w = (o, w')) :
  ∃ resp, o = Ok resp ∧
  match content resp with
  | Signed s => status resp = StatusOK ∧ ∃ raw claims w1 account g now req,
      bearerToken r = Some raw ∧ token_Verify raw w = (Ok claims, w1) ∧
      decodeSignRequest r = inr (cert_Key (resp_Certificate s), req) ∧
      account ∈ service_accounts (w_db w') ∧ sa_Name account = ci_ProjectPath claims ∧
      sa_Active account = true ∧
      g ∈ ci_grants (w_db w') ∧ Matches g {| match_ProjectPath := ci_ProjectPath claims;
        match_Ref := ci_Ref claims; match_RefProtected := ci_RefProtected claims;
        match_Environment := ci_Environment claims |} = true ∧
      (0 < resp_ValidBefore s - resp_ValidAfter s ≤ CIGrant_MaxValidity g)%Z ∧
      (IsZero (ci_ExpiresAt claims) = false → resp_ValidBefore s ≤ ci_ExpiresAt claims)%Z ∧
      resp_KeyID s = CIKeyID (ci_ProjectPath claims) (ci_PipelineID claims) (ci_JobID claims) ∧
      cert_ValidPrincipals (resp_Certificate s) = CIPrincipals (ci_ProjectPath claims) ∧
      key_is_cert (cert_Key (resp_Certificate s)) = false ∧
      Validate (ca_policies ca) now RequesterCI (ci_request (cert_Key (resp_Certificate s))
        claims (resp_ValidAfter s) (resp_ValidBefore s)) = Ok ()
  | _ => status resp ≠ StatusOK ∧ certificates (w_db w') = certificates (w_db w)
  end.
Proof. exact (sign_ci_run ca r w o w' Hrun). Qed.

(** The kill switch reaches issuance: with a valid token and a well-formed
    request, a user whose account is deactivated gets 403, and nothing is
    written, whatever groups the token carries. *)
Theorem sign_user_refuses_inactive `{Crypto} `{UUIDs} `{!TokenVerifier Claims} ca r w raw claims w1
  key req account
  (Hbearer : bearerToken r = Some raw) (Hverified : token_Verify raw w = (Ok claims, w1))
  (Hreq : decodeSignRequest r = inr (key, req)) (Hup : w_faults w1 = [])
  (Haccount : users_of_subject (w_db w) (claims_Issuer claims) (claims_Subject claims) = [account])
  (Hinactive : user_Active account = false) :
  ∃ w', handleSignUser ca r w = (Ok (HttpError "user is disabled" StatusForbidden), w') ∧
        w_db w' = w_db w.
Proof.
  unfold handleSignUser. rewrite Hbearer, bind_try, Hverified, Hreq, bind_try.
  destruct (token_frames raw w) as [Hdb _]. rewrite Hverified in Hdb. simpl in Hdb.
  destruct (EnsureUser claims w1) as [r1 w2] eqn:Ee. rewrite <-Hdb in Haccount.
  destruct (EnsureUser_inactive _ _ _ _ _ Haccount Hinactive Ee) as (Hdb2 & e & -> & He).
  rewrite (He Hup). eexists. split; [done|]. congruence.
Qed.

(** ** Concrete runs *)
Definition toy_grant : AccessGrant := {|
  grant_ID := 60; grant_GroupID := 10; grant_TagSelector := ∅; grant_Principals := ["root"];
  grant_Sudo := false; grant_MaxValiditySeconds := 7200; grant_CreatedAt := 0;
  grant_UpdatedAt := 0 |}.
Definition toy_sign_world (active : bool) : @World toy_crypto :=
  let db := put_rows access_grants_table [toy_grant] (put_rows ci_grants_table
    [toy_ci_grant 50 "infra"] (w_db toy_ca_world)) in
  set_db (put_rows users_table [with_profile (toy_user 1 "alice") "alice" "" active] db) toy_ca_world.
Definition toy_http (raw : string) : Request := {|
  req_Authorization := "bearer " +:+ raw;
  req_Body := Some (60%Z, JObj [("public_key", JStr "key"); ("validity_seconds", JNum 36000)]);
  req_EmptyBody := false; req_RemoteAddr := "192.0.2.1:4711"; req_ForwardedFor := ""; req_PeerCN := None;
  req_Query := ∅;
  req_PathID := ""; req_RequestedWith := ""; req_Cookies := ∅; req_Host := "gssh.example.org";
  req_ForwardedProto := ""; req_TLS := false |}.
Definition toy_user_verifier : @TokenVerifier toy_crypto Claims :=
  user_verifier (H0 := toy_oidc) toy_verifier.
Definition toy_ci_verifier : @TokenVerifier toy_crypto CIClaims :=
  ci_verifier (H0 := toy_oidc) toy_verifier.
Notation toy_sign w := (handleSignUser (H0 := counting_uuids)
  (TokenVerifier0 := toy_user_verifier) toy_ca (toy_http "alice") w).

Lemma toy_sign_users_wf b : users_wf (H0 := counting_uuids) (toy_sign_world b).
Proof.
  split; simpl; [apply NoDup_singleton|].
  intros u ->%list_elem_of_singleton. by exists 1%N.
Qed.
Lemma toy_sign_groups_wf b : groups_wf (H0 := counting_uuids) (toy_sign_world b).
Proof.
  destruct toy_groups_wf as [Hk Hi Hd]. split; [exact Hk|exact Hi|exact Hd].
Qed.

Notation toy_sign_ci w := (handleSignCI (H0 := counting_uuids)
  (TokenVerifier0 := toy_ci_verifier) toy_ca (toy_http "job") w).

(** What the two runs return, evaluated. *)
Definition signed_for (o : result Response) : option (list string) :=
  match o with
  | Ok {| content := Signed s |} => Some (cert_ValidPrincipals (resp_Certificate s))
  | _ => None
  end.
Example toy_sign_runs :
  signed_for (toy_sign (toy_sign_world true)).1 = Some ["alice"; "alice@example.org"] ∧
  user_ID <$> users (w_db (toy_sign (toy_sign_world true)).2) = [1%N] ∧
  signed_for (toy_sign_ci (toy_sign_world true)).1 = Some ["ci:infra/app"; "ci:infra"].
Proof. vm_compute. split_and!; reflexivity. Qed.

Lemma sign_user_issues_only_with_grant_witness :
  ∃ resp w', toy_sign (toy_sign_world true) = (Ok resp, w') ∧
    ∃ s g, content resp = Signed s ∧ g ∈ grants_of_user (w_db w') 1 ∧
      (0 < resp_ValidBefore s - resp_ValidAfter s ≤ AccessGrant_MaxValidity g)%Z.
Proof.
  destruct toy_sign_runs as (Hs & Hu & _).
  destruct (toy_sign (toy_sign_world true)) as [o w'] eqn:E.
  destruct (sign_user_issues_only_with_grant (H0 := counting_uuids)
    (TokenVerifier0 := toy_user_verifier) toy_ca (toy_http "alice") (toy_sign_world true) o w'
    (toy_sign_users_wf true) (toy_sign_groups_wf true) E) as ([st c] & -> & Hc).
  destruct c as [| | | | |s| | | | |]; try discriminate Hs.
  destruct Hc as (_ & raw & claims & w1 & user & g & now & req & _ & _ & _ & _ & _ & _ & Hrow & _ & Hg & Hl & _).
  exists {| status := st; content := Signed s |}, w'. split; [reflexivity|]. exists s, g.
  split; [reflexivity|]. split; [|exact Hl].
  assert (user_ID user = 1%N) as Hid; [clear E|rewrite Hid in Hg; exact Hg].
  assert (user_ID user ∈ user_ID <$> users (w_db w')) as Hin.
  { assert (user ∈ user_rows_of (w_db w') (user_ID user)) as Hin by (rewrite Hrow; left).
    apply filter_bool_In in Hin as [Hin _]. apply list_elem_of_fmap.
    exists user. split; [reflexivity|exact Hin]. }
  simpl in Hu. rewrite Hu in Hin. apply list_elem_of_singleton in Hin. exact Hin.
Defined.

Lemma sign_ci_issues_only_with_grant_witness :
  ∃ resp w', toy_sign_ci (toy_sign_world true) = (Ok resp, w') ∧
    ∃ s a, content resp = Signed s ∧ a ∈ service_accounts (w_db w') ∧ sa_Active a = true.
Proof.
  destruct toy_sign_runs as (_ & _ & Hs).
  destruct (toy_sign_ci (toy_sign_world true)) as [o w'] eqn:E.
  destruct (sign_ci_issues_only_with_grant (H0 := counting_uuids)
    (TokenVerifier0 := toy_ci_verifier) toy_ca (toy_http "job") (toy_sign_world true) o w' E)
    as ([st c] & -> & Hc).
  destruct c as [| | | | |s| | | | |]; try discriminate Hs.
  destruct Hc as (_ & raw & claims & w1 & a & g & now & req & _ & _ & _ & Hin & _ & Ha & _).
  exists {| status := st; content := Signed s |}, w'. split; [reflexivity|]. exists s, a.
  split; [reflexivity|]. split; [exact Hin|exact Ha].
Defined.

Lemma sign_user_refuses_inactive_witness :
  ∃ w', toy_sign (toy_sign_world false) =
    (Ok (HttpError "user is disabled" StatusForbidden), w') ∧ w_db w' = w_db (toy_sign_world false).
Proof.
  eapply (sign_user_refuses_inactive (H0 := counting_uuids) (TokenVerifier0 := toy_user_verifier)
    toy_ca (toy_http "alice") (toy_sign_world false) "alice"); vm_compute; reflexivity.
Defined.
