(* ===== verification/UIAuth.v ===== *)
(** * Web UI login and sessions (internal/auth/session.go, internal/api:
    ui_auth.go, dev_auth.go)

    The server runs the OIDC code flow for the browser and hands it an
    encrypted session cookie. The cookie codec is AES-GCM under a key derived
    from the CA's master key. *)
From S2P Require Export GoUrl GoEncoding SignAPI.

Local Open Scope string_scope.
Local Open Scope list_scope.

(** ** What comes from elsewhere

    The code exchange with the IdP is golang.org/x/oauth2. *)
Class OAuth2 := {
  GenerateVerifier : N → string;
  (** The authorization URL for a redirect URL, a state and a PKCE verifier. *)
  AuthCodeURL : string → string → string → string;
  (** The code exchange (redirect URL, code, verifier): nothing when it fails,
      otherwise the id_token of the answer, if it is a string. *)
  Exchange : string → string → string → option (option string)
}.

(** ** The session codec (session.go) *)
Definition sessionKeyInfo := "guided-ssh/ui-session/v1".

Section codec.
Context `{Crypto} `{Encodings}.

Definition NewSessionCodec (masterKey : string) : result string :=
  if (String.length masterKey <? 32)%nat
  then Err (ErrOther "auth: master key too short for session key")
  else Ok (hkdf_key masterKey sessionKeyInfo).

(** nonce and ciphertext, base64-URL without padding. *)
Definition Seal (key plaintext : string) : M string :=
  let* n := rand_next in
  let nonce := gcm_nonce n in
  ret (EncodeToString (nonce +:+ gcm_seal key nonce plaintext)).

Definition Open (key value : string) : result string :=
  match DecodeString value with
  | None => Err (ErrWrap "base64" ErrInvalidSession)
  | Some sealed =>
      if (String.length sealed <? gcm_nonce_size)%nat
      then Err (ErrWrap "value too short" ErrInvalidSession)
      else
        match gcm_open key (take_str gcm_nonce_size sealed) (drop_str gcm_nonce_size sealed) with
        | None => Err (ErrWrap "decrypting" ErrInvalidSession)
        | Some plaintext => Ok plaintext
        end
  end.

Lemma Open_Seal key plaintext w v w' :
  Seal key plaintext w = (Ok v, w') → Open key v = Ok plaintext.
Proof.
  unfold Seal, bind, rand_next, ret. intros [= <- <-]. unfold Open.
  rewrite DecodeString_EncodeToString, append_length, gcm_nonce_length.
  rewrite (proj2 (Nat.ltb_ge _ _)) by lia.
  rewrite <-(gcm_nonce_length (w_random w)) at 1 2.
  by rewrite take_str_app, drop_str_app, gcm_open_seal.
Qed.
End codec.

(** ** Session and login state *)
Record uiSession := { ses_Claims : Claims; ses_ExpiresAt : Z }.
Record uiAuthState := {
  sta_State : string; sta_Verifier : string; sta_Redirect : string; sta_ExpiresAt : Z
}.

Section json.
Context `{Encodings}.

Definition claims_json (c : Claims) : json := JObj [
  ("Issuer", JStr (claims_Issuer c)); ("Subject", JStr (claims_Subject c));
  ("Email", JStr (claims_Email c)); ("PreferredUsername", JStr (claims_PreferredUsername c));
  ("Groups", JStrs (claims_Groups c))].
Definition dec_claims : decoder Claims := λ old v,
  match v with
  | JNull => Some old
  | JObj m =>
      iss ← dec_field dec_string "Issuer" (claims_Issuer old) m;
      sub ← dec_field dec_string "Subject" (claims_Subject old) m;
      email ← dec_field dec_string "Email" (claims_Email old) m;
      name ← dec_field dec_string "PreferredUsername" (claims_PreferredUsername old) m;
      groups ← dec_field dec_strings "Groups" (claims_Groups old) m;
      Some {| claims_Issuer := iss; claims_Subject := sub; claims_Email := email;
              claims_PreferredUsername := name; claims_Groups := groups |}
  | _ => None
  end.
Definition no_claims : Claims := {|
  claims_Issuer := ""; claims_Subject := ""; claims_Email := ""; claims_PreferredUsername := "";
  claims_Groups := [] |}.

Definition marshal_session (s : uiSession) : option string :=
  exp ← marshal_time (ses_ExpiresAt s);
  Some (json_text (JObj [("claims", claims_json (ses_Claims s)); ("exp", exp)])).
Definition unmarshal_session (text : string) : option uiSession :=
  v ← json_parse text; m ← struct_members v;
  claims ← dec_field dec_claims "claims" no_claims m;
  exp ← dec_field dec_time "exp" time_zero m;
  Some {| ses_Claims := claims; ses_ExpiresAt := exp |}.

Definition marshal_state (s : uiAuthState) : option string :=
  exp ← marshal_time (sta_ExpiresAt s);
  Some (json_text (JObj [("state", JStr (sta_State s)); ("verifier", JStr (sta_Verifier s));
    ("redirect", JStr (sta_Redirect s)); ("exp", exp)])).
Definition unmarshal_state (text : string) : option uiAuthState :=
  v ← json_parse text; m ← struct_members v;
  state ← dec_field dec_string "state" "" m;
  verifier ← dec_field dec_string "verifier" "" m;
  redirect ← dec_field dec_string "redirect" "" m;
  exp ← dec_field dec_time "exp" time_zero m;
  Some {| sta_State := state; sta_Verifier := verifier; sta_Redirect := redirect;
          sta_ExpiresAt := exp |}.

Lemma dec_claims_json old c : dec_claims old (claims_json c) = Some c.
Proof.
  destruct c as [iss sub email name groups]. unfold dec_claims, claims_json, dec_field.
  cbn -[dec_strings JStrs EqualFold]. field_names. cbn -[dec_strings JStrs].
  by rewrite dec_strings_JStrs.
Qed.

Lemma unmarshal_marshal_session s text :
  marshal_session s = Some text → unmarshal_session text = Some s.
Proof.
  unfold marshal_session, marshal_time. case_bool_decide as Hr; [|done]. intros [= <-].
  unfold unmarshal_session, dec_field. rewrite json_parse_text.
  cbn -[dec_claims claims_json EqualFold]. field_names. cbn -[dec_claims claims_json].
  rewrite dec_claims_json. cbn. rewrite parse_rfc3339_text by done. by destruct s.
Qed.
Lemma unmarshal_marshal_state s text :
  marshal_state s = Some text → unmarshal_state text = Some s.
Proof.
  unfold marshal_state, marshal_time. case_bool_decide as Hr; [|done]. intros [= <-].
  unfold unmarshal_state, dec_field. rewrite json_parse_text.
  cbn -[EqualFold]. field_names. cbn. rewrite parse_rfc3339_text by done. by destruct s.
Qed.
End json.

(** ** Roles and redirects *)
Definition roleAdmin := "admin".
Definition roleAuditor := "auditor".

(** The [in]/[inGroup] closures: an empty group is held by nobody. *)
Definition in_group (groups : list string) (group : string) : bool :=
  negb (bool_decide (group = "")) && bool_decide (group ∈ groups).
Definition uiRoles (groups : list string) (adminGroup auditorGroup : string) : list string :=
  let isAdmin := in_group groups adminGroup in
  let isAuditor := isAdmin || in_group groups auditorGroup in
  (if isAdmin then [roleAdmin] else []) ++ (if isAuditor then [roleAuditor] else []).

(** A parsed target has no scheme, as it starts with a slash. *)
Definition sanitizeRedirect (target : string) : string :=
  if negb (HasPrefix target "/") || Contains target "\" then "/"
  else match parse_local target with None => "/" | Some parsed => RequestURI parsed end.

Definition isSecureRequest (r : Request) : bool :=
  req_TLS r || EqualFold (req_ForwardedProto r) "https".

(** ** Handlers

    Their answers set cookies and redirect: [ui_Location] is the target handed
    to [http.Redirect]. Every cookie is HttpOnly with SameSite=Lax. *)
Record Cookie := {
  ck_Name : string; ck_Value : string; ck_Path : string; ck_MaxAge : Z; ck_Secure : bool
}.
Record UIResponse := {
  ui_Response : Response; ui_Cookies : list Cookie; ui_Location : option string
}.
Definition answer (cookies : list Cookie) (r : Response) : UIResponse := {|
  ui_Response := r; ui_Cookies := cookies; ui_Location := None |}.
Definition redirect_to (cookies : list Cookie) (url : string) : UIResponse := {|
  ui_Response := {| status := StatusFound; content := NoBody |};
  ui_Cookies := cookies; ui_Location := Some url |}.

Definition sessionCookieName := "gssh_session".
Definition stateCookieName := "gssh_auth_state".
Definition stateCookieTTL : Z := (10 * Minute)%Z.

(** [clearCookie]. *)
Definition cleared_cookie (r : Request) (name path : string) : Cookie := {|
  ck_Name := name; ck_Value := ""; ck_Path := path; ck_MaxAge := -1;
  ck_Secure := isSecureRequest r |}.

Definition query (r : Request) (key : string) : string := default "" (req_Query r !! key).

(** [authMeJSON]; empty fields are left out. *)
Definition not_authenticated : json := JObj [("authenticated", JBool false)].
Definition me_json (username : string) (roles : list string) : json :=
  JObj (("authenticated", JBool true) ::
    (if bool_decide (username = "") then [] else [("username", JStr username)]) ++
    (if bool_decide (roles = []) then [] else [("roles", JStrs roles)])).

(** [UIAuthConfig] with the role groups of [uiAuthContext]; the codec is its key. *)
Record UIAuthConfig := {
  uia_Codec : string; uia_BaseURL : string; uia_SessionTTL : Z;
  uia_AdminGroup : string; uia_AuditorGroup : string
}.

Section handlers.
Context `{Crypto} `{UUIDs} `{Encodings} `{OAuth2}.

(** The claims of a valid session, nothing otherwise. *)
Definition sessionFromRequest (cfg : UIAuthConfig) (r : Request) : M (option Claims) :=
  match req_Cookies r !! sessionCookieName with
  | None => ret None
  | Some value =>
      match Open (uia_Codec cfg) value with
      | Err _ => ret None
      | Ok plaintext =>
          match unmarshal_session plaintext with
          | None => ret None
          | Some session =>
              let* now := time_Now in
              ret (if After now (ses_ExpiresAt session) then None else Some (ses_Claims session))
          end
      end
  end.

(** [oauthConfig]: the redirect URL of this request. *)
Definition redirectURL (cfg : UIAuthConfig) (r : Request) : string :=
  let base := if bool_decide (uia_BaseURL cfg = "")
              then (if isSecureRequest r then "https" else "http") +:+ "://" +:+ req_Host r
              else uia_BaseURL cfg in
  base +:+ "/v1/auth/callback".

(** [random_text n]: base64 of the n-th draw of 16 random bytes. *)
Definition handleLogin (cfg : UIAuthConfig) (random_text : N → string) (r : Request)
    : M UIResponse :=
  let* n := rand_next in
  let state := random_text n in
  let* v := rand_next in
  let verifier := GenerateVerifier v in
  let* now := time_Now in
  match marshal_state {| sta_State := state; sta_Verifier := verifier;
          sta_Redirect := sanitizeRedirect (query r "redirect");
          sta_ExpiresAt := Add now stateCookieTTL |} with
  | None => ret (answer [] internalError)
  | Some payload =>
      let* sealed := Seal (uia_Codec cfg) payload in
      ret (redirect_to [{| ck_Name := stateCookieName; ck_Value := sealed;
             ck_Path := "/v1/auth"; ck_MaxAge := to_seconds stateCookieTTL;
             ck_Secure := isSecureRequest r |}]
             (AuthCodeURL (redirectURL cfg r) state verifier))
  end.

Definition bad_state (why : string) : Response :=
  HttpError ("login state " +:+ why +:+ " (restart the login)") StatusBadRequest.

(** The cookies set so far, and the login state or the error answer. *)
Definition callbackState (cfg : UIAuthConfig) (r : Request)
    : M (list Cookie * sum Response uiAuthState) :=
  match req_Cookies r !! stateCookieName with
  | None => ret ([], inl (bad_state "missing"))
  | Some value =>
      let cookies := [cleared_cookie r stateCookieName "/v1/auth"] in
      match Open (uia_Codec cfg) value with
      | Err _ => ret (cookies, inl (bad_state "invalid"))
      | Ok plaintext =>
          match unmarshal_state plaintext with
          | None => ret (cookies, inl (bad_state "expired"))
          | Some state =>
              let* now := time_Now in
              if After now (sta_ExpiresAt state) then ret (cookies, inl (bad_state "expired"))
              else if bool_decide (query r "state" = "") ||
                      negb (bool_decide (query r "state" = sta_State state))
              then ret (cookies,
                     inl (HttpError "state does not match (restart the login)" StatusBadRequest))
              else ret (cookies, inr state)
          end
      end
  end.

(** The end of [handleCallback]: the session of an accepted token. *)
Definition open_session (cfg : UIAuthConfig) (r : Request) (cookies : list Cookie)
    (state : uiAuthState) (claims : Claims) : M UIResponse :=
  let* mapped := try (EnsureUser claims) in
  match mapped with
  | Err e => ret (answer cookies (if errors_Is e ErrUserInactive
                  then HttpError "user is disabled" StatusForbidden else internalError))
  | Ok _ =>
  if bool_decide (uiRoles (claims_Groups claims) (uia_AdminGroup cfg) (uia_AuditorGroup cfg) = [])
  then ret (redirect_to (cookies ++ [cleared_cookie r sessionCookieName "/"])
              "/?login_error=no_role")
  else
  let* now := time_Now in
  match marshal_session {| ses_Claims := claims; ses_ExpiresAt := Add now (uia_SessionTTL cfg) |} with
  | None => ret (answer cookies internalError)
  | Some payload =>
      let* sealed := Seal (uia_Codec cfg) payload in
      ret (redirect_to (cookies ++ [{| ck_Name := sessionCookieName; ck_Value := sealed;
             ck_Path := "/"; ck_MaxAge := to_seconds (uia_SessionTTL cfg);
             ck_Secure := isSecureRequest r |}]) (sta_Redirect state))
  end end.

Definition handleCallback (cfg : UIAuthConfig) `{!TokenVerifier Claims} (r : Request)
    : M UIResponse :=
  if negb (bool_decide (query r "error" = ""))
  then ret (answer [] (HttpError ("login failed: idp reports " +:+ query r "error") StatusBadGateway))
  else
  let* ' (cookies, checked) := callbackState cfg r in
  match checked with
  | inl response => ret (answer cookies response)
  | inr state =>
  match Exchange (redirectURL cfg r) (query r "code") (sta_Verifier state) with
  | None => ret (answer cookies
      (HttpError "login failed: code exchange with the idp failed" StatusBadGateway))
  | Some idToken =>
  if bool_decide (default "" idToken = "")
  then ret (answer cookies
      (HttpError "login failed: idp did not return an id_token" StatusBadGateway))
  else
  let* verified := try (token_Verify (default "" idToken)) in
  match verified with
  | Err _ => ret (answer cookies (HttpError "id token invalid" StatusUnauthorized))
  | Ok claims => open_session cfg r cookies state claims
  end end end.

Definition handleLogout (r : Request) : M UIResponse :=
  ret (answer [cleared_cookie r sessionCookieName "/"]
         {| status := StatusNoContent; content := NoBody |}).

Definition ok_json (j : json) : Response := {| status := StatusOK; content := JsonBody j |}.

Definition handleMe (cfg : UIAuthConfig) (r : Request) : M UIResponse :=
  let* session := sessionFromRequest cfg r in
  match session with
  | None => ret (answer [] (ok_json not_authenticated))
  | Some claims =>
  let* mapped := try (EnsureUser claims) in
  match mapped with
  | Err e =>
      ret (if errors_Is e ErrUserInactive
           then answer [cleared_cookie r sessionCookieName "/"] (ok_json not_authenticated)
           else answer [] internalError)
  | Ok _ => ret (answer [] (ok_json (me_json (Username claims)
      (uiRoles (claims_Groups claims) (uia_AdminGroup cfg) (uia_AuditorGroup cfg)))))
  end end.

(** *** Developer mode (dev_auth.go): a fixed user, always logged in *)
Definition devLogin (r : Request) : M UIResponse :=
  ret (redirect_to [] (sanitizeRedirect (query r "redirect"))).
Definition devLogout (r : Request) : M UIResponse :=
  ret (answer [] {| status := StatusNoContent; content := NoBody |}).
Definition devMe (devUser : Claims) (adminGroup auditorGroup : string) (r : Request)
    : M UIResponse :=
  let* mapped := try (EnsureUser devUser) in
  let me := answer [] (ok_json (me_json (Username devUser)
              (uiRoles (claims_Groups devUser) adminGroup auditorGroup))) in
  match mapped with
  | Err e => ret (if errors_Is e ErrUserInactive then me else answer [] internalError)
  | Ok _ => ret me
  end.
End handlers.

(** ** Redirect targets *)
Section redirect.

(** The path of a reference without percent signs starts with exactly one
    slash, unless the raw path starts with two. *)
Lemma escaped_path_shape path decoded force query :
  unescape path = Some decoded → path = "" ∨ (∃ t, path = String "/" t) →
  let u := {| url_Path := decoded;
              url_RawPath := if bool_decide (escape decoded = path) then "" else path;
              url_ForceQuery := force; url_RawQuery := query |} in
  (EscapedPath u = "" ∧ path = "") ∨
  ∃ t, EscapedPath u = String "/" t ∧
    (∀ t', t = String "/" t' → in_string "%" path ∨ ∃ t'', path = String "/" (String "/" t'')).
Proof.
  intros Hd [->|[t ->]] u.
  { left. split; [|done]. simpl in Hd. simplify_eq.
    destruct (EscapedPath_cases "" "" force query) as [E|E]; exact E. }
  right. apply unescape_slash in Hd as (d & -> & Hd).
  destruct (EscapedPath_cases (String "/" t) (String "/" d) force query) as [E|E]; subst u; rewrite E.
  - exists t. split; [done|]. intros t' ->. eauto.
  - exists (escape d). split; [apply escape_slash|]. intros t' Ht.
    destruct (decide (in_string "%" t)) as [Hp|Hp]; [left; by right|].
    rewrite unescape_plain in Hd by done. simplify_eq.
    apply escape_head_slash in Ht as [t'' ->]. eauto.
Qed.

(** What a successful parse means for the text of the path. *)
Lemma parse_local_shape target u :
  HasPrefix target "/" = true → parse_local target = Some u →
  ∃ path, (EscapedPath u = "" ∨ ∃ t, EscapedPath u = String "/" t ∧
      (∀ t', t = String "/" t' → in_string "%" target ∨ HasPrefix target "//" = true)) ∧
    (EscapedPath u = path ∨ EscapedPath u = escape (url_Path u)) ∧
    (∀ c, in_string c path → in_string c target) ∧
    (∀ c, in_string c (url_RawQuery u) → in_string c target).
Proof.
  intros Hslash. unfold parse_local.
  destruct (cut_or target "#") as [uu frag] eqn:Ef. apply cut_or_part in Ef as [t1 ->].
  destruct (_ || _); [done|].
  destruct (cut_query uu) as [[rest force] qs] eqn:Eq. apply cut_query_part in Eq as [[t2 ->] Hq].
  destruct (cut_authority rest) as [authority path] eqn:Ea. apply cut_authority_part in Ea.
  destruct (negb _); [done|]. destruct (unescape path) as [decoded|] eqn:Ed; [|done].
  intros [= <-]. exists path.
  assert (path = "" ∨ ∃ t, path = String "/" t) as Hpath.
  { destruct Ea as [(_ & -> & _)|(_ & [->|(a & t & _ & ->)])]; [|by auto|by right; exists t].
    destruct rest as [|c rest]; [by left|]. right. simpl in Hslash.
    unfold HasPrefix in Hslash. simpl in Hslash. case_decide; simplify_eq. eauto. }
  assert (∀ c, in_string c path → in_string c ((rest +:+ t2) +:+ t1)) as Hin.
  { intros c Hc. rewrite !in_string_app.
    destruct Ea as [(_ & -> & _)|(_ & [->|(a & t & -> & ->)])]; [by auto|done|].
    rewrite !in_string_app. simpl in *. tauto. }
  destruct (escaped_path_shape path decoded force qs Ed Hpath) as [[E _]|(t & E & Ht)];
    (split_and!; [|apply EscapedPath_cases|exact Hin|
                   intros c Hc; simpl in Hc; rewrite in_string_app; left; by apply Hq]).
  - by left.
  - right. exists t. split; [done|]. intros t' Heq.
    destruct (Ht t' Heq) as [Hp|[t'' ->]]; [left; by apply Hin|]. right.
    destruct Ea as [(_ & <- & _)|(Hpre & _)].
    + apply HasPrefix_spec. exists ((t'' +:+ t2) +:+ t1). done.
    + apply HasPrefix_spec in Hpre as [r ->]. apply HasPrefix_spec.
      exists ((r +:+ t2) +:+ t1). by rewrite <-!append_assoc.
Qed.
End redirect.

(** ** Properties *)

(** The return target of a login is a local path: it starts with a slash
    and holds no backslash, and unless the requested target starts with two
    slashes or holds a percent sign it is not a protocol-relative reference
    either. A requested target that is no path is replaced by the root. *)
Theorem sanitize_redirect_local target :
  HasPrefix (sanitizeRedirect target) "/" = true ∧
  ¬ in_string "\" (sanitizeRedirect target) ∧
  (HasPrefix target "/" = false → sanitizeRedirect target = "/") ∧
  (¬ in_string "%" target → HasPrefix target "//" = false →
     HasPrefix (sanitizeRedirect target) "//" = false).
Proof.
  unfold sanitizeRedirect.
  destruct (HasPrefix target "/") eqn:Hslash; simpl; [|split_and!; try done; by intros [|]].
  destruct (Contains target "\") eqn:Hb; simpl; [split_and!; try done; by intros [|]|].
  destruct (parse_local target) as [u|] eqn:Hp; [|split_and!; try done; by intros [|]].
  apply parse_local_shape in Hp as (path & Hshape & Hcases & Hpath & Hq); [|done].
  assert (¬ in_string "\" target) as Hnb.
  { intros (a & b & ->)%in_string_ex. assert (Contains (a +:+ String "\" b) "\" = true); [|congruence].
    apply Contains_spec. by exists a, b. }
  assert (¬ in_string "\" (EscapedPath u)) as Hne.
  { destruct Hcases as [E|E]; rewrite E; [by intros ?%Hpath|apply escape_no_backslash]. }
  assert (∃ t tail, RequestURI u = String "/" (t +:+ tail) ∧ ¬ in_string "\" t ∧
    (∀ c, in_string c tail → c = "?"%char ∨ in_string c target) ∧ HasPrefix tail "/" = false ∧
    (∀ t', t = String "/" t' → in_string "%" target ∨ HasPrefix target "//" = true))
    as (t & tail & -> & Ht & Htail & Hhead & Hdouble).
  { exists (drop_str 1 (EscapedPath u)), (if url_ForceQuery u ||
      negb (bool_decide (url_RawQuery u = "")) then "?" +:+ url_RawQuery u else "").
    unfold RequestURI. destruct Hshape as [E|(t & E & Ht)]; rewrite E in *; simpl in *.
    - destruct (_ || _); split_and!; simpl; naive_solver.
    -
      destruct (_ || _); split_and!; simpl; rewrite ?append_nil_r; naive_solver. }
  split_and!; [done| |done|].
  - simpl. rewrite in_string_app. intros [?|[?|Hc]]; [done..|].
    by destruct (Htail _ Hc).
  - intros Hnp Hns. destruct t as [|c t]; simpl.
    + destruct tail as [|c tail]; [done|]. unfold HasPrefix in *. simpl in *.
      repeat case_decide; simplify_eq/=; done.
    + unfold HasPrefix. simpl. repeat (case_decide; simplify_eq/=); try done.
      destruct (Hdouble t); congruence.
Qed.

(** The check misses two spellings of a protocol-relative reference: an
    escaped second slash, when the path also holds a byte that must be escaped,
    and an empty user in front of an empty host. The login then returns the
    browser to another site. *)
Theorem sanitize_redirect_off_site :
  sanitizeRedirect "/%2Fevil.example/ " = "//evil.example/%20" ∧
  sanitizeRedirect "//@//evil.example/" = "//evil.example/" ∧
  sanitizeRedirect "//evil.example/" = "/".
Proof. vm_compute. split_and!; reflexivity. Qed.

(** An answer that sets no session cookie. *)
Ltac no_session := refused; intros ? ? ?; exfalso; by eauto.

Section login.
Context `{Crypto} `{UUIDs} `{Encodings} `{OAuth2}.

(** A cookie with a sealed session is read back as its claims until it expires. *)
Lemma sealed_session cfg ses text w value w1 r w2 :
  marshal_session ses = Some text → Seal (uia_Codec cfg) text w = (Ok value, w1) →
  req_Cookies r !! sessionCookieName = Some value →
  ∃ w3, w_db w3 = w_db w2 ∧ sessionFromRequest cfg r w2 =
    (Ok (if After (w_now w3) (ses_ExpiresAt ses) then None else Some (ses_Claims ses)), w3).
Proof.
  intros Hm Hs Hc. unfold sessionFromRequest. rewrite Hc.
  rewrite (Open_Seal _ _ _ _ _ Hs), (unmarshal_marshal_session _ _ Hm).
  unfold bind. destruct (time_Now_reads w2) as (w3 & -> & Hdb). exists w3. by split.
Qed.

Definition state_ok (cfg : UIAuthConfig) (r : Request) (state : uiAuthState) : Prop :=
  ∃ value text, req_Cookies r !! stateCookieName = Some value ∧
    Open (uia_Codec cfg) value = Ok text ∧ unmarshal_state text = Some state ∧
    query r "state" = sta_State state ∧ query r "state" ≠ "".

Lemma callbackState_run cfg r w o w' :
  callbackState cfg r w = (o, w') →
  w_db w' = w_db w ∧ w_uuid w' = w_uuid w ∧ ∃ cookies checked, o = Ok (cookies, checked) ∧
    (∀ c, c ∈ cookies → ck_Name c = stateCookieName) ∧
    ∀ state, checked = inr state → state_ok cfg r state.
Proof.
  unfold callbackState, ret.
  destruct (req_Cookies r !! stateCookieName) as [value|] eqn:Ec.
  2: { intros; simplify_eq. split_and!; [done..|]. do 2 eexists. split; [done|]. set_solver. }
  destruct (Open _ value) as [text|] eqn:Eo.
  2: { intros; simplify_eq. split_and!; [done..|]. do 2 eexists. split; [done|]. set_solver. }
  destruct (unmarshal_state text) as [state|] eqn:Eu.
  2: { intros; simplify_eq. split_and!; [done..|]. do 2 eexists. split; [done|]. set_solver. }
  unfold bind, time_Now.
  destruct (w_ticks w); destruct (After _ _); try destruct (_ || _) eqn:Eq; intros; simplify_eq;
    (split_and!; [done..|]); do 2 eexists; (split; [done|]); (split; [set_solver|]);
    intros ? [=]; subst; exists value, text; bool_to_prop; naive_solver.
Qed.

(** What an answer that opens a session means. *)
Definition session_opened (cfg : UIAuthConfig) (state : uiAuthState) (claims : Claims)
    (w w' : World) (resp : UIResponse) (value : string) : Prop :=
  (∃ user, user_rows_of (w_db w') (user_ID user) = [user] ∧ user_Active user = true ∧
     user_Issuer user = claims_Issuer claims ∧ user_Subject user = claims_Subject claims) ∧
  uiRoles (claims_Groups claims) (uia_AdminGroup cfg) (uia_AuditorGroup cfg) ≠ [] ∧
  ui_Location resp = Some (sta_Redirect state) ∧
  ∃ text, marshal_session {| ses_Claims := claims;
            ses_ExpiresAt := Add (w_now w') (uia_SessionTTL cfg) |} = Some text ∧
    ∃ w1 w2, Seal (uia_Codec cfg) text w1 = (Ok value, w2).

Lemma open_session_run cfg r cookies state claims w o w' :
  users_wf w → groups_wf w → (∀ c, c ∈ cookies → ck_Name c = stateCookieName) →
  open_session cfg r cookies state claims w = (o, w') →
  ∃ resp, o = Ok resp ∧ ∀ c, c ∈ ui_Cookies resp → ck_Name c = sessionCookieName →
    ck_Value c ≠ "" → session_opened cfg state claims w w' resp (ck_Value c).
Proof.
  intros Hu Hg Hcookies Hrun. unfold open_session in Hrun. rewrite bind_try in Hrun.
  assert (∀ c, c ∈ cookies → ck_Name c = sessionCookieName → False) as Hno.
  { intros c Hc Hn. by rewrite (Hcookies c Hc) in Hn. }
  destruct (EnsureUser claims w) as [[user|e] w1] eqn:Ee; [|no_session].
  destruct (bool_decide (uiRoles _ _ _ = [])) eqn:Er.
  { refused. intros c [Hc| ->%list_elem_of_singleton]%elem_of_app; [intros ?; by exfalso; eauto|done]. }
  unfold bind in Hrun. destruct (time_Now_reads w1) as (w2 & Et & Hdb). rewrite Et in Hrun.
  destruct (marshal_session _) as [text|] eqn:Em; [|no_session].
  destruct (Seal (uia_Codec cfg) text w2) as [[value|e] w3] eqn:Es;
    [|by unfold Seal, bind, rand_next, ret in Es].
  assert (w_db w3 = w_db w2 ∧ w_now w3 = w_now w2) as [Hdb3 Hnow].
  { unfold Seal, bind, rand_next, ret in Es. by simplify_eq. }
  refused. intros c [Hc|Hc]%elem_of_app; [intros ?; by exfalso; eauto|]. apply list_elem_of_singleton in Hc as ->.
  intros _ Hv. simpl in *. apply EnsureUser_Ok in Ee as (Hi & Hs & _ & _ & Ha & Hrow & _); [|done..].
  unfold session_opened. simpl. rewrite Hdb3, Hnow, Hdb. bool_to_prop.
  split_and!; [by exists user|done|done|]. exists text. split; [done|]. by exists w2, w'.
Qed.
End login.
(** C25: a browser gets a session only at the end of its own login: the request
    holds a login state the server sealed, with the state parameter of the
    query, the code was exchanged with the verifier of that state, the IdP's
    id_token was accepted, the account is active and the claims hold a role. A
    later request with the cookie acts with exactly those claims, and as
    nobody once the session time has passed; the browser is sent to the target
    kept in the state. The handler always answers. *)
Theorem callback_opens_own_session `{Crypto} `{UUIDs} `{Encodings} `{OAuth2} cfg
  `{!TokenVerifier Claims} r w o w'
  (Husers : users_wf w) (Hgroups : groups_wf w)
  (Hrun : handleCallback cfg r w = (o, w')) :
  ∃ resp, o = Ok resp ∧ ∀ c, c ∈ ui_Cookies resp → ck_Name c = sessionCookieName →
    ck_Value c ≠ "" →
    ∃ state raw claims user wv wv', state_ok cfg r state ∧
      Exchange (redirectURL cfg r) (query r "code") (sta_Verifier state) = Some (Some raw) ∧
      token_Verify raw wv = (Ok claims, wv') ∧
      user_rows_of (w_db w') (user_ID user) = [user] ∧ user_Active user = true ∧
      user_Issuer user = claims_Issuer claims ∧ user_Subject user = claims_Subject claims ∧
      uiRoles (claims_Groups claims) (uia_AdminGroup cfg) (uia_AuditorGroup cfg) ≠ [] ∧
      ui_Location resp = Some (sta_Redirect state) ∧
      ∀ r2 w2, req_Cookies r2 !! sessionCookieName = Some (ck_Value c) →
        ∃ w3, w_db w3 = w_db w2 ∧ sessionFromRequest cfg r2 w2 =
          (Ok (if After (w_now w3) (Add (w_now w') (uia_SessionTTL cfg)) then None
               else Some claims), w3).
Proof.
  unfold handleCallback in Hrun. destruct (negb _); [by refused; set_solver|].
  unfold bind in Hrun at 1. destruct (callbackState cfg r w) as [x w1] eqn:Ec.
  apply callbackState_run in Ec as (Hdb & Hu & cookies & checked & -> & Hck & Hst).
  assert (∀ c, c ∈ cookies → ck_Name c = sessionCookieName → False) as Hno.
  { intros c Hc Hn. by rewrite (Hck c Hc) in Hn. }
  destruct checked as [resp|state]; [no_session|]. specialize (Hst state eq_refl).
  destruct (Exchange _ _ _) as [idToken|] eqn:Ex; [|no_session].
  destruct (bool_decide (default "" idToken = "")) eqn:Ei; [no_session|].
  destruct idToken as [raw|]; [|done]. simpl in Hrun. rewrite bind_try in Hrun.
  pose proof (token_frames raw w1) as (Hvdb & Hvu & _).
  destruct (token_Verify raw w1) as [[claims|e] w2] eqn:Ev; simpl in Hrun;
    [|no_session].
  simpl in Hvdb, Hvu.
  apply open_session_run in Hrun as (resp & -> & Hsess);
    [|unfold users_wf; by rewrite Hvdb, Hvu, Hdb, Hu|unfold groups_wf; by rewrite Hvdb, Hvu, Hdb, Hu|done].
  exists resp. split; [done|]. intros c Hc Hn Hv.
  destruct (Hsess c Hc Hn Hv) as ((user & Hrow & Ha & Hi & Hs) & Hr & Hl & text & Hm & w3 & w4 & Hseal).
  exists state, raw, claims, user, w1, w2. split_and!; [done..|].
  intros r2 w5 Hcookie. by eapply (sealed_session _ _ _ _ _ _ _ _ Hm Hseal) in Hcookie.
Qed.

(** An IdP that answers the code with a token of the same text. *)
Definition toy_oauth : OAuth2 := {|
  GenerateVerifier n := unary (S (N.to_nat n));
  AuthCodeURL redirect state verifier := "https://idp/?" +:+ state;
  Exchange redirect code verifier := Some (Some code)
|}.

(** ** Concrete runs *)
Definition toy_ui : UIAuthConfig := {|
  uia_Codec := "key"; uia_BaseURL := ""; uia_SessionTTL := (8 * Hour)%Z;
  uia_AdminGroup := "dev"; uia_AuditorGroup := "" |}.
Definition toy_browser (cookies query : gmap string string) : Request := {|
  req_Authorization := ""; req_Body := None; req_EmptyBody := false; req_RemoteAddr := "192.0.2.9:6000";
  req_ForwardedFor := ""; req_PeerCN := None; req_Query := query; req_PathID := "";
  req_RequestedWith := "fetch"; req_Cookies := cookies; req_Host := "gssh.example.org";
  req_ForwardedProto := "https"; req_TLS := false |}.
Notation toy_login w := (handleLogin (H1 := toy_encodings) (H2 := toy_oauth) toy_ui
  (λ _, "st") (toy_browser ∅ {["redirect" := "/audit"]}) w).
Definition toy_state_cookie (o : result UIResponse) : string :=
  match o with
  | Ok {| ui_Cookies := [c] |} => ck_Value c
  | _ => ""
  end.
Notation toy_callback value w := (handleCallback (H0 := counting_uuids) (H1 := toy_encodings)
  (H2 := toy_oauth) (TokenVerifier0 := toy_user_verifier) toy_ui
  (toy_browser {[stateCookieName := value]} (list_to_map [("state", "st"); ("code", "alice")])) w).
Definition toy_session_cookie (o : result UIResponse) : string :=
  match o with
  | Ok {| ui_Cookies := [_; c] |} => ck_Value c
  | _ => ""
  end.
Notation toy_login_value := (toy_state_cookie (toy_login (toy_sign_world true)).1).

Example toy_ui_runs :
  let o := (toy_callback toy_login_value (toy_sign_world true)).1 in
  toy_session_cookie o ≠ "" ∧ match o with
  | Ok resp => ck_Name <$> ui_Cookies resp = [stateCookieName; sessionCookieName] ∧
               ui_Location resp = Some "/audit"
  | Err _ => False
  end.
Proof. vm_compute. split_and!; reflexivity || discriminate. Qed.

Lemma callback_opens_own_session_witness :
  ∃ resp w' c claims, toy_callback toy_login_value (toy_sign_world true) = (Ok resp, w') ∧
    c ∈ ui_Cookies resp ∧ ck_Name c = sessionCookieName ∧
    uiRoles (claims_Groups claims) "dev" "" ≠ [] ∧
    ∀ r2 (w2 : @World toy_crypto), req_Cookies r2 !! sessionCookieName = Some (ck_Value c) →
      ∃ w3, w_db w3 = w_db w2 ∧ sessionFromRequest (H1 := toy_encodings) toy_ui r2 w2 =
        (Ok (if After (w_now w3) (Add (w_now w') (8 * Hour)) then None else Some claims), w3).
Proof.
  pose proof toy_ui_runs as Hruns. cbv zeta in Hruns.
  destruct (toy_callback toy_login_value (toy_sign_world true)) as [o w'] eqn:E.
  destruct (callback_opens_own_session (H0 := counting_uuids) (H1 := toy_encodings)
    (H2 := toy_oauth) (TokenVerifier0 := toy_user_verifier) toy_ui _ _ o w'
    (toy_sign_users_wf true) (toy_sign_groups_wf true) E) as (resp & -> & Hresp).
  destruct Hruns as (Hv & Hn & Hl). destruct resp as [rr cookies loc]. simpl in Hv, Hn.
  destruct cookies as [|c1 [|c2 [|c3 cookies]]]; try discriminate Hn. simpl in Hn.
  injection Hn as Hn1 Hn2.
  destruct (Hresp c2) as (state & raw & claims & user & _ & _ & _ & _ & _ & _ & _ & _ & _ & Hr & _ & Hs);
    [right; left|exact Hn2|exact Hv|].
  exists {| ui_Response := rr; ui_Cookies := [c1; c2]; ui_Location := loc |}, w', c2, claims.
  split; [reflexivity|]. split; [right; left|]. split; [exact Hn2|]. split; [exact Hr|exact Hs].
Defined.

Lemma sanitize_redirect_local_witness :
  ¬ in_string "%" "/audit?since=1" ∧
  HasPrefix (sanitizeRedirect "/audit?since=1") "//" = false.
Proof.
  assert (¬ in_string "%" "/audit?since=1") as Hp by (apply (bool_decide_unpack _); vm_compute; exact I).
  split; [exact Hp|].
  destruct (sanitize_redirect_local "/audit?since=1") as (_ & _ & _ & Hs).
  apply Hs; [exact Hp|reflexivity].
Defined.
