(* ===== verification/MTLS.v ===== *)
(** * The agent mTLS PKI (internal/ca: mtls.go, keyfiles.go)

    The X.509 CA for host agents: its bootstrap, the client certificates of
    the agents and the server certificate of the agent listener. *)
From S2P Require Export Http.

Local Open Scope string_scope.
Local Open Scope list_scope.

Definition EventAgentCertIssued := "ca.agent_cert_issued".
Definition mtlsCAValidity : Z := (10 * 365 * 24 * Hour)%Z.
Definition AgentCertValidity : Z := (365 * 24 * Hour)%Z.
Definition ServerCertValidity : Z := (90 * 24 * Hour)%Z.

(** The template of the CA's own certificate. *)
Definition ca_template (serial : N) (notBefore notAfter : Z) : X509Cert := {|
  x509_Serial := serial; x509_CommonName := "guided-ssh agent mTLS CA";
  x509_NotBefore := notBefore; x509_NotAfter := notAfter; x509_IsCA := true;
  x509_CertSign := true; x509_ClientAuth := false; x509_ServerAuth := false;
  x509_IPAddresses := []; x509_DNSNames := []; x509_PublicKey := "" |}.
Definition agent_template (serial : N) (hostID : string) (notBefore notAfter : Z) : X509Cert := {|
  x509_Serial := serial; x509_CommonName := hostID;
  x509_NotBefore := notBefore; x509_NotAfter := notAfter; x509_IsCA := false;
  x509_CertSign := false; x509_ClientAuth := true; x509_ServerAuth := false;
  x509_IPAddresses := []; x509_DNSNames := []; x509_PublicKey := "" |}.
Definition server_template (serial : N) (ips names : list string) (notBefore notAfter : Z)
    : X509Cert := {|
  x509_Serial := serial; x509_CommonName := "guided-ssh agent api";
  x509_NotBefore := notBefore; x509_NotAfter := notAfter; x509_IsCA := false;
  x509_CertSign := false; x509_ClientAuth := false; x509_ServerAuth := true;
  x509_IPAddresses := ips; x509_DNSNames := names; x509_PublicKey := "" |}.

(** ** Key files of self-managed mode *)
Section keyfiles.
Context `{Crypto} `{X509}.

Definition loadMTLSPrivateKey (readFile : string → option string) (keyPath : string)
    : result string :=
  match readFile keyPath with
  | None => Err (ErrOther "read mtls ca key file")
  | Some raw =>
      match parse_pkcs8 raw with
      | None => Err (ErrOther "parse mtls ca key file")
      | Some priv => Ok priv
      end
  end.

Definition loadMTLSKeyFiles (readFile : string → option string) (keyPath certPath : string)
    : result ExternalMTLSKey :=
  match loadMTLSPrivateKey readFile keyPath with
  | Err e => Err e
  | Ok priv =>
  match readFile certPath with
  | None => Err (ErrOther "read mtls ca cert file")
  | Some rawCert =>
  match parse_certificate rawCert with
  | None => Err (ErrOther "parse mtls ca cert file")
  | Some cert =>
      if negb (x509_IsCA cert) then Err (ErrOther "not a ca certificate")
      else if negb (x509_CertSign cert) then Err (ErrOther "key usage does not contain keyCertSign")
      else if negb (bool_decide (x509_PublicKey cert = ed25519_public priv))
      then Err (ErrOther "does not belong to key file")
      else Ok {| ext_Certificate := cert; ext_PrivateKey := priv;
                 ext_CertPEM := certificate_pem rawCert; ext_MTLSAlgorithm := "ed25519" |}
  end end end.

Definition LoadExternalKeys (readFile : string → option string)
    (userKeyFile hostKeyFile mtlsKeyFile mtlsCertFile : string) : result ExternalKeys :=
  match loadSSHKeyFile readFile userKeyFile CertTypeUser with
  | Err e => Err e
  | Ok user =>
  match loadSSHKeyFile readFile hostKeyFile CertTypeHost with
  | Err e => Err e
  | Ok host =>
  match loadMTLSKeyFiles readFile mtlsKeyFile mtlsCertFile with
  | Err e => Err e
  | Ok mtls => Ok {| ext_User := user; ext_Host := host; ext_MTLS := mtls |}
  end end end.
End keyfiles.

(** ** The PKI *)
Section mtls.
Context `{Crypto} `{UUIDs} `{X509} (ca : CA).

Definition randomSerial : M N := let* n := rand_next in ret (big_serial n).

(** Certificate and key as PEM. *)
Definition GenerateMTLSCA : M (string * string) :=
  let* n := rand_next in
  let '(pub, priv) := ed25519_key n in
  let* serial := randomSerial in
  let* before := time_Now in
  let* after := time_Now in
  let template := ca_template serial (Add before (- Minute)) (Add after mtlsCAValidity) in
  match x509_CreateCertificate template template pub priv with
  | None => fail (ErrOther "ca: create mtls ca certificate")
  | Some certPEM => ret (certPEM, encode_pkcs8 priv)
  end.

Definition EnsureMTLSCA : M unit :=
  if selfManaged ca then fail (ErrWrap "call AdoptExternalKeys" ErrSelfManaged)
  else
    let* keys := ListActiveCAKeys CAPurposeMTLS in
    match keys with
    | _ :: _ => ret ()
    | [] =>
        let* '(certPEM, keyPEM) := GenerateMTLSCA in
        let* encrypted := encryptPrivateKey (ca_masterKey ca) keyPEM in
        let* key := wrap "ca: persist mtls ca" (CreateCAKey {|
          cakey_ID := 0%N; cakey_Purpose := CAPurposeMTLS; cakey_Algorithm := "ed25519";
          cakey_PublicKey := certPEM; cakey_EncryptedPrivateKey := Some encrypted;
          cakey_State := CAKeyStateActive; cakey_CreatedAt := 0; cakey_RetiredAt := None |}) in
        AppendAuditEvent (new_audit EventKeyCreated "" (JObj
          [("ca_key_id", JUuid (cakey_ID key)); ("purpose", JStr CAPurposeMTLS)]))
    end.

(** The stored material of an active row. *)
Definition load_mtls_row (k : CAKey) : result (X509Cert * string * string) :=
  match parse_certificate (cakey_PublicKey k) with
  | None => Err (ErrOther "ca: parse mtls ca")
  | Some cert =>
      match decryptPrivateKey (ca_masterKey ca) (default "" (cakey_EncryptedPrivateKey k)) with
      | Err e => Err (ErrWrap "ca: mtls ca" e)
      | Ok keyPEM =>
          match parse_pkcs8 keyPEM with
          | None => Err (ErrOther "ca: parse mtls key")
          | Some priv => Ok (cert, priv, cakey_PublicKey k)
          end
      end
  end.

Definition mtlsCA : M (X509Cert * string * string) :=
  match ca_external ca with
  | Some ext => ret (ext_Certificate (ext_MTLS ext), ext_PrivateKey (ext_MTLS ext),
                     ext_CertPEM (ext_MTLS ext))
  | None =>
      let* keys := ListActiveCAKeys CAPurposeMTLS in
      match first_active keys with
      | Some k => lift (load_mtls_row k)
      | None => fail (ErrOther "ca: no active mtls ca (EnsureMTLSCA missing?)")
      end
  end.

Definition MTLSCAPEM : M string := let* '(_, _, pemStr) := mtlsCA in ret pemStr.
(** The pool holds the one CA certificate. *)
Definition MTLSCAPool : M (list X509Cert) := let* '(cert, _, _) := mtlsCA in ret [cert].

Definition IssueAgentCert (hostID : uuid) (csrPEM : string) : M string :=
  match parse_csr csrPEM with
  | None => fail (ErrOther "ca: not a valid pem csr")
  | Some pub =>
      let* '(caCert, caPriv, _) := mtlsCA in
      let* serial := randomSerial in
      let* before := time_Now in
      let* after := time_Now in
      let template := agent_template serial (uuid_String hostID) (Add before (- Minute))
                        (Add after AgentCertValidity) in
      match x509_CreateCertificate template caCert pub caPriv with
      | None => fail (ErrOther "ca: create agent certificate")
      | Some pem =>
          AppendAuditEvent (new_audit EventAgentCertIssued ("host:" +:+ uuid_String hostID) (JObj
            [("host_id", JUuid hostID); ("not_after", JNum (x509_NotAfter template));
             ("serial", JStr (number_text (Z.of_N serial)))])) ;;
          ret pem
      end
  end.

Definition IssueServerCert (names : list string) : M (string * string) :=
  let* '(caCert, caPriv, _) := mtlsCA in
  let* n := rand_next in
  let '(pub, priv) := ed25519_key n in
  let* serial := randomSerial in
  let* before := time_Now in
  let* after := time_Now in
  let template := server_template serial (List.filter is_IP names)
    (List.filter (λ name, negb (is_IP name) && negb (bool_decide (name = ""))) names)
    (Add before (- Minute)) (Add after ServerCertValidity) in
  match x509_CreateCertificate template caCert pub caPriv with
  | None => fail (ErrOther "ca: create server certificate")
  | Some pem => ret (pem, priv)
  end.
End mtls.

(** ** Lemmas *)
Section lemmas.
Context `{Crypto} `{UUIDs} `{X509} (ca : CA).
Implicit Types w : World.

(** Loading the CA writes nothing. *)
Lemma mtlsCA_db w r w' : mtlsCA ca w = (r, w') → w_db w' = w_db w.
Proof.
  unfold mtlsCA. destruct (ca_external ca); [unfold ret; intros; by simplify_eq|].
  unfold bind, ListActiveCAKeys, queryAll, sql_select, stmt, lift, ret, fail.
  destruct (w_faults w) as [|[]]; simpl; repeat case_match; intros; by simplify_eq/=.
Qed.

(** A serial and two readings of the clock. *)
Lemma draw_template {A} (k : N → Z → Z → M A) w :
  ∃ before after w1,
    (let* serial := randomSerial in let* before := time_Now in let* after := time_Now in
     k serial before after) w = k (big_serial (w_random w)) before after w1 ∧
    w_db w1 = w_db w ∧ w_uuid w1 = w_uuid w ∧ w_faults w1 = w_faults w.
Proof.
  unfold randomSerial, rand_next, bind, ret, time_Now. simpl.
  destruct (w_ticks w) as [|t [|t' ts]] eqn:E; simpl; rewrite ?E; simpl;
    eexists _, _, _; (split; [reflexivity|done]).
Qed.

(** The outcome of an agent certificate request. *)
Lemma IssueAgentCert_run hostID csr w r w' :
  IssueAgentCert ca hostID csr w = (r, w') →
  match r with
  | Err _ => w_db w' = w_db w
  | Ok pem => ∃ pub serial before after caCert caPriv e,
      parse_csr csr = Some pub ∧
      x509_CreateCertificate (agent_template serial (uuid_String hostID) (Add before (- Minute))
        (Add after AgentCertValidity)) caCert pub caPriv = Some pem ∧
      (∃ pemCA w1, mtlsCA ca w = (Ok (caCert, caPriv, pemCA), w1)) ∧
      audit_EventType e = EventAgentCertIssued ∧ audit_Actor e = "host:" +:+ uuid_String hostID ∧
      w_db w' = put_rows audit_events_table (audit_events (w_db w) ++ [e]) (w_db w)
  end.
Proof.
  unfold IssueAgentCert. destruct (parse_csr csr) as [pub|];
    [|unfold fail; intros; by simplify_eq].
  unfold bind at 1. destruct (mtlsCA ca w) as [[[[c p] pemCA]|e] w1] eqn:Em;
    pose proof (mtlsCA_db _ _ _ Em) as Hdb; [|intros; by simplify_eq].
  match goal with |- bind randomSerial (λ s, bind time_Now (λ b, bind time_Now (λ a, @?k s b a))) _ = _ → _ =>
    destruct (draw_template k w1) as (before & after & w2 & -> & Hdb2 & _ & _) end.
  simpl. destruct (x509_CreateCertificate _ _ _ _) as [out|] eqn:Ec;
    [|unfold fail; intros; simplify_eq; congruence].
  unfold bind, AppendAuditEvent, insertAuditEvent, stmt, ret.
  destruct (w_faults w2) as [|[]]; intros; simplify_eq/=; [|congruence|];
    (eexists pub, _, before, after, c, p, _; split_and!;
     [done|exact Ec|by exists pemCA, w1|..|by rewrite Hdb2, Hdb]; done).
Qed.
End lemmas.

(** ** Bootstrap *)
Section bootstrap.
Context `{Crypto} `{UUIDs} `{X509} (ca : CA).
Implicit Types w : World.

Lemma GenerateMTLSCA_Ok w certPEM keyPEM w' :
  GenerateMTLSCA w = (Ok (certPEM, keyPEM), w') →
  w_db w' = w_db w ∧ ∃ cert priv, parse_certificate certPEM = Some cert ∧
    parse_pkcs8 keyPEM = Some priv ∧ x509_IsCA cert = true ∧ x509_CertSign cert = true ∧
    x509_PublicKey cert = ed25519_public priv.
Proof.
  unfold GenerateMTLSCA. unfold bind at 1. simpl.
  pose proof (ed25519_public_key (w_random w)) as Hpub.
  destruct (ed25519_key (w_random w)) as [pub priv]. simpl in Hpub.
  match goal with |- bind randomSerial (λ s, bind time_Now (λ b, bind time_Now (λ a, @?k s b a))) ?w1 = _ → _ =>
    destruct (draw_template k w1) as (before & after & w2 & -> & Hdb2 & _ & _) end.
  simpl. destruct (x509_CreateCertificate _ _ _ _) as [pem|] eqn:Ec; [|done].
  unfold ret. intros; simplify_eq. split; [done|].
  eexists _, _. split; [by eapply parse_created|]. split; [apply parse_encode_pkcs8|]. done.
Qed.

(** After a bootstrap into an empty table the key row loads. *)
Lemma EnsureMTLSCA_creates w w' :
  selfManaged ca = false → bundle_keys (w_db w) CAPurposeMTLS = [] →
  EnsureMTLSCA ca w = (Ok (), w') →
  ∃ row cert priv, bundle_keys (w_db w') CAPurposeMTLS = [row] ∧
    cakey_State row = CAKeyStateActive ∧
    load_mtls_row ca row = Ok (cert, priv, cakey_PublicKey row) ∧
    x509_IsCA cert = true ∧ x509_CertSign cert = true ∧ x509_PublicKey cert = ed25519_public priv.
Proof.
  intros Hself Hnone. unfold EnsureMTLSCA. rewrite Hself. intros Hr. unfold ListActiveCAKeys in Hr.
  run_step. run_step. subst. rewrite Hnone in *.
  match goal with Hb : bind GenerateMTLSCA _ _ = _ |- _ =>
    apply bind_Ok in Hb as ([certPEM keyPEM] & w2 & Hgen & Hb) end.
  apply GenerateMTLSCA_Ok in Hgen as (Hdb & cert & priv & Hcert & Hpriv & Hca & Hsign & Hpub).
  repeat run_step.
  match goal with He : encryptPrivateKey _ _ _ = _ |- _ =>
    apply encryptPrivateKey_Ok in He as (Hdec & _ & Hdb2 & _ & _) end.
  match goal with Hc : CreateCAKey _ _ = _ |- _ => apply CreateCAKey_run in Hc as (_ & Hks & _ & Hrow) end.
  match goal with Ha : AppendAuditEvent _ _ = _ |- _ => apply AppendAuditEvent_run in Ha as (Hks2 & _) end.
  match type of Hrow with ?k = _ => exists k, cert, priv end. rewrite Hrow. simpl.
  split_and!; [|done| |done..].
  - unfold bundle_keys in *. rewrite Hks2, Hks, Hdb2, Hdb. simpl. rewrite filter_snoc.
    assert (List.filter (λ k, bool_decide (cakey_Purpose k = CAPurposeMTLS) &&
      negb (bool_decide (cakey_State k = CAKeyStateRetired))) (ca_keys (w_db w)) = []) as ->.
    { apply Permutation_nil_r. by rewrite <-(sort_by_perm newest_key_first (List.filter _ _)), Hnone. }
    rewrite Hrow. simpl. done.
  - unfold load_mtls_row. simpl. by rewrite Hcert, Hdec, Hpriv.
Qed.

Lemma mtlsCA_of_row w row x :
  selfManaged ca = false → w_faults w = [] → bundle_keys (w_db w) CAPurposeMTLS = [row] →
  cakey_State row = CAKeyStateActive → load_mtls_row ca row = Ok x → (mtlsCA ca w).1 = Ok x.
Proof.
  unfold selfManaged, mtlsCA. destruct (ca_external ca); [done|]. intros _ Hf Hb Hst Hl.
  unfold bind, ListActiveCAKeys, queryAll, sql_select. rewrite stmt_nofault by done. simpl.
  rewrite Hb. simpl. rewrite bool_decide_true by done. rewrite Hl. done.
Qed.
End bootstrap.

(** ** Properties *)

(** An agent certificate is only ever issued for a certificate request with
    a valid signature, certifies the request's key, is good for client
    authentication only, and carries the id of the enrolled host as its common
    name, from which the agent API reads the host id back: whatever the
    request asks for, the identity is the server's. One ca.agent_cert_issued
    event of that host is written and nothing else; a failure writes nothing. *)
Theorem agent_cert_names_host `{Crypto} `{UUIDs} `{X509} ca hostID csr w r w'
  (Hrun : IssueAgentCert ca hostID csr w = (r, w')) :
  match r with
  | Ok pem => ∃ cert e, parse_certificate pem = Some cert ∧
      parse_csr csr = Some (x509_PublicKey cert) ∧
      uuid_Parse (x509_CommonName cert) = Some hostID ∧
      x509_IsCA cert = false ∧ x509_ClientAuth cert = true ∧ x509_ServerAuth cert = false ∧
      audit_EventType e = EventAgentCertIssued ∧ audit_Actor e = "host:" +:+ uuid_String hostID ∧
      w_db w' = put_rows audit_events_table (audit_events (w_db w) ++ [e]) (w_db w)
  | Err _ => w_db w' = w_db w
  end.
Proof.
  apply IssueAgentCert_run in Hrun. destruct r as [pem|]; [|done].
  destruct Hrun as (pub & serial & before & after & caCert & caPriv & e & Hcsr & Hc & _ & ? & ? & ?).
  eexists _, e. split; [by eapply parse_created|]. split_and!; try done. apply uuid_Parse_String.
Qed.

(** The bootstrap of the agent PKI: with no mTLS key in the table, a
    successful [EnsureMTLSCA] stores exactly one active key whose certificate
    is a signing CA for the stored private key; from then on every call loads
    that certificate and key (as [IssueAgentCert] and the listener need them),
    and bootstrapping again changes nothing. *)
Theorem mtls_bootstrap_loads `{Crypto} `{UUIDs} `{X509} ca w w'
  (Hmanaged : selfManaged ca = false) (Hnone : bundle_keys (w_db w) CAPurposeMTLS = [])
  (Hrun : EnsureMTLSCA ca w = (Ok (), w')) :
  ∃ cert priv pem, x509_IsCA cert = true ∧ x509_CertSign cert = true ∧
    x509_PublicKey cert = ed25519_public priv ∧
    ∀ later, ca_keys (w_db later) = ca_keys (w_db w') → w_faults later = [] →
      (mtlsCA ca later).1 = Ok (cert, priv, pem) ∧ EnsureMTLSCA ca later = (Ok (), later).
Proof.
  destruct (EnsureMTLSCA_creates ca w w' Hmanaged Hnone Hrun)
    as (row & cert & priv & Hrow & Hst & Hl & Hca & Hsign & Hpub).
  exists cert, priv, (cakey_PublicKey row). split_and!; try done. intros later Hks Hf.
  assert (bundle_keys (w_db later) CAPurposeMTLS = [row]) as Hb
    by (rewrite <-Hrow; unfold bundle_keys; by rewrite Hks).
  split; [by eapply mtlsCA_of_row|].
  unfold EnsureMTLSCA, bind, ListActiveCAKeys, queryAll, sql_select.
  rewrite Hmanaged, stmt_nofault by done. simpl. by rewrite Hb.
Qed.

(** Mounted mTLS files are accepted only as a signing CA with its own key:
    the certificate is a CA with the certificate-signing usage, and its public
    key is the one of the mounted private key. *)
Theorem mounted_mtls_is_a_ca `{X509} readFile keyPath certPath m
  (Hload : loadMTLSKeyFiles readFile keyPath certPath = Ok m) :
  ∃ raw, readFile certPath = Some raw ∧ parse_certificate raw = Some (ext_Certificate m) ∧
    ext_CertPEM m = certificate_pem raw ∧
    x509_IsCA (ext_Certificate m) = true ∧ x509_CertSign (ext_Certificate m) = true ∧
    x509_PublicKey (ext_Certificate m) = ed25519_public (ext_PrivateKey m) ∧
    (readFile keyPath ≫= parse_pkcs8) = Some (ext_PrivateKey m).
Proof.
  unfold loadMTLSKeyFiles, loadMTLSPrivateKey in Hload.
  destruct (readFile keyPath) as [rk|]; [|done]. destruct (parse_pkcs8 rk) as [k|] eqn:Ek; [|done].
  destruct (readFile certPath) as [raw|]; [|done].
  destruct (parse_certificate raw) as [cert|] eqn:Ec; [|done].
  destruct (x509_IsCA cert) eqn:E1; [|done]. destruct (x509_CertSign cert) eqn:E2; [|done].
  simpl in Hload. case_bool_decide; [|done]. simplify_eq/=. by exists raw.
Qed.

(** ** A toy instance: a certificate is the text of its fields *)
Fixpoint pos_text (p : positive) : string :=
  match p with xH => "." | xO p => String "0" (pos_text p) | xI p => String "1" (pos_text p) end.
Fixpoint text_pos (s : string) : option positive :=
  match s with
  | String "0" s => xO <$> text_pos s
  | String "1" s => xI <$> text_pos s
  | String "." "" => Some xH
  | _ => None
  end.
Lemma text_pos_text p : text_pos (pos_text p) = Some p.
Proof. induction p; simpl; rewrite ?IHp; done. Qed.

Definition x509_fields (c : X509Cert) : list positive :=
  [encode (x509_Serial c); encode (x509_CommonName c); encode (x509_NotBefore c);
   encode (x509_NotAfter c); encode (x509_IsCA c); encode (x509_CertSign c);
   encode (x509_ClientAuth c); encode (x509_ServerAuth c); encode (x509_IPAddresses c);
   encode (x509_DNSNames c); encode (x509_PublicKey c)].
Definition x509_text (c : X509Cert) : string := pos_text (positives_flatten (x509_fields c)).
Definition x509_of_text (s : string) : option X509Cert :=
  p ← text_pos s;
  l ← positives_unflatten p;
  match l with
  | [a; b; c; d; e; f; g; h; i; j; k] =>
      a ← decode a; b ← decode b; c ← decode c; d ← decode d; e ← decode e; f ← decode f;
      g ← decode g; h ← decode h; i ← decode i; j ← decode j; k ← decode k;
      Some {| x509_Serial := a; x509_CommonName := b; x509_NotBefore := c; x509_NotAfter := d;
              x509_IsCA := e; x509_CertSign := f; x509_ClientAuth := g; x509_ServerAuth := h;
              x509_IPAddresses := i; x509_DNSNames := j; x509_PublicKey := k |}
  | _ => None
  end.
Lemma x509_of_text_text c : x509_of_text (x509_text c) = Some c.
Proof.
  unfold x509_of_text, x509_text. rewrite text_pos_text. cbn [mbind option_bind].
  rewrite positives_unflatten_flatten. unfold x509_fields. cbn [mbind option_bind].
  rewrite !decode_encode. by destruct c.
Qed.

#[refine] Definition toy_x509 : X509 := {|
  ed25519_key n := (unary (N.to_nat n), unary (N.to_nat n)); ed25519_public k := k;
  encode_pkcs8 k := k; parse_pkcs8 s := Some s;
  x509_CreateCertificate t _ pub _ := Some (x509_text (x509_issued t pub));
  parse_certificate := x509_of_text; certificate_pem s := s;
  parse_csr s := if bool_decide (s = "") then None else Some s;
  big_serial n := n; is_IP _ := false;
  uuid_String n := pos_text (encode n); uuid_Parse s := p ← text_pos s; decode p |}.
Proof.
  - done.
  - done.
  - intros t p pub k pem [= <-]. apply x509_of_text_text.
  - intros id. rewrite text_pos_text. simpl. apply decode_encode.
Defined.

Definition toy_mtls_world : @World toy_crypto :=
  (EnsureMTLSCA (H0 := counting_uuids) (H1 := toy_x509) toy_ca (toy_world toy_db)).2.

Lemma mtls_bootstrap_loads_witness :
  EnsureMTLSCA (H0 := counting_uuids) (H1 := toy_x509) toy_ca (toy_world toy_db) =
    (Ok (), toy_mtls_world) ∧
  EnsureMTLSCA (H0 := counting_uuids) (H1 := toy_x509) toy_ca toy_mtls_world =
    (Ok (), toy_mtls_world).
Proof.
  assert (EnsureMTLSCA (H0 := counting_uuids) (H1 := toy_x509) toy_ca (toy_world toy_db) =
    (Ok (), toy_mtls_world)) as E by (vm_compute; reflexivity).
  split; [exact E|].
  destruct (mtls_bootstrap_loads (H0 := counting_uuids) (H1 := toy_x509) toy_ca (toy_world toy_db)
    toy_mtls_world eq_refl eq_refl E) as (cert & priv & pem & _ & _ & _ & Hlater).
  apply (Hlater toy_mtls_world eq_refl). vm_compute. reflexivity.
Defined.

Lemma agent_cert_names_host_witness :
  ∃ pem w', IssueAgentCert (H1 := toy_x509) toy_ca 20 "csr" toy_mtls_world =
      (Ok pem, w') ∧
    ∃ cert, parse_certificate (X509 := toy_x509) pem = Some cert ∧
      uuid_Parse (X509 := toy_x509) (x509_CommonName cert) = Some 20%N.
Proof.
  destruct (IssueAgentCert (H1 := toy_x509) toy_ca 20 "csr" toy_mtls_world)
    as [[pem|e] w'] eqn:E; [|vm_compute in E; discriminate E].
  exists pem, w'. split; [reflexivity|].
  destruct (agent_cert_names_host (H0 := counting_uuids) (H1 := toy_x509) toy_ca 20 "csr"
    toy_mtls_world (Ok pem) w' E) as (cert & e & Hc & _ & Hid & _).
  exists cert. split; [exact Hc|exact Hid].
Defined.

Lemma mounted_mtls_is_a_ca_witness :
  let files path := if bool_decide (path = "key") then Some "m"
                    else Some (x509_text toy_mtls_cert) in
  ∃ m, loadMTLSKeyFiles (H0 := toy_x509) files "key" "cert" = Ok m ∧
    x509_IsCA (ext_Certificate m) = true.
Proof.
  intros files.
  destruct (loadMTLSKeyFiles (H0 := toy_x509) files "key" "cert") as [m|e] eqn:E;
    [|vm_compute in E; discriminate E].
  exists m. split; [reflexivity|].
  destruct (mounted_mtls_is_a_ca (H := toy_x509) files "key" "cert" m E) as (raw & _ & _ & _ & Hca & _).
  exact Hca.
Defined.
