(* ===== verification/AgentAPI.v ===== *)
(** * Enrollment and the agent API over HTTP (internal/api: enroll.go, agent.go)

    A host enrolls with a one-time token; afterwards its agent calls over
    mTLS, and the server takes the host's identity from the client
    certificate. *)
From S2P Require Export MTLS StoreSessions SignAPI.

Local Open Scope string_scope.
Local Open Scope list_scope.

Definition defaultHostValidity : Z := (30 * 24 * Hour)%Z.

Record enrollRequest := {
  enr_Token : string; enr_Hostname : string; enr_SSHPublicKey : string; enr_MTLSCSR : string;
  enr_Tags : gmap string string
}.
Definition decode_enroll (j : json) : option enrollRequest :=
  m ← struct_members j;
  token ← dec_field dec_string "token" "" m;
  hostname ← dec_field dec_string "hostname" "" m;
  key ← dec_field dec_string "ssh_public_key" "" m;
  csr ← dec_field dec_string "mtls_csr" "" m;
  tags ← dec_field dec_string_map "tags" ∅ m;
  Some {| enr_Token := token; enr_Hostname := hostname; enr_SSHPublicKey := key;
          enr_MTLSCSR := csr; enr_Tags := tags |}.

(** Session events as the agent reports them. *)
Record sessionEvent := {
  ev_Phase : string; ev_Service : string; ev_LocalUser : string; ev_RemoteUser : string;
  ev_RemoteAddr : string; ev_TTY : string; ev_Serial : Z; ev_KeyID : string;
  ev_Command : string; ev_OccurredAt : Z
}.

(** The names a host certificate is valid for: the full and the short name. *)
Definition host_principals (name : string) : list string :=
  match Cut name "." with
  | Some (short, _) => if negb (bool_decide (short = "")) then [name; short] else [name]
  | None => [name]
  end.

Definition host_request (host : Host) (key : PublicKey) (validAfter validity : Z) : CertRequest := {|
  CertType := CertTypeHost; RequestKey := Some key; KeyID := HostKeyID (host_Name host);
  Principals := host_principals (host_Name host); ValidAfter := validAfter;
  ValidBefore := Add validAfter validity; Extensions := ∅; CriticalOptions := ∅; Serial := 0 |}.

(** Which store call an event is for. *)
Inductive ingestion := Sudo | Opened | Closed | Discarded.
Definition classify (service phase : string) : ingestion :=
  if bool_decide (service = "sudo") && bool_decide (phase = "open") then Sudo
  else if bool_decide (phase = "open") then Opened
  else if bool_decide (phase = "close") && negb (bool_decide (service = "sudo")) then Closed
  else Discarded.

Definition session_event (host : Host) (ev : sessionEvent) : SessionEvent := {|
  se_HostID := host_ID host; se_HostName := host_Name host; se_LocalUser := ev_LocalUser ev;
  se_RemoteUser := ev_RemoteUser ev; se_RemoteAddr := ev_RemoteAddr ev; se_TTY := ev_TTY ev;
  se_CertSerial := if (0 <? ev_Serial ev)%Z then Some (ev_Serial ev) else None;
  se_KeyID := ev_KeyID ev; se_Command := ev_Command ev; se_OccurredAt := ev_OccurredAt ev |}.

Section handlers.
Context `{Crypto} `{UUIDs} `{X509} (ca : CA).

Definition issueHostCert (host : Host) (publicKey : PublicKey) (validity : Z)
    : M (SSHCertificate * Certificate) :=
  let validity := if (validity <=? 0)%Z then defaultHostValidity else validity in
  let* now := time_Now in
  Issue ca RequesterHost (host_request host publicKey (Add now (- Minute)) validity) {|
    ref_Actor := "host:" +:+ host_Name host; ref_UserID := None; ref_ServiceAccountID := None;
    ref_HostID := Some (host_ID host); ref_Context := [] |}.

(** The certificates of an enrolled host, and the bundles it gets. *)
Definition enroll_certificates (host : Host) (publicKey : PublicKey) (csr : string)
    (hostValidity : Z) : M Response :=
  let* issued := try (issueHostCert host publicKey hostValidity) in
  match issued with
  | Err _ => ret internalError
  | Ok (cert, record) =>
  let* mtls := try (IssueAgentCert ca (host_ID host) csr) in
  match mtls with
  | Err _ => ret (HttpError "mtls_csr invalid" StatusBadRequest)
  | Ok mtlsCert =>
  let* mtlsCA := try (MTLSCAPEM ca) in
  match mtlsCA with
  | Err _ => ret internalError
  | Ok mtlsCA =>
  let* bundle := try (Bundle CertTypeUser) in
  match bundle with
  | Err _ => ret internalError
  | Ok userBundle => ret {| status := StatusOK; content := Enrolled {|
      en_HostID := host_ID host; en_HostCertificate := cert;
      en_ValidBefore := crt_ValidBefore record; en_UserCABundle := userBundle;
      en_MTLSCertificate := mtlsCert; en_MTLSCA := mtlsCA |} |}
  end end end end.

Definition handleEnroll (hostValidity : Z) (r : Request) : M Response :=
  match decode_body maxRequestBody r ≫= decode_enroll with
  | None => ret (HttpError "request body invalid" StatusBadRequest)
  | Some req =>
  if bool_decide (enr_Token req = "") || bool_decide (enr_Hostname req = "")
  then ret (HttpError "token and hostname are required" StatusBadRequest)
  else
  match parse_authorized_key (enr_SSHPublicKey req) with
  | None => ret (HttpError "ssh_public_key invalid (authorized_keys format expected)" StatusBadRequest)
  | Some publicKey =>
  let* enrolled := try (EnrollHost {|
    enroll_TokenHash := sha256 (enr_Token req); enroll_Name := enr_Hostname req;
    enroll_PublicKey := TrimSpace (enr_SSHPublicKey req); enroll_Tags := enr_Tags req |}) in
  match enrolled with
  | Err e =>
      ret (if errors_Is e ErrNotFound
           then HttpError "enrollment token invalid, consumed, or expired" StatusForbidden
           else if errors_Is e ErrTokenHostMismatch
           then HttpError "enrollment token is bound to a different hostname" StatusForbidden
           else internalError)
  | Ok host => enroll_certificates host publicKey (enr_MTLSCSR req) hostValidity
  end end end.

(** The calling host: the client certificate names it, its row is looked up
    and its last contact stamped (a failure of the stamp is only logged). *)
Definition agentHost (r : Request) : M (sum Response Host) :=
  match req_PeerCN r with
  | None => ret (inl (HttpError "client certificate missing" StatusUnauthorized))
  | Some cn =>
  match uuid_Parse cn with
  | None => ret (inl (HttpError "client certificate without host id" StatusUnauthorized))
  | Some hostID =>
  let* found := try (GetHost hostID) in
  match found with
  | Err e => ret (inl (if errors_Is e ErrNotFound then HttpError "host unknown" StatusUnauthorized
                       else internalError))
  | Ok host =>
      let* touched := try (TouchHostLastSeen (host_ID host) (remoteIP r)) in
      ret (inr host)
  end end end.

(** [if _, ok := agentHost(...); !ok { return }]. *)
Definition with_host (r : Request) (k : Host → M Response) : M Response :=
  let* caller := agentHost r in
  match caller with inl response => ret response | inr host => k host end.

Definition agentRenew (hostValidity : Z) (r : Request) : M Response :=
  with_host r (λ host,
    match (j ← snd <$> req_Body r; m ← struct_members j; dec_field dec_string "public_key" "" m) with
    | None => ret (HttpError "request body invalid" StatusBadRequest)
    | Some key =>
        match parse_authorized_key key with
        | None => ret (HttpError "public_key invalid (authorized_keys format expected)" StatusBadRequest)
        | Some publicKey =>
            let* issued := try (issueHostCert host publicKey hostValidity) in
            match issued with
            | Err _ => ret internalError
            | Ok (cert, record) => ret {| status := StatusOK;
                                          content := RenewedCert cert (crt_ValidBefore record) |}
            end
        end
    end).

Definition agentRenewMTLS (r : Request) : M Response :=
  with_host r (λ host,
    match (j ← decode_body maxRequestBody r; m ← struct_members j; dec_field dec_string "csr" "" m) with
    | None => ret (HttpError "request body invalid" StatusBadRequest)
    | Some csr =>
        let* issued := try (IssueAgentCert ca (host_ID host) csr) in
        match issued with
        | Err _ => ret (HttpError "csr invalid" StatusBadRequest)
        | Ok certPEM => ret {| status := StatusOK; content := JsonBody (JObj [("certificate", JStr certPEM)]) |}
        end
    end).

Definition agentPrincipals (r : Request) : M Response :=
  with_host r (λ host,
    let localUser := default "" (req_Query r !! "user") in
    if bool_decide (localUser = "")
    then ret (HttpError "query parameter user missing" StatusBadRequest)
    else
      let* listed := try (ListAuthorizedPrincipals (host_ID host) localUser) in
      match listed with
      | Err _ => ret internalError
      | Ok principals => ret {| status := StatusOK; content := Principals_ principals |}
      end).

Definition ingestSessionEvent (host : Host) (ev : sessionEvent) : M unit :=
  let e := session_event host ev in
  match classify (ev_Service ev) (ev_Phase ev) with
  | Sudo => RecordSudoEvent e
  | Opened => OpenHostSession e
  | Closed => CloseHostSession e
  | Discarded => ret ()
  end.

(** [decode_events] reads the events array of the body. *)
Definition agentSessions (decode_events : json → option (list sessionEvent)) (r : Request)
    : M Response :=
  with_host r (λ host,
    match decode_body (1024 * 1024) r ≫= decode_events with
    | None => ret (HttpError "request body invalid" StatusBadRequest)
    | Some events =>
        foldM (λ _ ev, let* stored := try (ingestSessionEvent host ev) in ret ()) () events ;;
        ret {| status := StatusNoContent; content := NoBody |}
    end).

Definition agentBundleUser (r : Request) : M Response :=
  with_host r (λ _,
    let* bundle := try (Bundle CertTypeUser) in
    match bundle with
    | Err _ => ret internalError
    | Ok b => ret {| status := StatusOK; content := Plain b |}
    end).

Definition agentHeartbeat (r : Request) : M Response :=
  with_host r (λ _, ret {| status := StatusNoContent; content := NoBody |}).
End handlers.

(** The body of POST /v1/agent/sessions; [parse_time] is the JSON form of
    [time.Time] (RFC 3339). *)
Section session_body.
Context (parse_time : string → option Z).

Definition dec_time : decoder Z := λ old v,
  match v with JNull => Some old | JStr s => parse_time s | _ => None end.
Definition decode_event (v : json) : option sessionEvent :=
  m ← struct_members v;
  phase ← dec_field dec_string "phase" "" m;
  service ← dec_field dec_string "service" "" m;
  local ← dec_field dec_string "local_user" "" m;
  remote ← dec_field dec_string "remote_user" "" m;
  addr ← dec_field dec_string "remote_addr" "" m;
  tty ← dec_field dec_string "tty" "" m;
  serial ← dec_field dec_int64 "serial" 0%Z m;
  key_id ← dec_field dec_string "key_id" "" m;
  command ← dec_field dec_string "command" "" m;
  at_ ← dec_field dec_time "occurred_at" time_zero m;
  Some {| ev_Phase := phase; ev_Service := service; ev_LocalUser := local; ev_RemoteUser := remote;
          ev_RemoteAddr := addr; ev_TTY := tty; ev_Serial := serial; ev_KeyID := key_id;
          ev_Command := command; ev_OccurredAt := at_ |}.
Definition dec_events : decoder (list sessionEvent) := λ _ v,
  match v with JNull => Some [] | JArr l => mapM decode_event l | _ => None end.
Definition decode_sessions (v : json) : option (list sessionEvent) :=
  m ← struct_members v; dec_field dec_events "events" [] m.
End session_body.

(** ** Lemmas *)

(** What the certificates of an enrolled host do not touch. *)
Definition enrollment_kept : relation Db := λ db db',
  hosts db' = hosts db ∧ enrollment_tokens db' = enrollment_tokens db.
#[export] Instance enrollment_kept_preorder : PreOrder enrollment_kept.
Proof. split; [done|]. intros a b c [] []. split; congruence. Qed.

Section lemmas.
Context `{Crypto} `{UUIDs} `{X509} (ca : CA).
Implicit Types w : World.

#[export] Instance issueHostCert_kept host key v :
  Keeps enrollment_kept (issueHostCert ca host key v).
Proof.
  unfold issueHostCert. apply keeps_bind; [apply _..|]. intros now. by apply keeps_Issue; try apply _.
Qed.
#[export] Instance IssueAgentCert_kept id csr : Keeps enrollment_kept (IssueAgentCert ca id csr).
Proof.
  intros w. destruct (IssueAgentCert ca id csr w) as [r w'] eqn:E. simpl.
  apply IssueAgentCert_run in E. destruct r.
  - destruct E as (? & ? & ? & ? & ? & ? & ? & _ & _ & _ & _ & _ & ->). done.
  - rewrite E. reflexivity.
Qed.
#[export] Instance MTLSCAPEM_kept : Keeps enrollment_kept (MTLSCAPEM ca).
Proof.
  unfold MTLSCAPEM. apply keeps_bind; [apply _| |intros [[]]; apply _].
  intros w. destruct (mtlsCA ca w) as [r w'] eqn:E. apply mtlsCA_db in E. simpl. rewrite E. reflexivity.
Qed.
#[export] Instance Bundle_kept purpose : Keeps enrollment_kept (Bundle purpose).
Proof. unfold Bundle, ListActiveCAKeys. destruct (_ && _); apply _. Qed.

(** A host certificate carries the host's names. *)
Lemma issueHostCert_Ok host key v w cert record w' :
  issueHostCert ca host key v w = (Ok (cert, record), w') →
  cert_ValidPrincipals cert = host_principals (host_Name host) ∧ cert_CertType cert = HostCert ∧
  cert_Key cert = key ∧ cert_KeyId cert = HostKeyID (host_Name host) ∧ cert_Extensions cert = ∅.
Proof.
  unfold issueHostCert. intros Hr. apply bind_Ok in Hr as (now & w1 & _ & Hr).
  apply Issue_Ok in Hr as (s & serial & id & t & _ & _ & Hs & _).
  apply Sign_Ok in Hs as (Hkey & _ & Ht & Hid & Hp & _ & _ & _ & He & _). simpl in *.
  injection Hkey as Hkey. destruct Ht as [[Ht _]|[_ Ht]]; [discriminate Ht|]. done.
Qed.

Lemma enroll_certificates_run host key csr v w o w' :
  enroll_certificates ca host key csr v w = (o, w') →
  enrollment_kept (w_db w) (w_db w') ∧ ∃ resp, o = Ok resp ∧ status resp ≠ StatusForbidden ∧
  ∀ e, content resp = Enrolled e →
    status resp = StatusOK ∧ en_HostID e = host_ID host ∧
    cert_ValidPrincipals (en_HostCertificate e) = host_principals (host_Name host) ∧
    cert_CertType (en_HostCertificate e) = HostCert ∧ cert_Key (en_HostCertificate e) = key ∧
    ∃ c, parse_certificate (en_MTLSCertificate e) = Some c ∧
         uuid_Parse (x509_CommonName c) = Some (host_ID host).
Proof.
  intros Hrun. split.
  { assert (Keeps enrollment_kept (enroll_certificates ca host key csr v)) as HK.
    { unfold enroll_certificates. apply keeps_bind; [apply _..|]. intros [[cert record]|]; [|apply _].
      apply keeps_bind; [apply _..|]. intros [|]; [|apply _]. apply keeps_bind; [apply _..|].
      intros [|]; [|apply _]. apply keeps_bind; [apply _..|]. intros [|]; apply _. }
    specialize (HK w). by rewrite Hrun in HK. }
  unfold enroll_certificates in Hrun. rewrite bind_try in Hrun.
  destruct (issueHostCert ca host key v w) as [[[cert record]|e] w1] eqn:Ei; [|by refused].
  apply issueHostCert_Ok in Ei as (Hp & Ht & Hk & _). rewrite bind_try in Hrun.
  destruct (IssueAgentCert ca (host_ID host) csr w1) as [[pem|e] w2] eqn:Ea; [|by refused].
  apply IssueAgentCert_run in Ea as (pub & serial & b & a & cc & cp & ev & _ & Hc & _).
  rewrite bind_try in Hrun. destruct (MTLSCAPEM ca w2) as [[pemCA|e] w3]; [|by refused].
  rewrite bind_try in Hrun. destruct (Bundle CertTypeUser w3) as [[bundle|e] w4]; [|by refused].
  refused. split; [done|]. intros e [= <-]. simpl. split_and!; try done.
  eexists. split; [by eapply parse_created|]. apply uuid_Parse_String.
Qed.

(** Stamping a host changes that row only, or nothing. *)
Definition stamped (id : uuid) (addr : string) (hs hs' : list Host) : Prop :=
  hs' = hs ∨ ∃ now, hs' = List.map (λ h, if bool_decide (host_ID h = id)
                                          then touched addr now h else h) hs.
Lemma TouchHostLastSeen_run id addr w r w' :
  TouchHostLastSeen id addr w = (r, w') → stamped id addr (hosts (w_db w)) (hosts (w_db w')).
Proof.
  unfold TouchHostLastSeen, execAffectingOne, bind. intros Hr.
  destruct (sql_update _ _ _ _ w) as [[rs|e] w1] eqn:E.
  - apply sql_update_Ok in E as (fs & _ & _ & ->).
    assert (w_db w' = w_db (set_db (put_rows hosts_table (List.map (λ r, if bool_decide (host_ID r = id)
      then touched addr (w_now w) r else r) (hosts (w_db w))) (w_db w)) (set_faults fs w))) as ->
      by (destruct rs; unfold ret, fail in Hr; by simplify_eq).
    right. by eexists.
  - apply sql_update_Err in E as [fs ->]. simplify_eq. by left.
Qed.

(** The identity of the caller is the certificate's. *)
Lemma agentHost_run r w o w' :
  agentHost r w = (o, w') → ∃ x, o = Ok x ∧
  match x with
  | inl resp => (status resp = StatusUnauthorized ∨ status resp = StatusInternalServerError) ∧
                w_db w' = w_db w
  | inr host => ∃ cn, req_PeerCN r = Some cn ∧ uuid_Parse cn = Some (host_ID host) ∧
      host ∈ hosts (w_db w) ∧
      stamped (host_ID host) (remoteIP r) (hosts (w_db w)) (hosts (w_db w'))
  end.
Proof.
  unfold agentHost. destruct (req_PeerCN r) as [cn|];
    [|unfold ret; intros; simplify_eq; eexists; split; [done|]; simpl; auto].
  destruct (uuid_Parse cn) as [id|] eqn:Eid;
    [|unfold ret; intros; simplify_eq; eexists; split; [done|]; simpl; auto].
  rewrite bind_try. unfold GetHost. destruct (queryOne _ w) as [q w1] eqn:Eq.
  apply queryOne_select_run in Eq as (Hdb & _ & _ & Hq). destruct q as [host|e].
  2: { unfold ret. intros; simplify_eq. eexists. split; [done|].
       split; [|done]. destruct (errors_Is e ErrNotFound); auto. }
  assert (host ∈ hosts (w_db w) ∧ host_ID host = id) as [Hin <-].
  { assert (host ∈ [host]) as Hh by (by left). rewrite <-Hq in Hh.
    apply filter_bool_In in Hh as [? Hh]. by bool_to_prop. }
  rewrite bind_try. destruct (TouchHostLastSeen _ _ w1) as [t w2] eqn:Et.
  apply TouchHostLastSeen_run in Et. rewrite Hdb in Et. unfold ret. intros; simplify_eq.
  eexists. split; [done|]. exists cn. split_and!; done.
Qed.
End lemmas.

(** ** Events of an agent *)

(** Every new audit event was written in the name of one actor. *)
Definition audited_as (actor : string) : relation Db := λ db db',
  ∃ new, audit_events db' = audit_events db ++ new ∧ Forall (λ e, audit_Actor e = actor) new.
#[export] Instance audited_as_preorder actor : PreOrder (audited_as actor).
Proof.
  split.
  - intros db. exists []. by rewrite app_nil_r.
  - intros a b c (l & Hl & Ha) (l' & Hl' & Ha'). exists (l ++ l'). rewrite Hl', Hl, app_assoc.
    split; [done|]. by apply Forall_app.
Qed.
#[export] Instance hosts_audited a : KeepsTable (audited_as a) hosts_table.
Proof. intros l db. exists []. by rewrite app_nil_r. Qed.
#[export] Instance sessions_audited a : KeepsTable (audited_as a) host_sessions_table.
Proof. intros l db. exists []. by rewrite app_nil_r. Qed.

Section events.
Context `{Crypto} `{UUIDs} `{X509}.

Lemma insertAuditEvent_audited e : Keeps (audited_as (audit_Actor e)) (insertAuditEvent e).
Proof.
  apply keeps_stmt; [apply _|]. intros w. simpl. eexists. split; [done|]. by apply Forall_singleton.
Qed.

(** An event is stored in the name of the host that reports it. *)
#[export] Instance ingestSessionEvent_audited host ev :
  Keeps (audited_as ("host:" +:+ host_Name host)) (ingestSessionEvent host ev).
Proof.
  assert (∀ at_ ty p, Keeps (audited_as ("host:" +:+ host_Name host))
    (insertAuditEvent (audit_at at_ ty (session_actor (session_event host ev)) p))) as HA.
  { intros. apply (insertAuditEvent_audited (audit_at _ _ _ _)). }
  unfold ingestSessionEvent. destruct (classify _ _); [| | |apply _].
  - unfold RecordSudoEvent, AppendAuditEvent. apply HA.
  - unfold OpenHostSession. apply keeps_BeginFunc; [apply _|]. apply keeps_bind; [apply _| |].
    + destruct (se_CertSerial _); [|apply _]. apply keeps_bind; [apply _..|].
      intros [|err]; [apply _|]. destruct (errors_Is err ErrNotFound); apply _.
    + intros. apply _.
  - unfold CloseHostSession. apply keeps_BeginFunc; [apply _|]. apply keeps_bind; [apply _..|].
    intros target. apply keeps_bind; [apply _..|]. intros [|err]; [apply _|].
    destruct (errors_Is err ErrNotFound); apply _.
Qed.
End events.

(** Recognising the caller writes no audit event. *)
Definition audit_kept : relation Db := λ db db', audit_events db' = audit_events db.
#[export] Instance audit_kept_preorder : PreOrder audit_kept.
Proof. split; [done|]. intros a b c ? ?. unfold audit_kept in *. congruence. Qed.
#[export] Instance hosts_audit_kept : KeepsTable audit_kept hosts_table.
Proof. by intros l db. Qed.
#[export] Instance agentHost_audit_kept `{Crypto} `{UUIDs} `{X509} r : Keeps audit_kept (agentHost r).
Proof.
  unfold agentHost, GetHost, TouchHostLastSeen. destruct (req_PeerCN r) as [cn|]; [|apply _].
  destruct (uuid_Parse cn); [|apply _]. apply keeps_bind; [apply _..|]. intros [|]; apply _.
Qed.

(** A loop that only logs errors runs to its end. *)
Lemma foldM_try_total `{Crypto} {A B} (m : A → M B) l w :
  ∃ w', foldM (λ _ x, let* stored := try (m x) in ret ()) () l w = (Ok (), w').
Proof.
  revert w. induction l as [|x l IH]; intros w; simpl; [by eexists|].
  unfold bind at 1. rewrite bind_try. destruct (m x w) as [r w1]. apply IH.
Qed.

(** The database changes only with a token that is usable for the host. *)
Lemma handleEnroll_changes `{Crypto} `{UUIDs} `{X509} ca validity r w o w' :
  handleEnroll ca validity r w = (o, w') →
  (∃ resp, o = Ok resp) ∧
  (w_db w' = w_db w ∨ ∃ req t, decode_body maxRequestBody r ≫= decode_enroll = Some req ∧
     t ∈ enrollment_tokens (w_db w) ∧ token_usable (sha256 (enr_Token req)) (w_now w) t = true ∧
     (token_HostName t = None ∨ token_HostName t = Some (enr_Hostname req))).
Proof.
  intros Hrun. unfold handleEnroll in Hrun.
  destruct (_ ≫= decode_enroll) as [req|] eqn:Ereq; [|unchanged].
  destruct (_ || _); [unchanged|].
  destruct (parse_authorized_key (enr_SSHPublicKey req)) as [key|] eqn:Ekey; [|unchanged].
  rewrite bind_try in Hrun. destruct (EnrollHost _ w) as [[host|e] w1] eqn:Ee.
  2: { apply transaction_Err in Ee. unchanged. }
  apply EnrollHost_Ok in Ee as ((t & Hin & Hu & Hb & _) & _). simpl in *.
  apply enroll_certificates_run in Hrun as (_ & resp & -> & _). split; [by eexists|].
  right. exists req, t. unfold host_bound_ok in Hb. done.
Qed.

(** ** Properties *)

(** C22: enrollment over HTTP: a certificate is only recorded when the request
    named a stored, unused, unexpired token whose hostname binding allows the
    name; a 403 leaves the database as it was. A successful answer carries an
    SSH host certificate for the submitted key and exactly the host's full and
    short name, and an mTLS certificate whose common name is the id of the
    enrolled host, and the token is spent. The handler always answers. *)
Theorem enroll_needs_token `{Crypto} `{UUIDs} `{X509} ca validity r w o w'
  (Hrun : handleEnroll ca validity r w = (o, w')) :
  ∃ resp, o = Ok resp ∧ (status resp = StatusForbidden → w_db w' = w_db w) ∧
  (w_db w' ≠ w_db w → ∃ req t, decode_body maxRequestBody r ≫= decode_enroll = Some req ∧
     t ∈ enrollment_tokens (w_db w) ∧ token_usable (sha256 (enr_Token req)) (w_now w) t = true ∧
     (token_HostName t = None ∨ token_HostName t = Some (enr_Hostname req)) ∧
     spent (sha256 (enr_Token req)) (w_now w) (enrollment_tokens (w_db w'))) ∧
  ∀ e, content resp = Enrolled e → status resp = StatusOK ∧
    ∃ req host c, decode_body maxRequestBody r ≫= decode_enroll = Some req ∧
      host ∈ hosts (w_db w') ∧ host_Name host = enr_Hostname req ∧ en_HostID e = host_ID host ∧
      Some (cert_Key (en_HostCertificate e)) = parse_authorized_key (enr_SSHPublicKey req) ∧
      cert_CertType (en_HostCertificate e) = HostCert ∧
      cert_ValidPrincipals (en_HostCertificate e) = host_principals (enr_Hostname req) ∧
      parse_certificate (en_MTLSCertificate e) = Some c ∧
      uuid_Parse (x509_CommonName c) = Some (host_ID host).
Proof.
  unfold handleEnroll in Hrun.
  destruct (_ ≫= decode_enroll) as [req|] eqn:Ereq; [|by refused].
  destruct (_ || _); [by refused|].
  destruct (parse_authorized_key (enr_SSHPublicKey req)) as [key|] eqn:Ekey; [|by refused].
  rewrite bind_try in Hrun. destruct (EnrollHost _ w) as [[host|e] w1] eqn:Ee.
  2: { apply transaction_Err in Ee. refused. rewrite Ee. by repeat case_match. }
  apply EnrollHost_Ok in Ee as ((t & Hin & Hu & Hb & _) & Hh & Hn & _ & Hsp & _). simpl in *.
  apply enroll_certificates_run in Hrun as ([Hhosts Htokens] & resp & -> & Hst & Hen).
  exists resp. split; [done|]. split; [done|]. split.
  { intros _. exists req, t. unfold host_bound_ok in Hb. simpl in Hb.
    split_and!; [done..|by rewrite Htokens]. }
  intros e He. destruct (Hen e He) as (Hok & Hid & Hp & Ht & Hk & c & Hc & Hcn). split; [done|].
  exists req, host, c. rewrite Hhosts, Hk, Hp, Hn. by split_and!.
Qed.

(** The agent API acts for the host its client certificate names and for
    no other: the caller is the stored host whose id is the certificate's
    common name; without a certificate, with another common name or for an
    unknown host the answer is 401 (500 when the database fails) and nothing
    changes. Recognising the caller touches the contact columns of that host's
    row only. *)
Theorem agent_is_its_certificate `{Crypto} `{UUIDs} `{X509} r k w o w'
  (Hrun : with_host r k w = (o, w')) :
  (∃ resp, o = Ok resp ∧ w_db w' = w_db w ∧
     (status resp = StatusUnauthorized ∨ status resp = StatusInternalServerError)) ∨
  ∃ host cn w1, req_PeerCN r = Some cn ∧ uuid_Parse cn = Some (host_ID host) ∧
    host ∈ hosts (w_db w) ∧
    stamped (host_ID host) (remoteIP r) (hosts (w_db w)) (hosts (w_db w1)) ∧
    k host w1 = (o, w').
Proof.
  unfold with_host, bind in Hrun. destruct (agentHost r w) as [x w1] eqn:Ea.
  apply agentHost_run in Ea as (caller & -> & Hcaller). destruct caller as [resp|host].
  - destruct Hcaller as [Hst Hdb]. left. unfold ret in Hrun. simplify_eq.
    exists resp. by split_and!.
  - destruct Hcaller as (cn & ? & ? & ? & ?). right. exists host, cn, w1. by split_and!.
Qed.

(** An agent's batch of session events cannot speak for another host: every
    audit event it causes has the calling host as its actor, whatever the
    events claim; a batch that reaches the store is always acknowledged with
    204, even if some of its events cannot be stored. *)
Theorem session_events_are_attributed `{Crypto} `{UUIDs} `{X509} decode r w o w'
  (Hrun : agentSessions decode r w = (o, w')) :
  ∃ resp, o = Ok resp ∧
  ((status resp ≠ StatusNoContent ∧ audit_events (w_db w') = audit_events (w_db w)) ∨
   status resp = StatusNoContent ∧ ∃ host cn, req_PeerCN r = Some cn ∧
     uuid_Parse cn = Some (host_ID host) ∧ host ∈ hosts (w_db w) ∧
     audited_as ("host:" +:+ host_Name host) (w_db w) (w_db w')).
Proof.
  unfold agentSessions, with_host in Hrun. unfold bind at 1 in Hrun.
  pose proof (keeps (R := audit_kept) (m := agentHost r) w) as Hk.
  destruct (agentHost r w) as [x w1] eqn:Ea. unfold audit_kept in Hk. simpl in Hk.
  apply agentHost_run in Ea as (caller & -> & Hcaller). destruct caller as [resp|host].
  { destruct Hcaller as [Hst Hdb]. unfold ret in Hrun. simplify_eq. exists resp. split; [done|].
    left. split; [|congruence]. destruct Hst as [->| ->]; done. }
  destruct Hcaller as (cn & Hcn & Hid & Hin & _).
  destruct (_ ≫= decode) as [events|]; [|by refused; left].
  destruct (foldM_try_total (ingestSessionEvent host) events w1) as [w2 Hf].
  pose proof (keeps (R := audited_as ("host:" +:+ host_Name host))
    (m := foldM (λ _ ev, let* stored := try (ingestSessionEvent host ev) in ret ()) () events) w1) as HK.
  unfold bind at 1 in Hrun. rewrite Hf in Hrun, HK. refused. right. split; [done|]. exists host, cn. split_and!; [done..|].
  unfold audited_as in *. rewrite <-Hk. exact HK.
Qed.

(** ** Concrete runs *)
Definition toy_token : EnrollmentToken := {|
  token_ID := 70; token_Hash := "tok"; token_HostName := Some "web1.example.org"; token_Tags := ∅;
  token_ExpiresAt := (2000 * Hour)%Z; token_UsedAt := None; token_UsedBy := None;
  token_CreatedAt := 0 |}.
(** A server after its bootstrap, with one enrollment token. *)
Definition toy_server : @World toy_crypto :=
  let w := set_db (put_rows enrollment_tokens_table [toy_token] (w_db toy_ca_world)) toy_ca_world in
  (EnsureMTLSCA (H0 := counting_uuids) (H1 := toy_x509) toy_ca
     (EnsureCAKeys (H0 := counting_uuids) toy_ca w).2).2.
Definition toy_enroll_http : Request := {|
  req_Authorization := "";
  req_Body := Some (200%Z, JObj [("token", JStr "tok"); ("hostname", JStr "web1.example.org");
    ("ssh_public_key", JStr "hk"); ("mtls_csr", JStr "csr")]);
  req_EmptyBody := false; req_RemoteAddr := "192.0.2.7:5000"; req_ForwardedFor := ""; req_PeerCN := None; req_Query := ∅;
  req_PathID := ""; req_RequestedWith := ""; req_Cookies := ∅; req_Host := "gssh.example.org";
  req_ForwardedProto := ""; req_TLS := false |}.
Definition toy_agent_http (body : json) : Request := {|
  req_Authorization := ""; req_Body := Some (200%Z, body);
  req_EmptyBody := false; req_RemoteAddr := "192.0.2.7:5000"; req_ForwardedFor := "";
  req_PeerCN := Some (uuid_String (X509 := toy_x509) 20); req_Query := ∅;
  req_PathID := ""; req_RequestedWith := ""; req_Cookies := ∅; req_Host := "gssh.example.org";
  req_ForwardedProto := ""; req_TLS := false |}.

Notation toy_enroll w := (handleEnroll (H0 := counting_uuids) (H1 := toy_x509) toy_ca 0
  toy_enroll_http w).
Notation toy_heartbeat w := (with_host (H1 := toy_x509) (toy_agent_http JNull)
  (λ _, ret {| status := StatusNoContent; content := NoBody |}) w).
Notation toy_report w := (agentSessions (H0 := counting_uuids) (H1 := toy_x509)
  (decode_sessions (λ _, Some 5%Z)) (toy_agent_http (JObj [("events", JArr [
    JObj [("phase", JStr "open"); ("service", JStr "sudo"); ("local_user", JStr "root")]])])) w).

(** The host certificate in an answer, and the status. *)
Definition names_in (o : result Response) : option (list string) :=
  match o with
  | Ok {| content := Enrolled e |} => Some (cert_ValidPrincipals (en_HostCertificate e))
  | _ => None
  end.
Example toy_agent_runs :
  names_in (toy_enroll toy_server).1 = Some ["web1.example.org"; "web1"] ∧
  (toy_heartbeat toy_server).1 = Ok {| status := 204; content := NoBody |} ∧
  (toy_report toy_server).1 = Ok {| status := 204; content := NoBody |} ∧
  List.length (audit_events (w_db (toy_report toy_server).2)) = 3%nat.
Proof. vm_compute. split_and!; reflexivity. Qed.

Lemma enroll_needs_token_witness :
  ∃ e w', toy_enroll toy_server = (Ok {| status := StatusOK; content := Enrolled e |}, w') ∧
    cert_ValidPrincipals (en_HostCertificate e) = ["web1.example.org"; "web1"] ∧
    ∃ c, parse_certificate (X509 := toy_x509) (en_MTLSCertificate e) = Some c ∧
         uuid_Parse (X509 := toy_x509) (x509_CommonName c) = Some (en_HostID e).
Proof.
  destruct toy_agent_runs as (Hn & _).
  destruct (toy_enroll toy_server) as [o w'] eqn:E.
  destruct (enroll_needs_token (H0 := counting_uuids) (H1 := toy_x509) toy_ca 0 toy_enroll_http
    toy_server o w' E) as ([st c] & -> & _ & _ & Hen).
  destruct c as [| | | | | | | | |e|]; try discriminate Hn.
  destruct (Hen e eq_refl) as (Hst & req & host & c & _ & _ & _ & Hid & _ & _ & _ & Hc & Hcn).
  simpl in Hst. subst st. exists e, w'. split; [reflexivity|]. simpl in Hn. injection Hn as Hn.
  split; [exact Hn|]. exists c. split; [exact Hc|]. rewrite Hid. exact Hcn.
Defined.

Lemma agent_is_its_certificate_witness :
  ∃ host w1 w', toy_heartbeat toy_server = (Ok {| status := 204; content := NoBody |}, w') ∧
    host_ID host = 20%N ∧ stamped 20 "192.0.2.7" (hosts (w_db toy_server)) (hosts (w_db (H := toy_crypto) w1)).
Proof.
  destruct toy_agent_runs as (_ & Hs & _).
  destruct (toy_heartbeat toy_server) as [o w'] eqn:E. simpl in Hs. subst o.
  destruct (agent_is_its_certificate (H0 := counting_uuids) (H1 := toy_x509) (toy_agent_http JNull)
    (λ _, ret {| status := StatusNoContent; content := NoBody |}) toy_server _ w' E)
    as [(resp & Ho & _ & Hst)|(host & cn & w1 & Hcn & Hid & _ & Hstamp & _)].
  { injection Ho as <-. destruct Hst as [Hst|Hst]; discriminate Hst. }
  injection Hcn as <-.
  assert (host_ID host = 20%N) as Hid'.
  { vm_compute in Hid. injection Hid as Hid. symmetry. exact Hid. }
  exists host, w1, w'. split; [reflexivity|]. split; [exact Hid'|].
  rewrite Hid' in Hstamp. exact Hstamp.
Defined.

Lemma session_events_are_attributed_witness :
  ∃ w', toy_report toy_server = (Ok {| status := 204; content := NoBody |}, w') ∧
    ∃ host : Host, host ∈ hosts (w_db toy_server) ∧
      audited_as ("host:" +:+ host_Name host) (w_db toy_server) (w_db w').
Proof.
  destruct toy_agent_runs as (_ & _ & Hs & _).
  destruct (toy_report toy_server) as [o w'] eqn:E. simpl in Hs. subst o.
  destruct (session_events_are_attributed (H0 := counting_uuids) (H1 := toy_x509) _ _ _ _ _ E)
    as (resp & Ho & Hor). injection Ho as <-.
  destruct Hor as [[Hst _]|(_ & host & cn & _ & _ & Hin & Haud)]; [by destruct Hst|].
  exists w'. split; [reflexivity|]. exists host. split; [exact Hin|exact Haud].
Defined.
