(* ===== verification/AdminAPI.v ===== *)
(** * The admin API (internal/api: admin.go, admin_rules.go, admin_ci.go,
    admin_ui.go, rollout.go)

    Members of the admin group edit the access rules, service accounts and
    enrollment tokens; auditors may read. A handler gets the caller's claims
    and the KeyID form of its identity, the actor of audit events. *)
From S2P Require Export MTLS StoreEnrollment UIAuth.

Local Open Scope string_scope.
Local Open Scope list_scope.

(** ** Request bodies *)
Definition dec_opt_map : decoder (option (gmap string string)) := λ old v,
  match v with JNull => Some None | _ => Some <$> dec_string_map (default ∅ old) v end.
Definition dec_opt_bool : decoder (option bool) := λ old v,
  match v with JNull => Some None | _ => Some <$> dec_bool false v end.
Definition dec_list {A} (dec : json → option A) : decoder (list A) := λ _ v,
  match v with JNull => Some [] | JArr l => mapM dec l | _ => None end.

Record grantRequest := {
  greq_Group : string; greq_Issuer : string; greq_TagSelector : option (gmap string string);
  greq_Principals : list string; greq_Sudo : bool; greq_MaxValiditySeconds : Z
}.
Definition decode_grant (j : json) : option grantRequest :=
  m ← struct_members j;
  group ← dec_field dec_string "group" "" m;
  issuer ← dec_field dec_string "issuer" "" m;
  selector ← dec_field dec_opt_map "tag_selector" None m;
  principals ← dec_field dec_strings "principals" [] m;
  sudo ← dec_field dec_bool "sudo" false m;
  secs ← dec_field dec_int64 "max_validity_seconds" 0%Z m;
  Some {| greq_Group := group; greq_Issuer := issuer; greq_TagSelector := selector;
          greq_Principals := principals; greq_Sudo := sudo; greq_MaxValiditySeconds := secs |}.
Definition applyRequest := list grantRequest.
Definition decode_apply (j : json) : option applyRequest :=
  m ← struct_members j; dec_field (dec_list decode_grant) "grants" [] m.

Record ciGrantRequest := {
  cireq_Project : string; cireq_RefPattern : string; cireq_ProtectedOnly : option bool;
  cireq_EnvironmentPattern : string; cireq_TagSelector : option (gmap string string);
  cireq_Principals : list string; cireq_MaxValiditySeconds : Z
}.
Definition decode_ci_grant (j : json) : option ciGrantRequest :=
  m ← struct_members j;
  project ← dec_field dec_string "project" "" m;
  ref ← dec_field dec_string "ref_pattern" "" m;
  protected ← dec_field dec_opt_bool "protected_only" None m;
  env ← dec_field dec_string "environment_pattern" "" m;
  selector ← dec_field dec_opt_map "tag_selector" None m;
  principals ← dec_field dec_strings "principals" [] m;
  secs ← dec_field dec_int64 "max_validity_seconds" 0%Z m;
  Some {| cireq_Project := project; cireq_RefPattern := ref; cireq_ProtectedOnly := protected;
          cireq_EnvironmentPattern := env; cireq_TagSelector := selector;
          cireq_Principals := principals; cireq_MaxValiditySeconds := secs |}.
Definition applyCIRequest := list ciGrantRequest.
Definition decode_ci_apply (j : json) : option applyCIRequest :=
  m ← struct_members j; dec_field (dec_list decode_ci_grant) "ci_grants" [] m.

Record createEnrollTokenRequest := {
  tok_Hostname : string; tok_Tags : gmap string string; tok_TTLSeconds : Z; tok_SessionAudit : bool
}.
Definition decode_enroll_token (j : json) : option createEnrollTokenRequest :=
  m ← struct_members j;
  hostname ← dec_field dec_string "hostname" "" m;
  tags ← dec_field dec_string_map "tags" ∅ m;
  secs ← dec_field dec_int64 "ttl_seconds" 0%Z m;
  session ← dec_field dec_bool "session_audit" false m;
  Some {| tok_Hostname := hostname; tok_Tags := tags; tok_TTLSeconds := secs;
          tok_SessionAudit := session |}.

(** [json.NewDecoder(r.Body).Decode]: no limit on the body. *)
Definition whole_body (r : Request) : option json := snd <$> req_Body r.

(** ** Rule ownership (admin_rules.go) *)
Record RulesConfig := { ManualRules : bool; HostFile : string; CIFile : string }.
Inductive ruleDomain := domainHost | domainCI.

Definition EnvHostRulesFile := "GSSH_HOST_RULES_FILE".
Definition EnvCIRulesFile := "GSSH_CI_RULES_FILE".
Definition EnvManualRules := "GSSH_MANUAL_RULES".
Definition fileEnv (d : ruleDomain) : string :=
  match d with domainCI => EnvCIRulesFile | domainHost => EnvHostRulesFile end.
Definition fileOwned (c : RulesConfig) (d : ruleDomain) : bool :=
  match d with
  | domainCI => negb (bool_decide (CIFile c = ""))
  | domainHost => negb (bool_decide (HostFile c = ""))
  end.
Definition editable (c : RulesConfig) (d : ruleDomain) : bool :=
  ManualRules c && negb (fileOwned c d).

Definition codeManualRulesDisabled := "manual_rules_disabled".
Definition codeRulesFileManaged := "rules_file_managed".

Definition writeJSON (code : Z) (j : json) : Response := {| status := code; content := JsonBody j |}.
Definition writeError (st : Z) (code message : string) : Response :=
  writeJSON st (JObj [("code", JStr code); ("error", JStr message)]).
Definition rejectFileManaged (d : ruleDomain) : Response :=
  writeError StatusForbidden codeRulesFileManaged
    ("these rules are managed by the rules file in " +:+ fileEnv d +:+
     " — change them in the source of that file (GitOps), API writes are disabled").
Definition rejectManual : Response :=
  writeError StatusForbidden codeManualRulesDisabled
    ("in-app rule editing is disabled — manage rules declaratively (`gssh-admin apply`) " +:+
     "or set " +:+ EnvManualRules +:+ "=true (chart value config.rules.manualProvision)").

(** ** The rollout gate (rollout.go)

    The number of embedded agent binaries and the pin are read when a request
    comes in. *)
Record rolloutGate := {
  gate_Agents : nat; gate_Pin : string; gate_AgentPublicURL : string; gate_PublicBaseURL : string
}.

Section rollout.
Context `{Encodings}.

Definition isHTTPSURL (raw : string) : bool :=
  match url_Parse raw with
  | Some (scheme, host) => bool_decide (scheme = "https") && negb (bool_decide (host = ""))
  | None => false
  end.
(** The condition a public URL of the configuration misses. *)
Definition missing_url (name url : string) : list string :=
  if bool_decide (url = "") then [name]
  else if negb (isHTTPSURL url) then [name +:+ "_https"] else [].
(** [rolloutGate.status]: the missing conditions. *)
Definition gate_missing (g : rolloutGate) : list string :=
  (if (gate_Agents g =? 0)%nat then ["binaries"] else []) ++
  (if bool_decide (gate_Pin g = "") then ["pin"] else []) ++
  missing_url "agent_public_url" (gate_AgentPublicURL g) ++
  missing_url "public_url" (gate_PublicBaseURL g).
(** [rolloutGate.allow]: the 503 answer of a closed gate. *)
Definition gate_refuses (g : rolloutGate) : option Response :=
  match gate_missing g with
  | [] => None
  | missing => Some (writeJSON StatusServiceUnavailable (JObj [
      ("error", JStr "host rollout not configured"); ("missing", JStrs missing)]))
  end.
End rollout.

(** ** JSON representations *)
Section representations.
Context `{X509} `{Encodings}.

Definition JTime (t : Z) : json := JStr (rfc3339 t).
Definition JId (id : uuid) : json := JStr (uuid_String id).
(** A member that is left out when its pointer is nil. *)
Definition opt_member {A} (name : string) (f : A → json) (o : option A) : list (string * json) :=
  match o with Some a => [(name, f a)] | None => [] end.
Definition text_member (name s : string) : list (string * json) :=
  if bool_decide (s = "") then [] else [(name, JStr s)].

Definition toGrantJSON (x : GrantWithGroup) : json :=
  let g := gwg_Grant x in JObj [
    ("id", JId (grant_ID g)); ("group", JStr (gwg_GroupName x)); ("issuer", JStr (gwg_GroupIssuer x));
    ("tag_selector", JMap (grant_TagSelector g)); ("principals", JStrs (grant_Principals g));
    ("sudo", JBool (grant_Sudo g)); ("max_validity_seconds", JNum (grant_MaxValiditySeconds g));
    ("created_at", JTime (grant_CreatedAt g)); ("updated_at", JTime (grant_UpdatedAt g))].
Definition toCIGrantJSON (g : CIGrant) : json := JObj (
  [("id", JId (cigrant_ID g)); ("project", JStr (cigrant_ProjectPath g))] ++
  text_member "ref_pattern" (cigrant_RefPattern g) ++
  [("protected_only", JBool (cigrant_ProtectedOnly g))] ++
  text_member "environment_pattern" (cigrant_EnvironmentPattern g) ++
  [("tag_selector", JMap (cigrant_TagSelector g)); ("principals", JStrs (cigrant_Principals g));
   ("max_validity_seconds", JNum (cigrant_MaxValiditySeconds g));
   ("created_at", JTime (cigrant_CreatedAt g)); ("updated_at", JTime (cigrant_UpdatedAt g))]).
Definition hostJSON (x : Host * gmap string string * option Z) : json :=
  let '(h, tags, valid) := x in JObj (
    [("id", JId (host_ID h)); ("name", JStr (host_Name h)); ("tags", JMap tags)] ++
    opt_member "enrolled_at" JTime (host_EnrolledAt h) ++
    opt_member "last_seen_at" JTime (host_LastSeenAt h) ++
    opt_member "last_seen_addr" JStr (host_LastSeenAddr h) ++
    opt_member "cert_valid_before" JTime valid ++ [("created_at", JTime (host_CreatedAt h))]).
Definition userJSON (x : User * list string) : json :=
  let '(u, groups) := x in JObj [
    ("id", JId (user_ID u)); ("issuer", JStr (user_Issuer u)); ("subject", JStr (user_Subject u));
    ("username", JStr (user_Username u)); ("email", JStr (user_Email u));
    ("active", JBool (user_Active u)); ("groups", JStrs groups);
    ("created_at", JTime (user_CreatedAt u)); ("updated_at", JTime (user_UpdatedAt u))].
Definition groupJSON (g : Group) : json := JObj [
  ("id", JId (group_ID g)); ("issuer", JStr (group_Issuer g)); ("name", JStr (group_Name g));
  ("created_at", JTime (group_CreatedAt g))].
Definition toServiceAccountJSON (a : ServiceAccount) : json := JObj [
  ("id", JId (sa_ID a)); ("name", JStr (sa_Name a)); ("kind", JStr (sa_Kind a));
  ("issuer", JStr (sa_Issuer a)); ("claim_matcher", JMap (sa_ClaimMatcher a));
  ("active", JBool (sa_Active a)); ("created_at", JTime (sa_CreatedAt a));
  ("updated_at", JTime (sa_UpdatedAt a))].
Definition certificateJSON (c : Certificate) : json := JObj [
  ("id", JId (crt_ID c)); ("serial", JNum (crt_Serial c)); ("key_id", JStr (crt_KeyID c));
  ("cert_type", JStr (crt_CertType c)); ("principals", JStrs (crt_Principals c));
  ("valid_after", JTime (crt_ValidAfter c)); ("valid_before", JTime (crt_ValidBefore c));
  ("issuer_context", crt_IssuerContext c); ("created_at", JTime (crt_CreatedAt c))].
Definition toAuditEventJSON (e : AuditEvent) : json := JObj [
  ("id", JNum (audit_ID e)); ("occurred_at", JTime (audit_OccurredAt e));
  ("event_type", JStr (audit_EventType e)); ("actor", JStr (audit_Actor e));
  ("payload", audit_Payload e)].
Definition applyResultJSON (res : ApplyResult) : json := JObj [
  ("created", JNum (Created res)); ("updated", JNum (Updated res));
  ("deleted", JNum (Deleted res)); ("unchanged", JNum (Unchanged res))].
End representations.

(** ** Numbers and the audit filter of a query *)

Definition parsePositiveInt (raw : string) (def maxValue : Z) : Z :=
  if bool_decide (raw = "") then def
  else match Atoi raw with
       | Some n => if (n <? 0)%Z then def else Z.min n maxValue
       | None => def
       end.

Definition auditDefaultLimit : Z := 50.
Definition auditMaxLimit : Z := 500.
Definition auditExportLimit : Z := 100000.

Definition with_times (f : AuditFilter) (since until : Z) : AuditFilter := {|
  filter_EventType := filter_EventType f; filter_Actor := filter_Actor f;
  filter_Search := filter_Search f; filter_Since := since; filter_Until := until;
  filter_Limit := filter_Limit f; filter_Offset := filter_Offset f |}.
Definition with_page (f : AuditFilter) (limit offset : nat) : AuditFilter := {|
  filter_EventType := filter_EventType f; filter_Actor := filter_Actor f;
  filter_Search := filter_Search f; filter_Since := filter_Since f; filter_Until := filter_Until f;
  filter_Limit := limit; filter_Offset := offset |}.

Section filter.
Context `{Encodings} `{MapOrder}.

(** One round of the loop over the two time parameters. *)
Definition parse_time_param (r : Request) (f : AuditFilter) (param : string)
    : result AuditFilter :=
  let raw := query r param in
  if bool_decide (raw = "") then Ok f
  else match time_Parse raw with
       | None => Err (ErrOther (param +:+ " invalid (RFC 3339 expected)"))
       | Some t => Ok (if bool_decide (param = "since") then with_times f t (filter_Until f)
                       else with_times f (filter_Since f) t)
       end.
Definition parseAuditFilter (r : Request) : result AuditFilter :=
  foldl (λ acc '(param, _), match acc with Ok f => parse_time_param r f param | Err e => Err e end)
    (Ok {| filter_EventType := query r "event_type"; filter_Actor := query r "actor";
           filter_Search := query r "q"; filter_Since := time_zero; filter_Until := time_zero;
           filter_Limit := Z.to_nat (parsePositiveInt (query r "limit") auditDefaultLimit auditMaxLimit);
           filter_Offset := Z.to_nat (parsePositiveInt (query r "offset") 0 (2 ^ 30)) |})
    (map_order (list_to_map [("since", ()); ("until", ())])).
End filter.

(** ** Authentication and roles *)
Section admin.
Context `{Crypto} `{UUIDs} `{X509} `{Encodings} `{MapOrder}.

Record adminContext := {
  adm_Verifier : option (TokenVerifier Claims); adm_UIAuth : option UIAuthConfig;
  adm_AdminGroup : string; adm_AuditorGroup : string; adm_Rollout : rolloutGate;
  adm_PublicBaseURL : string; adm_DevUser : option Claims; adm_Rules : RulesConfig;
  adm_RandomText : N → string      (* base64 of the n-th draw of 32 random bytes *)
}.
Variable a : adminContext.

Definition hasRole (claims : Claims) (minRole : string) : bool :=
  let isAdmin := in_group (claims_Groups claims) (adm_AdminGroup a) in
  let isAuditor := isAdmin || in_group (claims_Groups claims) (adm_AuditorGroup a) in
  if bool_decide (minRole = roleAdmin) then isAdmin
  else if bool_decide (minRole = roleAuditor) then isAuditor
  else false.

(** The developer mode's user, or no caller at all. *)
Definition authenticate_dev (r : Request) : sum Response Claims :=
  match adm_DevUser a with
  | Some dev =>
      if bool_decide (req_RequestedWith r = "")
      then inl (HttpError "x-requested-with header missing" StatusForbidden) else inr dev
  | None => inl (HttpError "authorization missing (bearer token or ui session)" StatusUnauthorized)
  end.
Definition authenticate (r : Request) : M (sum Response Claims) :=
  match bearerToken r, adm_Verifier a with
  | Some rawToken, Some verifier =>
      let* verified := try (token_Verify (TokenVerifier := verifier) rawToken) in
      match verified with
      | Err _ => ret (inl (HttpError "id token invalid" StatusUnauthorized))
      | Ok claims => ret (inr claims)
      end
  | _, _ =>
      let* session := match adm_UIAuth a with
                      | Some ui => sessionFromRequest ui r
                      | None => ret None
                      end in
      match session with
      | Some claims =>
          ret (if bool_decide (req_RequestedWith r = "")
               then inl (HttpError "x-requested-with header missing" StatusForbidden)
               else inr claims)
      | None => ret (authenticate_dev r)
      end
  end.

Definition adminHandler : Type := Request → Claims → string → M Response.

Definition authorized (minRole : string) (next : adminHandler) (r : Request) : M Response :=
  let* caller := authenticate r in
  match caller with
  | inl response => ret response
  | inr claims =>
  let* mapped := try (EnsureUser claims) in
  match mapped with
  | Err e => ret (if errors_Is e ErrUserInactive
                  then HttpError "user is disabled" StatusForbidden else internalError)
  | Ok _ =>
  if negb (hasRole claims minRole)
  then ret (HttpError ("not authorized (role " +:+ minRole +:+ " required)") StatusForbidden)
  else next r claims (UserKeyID (claims_Subject claims) (claims_Issuer claims))
  end end.

Definition gateCRUD (domain : ruleDomain) (next : adminHandler) : adminHandler :=
  λ r claims actor,
    if fileOwned (adm_Rules a) domain then ret (rejectFileManaged domain)
    else if negb (ManualRules (adm_Rules a)) then ret rejectManual
    else next r claims actor.
Definition gateApply (domain : ruleDomain) (next : adminHandler) : adminHandler :=
  λ r claims actor,
    if fileOwned (adm_Rules a) domain then ret (rejectFileManaged domain)
    else next r claims actor.

(** ** Access grants (admin.go) *)

(** [grantID]: the id of the path, or 404. *)
Definition with_id (what : string) (r : Request) (k : uuid → M Response) : M Response :=
  match uuid_Parse (req_PathID r) with
  | None => ret (HttpError (what +:+ " id invalid") StatusNotFound)
  | Some id => k id
  end.
(** [errors.Is(err, store.ErrNotFound)], or any other failure. *)
Definition not_found_or (what : string) (e : error) : Response :=
  if errors_Is e ErrNotFound then HttpError (what +:+ " not found") StatusNotFound
  else internalError.
Definition bad_body : Response := HttpError "request body invalid" StatusBadRequest.

(** A read view: all rows as a JSON array. *)
Definition list_view {A} (load : M (list A)) (to_json : A → json) : adminHandler := λ _ _ _,
  let* loaded := try load in
  ret (match loaded with
       | Err _ => internalError
       | Ok rows => writeJSON StatusOK (JArr (to_json <$> rows))
       end).

Definition handleListGrants : adminHandler := list_view ListGrantsDetailed toGrantJSON.

Definition handleGetGrant : adminHandler := λ r _ _,
  with_id "grant" r (λ id,
    let* found := try (GetGrantDetailed id) in
    ret (match found with
         | Err e => not_found_or "grant" e
         | Ok grant => writeJSON StatusOK (toGrantJSON grant)
         end)).

(** What both bodies must hold. *)
Definition missing_grant_field (principals : list string) (maxValidity : Z) : option string :=
  if bool_decide (principals = []) then Some "principals missing"
  else if (maxValidity <=? 0)%Z then Some "max_validity_seconds must be greater than 0"
  else None.

(** [ensureGroup] of the admin API. *)
Definition adminEnsureGroup (issuer name : string) : M Group :=
  let* found := try (GetGroupByName issuer name) in
  match found with
  | Ok group => ret group
  | Err e =>
      if errors_Is e ErrNotFound
      then CreateGroup {| group_ID := 0%N; group_Issuer := issuer; group_Name := name;
                          group_ExternalID := None; group_CreatedAt := 0 |}
      else fail e
  end.

Definition grant_of_request (req : grantRequest) (groupID : uuid) : AccessGrant := {|
  grant_ID := 0%N; grant_GroupID := groupID;
  grant_TagSelector := default ∅ (greq_TagSelector req);
  grant_Principals := greq_Principals req; grant_Sudo := greq_Sudo req;
  grant_MaxValiditySeconds := greq_MaxValiditySeconds req;
  grant_CreatedAt := time_zero; grant_UpdatedAt := time_zero |}.
Definition request_issuer (req : grantRequest) (claims : Claims) : string :=
  if bool_decide (greq_Issuer req = "") then claims_Issuer claims else greq_Issuer req.

Definition handleCreateGrant : adminHandler := λ r claims actor,
  match whole_body r ≫= decode_grant with
  | None => ret bad_body
  | Some req =>
  if bool_decide (greq_Group req = "") then ret (HttpError "group missing" StatusBadRequest)
  else
  match missing_grant_field (greq_Principals req) (greq_MaxValiditySeconds req) with
  | Some why => ret (HttpError why StatusBadRequest)
  | None =>
  let* ensured := try (adminEnsureGroup (request_issuer req claims) (greq_Group req)) in
  match ensured with
  | Err _ => ret internalError
  | Ok group =>
  let* created := try (CreateGrant actor (grant_of_request req (group_ID group))) in
  ret (match created with
       | Err _ => internalError
       | Ok grant => writeJSON StatusCreated (toGrantJSON {|
           gwg_Grant := grant; gwg_GroupName := group_Name group;
           gwg_GroupIssuer := group_Issuer group |})
       end)
  end end end.

Definition grant_with_request (g : AccessGrant) (req : grantRequest) : AccessGrant := {|
  grant_ID := grant_ID g; grant_GroupID := grant_GroupID g;
  grant_TagSelector := default (grant_TagSelector g) (greq_TagSelector req);
  grant_Principals := greq_Principals req; grant_Sudo := greq_Sudo req;
  grant_MaxValiditySeconds := greq_MaxValiditySeconds req;
  grant_CreatedAt := grant_CreatedAt g; grant_UpdatedAt := grant_UpdatedAt g |}.

Definition handleUpdateGrant : adminHandler := λ r _ actor,
  with_id "grant" r (λ id,
    match whole_body r ≫= decode_grant with
    | None => ret bad_body
    | Some req =>
    match missing_grant_field (greq_Principals req) (greq_MaxValiditySeconds req) with
    | Some why => ret (HttpError why StatusBadRequest)
    | None =>
    let* found := try (GetGrantDetailed id) in
    match found with
    | Err e => ret (not_found_or "grant" e)
    | Ok current =>
    let* updated := try (UpdateGrant actor (grant_with_request (gwg_Grant current) req)) in
    ret (match updated with
         | Err _ => internalError
         | Ok grant => writeJSON StatusOK (toGrantJSON {|
             gwg_Grant := grant; gwg_GroupName := gwg_GroupName current;
             gwg_GroupIssuer := gwg_GroupIssuer current |})
         end)
    end end end).

Definition no_content : Response := {| status := StatusNoContent; content := NoBody |}.

Definition handleDeleteGrant : adminHandler := λ r _ actor,
  with_id "grant" r (λ id,
    let* deleted := try (DeleteGrant actor id) in
    ret (match deleted with Err e => not_found_or "grant" e | Ok _ => no_content end)).

Definition grant_spec_of (g : grantRequest) : GrantSpec := {|
  spec_Group := greq_Group g; spec_Issuer := greq_Issuer g;
  spec_TagSelector := default ∅ (greq_TagSelector g); spec_Principals := greq_Principals g;
  spec_Sudo := greq_Sudo g; spec_MaxValiditySeconds := greq_MaxValiditySeconds g |}.
(** The answer to an apply. *)
Definition apply_answer (applied : result ApplyResult) : Response :=
  match applied with
  | Ok res => writeJSON StatusOK (applyResultJSON res)
  | Err e =>
      if errors_Is e ErrInvalidGrantSpec
      then {| status := StatusBadRequest; content := ErrorText e |} else internalError
  end.

Definition handleApplyGrants : adminHandler := λ r claims actor,
  match whole_body r ≫= decode_apply with
  | None => ret bad_body
  | Some req =>
      let* applied := try (ApplyGrants actor (claims_Issuer claims) (grant_spec_of <$> req)) in
      ret (apply_answer applied)
  end.

(** ** CI grants (admin_ci.go) *)
Definition validateCIGrantRequest (req : ciGrantRequest) (requireProject : bool) : option string :=
  if requireProject && bool_decide (cireq_Project req = "") then Some "project missing"
  else missing_grant_field (cireq_Principals req) (cireq_MaxValiditySeconds req).

Definition handleListCIGrants : adminHandler := list_view ListCIGrants toCIGrantJSON.

Definition handleGetCIGrant : adminHandler := λ r _ _,
  with_id "grant" r (λ id,
    let* found := try (GetCIGrant id) in
    ret (match found with
         | Err e => not_found_or "ci-grant" e
         | Ok grant => writeJSON StatusOK (toCIGrantJSON grant)
         end)).

Definition ci_grant_of_request (req : ciGrantRequest) : CIGrant := {|
  cigrant_ID := 0%N; cigrant_ProjectPath := cireq_Project req;
  cigrant_RefPattern := cireq_RefPattern req;
  cigrant_ProtectedOnly := default true (cireq_ProtectedOnly req);
  cigrant_EnvironmentPattern := cireq_EnvironmentPattern req;
  cigrant_TagSelector := default ∅ (cireq_TagSelector req);
  cigrant_Principals := cireq_Principals req;
  cigrant_MaxValiditySeconds := cireq_MaxValiditySeconds req;
  cigrant_CreatedAt := time_zero; cigrant_UpdatedAt := time_zero |}.

Definition handleCreateCIGrant : adminHandler := λ r _ actor,
  match whole_body r ≫= decode_ci_grant with
  | None => ret bad_body
  | Some req =>
  match validateCIGrantRequest req true with
  | Some why => ret (HttpError why StatusBadRequest)
  | None =>
  let* created := try (CreateCIGrant actor (ci_grant_of_request req)) in
  ret (match created with
       | Err _ => internalError
       | Ok grant => writeJSON StatusCreated (toCIGrantJSON grant)
       end)
  end end.

Definition ci_grant_with_request (g : CIGrant) (req : ciGrantRequest) : CIGrant := {|
  cigrant_ID := cigrant_ID g; cigrant_ProjectPath := cigrant_ProjectPath g;
  cigrant_RefPattern := cireq_RefPattern req;
  cigrant_ProtectedOnly := default (cigrant_ProtectedOnly g) (cireq_ProtectedOnly req);
  cigrant_EnvironmentPattern := cireq_EnvironmentPattern req;
  cigrant_TagSelector := default (cigrant_TagSelector g) (cireq_TagSelector req);
  cigrant_Principals := cireq_Principals req;
  cigrant_MaxValiditySeconds := cireq_MaxValiditySeconds req;
  cigrant_CreatedAt := cigrant_CreatedAt g; cigrant_UpdatedAt := cigrant_UpdatedAt g |}.

Definition handleUpdateCIGrant : adminHandler := λ r _ actor,
  with_id "grant" r (λ id,
    match whole_body r ≫= decode_ci_grant with
    | None => ret bad_body
    | Some req =>
    match validateCIGrantRequest req false with
    | Some why => ret (HttpError why StatusBadRequest)
    | None =>
    let* found := try (GetCIGrant id) in
    match found with
    | Err e => ret (not_found_or "ci-grant" e)
    | Ok current =>
    let* updated := try (UpdateCIGrant actor (ci_grant_with_request current req)) in
    ret (match updated with
         | Err _ => internalError
         | Ok grant => writeJSON StatusOK (toCIGrantJSON grant)
         end)
    end end end).

Definition handleDeleteCIGrant : adminHandler := λ r _ actor,
  with_id "grant" r (λ id,
    let* deleted := try (DeleteCIGrant actor id) in
    ret (match deleted with Err e => not_found_or "ci-grant" e | Ok _ => no_content end)).

Definition ci_spec_of (g : ciGrantRequest) : CIGrantSpec := {|
  cispec_ProjectPath := cireq_Project g; cispec_RefPattern := cireq_RefPattern g;
  cispec_ProtectedOnly := default true (cireq_ProtectedOnly g);
  cispec_EnvironmentPattern := cireq_EnvironmentPattern g;
  cispec_TagSelector := default ∅ (cireq_TagSelector g);
  cispec_Principals := cireq_Principals g;
  cispec_MaxValiditySeconds := cireq_MaxValiditySeconds g |}.

Definition handleApplyCIGrants : adminHandler := λ r _ actor,
  match whole_body r ≫= decode_ci_apply with
  | None => ret bad_body
  | Some req =>
      let* applied := try (ApplyCIGrants actor (ci_spec_of <$> req)) in
      ret (apply_answer applied)
  end.

(** ** The views and switches of the web UI (admin_ui.go)

    [jsonb_text] is PostgreSQL's text form of a payload. *)
Variable jsonb_text : json → string.

Definition handleListHosts : adminHandler := list_view ListHostsDetailed hostJSON.
Definition handleListUsers : adminHandler := list_view ListUsersDetailed userJSON.
Definition handleListGroups : adminHandler := list_view ListGroups groupJSON.
Definition handleListServiceAccounts : adminHandler :=
  list_view ListServiceAccounts toServiceAccountJSON.

Definition handleUpdateServiceAccount : adminHandler := λ r _ actor,
  with_id "service account" r (λ id,
    match (j ← whole_body r; m ← struct_members j; dec_field dec_opt_bool "active" None m) with
    | Some (Some active) =>
        let* updated := try (SetServiceAccountActive actor id active) in
        ret (match updated with
             | Err e => not_found_or "service account" e
             | Ok account => writeJSON StatusOK (toServiceAccountJSON account)
             end)
    | _ => ret (HttpError "request body invalid (active required)" StatusBadRequest)
    end).

Definition enrollTokenDefaultTTL : Z := Hour.
Definition enrollTokenMinTTL : Z := Minute.
Definition enrollTokenMaxTTL : Z := (24 * Hour)%Z.

(** The TTL of a request; nothing when it is out of bounds. *)
Definition token_ttl (ttlSeconds : Z) : option Z :=
  if (ttlSeconds =? 0)%Z then Some enrollTokenDefaultTTL
  else
    let ttl := seconds ttlSeconds in
    if (ttl <? enrollTokenMinTTL)%Z || (enrollTokenMaxTTL <? ttl)%Z then None else Some ttl.

Definition installCommand (baseURL token : string) (sessionAudit : bool) : string :=
  "curl -fsSL " +:+ TrimRight baseURL "/" +:+ "/install.sh | sudo sh -s -- --token " +:+ token +:+
  (if sessionAudit then " --session-audit" else "").

(** An empty body is the zero request. *)
Definition enroll_token_body (r : Request) : option createEnrollTokenRequest :=
  if req_EmptyBody r then decode_enroll_token JNull
  else decode_body maxRequestBody r ≫= decode_enroll_token.

Definition enroll_token_event (actor : string) (req : createEnrollTokenRequest) (ttl : Z)
    (record : EnrollmentToken) : AuditEvent :=
  new_audit EventEnrollTokenCreated actor (JObj [
    ("expires_at", JTime (token_ExpiresAt record)); ("hostname", JStr (tok_Hostname req));
    ("tags", JMap (token_Tags record)); ("ttl_seconds", JNum (to_seconds ttl))]).

Definition handleCreateEnrollToken : adminHandler := λ r _ actor,
  match gate_refuses (adm_Rollout a) with
  | Some response => ret response
  | None =>
  match enroll_token_body r with
  | None => ret bad_body
  | Some req =>
  match token_ttl (tok_TTLSeconds req) with
  | None => ret (HttpError "ttl_seconds must be between 60 and 86400" StatusBadRequest)
  | Some ttl =>
  let* ' (token, record) :=
    NewEnrollmentToken (adm_RandomText a) (tok_Hostname req) (tok_Tags req) ttl in
  let* saved := try (CreateEnrollmentToken record) in
  match saved with
  | Err _ => ret internalError
  | Ok record =>
      let* audited := try (AppendAuditEvent (enroll_token_event actor req ttl record)) in
      ret (writeJSON StatusCreated (JObj [
        ("token", JStr token); ("expires_at", JTime (token_ExpiresAt record));
        ("install_command",
           JStr (installCommand (adm_PublicBaseURL a) token (tok_SessionAudit req)))]))
  end end end end.

Definition handleListCertificates : adminHandler := λ r claims actor,
  list_view (ListCertificates (Z.to_nat (parsePositiveInt (query r "limit")
    auditDefaultLimit auditMaxLimit))) certificateJSON r claims actor.

(** The error text is the reason [parseAuditFilter] gives. *)
Definition with_filter (r : Request) (k : AuditFilter → M Response) : M Response :=
  match parseAuditFilter r with
  | Err e => ret {| status := StatusBadRequest; content := ErrorText e |}
  | Ok filter => k filter
  end.

Definition handleListAudit : adminHandler := λ r _ _,
  with_filter r (λ filter,
    let* listed := try (ListAuditEvents jsonb_text filter) in
    match listed with
    | Err _ => ret internalError
    | Ok events =>
        let* counted := try (CountAuditEvents jsonb_text filter) in
        ret (match counted with
             | Err _ => internalError
             | Ok total => writeJSON StatusOK (JObj [
                 ("events", JArr (toAuditEventJSON <$> events)); ("total", JNum total)])
             end)
    end).

Definition handleExportAudit : adminHandler := λ r _ _,
  with_filter r (λ filter,
    let* listed := try (ListAuditEvents jsonb_text
      (with_page filter (Z.to_nat auditExportLimit) 0)) in
    ret (match listed with
         | Err _ => internalError
         | Ok events =>
             if bool_decide (query r "format" = "csv")
             then {| status := StatusOK; content := AuditCSV events |}
             else writeJSON StatusOK (JArr (toAuditEventJSON <$> events))
         end)).

(** ** The routes ([registerAdminRoutes], [registerUIRoutes]) *)
Inductive admin_route :=
| GetGrants | PostGrant | GetGrantById | PutGrant | DeleteGrantById | PostGrantsApply
| GetCIGrants | PostCIGrant | GetCIGrantById | PutCIGrant | DeleteCIGrantById | PostCIGrantsApply
| GetHosts | GetUsers | GetGroups | GetServiceAccounts | PatchServiceAccount
| GetCertificates | GetAudit | GetAuditExport | PostEnrollToken.

(** The role a route asks for and its handler behind the rule gates. *)
Definition route_handler (route : admin_route) : string * adminHandler :=
  match route with
  | GetGrants => (roleAuditor, handleListGrants)
  | PostGrant => (roleAdmin, gateCRUD domainHost handleCreateGrant)
  | GetGrantById => (roleAuditor, handleGetGrant)
  | PutGrant => (roleAdmin, gateCRUD domainHost handleUpdateGrant)
  | DeleteGrantById => (roleAdmin, gateCRUD domainHost handleDeleteGrant)
  | PostGrantsApply => (roleAdmin, gateApply domainHost handleApplyGrants)
  | GetCIGrants => (roleAuditor, handleListCIGrants)
  | PostCIGrant => (roleAdmin, gateCRUD domainCI handleCreateCIGrant)
  | GetCIGrantById => (roleAuditor, handleGetCIGrant)
  | PutCIGrant => (roleAdmin, gateCRUD domainCI handleUpdateCIGrant)
  | DeleteCIGrantById => (roleAdmin, gateCRUD domainCI handleDeleteCIGrant)
  | PostCIGrantsApply => (roleAdmin, gateApply domainCI handleApplyCIGrants)
  | GetHosts => (roleAuditor, handleListHosts)
  | GetUsers => (roleAuditor, handleListUsers)
  | GetGroups => (roleAuditor, handleListGroups)
  | GetServiceAccounts => (roleAuditor, handleListServiceAccounts)
  | PatchServiceAccount => (roleAdmin, handleUpdateServiceAccount)
  | GetCertificates => (roleAuditor, handleListCertificates)
  | GetAudit => (roleAuditor, handleListAudit)
  | GetAuditExport => (roleAuditor, handleExportAudit)
  | PostEnrollToken => (roleAdmin, handleCreateEnrollToken)
  end.

(** Without a way to authenticate or a role group the API answers 503. *)
Definition admin_configured : bool :=
  (bool_decide (is_Some (adm_DevUser a)) ||
   match adm_Verifier a with Some _ => true | None => false end) &&
  (negb (bool_decide (adm_AdminGroup a = "")) || negb (bool_decide (adm_AuditorGroup a = ""))).
Definition serve_admin (route : admin_route) (r : Request) : M Response :=
  if negb admin_configured
  then ret (HttpError "admin api not configured (oidc and role group required)"
              StatusServiceUnavailable)
  else let '(minRole, handler) := route_handler route in authorized minRole handler r.
End admin.

(** ** Handlers always answer *)
Class Answers `{Crypto} {A} (m : M A) : Prop := answers w : ∃ x, (m w).1 = Ok x.

Section answers.
Context `{Crypto}.
#[export] Instance answers_ret {A} (x : A) : Answers (ret x).
Proof. intros w. by eexists. Qed.
#[export] Instance answers_try {A} (m : M A) : Answers (try m).
Proof. intros w. unfold try. destruct (m w). by eexists. Qed.
#[export] Instance answers_bind {A B} (m : M A) (k : A → M B) :
  Answers m → (∀ x, Answers (k x)) → Answers (bind m k).
Proof.
  intros Hm Hk w. unfold bind. destruct (Hm w) as [x Hx].
  destruct (m w) as [r w1]. simpl in Hx. subst. apply Hk.
Qed.
#[export] Instance answers_time_Now : Answers time_Now.
Proof. intros w. unfold time_Now. destruct (w_ticks w); by eexists. Qed.
#[export] Instance answers_rand_next : Answers rand_next.
Proof. intros w. by eexists. Qed.
End answers.

(** Resolve a class goal about a handler: follow its binds and split its cases. *)
Ltac by_cases :=
  intros; first
    [ solve [apply _]
    | match goal with
      | |- Keeps _ (match ?x with _ => _ end) => destruct x
      | |- Answers (match ?x with _ => _ end) => destruct x
      | |- Keeps _ (bind _ _) => apply keeps_bind
      | |- Answers (bind _ _) => apply answers_bind
      | |- Keeps _ (wrap _ _) => apply keeps_wrap
      | |- Keeps _ (try _) => apply keeps_try
      | |- Keeps _ (foldM _ _ _) => apply keeps_foldM
      | |- Keeps _ (BeginFunc _) => apply keeps_BeginFunc
      end; by_cases ].

(** ** What a request leaves alone

    Everything but the accounts: users, groups and memberships. *)
Definition admin_kept : relation Db := λ db db',
  access_grants db' = access_grants db ∧ ci_grants db' = ci_grants db ∧
  service_accounts db' = service_accounts db ∧
  enrollment_tokens db' = enrollment_tokens db ∧ audit_events db' = audit_events db ∧
  certificates db' = certificates db ∧ hosts db' = hosts db ∧ host_tags db' = host_tags db ∧
  ca_keys db' = ca_keys db ∧ host_sessions db' = host_sessions db.
#[export] Instance admin_kept_preorder : PreOrder admin_kept.
Proof.
  split; [by intros db; split_and!|]. intros x y z Hxy Hyz. unfold admin_kept in *.
  destruct_and!. split_and!; congruence.
Qed.
#[export] Instance users_admin_kept : KeepsTable admin_kept users_table.
Proof. by intros l db; split_and!. Qed.
#[export] Instance groups_admin_kept : KeepsTable admin_kept groups_table.
Proof. by intros l db; split_and!. Qed.
#[export] Instance memberships_admin_kept : KeepsTable admin_kept user_groups_table.
Proof. by intros l db; split_and!. Qed.

Section kept.
Context `{Crypto} `{UUIDs} `{X509} `{Encodings} `{MapOrder}.

#[export] Instance EnsureUser_admin_kept c : Keeps admin_kept (EnsureUser c).
Proof.
  unfold EnsureUser, ensure_account, ensureGroups, ensureGroup, GetUserBySubject, CreateUser,
    UpdateUser, GetGroupByName, CreateGroup, SetUserGroups.
  by_cases.
Qed.
#[export] Instance sessionFromRequest_kept R `{!PreOrder R} cfg r : Keeps R (sessionFromRequest cfg r).
Proof. unfold sessionFromRequest. by_cases. Qed.
#[export] Instance token_Verify_kept R `{!PreOrder R} (v : TokenVerifier Claims) raw :
  Keeps R (token_Verify raw).
Proof. intros w. rewrite (proj1 (token_frames raw w)). reflexivity. Qed.
#[export] Instance authenticate_kept R `{!PreOrder R} a r : Keeps R (authenticate a r).
Proof.
  unfold authenticate. destruct (bearerToken r), (adm_Verifier a), (adm_UIAuth a); by_cases.
Qed.
#[export] Instance authenticate_answers a r : Answers (authenticate a r).
Proof.
  assert (∀ cfg, Answers (sessionFromRequest cfg r)).
  { intros cfg. unfold sessionFromRequest. by_cases. }
  unfold authenticate. destruct (bearerToken r), (adm_Verifier a), (adm_UIAuth a); by_cases.
Qed.
End kept.

(** ** Authorisation *)
Section authorisation.
Context `{Crypto} `{UUIDs} `{X509} `{Encodings} `{MapOrder}.

Lemma time_Now_uuid w : w_uuid (time_Now w).2 = w_uuid w.
Proof. unfold time_Now. by destruct (w_ticks w). Qed.
Lemma sessionFromRequest_uuid cfg r w : w_uuid (sessionFromRequest cfg r w).2 = w_uuid w.
Proof.
  unfold sessionFromRequest. destruct (_ !! _); [|done]. destruct (Open _ _); [|done].
  destruct (unmarshal_session _); [|done]. unfold bind.
  pose proof (time_Now_uuid w) as Hu. by destruct (time_Now w) as [[] ?].
Qed.

(** Recognising the caller reads only. *)
Lemma authenticate_run a r w o w' :
  authenticate a r w = (o, w') → ∃ caller, o = Ok caller ∧ w_db w' = w_db w ∧ w_uuid w' = w_uuid w.
Proof.
  intros Hrun. pose proof (authenticate_answers a r w) as [caller Hc].
  pose proof (keeps (R := eq) (m := authenticate a r) w) as Hdb.
  assert (w_uuid (authenticate a r w).2 = w_uuid w) as Hu.
  { clear. assert (∀ ui, w_uuid ((let* session := match ui with
          | Some ui => sessionFromRequest ui r | None => ret None end in
        match session with
        | Some claims => ret (if bool_decide (req_RequestedWith r = "")
             then inl (HttpError "x-requested-with header missing" StatusForbidden) else inr claims)
        | None => ret (authenticate_dev a r) end) w).2 = w_uuid w) as Hs.
    { intros [ui|]; [|done]. unfold bind. pose proof (sessionFromRequest_uuid ui r w) as Hu.
      destruct (sessionFromRequest ui r w) as [[[|]|] ?]; done. }
    unfold authenticate. destruct (bearerToken r) as [raw|]; [|apply Hs].
    destruct (adm_Verifier a) as [v|]; [|apply Hs]. rewrite bind_try.
    pose proof (proj1 (proj2 (token_frames raw w))) as Hv. by destruct (token_Verify raw w) as [[] ?]. }
  rewrite Hrun in *. simpl in *. subst o. by exists caller.
Qed.

(** A request passes the authorisation, or it is answered here and only the
    caller's account may have changed. *)
Lemma authorized_run a minRole next r w o w' :
  users_wf w → groups_wf w → authorized a minRole next r w = (o, w') →
  (∃ resp, o = Ok resp ∧ admin_kept (w_db w) (w_db w')) ∨
  ∃ claims user w1 w2, authenticate a r w = (Ok (inr claims), w1) ∧
    EnsureUser claims w1 = (Ok user, w2) ∧ user_Active user = true ∧
    admin_kept (w_db w) (w_db w2) ∧ hasRole a claims minRole = true ∧
    next r claims (UserKeyID (claims_Subject claims) (claims_Issuer claims)) w2 = (o, w').
Proof.
  intros Hus Hgr Hrun. unfold authorized in Hrun. unfold bind at 1 in Hrun.
  destruct (authenticate a r w) as [x w1] eqn:Ea.
  pose proof (authenticate_run _ _ _ _ _ Ea) as (caller & -> & Hdb & Hu).
  destruct caller as [resp|claims].
  { left. refused. rewrite Hdb. reflexivity. }
  rewrite bind_try in Hrun.
  pose proof (keeps (R := admin_kept) (m := EnsureUser claims) w1) as Hk.
  destruct (EnsureUser claims w1) as [[user|e] w2] eqn:Ee; simpl in Hk; rewrite Hdb in Hk;
    [|by left; refused].
  destruct (hasRole a claims minRole) eqn:Er; simpl in Hrun; [|by left; refused].
  right. exists claims, user, w1, w2. split_and!; try done.
  apply EnsureUser_Ok in Ee as (_ & _ & _ & _ & ? & _); [done| |];
    [unfold users_wf|unfold groups_wf]; by rewrite Hdb, Hu.
Qed.

Lemma hasRole_admin a claims :
  hasRole a claims roleAdmin = true ↔
  adm_AdminGroup a ≠ "" ∧ adm_AdminGroup a ∈ claims_Groups claims.
Proof.
  unfold hasRole. rewrite bool_decide_true by done. unfold in_group.
  rewrite andb_true_iff, negb_true_iff, bool_decide_eq_false, bool_decide_eq_true. done.
Qed.

(** The handlers that only read. *)
Lemma list_view_kept {A} (load : M (list A)) f r c actor :
  Keeps admin_kept load → Keeps admin_kept (list_view load f r c actor).
Proof. intros. unfold list_view. by_cases. Qed.

(** What the rule configuration lets a route write; nothing for a read. *)
Definition rules_allow (rules : RulesConfig) (route : admin_route) : bool :=
  match route with
  | PostGrant | PutGrant | DeleteGrantById => editable rules domainHost
  | PostGrantsApply => negb (fileOwned rules domainHost)
  | PostCIGrant | PutCIGrant | DeleteCIGrantById => editable rules domainCI
  | PostCIGrantsApply => negb (fileOwned rules domainCI)
  | PatchServiceAccount | PostEnrollToken => true
  | _ => false
  end.

(** A handler whose route the rules do not open changes nothing. *)
Lemma closed_route_kept a jt route r claims actor :
  rules_allow (adm_Rules a) route = false →
  Keeps admin_kept ((route_handler a jt route).2 r claims actor).
Proof.
  destruct route; cbn [rules_allow route_handler snd]; unfold editable; intros Hr;
    try discriminate Hr;
    try (unfold gateCRUD; destruct (fileOwned _ _), (ManualRules _); try discriminate Hr; apply _);
    try (unfold gateApply; destruct (fileOwned _ _); try discriminate Hr; apply _);
    unfold handleListGrants, handleGetGrant, handleListCIGrants, handleGetCIGrant,
      handleListHosts, handleListUsers, handleListGroups, handleListServiceAccounts,
      handleListCertificates, handleListAudit, handleExportAudit, with_id, with_filter,
      ListGrantsDetailed, GetGrantDetailed, ListCIGrants, GetCIGrant, ListHostsDetailed,
      ListUsersDetailed, ListGroups, ListServiceAccounts, ListCertificates, ListAuditEvents,
      CountAuditEvents;
    (apply list_view_kept; by_cases) || by_cases.
Qed.
Lemma admin_route_role a jt route :
  rules_allow (adm_Rules a) route = true → (route_handler a jt route).1 = roleAdmin.
Proof. by destruct route. Qed.

(** Every handler answers. *)
Lemma route_answers a jt route r claims actor :
  Answers ((route_handler a jt route).2 r claims actor).
Proof.
  destruct route; simpl; unfold gateCRUD, gateApply;
    unfold handleListGrants, handleGetGrant, handleListCIGrants, handleGetCIGrant,
      handleListHosts, handleListUsers, handleListGroups, handleListServiceAccounts,
      handleListCertificates, handleListAudit, handleExportAudit, handleCreateGrant,
      handleUpdateGrant, handleDeleteGrant, handleApplyGrants, handleCreateCIGrant,
      handleUpdateCIGrant, handleDeleteCIGrant, handleApplyCIGrants,
      handleUpdateServiceAccount, handleCreateEnrollToken, NewEnrollmentToken,
      list_view, with_id, with_filter; by_cases.
Qed.
(** Nothing is written for a caller that is not recognised. *)
Lemma authorized_identified a minRole next r w o w' :
  authorized a minRole next r w = (o, w') →
  w_db w' = w_db w ∨ ∃ claims w1, authenticate a r w = (Ok (inr claims), w1).
Proof.
  intros Hrun. unfold authorized in Hrun. unfold bind at 1 in Hrun.
  destruct (authenticate a r w) as [x w1] eqn:Ea.
  pose proof (authenticate_run _ _ _ _ _ Ea) as (caller & -> & Hdb & Hu).
  destruct caller as [resp|claims]; [|by eauto]. left. unfold ret in Hrun. by simplify_eq.
Qed.
(** A request to the admin API: who it is, and what it may have changed. *)
Lemma serve_admin_run a jsonb_text route r w o w' :
  users_wf w → groups_wf w → serve_admin a jsonb_text route r w = (o, w') →
  ∃ resp, o = Ok resp ∧
  (w_db w' = w_db w ∨ ∃ claims w1, authenticate a r w = (Ok (inr claims), w1)) ∧
  (admin_kept (w_db w) (w_db w') ∨
   admin_configured a = true ∧ rules_allow (adm_Rules a) route = true ∧
   ∃ claims user w1 w2, authenticate a r w = (Ok (inr claims), w1) ∧
     EnsureUser claims w1 = (Ok user, w2) ∧ user_Active user = true ∧
     adm_AdminGroup a ≠ "" ∧ adm_AdminGroup a ∈ claims_Groups claims).
Proof.
  intros Hus Hgr Hrun.
  unfold serve_admin in Hrun. destruct (admin_configured a); simpl in Hrun;
    [|refused; split; left; reflexivity].
  destruct (route_handler a jsonb_text route) as [minRole next] eqn:Eroute.
  pose proof (authorized_identified a minRole next r w o w' Hrun) as Hid.
  apply authorized_run in Hrun as [(resp & -> & Hk)|
    (claims & user & w1 & w2 & Ha & Hu & Hact & Hk & Hrole & Hn)]; [by eauto 10| |done..].
  assert (next = (route_handler a jsonb_text route).2) as Hnext by (by rewrite Eroute).
  pose proof (route_answers a jsonb_text route r claims
    (UserKeyID (claims_Subject claims) (claims_Issuer claims)) w2) as [resp Hr].
  rewrite <-Hnext, Hn in Hr. simpl in Hr. exists resp. split; [done|]. split; [done|].
  destruct (rules_allow (adm_Rules a) route) eqn:Eallow.
  - right. split_and!; [done..|]. exists claims, user, w1, w2. split_and!; [done..| |];
      apply admin_route_role with (jt := jsonb_text) in Eallow; rewrite Eroute in Eallow;
      simpl in Eallow; subst minRole; by apply hasRole_admin in Hrole as [? ?].
  - left. etrans; [exact Hk|].
    pose proof (closed_route_kept a jsonb_text route r claims
      (UserKeyID (claims_Subject claims) (claims_Issuer claims)) Eallow w2) as Hkept.
    rewrite <-Hnext, Hn in Hkept. exact Hkept.
Qed.
End authorisation.

(** ** Grants and tokens *)
Section writes.
Context `{Crypto} `{UUIDs} `{X509} `{Encodings} `{MapOrder}.

Lemma adminEnsureGroup_Ok issuer name w gr w' :
  adminEnsureGroup issuer name w = (Ok gr, w') →
  gr ∈ groups (w_db w') ∧ group_Issuer gr = issuer ∧ group_Name gr = name ∧
  groups (w_db w) `prefix_of` groups (w_db w').
Proof.
  unfold adminEnsureGroup, GetGroupByName. rewrite bind_try. intros Hr.
  destruct (queryOne _ w) as [q w1] eqn:Eq.
  apply queryOne_select_run in Eq as (Hdb & _ & _ & Hq). destruct q as [gr'|e].
  - run_step. subst. rewrite Hdb.
    assert (gr ∈ groups_named (w_db w) issuer name) as Hin by (rewrite Hq; by left).
    apply filter_bool_In in Hin as [Hin Hb]. by bool_to_prop.
  - destruct (errors_Is e ErrNotFound); [|by run_step]. unfold CreateGroup in Hr. run_all.
    rewrite <-Hdb. split_and!; [apply elem_of_app; right; by left|done..|by eexists].
Qed.
#[export] Instance adminEnsureGroup_kept i n : Keeps admin_kept (adminEnsureGroup i n).
Proof. unfold adminEnsureGroup, GetGroupByName, CreateGroup. by_cases. Qed.

Lemma CreateGrant_Ok actor g w g' w' :
  CreateGrant actor g w = (Ok g', w') →
  ∃ id now seq at_, g' = grant_row g id now ∧ (0 < grant_MaxValiditySeconds g)%Z ∧
    access_grants (w_db w') = access_grants (w_db w) ++ [g'] ∧
    groups (w_db w') = groups (w_db w) ∧
    audit_events (w_db w') = audit_events (w_db w) ++
      [stored_audit seq at_ (grantAuditEvent EventGrantCreated actor g')].
Proof.
  unfold CreateGrant, createGrantTx. intros Hr. run_store. unfold grant_ok in *. bool_to_prop.
  do 4 eexists. split_and!; [reflexivity|done|reflexivity|done|reflexivity].
Qed.

Lemma UpdateGrant_Ok actor g w g' w' :
  UpdateGrant actor g w = (Ok g', w') →
  ∃ old now seq at_, List.filter (λ x, bool_decide (grant_ID x = grant_ID g))
      (access_grants (w_db w)) = [old] ∧
    g' = grant_update g now old ∧ (0 < grant_MaxValiditySeconds g)%Z ∧
    access_grants (w_db w') = List.map (λ x, if bool_decide (grant_ID x = grant_ID g)
                                  then grant_update g now x else x) (access_grants (w_db w)) ∧
    groups (w_db w') = groups (w_db w) ∧
    audit_events (w_db w') = audit_events (w_db w) ++
      [stored_audit seq at_ (grantAuditEvent EventGrantUpdated actor g')].
Proof.
  unfold UpdateGrant, updateGrantTx. intros Hr. run_store.
  destruct (List.filter _ _) as [|old [|]] eqn:E; simpl in *; simplify_eq/=.
  match goal with Hf : _ && true = true |- _ => rewrite andb_true_r in Hf end. bool_to_prop.
  do 4 eexists. split_and!; [reflexivity..|done|reflexivity|done|reflexivity].
Qed.
End writes.

(** ** Properties *)


(** POST on the grants stores what was asked for: a 201 answer means that
    the body names a group and local users and a positive lifetime, and that
    exactly one grant was added, for the group of that name (of the caller's
    issuer unless the body says otherwise), with the body's fields, together
    with one audit event in the caller's name. With any other answer no grant
    and no audit event was written. *)
Theorem create_grant_stores_request `{Crypto} `{UUIDs} `{X509} `{Encodings} `{MapOrder}
  r claims actor w o w'
  (Hrun : handleCreateGrant r claims actor w = (o, w')) :
  ∃ resp, o = Ok resp ∧
  ((status resp ≠ StatusCreated ∧ admin_kept (w_db w) (w_db w')) ∨
   status resp = StatusCreated ∧ ∃ req g gr seq at_,
     whole_body r ≫= decode_grant = Some req ∧ greq_Principals req ≠ [] ∧
     (0 < greq_MaxValiditySeconds req)%Z ∧
     access_grants (w_db w') = access_grants (w_db w) ++ [g] ∧
     gr ∈ groups (w_db w') ∧ grant_GroupID g = group_ID gr ∧ group_Name gr = greq_Group req ∧
     group_Issuer gr = request_issuer req claims ∧
     grant_TagSelector g = default ∅ (greq_TagSelector req) ∧
     grant_Principals g = greq_Principals req ∧ grant_Sudo g = greq_Sudo req ∧
     grant_MaxValiditySeconds g = greq_MaxValiditySeconds req ∧
     audit_events (w_db w') = audit_events (w_db w) ++
       [stored_audit seq at_ (grantAuditEvent EventGrantCreated actor g)]).
Proof.
  unfold handleCreateGrant in Hrun.
  destruct (_ ≫= decode_grant) as [req|]; [|by refused; left].
  destruct (bool_decide _); [by refused; left|].
  destruct (missing_grant_field _ _) eqn:Em; [by refused; left|].
  rewrite bind_try in Hrun.
  pose proof (keeps (R := admin_kept)
    (m := adminEnsureGroup (request_issuer req claims) (greq_Group req)) w) as Hk.
  destruct (adminEnsureGroup _ _ w) as [[gr|e] w1] eqn:Eg; simpl in Hk; [|by refused; left].
  rewrite bind_try in Hrun. destruct (CreateGrant _ _ w1) as [[g|e] w2] eqn:Ec.
  2: { apply transaction_Err in Ec. refused. left. by rewrite Ec. }
  apply adminEnsureGroup_Ok in Eg as (Hin & Hi & Hn & _).
  apply CreateGrant_Ok in Ec as (id & now & seq & at_ & -> & Hpos & Hrows & Hgroups & Haudit).
  destruct Hk as (Hg & _ & _ & _ & Ha & _). refused. right. split; [done|].
  unfold missing_grant_field in Em. repeat case_bool_decide; try done.
  exists req, (grant_row (grant_of_request req (group_ID gr)) id now), gr, seq, at_.
  rewrite Hrows, Haudit, Hgroups, Hg, Ha. by split_and!.
Qed.

(** PUT on a grant changes that grant only: a 200 answer means that the row
    of the path's id got the body's principals, sudo flag and lifetime, kept
    its group and, when the body has no selector, its selector; every other
    row is as it was, and one audit event was written. With any other answer
    nothing changed. *)
Theorem update_grant_keeps_scope `{Crypto} `{UUIDs} `{X509} `{Encodings} `{MapOrder}
  r claims actor w o w'
  (Hrun : handleUpdateGrant r claims actor w = (o, w')) :
  ∃ resp, o = Ok resp ∧
  ((status resp ≠ StatusOK ∧ w_db w' = w_db w) ∨
   status resp = StatusOK ∧ ∃ req id old new seq at_,
     uuid_Parse (req_PathID r) = Some id ∧ whole_body r ≫= decode_grant = Some req ∧
     old ∈ access_grants (w_db w) ∧ grant_ID old = id ∧ grant_ID new = id ∧
     access_grants (w_db w') = List.map (λ x, if bool_decide (grant_ID x = id) then new else x)
                                 (access_grants (w_db w)) ∧
     grant_GroupID new = grant_GroupID old ∧
     grant_TagSelector new = default (grant_TagSelector old) (greq_TagSelector req) ∧
     grant_Principals new = greq_Principals req ∧ grant_Sudo new = greq_Sudo req ∧
     grant_MaxValiditySeconds new = greq_MaxValiditySeconds req ∧
     (0 < grant_MaxValiditySeconds new)%Z ∧
     audit_events (w_db w') = audit_events (w_db w) ++
       [stored_audit seq at_ (grantAuditEvent EventGrantUpdated actor new)]).
Proof.
  unfold handleUpdateGrant, with_id in Hrun.
  destruct (uuid_Parse (req_PathID r)) as [id|]; [|by refused; left].
  destruct (_ ≫= decode_grant) as [req|]; [|by refused; left].
  destruct (missing_grant_field _ _); [by refused; left|].
  rewrite bind_try in Hrun. unfold GetGrantDetailed in Hrun.
  destruct (queryOne _ w) as [q w1] eqn:Eq.
  apply queryOne_select_run in Eq as (Hdb & _ & _ & Hq). destruct q as [current|e].
  2: { refused. left. unfold not_found_or. by destruct (errors_Is e ErrNotFound). }
  rewrite bind_try in Hrun. destruct (UpdateGrant _ _ w1) as [[g|e] w2] eqn:Eu.
  2: { apply transaction_Err in Eu. refused. left. by rewrite Eu, Hdb. }
  apply UpdateGrant_Ok in Eu as (old & now & seq & at_ & Hold & -> & Hpos & Hrows & _ & Haudit).
  rewrite Hdb in Hold, Hrows, Haudit. refused. right. split; [done|].
  assert (current ∈ [current]) as Hc by (by left). rewrite <-Hq in Hc.
  apply filter_bool_In in Hc as [Hc Hid]. bool_to_prop.
  apply joined_elem in Hc as [Hc _]. simpl in Hold, Hrows. rewrite Hid in Hold, Hrows.
  assert (∀ x, x ∈ access_grants (w_db w) → grant_ID x = id → x = old) as Hone.
  { intros x Hx Hxid. apply list_elem_of_singleton. rewrite <-Hold. apply filter_bool_In.
    by rewrite bool_decide_true. }
  assert (gwg_Grant current = old) as Hcur by auto. rewrite Hcur in *.
  exists req, id, old. eexists (grant_update (grant_with_request old req) now old), seq, at_.
  split_and!; try done. rewrite Hrows. apply map_ext_in. intros x Hx%list_elem_of_In.
  case_bool_decide as Hxid; [|done]. by rewrite (Hone x Hx Hxid).
Qed.

Lemma token_ttl_range n ttl :
  token_ttl n = Some ttl → (Minute ≤ ttl ∧ ttl ≤ 24 * Hour)%Z.
Proof.
  unfold token_ttl, enrollTokenDefaultTTL, enrollTokenMinTTL, enrollTokenMaxTTL.
  destruct (_ =? 0)%Z; [intros [= <-]; unfold Hour, Minute, Second; lia|].
  destruct (_ || _) eqn:Eb; [done|]. intros [= <-]. bool_to_prop. lia.
Qed.

(** A fresh token: the plaintext, and the record with its hash only. *)
Definition token_record (hash hostname : string) (tags : gmap string string) (expires : Z)
    (t : EnrollmentToken) : Prop :=
  token_Hash t = hash ∧ token_UsedAt t = None ∧ token_Tags t = tags ∧
  token_HostName t = (if bool_decide (hostname = "") then None else Some hostname) ∧
  token_ExpiresAt t = expires.
Lemma NewEnrollmentToken_run `{Crypto} random hostname tags ttl w :
  ∃ token t w1 minted, NewEnrollmentToken random hostname tags ttl w = (Ok (token, t), w1) ∧
    w_db w1 = w_db w ∧ token_record (sha256 token) hostname tags (Add minted ttl) t.
Proof.
  unfold NewEnrollmentToken, bind, rand_next.
  destruct (time_Now_reads (set_seqs (w_serial_seq w) (w_audit_seq w) (w_uuid w)
    (w_random w + 1) w)) as (w1 & -> & Hdb).
  do 4 eexists. split; [reflexivity|]. by split.
Qed.

Lemma CreateEnrollmentToken_run `{Crypto} `{UUIDs} t w q w' :
  CreateEnrollmentToken t w = (q, w') →
  match q with
  | Ok t' => ∃ id now, t' = {| token_ID := id; token_Hash := token_Hash t;
        token_HostName := token_HostName t; token_Tags := token_Tags t;
        token_ExpiresAt := token_ExpiresAt t; token_UsedAt := None; token_UsedBy := None;
        token_CreatedAt := now |} ∧
      enrollment_tokens (w_db w') = enrollment_tokens (w_db w) ++ [t']
  | Err _ => w_db w' = w_db w
  end.
Proof.
  unfold CreateEnrollmentToken. intros Hr. destruct q as [t'|e].
  - run_store. do 2 eexists. split; reflexivity.
  - unfold queryOne, sql_insert, stmt, bind, ret, fail in Hr.
    repeat (case_match; simplify_eq/=); done.
Qed.
Lemma AppendAuditEvent_tokens `{Crypto} e w :
  enrollment_tokens (w_db (AppendAuditEvent e w).2) = enrollment_tokens (w_db w).
Proof.
  unfold AppendAuditEvent, insertAuditEvent, stmt. destruct (w_faults w) as [|[]]; done.
Qed.

(** An enrollment token is only minted behind the open rollout gate and for
    a lifetime between one minute and 24 hours; the database gets the hash of
    the token the answer carries, never used, bound to the host name of the
    request if it has one, with the request's tags. Any other answer leaves
    tokens, rules and audit log as they were. *)
Theorem enroll_token_minted `{Crypto} `{UUIDs} `{X509} `{Encodings} `{MapOrder}
  a r claims actor w o w'
  (Hrun : handleCreateEnrollToken a r claims actor w = (o, w')) :
  ∃ resp, o = Ok resp ∧
  ((status resp ≠ StatusCreated ∧ admin_kept (w_db w) (w_db w')) ∨
   status resp = StatusCreated ∧ gate_missing (adm_Rollout a) = [] ∧
   ∃ req ttl token t minted rest, enroll_token_body r = Some req ∧
     token_ttl (tok_TTLSeconds req) = Some ttl ∧ (Minute ≤ ttl ≤ 24 * Hour)%Z ∧
     content resp = JsonBody (JObj (("token", JStr token) :: rest)) ∧
     enrollment_tokens (w_db w') = enrollment_tokens (w_db w) ++ [t] ∧
     token_record (sha256 token) (tok_Hostname req) (tok_Tags req) (Add minted ttl) t).
Proof.
  unfold handleCreateEnrollToken in Hrun.
  destruct (gate_refuses (adm_Rollout a)) as [resp|] eqn:Egate.
  { refused. left. unfold gate_refuses in Egate.
    destruct (gate_missing _); simplify_eq. split; [done|reflexivity]. }
  destruct (enroll_token_body r) as [req|]; [|by refused; left].
  destruct (token_ttl (tok_TTLSeconds req)) as [ttl|] eqn:Ettl; [|by refused; left].
  unfold bind at 1 in Hrun. destruct (NewEnrollmentToken_run (adm_RandomText a)
    (tok_Hostname req) (tok_Tags req) ttl w) as (token & t0 & w1 & minted & En & Hdb & Hrec).
  rewrite En, bind_try in Hrun. destruct (CreateEnrollmentToken t0 w1) as [q w2] eqn:Ec.
  apply CreateEnrollmentToken_run in Ec. destruct q as [t|e].
  2: { refused. left. split; [done|]. rewrite Ec, Hdb. reflexivity. }
  destruct Ec as (id & now & Ht & Hrows). rewrite bind_try in Hrun.
  pose proof (AppendAuditEvent_tokens (enroll_token_event actor req ttl t) w2) as Htok.
  destruct (AppendAuditEvent _ w2) as [audited w3]. simpl in Htok. refused. right.
  split; [done|]. split.
  { unfold gate_refuses in Egate. by destruct (gate_missing _). }
  match type of Hrows with _ = _ ++ [?t] => exists req, ttl, token, t, minted end.
  eexists. rewrite Htok, Hrows, Hdb. split_and!; try done.
  - by destruct (token_ttl_range _ _ Ettl).
  - by destruct (token_ttl_range _ _ Ettl).
  - by destruct Hrec as (? & _ & ? & ? & ?).
Qed.

(** The requested lifetime of a token, within the seconds a Go duration can
    hold, is accepted exactly from 60 to 86400 and then taken as it is (0 means
    an hour). Beyond, the product with a second wraps around before it is
    checked: every 2^55 seconds the same numbers are accepted again. *)
Theorem token_ttl_wraps n k :
  ((- max_seconds ≤ n ≤ max_seconds)%Z → n ≠ 0%Z →
     token_ttl n = if bool_decide (60 ≤ n ≤ 86400)%Z then Some (n * Second)%Z else None) ∧
  (n ≠ 0%Z → (n + k * 2 ^ 55)%Z ≠ 0%Z → token_ttl (n + k * 2 ^ 55) = token_ttl n) ∧
  (in_int64 (3600 + 2 ^ 55) ∧ token_ttl (3600 + 2 ^ 55) = Some Hour ∧ token_ttl 0 = Some Hour).
Proof.
  unfold token_ttl, enrollTokenMinTTL, enrollTokenMaxTTL. split_and!.
  - intros Hn H0. rewrite (proj2 (Z.eqb_neq n 0)), seconds_id by done.
    unfold Hour, Minute, Second in *.
    destruct (Z.ltb_spec (n * 10 ^ 9) (60 * 10 ^ 9)),
      (Z.ltb_spec (24 * (60 * (60 * 10 ^ 9))) (n * 10 ^ 9));
      case_bool_decide; cbn [orb]; try done; try (exfalso; lia).
  - intros H0 Hk. rewrite !(proj2 (Z.eqb_neq _ 0)) by done. by rewrite seconds_period.
  - vm_compute. split; discriminate.
  - reflexivity.
  - reflexivity.
Qed.

(** ** The page of an audit query *)
Section audit_page.
Context `{Crypto} `{Encodings} `{MapOrder}.

Lemma parseAuditFilter_limit r f :
  parseAuditFilter r = Ok f →
  filter_Limit f = Z.to_nat (parsePositiveInt (query r "limit") auditDefaultLimit auditMaxLimit) ∧
  filter_Offset f = Z.to_nat (parsePositiveInt (query r "offset") 0 (2 ^ 30)).
Proof.
  unfold parseAuditFilter.
  set (f0 := {| filter_EventType := _ |}).
  assert (∀ (l : list (string * ())) acc, (∀ f, acc = Ok f → filter_Limit f = filter_Limit f0 ∧
      filter_Offset f = filter_Offset f0) → ∀ f,
    foldl (λ acc '(param, _), match acc with Ok f => parse_time_param r f param | Err e => Err e end)
      acc l = Ok f → filter_Limit f = filter_Limit f0 ∧ filter_Offset f = filter_Offset f0) as Hl.
  { induction l as [|[param []] l IH]; simpl; intros acc Hacc f' Hf; [by apply Hacc|].
    eapply IH; [|exact Hf]. intros g Hg. destruct acc as [g0|]; [|done].
    specialize (Hacc g0 eq_refl). unfold parse_time_param in Hg.
    destruct (bool_decide (query r param = "")); [by simplify_eq|].
    destruct (time_Parse _); [|done]. by destruct (bool_decide _); simplify_eq. }
  intros Hf. eapply Hl in Hf; [exact Hf|]. by intros g [= <-].
Qed.

Lemma parsePositiveInt_bound raw def maxValue :
  (0 ≤ def ≤ maxValue)%Z → (0 ≤ parsePositiveInt raw def maxValue ≤ maxValue)%Z.
Proof.
  intros Hd. unfold parsePositiveInt. destruct (bool_decide _); [done|].
  destruct (Atoi raw) as [n|]; [|done]. destruct (Z.ltb_spec n 0); lia.
Qed.
End audit_page.

(** A page of the audit log has at most 500 events, unless the caller asks
    for a limit of zero: the store reads that as no limit, so limit=0 returns
    every matching event from the offset on, however many there are. *)
Theorem audit_page_bounded `{Crypto} `{Encodings} `{MapOrder} jsonb_text r f w events w'
  (Hfilter : parseAuditFilter r = Ok f)
  (Hrun : ListAuditEvents jsonb_text f w = (Ok events, w')) :
  w_db w' = w_db w ∧
  (parsePositiveInt (query r "limit") auditDefaultLimit auditMaxLimit ≠ 0%Z →
     (List.length events ≤ 500)%nat) ∧
  (query r "limit" = "0" → query r "offset" = "" →
     events ≡ₚ List.filter (auditFilterWhere jsonb_text f) (audit_events (w_db w))).
Proof.
  apply parseAuditFilter_limit in Hfilter as [Hl Ho].
  apply sql_select_Ok in Hrun as (fs & -> & ->). split; [done|].
  unfold limit_rows. rewrite Hl, Ho. split.
  - intros Hn. pose proof (parsePositiveInt_bound (query r "limit") auditDefaultLimit auditMaxLimit
      ltac:(unfold auditDefaultLimit, auditMaxLimit; lia)) as Hb.
    set (p := parsePositiveInt _ auditDefaultLimit auditMaxLimit) in *. unfold auditMaxLimit in Hb.
    destruct (Z.to_nat p) as [|m] eqn:E; [lia|]. rewrite length_take. lia.
  - intros -> ->. cbn [Z.to_nat parsePositiveInt]. change (Z.to_nat (parsePositiveInt "0" _ _)) with 0%nat.
    cbn. by rewrite sort_by_perm.
Qed.

(** ** Concrete runs *)
Definition toy_admin (manual : bool) : @adminContext toy_crypto := {|
  adm_Verifier := Some toy_user_verifier; adm_UIAuth := None; adm_AdminGroup := "dev";
  adm_AuditorGroup := ""; adm_Rollout := {| gate_Agents := 1; gate_Pin := "pin";
    gate_AgentPublicURL := "https://agent"; gate_PublicBaseURL := "https://gssh" |};
  adm_PublicBaseURL := "https://gssh"; adm_DevUser := None;
  adm_Rules := {| ManualRules := manual; HostFile := ""; CIFile := "ci.yaml" |};
  adm_RandomText := λ _, "random" |}.
Definition toy_admin_http (id : string) (body : json) (limit : string) : Request := {|
  req_Authorization := "Bearer alice"; req_Body := Some (100%Z, body); req_EmptyBody := false;
  req_RemoteAddr := "192.0.2.9:6000"; req_ForwardedFor := ""; req_PeerCN := None;
  req_Query := {["limit" := limit]}; req_PathID := id; req_RequestedWith := ""; req_Cookies := ∅;
  req_Host := "gssh.example.org"; req_ForwardedProto := "https"; req_TLS := false |}.
Definition toy_post_body : json := JObj [("group", JStr "web"); ("principals", JArr [JStr "root"]);
  ("max_validity_seconds", JNum 3600)].

Notation toy_post manual w := (serve_admin (H0 := counting_uuids) (H1 := toy_x509)
  (H2 := toy_encodings) (H3 := key_order) (toy_admin manual) (λ _, "") PostGrant
  (toy_admin_http "" toy_post_body "") w).
Notation toy_create w := (handleCreateGrant (H0 := counting_uuids) (H1 := toy_x509)
  (H2 := toy_encodings) (toy_admin_http "" toy_post_body "") toy_claims "admin" w).
Notation toy_update w := (handleUpdateGrant (H1 := toy_x509)
  (H2 := toy_encodings) (toy_admin_http (uuid_String (X509 := toy_x509) (grant_ID toy_grant))
    (JObj [("principals", JArr [JStr "app"]); ("max_validity_seconds", JNum 60)]) "")
  toy_claims "admin" w).
Notation toy_mint w := (handleCreateEnrollToken (H0 := counting_uuids) (H2 := toy_encodings)
  (toy_admin true) (toy_admin_http "" (JObj [("hostname", JStr "web9"); ("ttl_seconds", JNum 600)]) "")
  toy_claims "admin" w).

Definition status_of (o : result Response) : Z := match o with Ok r => status r | Err _ => 0 end.
Example toy_admin_runs :
  status_of (toy_post true (toy_sign_world true)).1 = 201%Z ∧
  List.length (access_grants (w_db (toy_post true (toy_sign_world true)).2)) = 2%nat ∧
  status_of (toy_post false (toy_sign_world true)).1 = 403%Z ∧
  status_of (toy_create (toy_sign_world true)).1 = 201%Z ∧
  status_of (toy_update (toy_sign_world true)).1 = 200%Z ∧
  status_of (toy_mint (toy_sign_world true)).1 = 201%Z.
Proof. vm_compute. split_and!; reflexivity. Qed.


Lemma create_grant_stores_request_witness :
  ∃ resp w' g gr, toy_create (toy_sign_world true) = (Ok resp, w') ∧
    access_grants (w_db w') = [toy_grant; g] ∧ grant_Principals g = ["root"] ∧
    gr ∈ groups (w_db w') ∧ group_ID gr = grant_GroupID g ∧ group_Name gr = "web".
Proof.
  destruct toy_admin_runs as (_ & _ & _ & Hs & _).
  destruct (toy_create (toy_sign_world true)) as [o w'] eqn:E.
  destruct (create_grant_stores_request (H0 := counting_uuids) (H1 := toy_x509)
    (H2 := toy_encodings) (H3 := key_order) _ _ _ _ o w' E) as (resp & -> & Hor). simpl in Hs.
  destruct Hor as [[Hne _]|(_ & req & g & gr & seq & at_ & Hb & _ & _ & Hrows & Hin & Hid & Hname & _ & _ & Hp & _)].
  { contradiction. }
  injection Hb as <-. exists resp, w', g, gr. split; [reflexivity|].
  split; [exact Hrows|]. split; [exact Hp|]. split; [exact Hin|]. split; [symmetry; exact Hid|exact Hname].
Defined.

Lemma update_grant_keeps_scope_witness :
  ∃ resp w' new, toy_update (toy_sign_world true) = (Ok resp, w') ∧
    access_grants (w_db w') = [new] ∧ grant_Principals new = ["app"] ∧
    grant_GroupID new = 10%N ∧ grant_TagSelector new = grant_TagSelector toy_grant.
Proof.
  destruct toy_admin_runs as (_ & _ & _ & _ & Hs & _).
  destruct (toy_update (toy_sign_world true)) as [o w'] eqn:E.
  destruct (update_grant_keeps_scope (H0 := counting_uuids) (H1 := toy_x509)
    (H2 := toy_encodings) (H3 := key_order) _ _ _ _ o w' E) as (resp & -> & Hor). simpl in Hs.
  destruct Hor as [[Hne _]|(_ & req & id & old & new & seq & at_ & Hid & Hb & Hin & Hold & _ & Hrows & Hg & Hsel & Hp & _)].
  { contradiction. }
  injection Hb as <-. apply list_elem_of_singleton in Hin. subst old.
  exists resp, w', new. split; [reflexivity|]. simpl in Hold. subst id.
  split; [exact Hrows|]. split; [exact Hp|]. split; [exact Hg|exact Hsel].
Defined.

Lemma enroll_token_minted_witness :
  ∃ resp w' t minted, toy_mint (toy_sign_world true) = (Ok resp, w') ∧
    enrollment_tokens (w_db w') = enrollment_tokens (w_db (toy_sign_world true)) ++ [t] ∧
    token_ExpiresAt t = Add minted (600 * Second) ∧ token_HostName t = Some "web9".
Proof.
  destruct toy_admin_runs as (_ & _ & _ & _ & _ & Hs).
  destruct (toy_mint (toy_sign_world true)) as [o w'] eqn:E.
  destruct (enroll_token_minted (H0 := counting_uuids) (H1 := toy_x509) (H2 := toy_encodings)
    (H3 := key_order) _ _ _ _ _ o w' E) as (resp & -> & Hor). simpl in Hs.
  destruct Hor as [[Hne _]|(_ & _ & req & ttl & token & t & minted & rest & Hb & Httl & _ & _ & Hrows & Hrec)].
  { contradiction. }
  injection Hb as <-. injection Httl as <-. destruct Hrec as (_ & _ & _ & Hh & He).
  exists resp, w', t, minted. split; [reflexivity|]. split; [exact Hrows|].
  split; [exact He|exact Hh].
Defined.

Lemma audit_page_bounded_witness :
  ∃ f w', parseAuditFilter (H := toy_encodings) (H0 := key_order)
      (toy_admin_http "" JNull "7") = Ok f ∧
    ListAuditEvents (λ _, "") f (toy_sign_world true) = (Ok [], w') ∧
    w_db w' = w_db (toy_sign_world true).
Proof.
  do 2 eexists. split; [vm_compute; reflexivity|]. split; [vm_compute; reflexivity|].
  apply (audit_page_bounded (H0 := toy_encodings) (H1 := key_order) (λ _, "")
    (toy_admin_http "" JNull "7") _ (toy_sign_world true) [] _
    ltac:(vm_compute; reflexivity) ltac:(vm_compute; reflexivity)).
Defined.
