(* ===== verification/Machine.v ===== *)
(** * The machine an agent runs on

    Files, clock, randomness and shell commands, as the host agent's code uses
    them: a computation [IO A] over a [Machine] that returns a Go result. Every
    file operation takes one entry of a schedule of faults; a failing write
    leaves any prefix of what it was to write, so a theorem about a run covers
    every file operation that can go wrong. File modes are not modelled. *)
From S2P Require Export GoEncoding.

Local Open Scope string_scope.
Local Open Scope list_scope.

Inductive fault := NoFault | FailsAtOnce | FailsAfter (written : nat).

Record Machine := {
  mc_Files : gmap string string;
  mc_Dirs : gset string;
  mc_Now : Z; mc_Ticks : list Z;   (* the clock, and what passes before each reading *)
  mc_Faults : list fault;          (* of the file operations to come *)
  mc_Calls : N;                    (* requests sent to the server so far *)
  mc_Random : N;                   (* draws of randomness so far *)
  mc_Commands : list (list string) (* commands run so far, the last one first *)
}.

Definition with_files (f : gmap string string) (m : Machine) : Machine := {|
  mc_Files := f; mc_Dirs := mc_Dirs m; mc_Now := mc_Now m; mc_Ticks := mc_Ticks m;
  mc_Faults := mc_Faults m; mc_Calls := mc_Calls m; mc_Random := mc_Random m;
  mc_Commands := mc_Commands m |}.
Definition with_dirs (s : gset string) (m : Machine) : Machine := {|
  mc_Files := mc_Files m; mc_Dirs := s; mc_Now := mc_Now m; mc_Ticks := mc_Ticks m;
  mc_Faults := mc_Faults m; mc_Calls := mc_Calls m; mc_Random := mc_Random m;
  mc_Commands := mc_Commands m |}.
Definition with_clock (now : Z) (ticks : list Z) (m : Machine) : Machine := {|
  mc_Files := mc_Files m; mc_Dirs := mc_Dirs m; mc_Now := now; mc_Ticks := ticks;
  mc_Faults := mc_Faults m; mc_Calls := mc_Calls m; mc_Random := mc_Random m;
  mc_Commands := mc_Commands m |}.
Definition with_faults (fs : list fault) (m : Machine) : Machine := {|
  mc_Files := mc_Files m; mc_Dirs := mc_Dirs m; mc_Now := mc_Now m; mc_Ticks := mc_Ticks m;
  mc_Faults := fs; mc_Calls := mc_Calls m; mc_Random := mc_Random m;
  mc_Commands := mc_Commands m |}.
Definition with_counts (calls random : N) (cmds : list (list string)) (m : Machine) : Machine := {|
  mc_Files := mc_Files m; mc_Dirs := mc_Dirs m; mc_Now := mc_Now m; mc_Ticks := mc_Ticks m;
  mc_Faults := mc_Faults m; mc_Calls := calls; mc_Random := random; mc_Commands := cmds |}.

(** ** The monad *)
Definition IO (A : Type) : Type := Machine → result A * Machine.

Definition io_ret {A} (a : A) : IO A := λ m, (Ok a, m).
Definition io_fail {A} (e : error) : IO A := λ m, (Err e, m).
Definition io_bind {A B} (c : IO A) (k : A → IO B) : IO B := λ m,
  match c m with
  | (Ok a, m') => k a m'
  | (Err e, m') => (Err e, m')
  end.
(** The caller looks at the error. *)
Definition io_try {A} (c : IO A) : IO (result A) := λ m,
  let '(r, m') := c m in (Ok r, m').
Definition io_wrap {A} (ctx : string) (c : IO A) : IO A := λ m,
  match c m with
  | (Err e, m') => (Err (ErrWrap ctx e), m')
  | r => r
  end.
Definition io_lift {A} (r : result A) : IO A := λ m, (r, m).
Definition io_gets {A} (f : Machine → A) : IO A := λ m, (Ok (f m), m).


Declare Scope io_scope.
Notation "'let!' x ':=' c 'in' k" := (io_bind c (λ x, k))
  (at level 200, x name, c at level 100, k at level 200) : io_scope.
Notation "'let!' ' p ':=' c 'in' k" := (io_bind c (λ x, match x with p => k end))
  (at level 200, p strict pattern, c at level 100, k at level 200) : io_scope.
Notation "c ';!' k" := (io_bind c (λ _, k))
  (at level 100, right associativity) : io_scope.
Open Scope io_scope.

(** ** Clock, randomness, requests *)
Definition io_Now : IO Z := λ m,
  match mc_Ticks m with
  | [] => (Ok (mc_Now m), m)
  | t :: ts => let now := (mc_Now m + t)%Z in (Ok now, with_clock now ts m)
  end.
Definition io_Random : IO N := λ m,
  (Ok (mc_Random m), with_counts (mc_Calls m) (mc_Random m + 1)%N (mc_Commands m) m).
(** A request to the server; [f] answers the n-th one. *)
Definition io_call {A} (f : N → result A) : IO A := λ m,
  (f (mc_Calls m), with_counts (mc_Calls m + 1)%N (mc_Random m) (mc_Commands m) m).

(** [http n method url body] is the n-th HTTP exchange: nothing when the server
    cannot be reached, else status, body text, and the JSON value at the
    beginning of the body. *)
Record HTTPAnswer := { ha_Status : Z; ha_Text : string; ha_JSON : option json }.
Definition transport : Type := N → string → string → option json → option HTTPAnswer.

(** ** Files *)
Definition next_fault : IO fault := λ m,
  match mc_Faults m with
  | [] => (Ok NoFault, m)
  | f :: fs => (Ok f, with_faults fs m)
  end.
Definition io_error {A} (op path : string) : IO A :=
  io_fail (ErrOther (op +:+ " " +:+ path +:+ ": input/output error")).
Definition set_file (path data : string) : IO unit := λ m,
  (Ok (), with_files (<[path := data]> (mc_Files m)) m).

Definition ReadFile (path : string) : IO string :=
  let! f := next_fault in
  match f with
  | NoFault =>
      let! files := io_gets mc_Files in
      match files !! path with
      | Some data => io_ret data
      | None => io_fail (ErrWrap ("open " +:+ path) ErrNotExist)
      end
  | _ => io_error "open" path
  end.
(** [os.WriteFile] empties the file before it writes. *)
Definition WriteFile (path data : string) : IO unit :=
  let! f := next_fault in
  match f with
  | NoFault => set_file path data
  | FailsAtOnce => io_error "open" path
  | FailsAfter n => set_file path (take_str n data) ;! io_error "write" path
  end.
(** [os.OpenFile] with O_APPEND|O_CREATE, then [Write]. *)
Definition AppendFile (path data : string) : IO unit :=
  let! f := next_fault in
  let! files := io_gets mc_Files in
  let old := default "" (files !! path) in
  match f with
  | NoFault => set_file path (old +:+ data)
  | FailsAtOnce => io_error "open" path
  | FailsAfter n => set_file path (old +:+ take_str n data) ;! io_error "write" path
  end.
(** [os.Truncate(path, 0)]. *)
Definition Truncate (path : string) : IO unit :=
  let! f := next_fault in
  let! files := io_gets mc_Files in
  match f, files !! path with
  | NoFault, Some _ => set_file path ""
  | _, _ => io_error "truncate" path
  end.
Definition Rename (old new : string) : IO unit :=
  let! f := next_fault in
  let! files := io_gets mc_Files in
  match f, files !! old with
  | NoFault, Some data => λ m, (Ok (), with_files (<[new := data]> (delete old files)) m)
  | _, _ => io_error "rename" old
  end.
Definition Remove (path : string) : IO unit :=
  let! f := next_fault in
  let! files := io_gets mc_Files in
  match f, files !! path with
  | NoFault, Some _ => λ m, (Ok (), with_files (delete path files) m)
  | _, _ => io_error "remove" path
  end.
(** [os.Stat] of a regular file: its size. *)
Definition StatSize (path : string) : IO nat :=
  let! data := ReadFile path in io_ret (String.length data).
(** [os.Stat]: whether there is a directory. *)
Definition Stat (path : string) : IO bool :=
  let! f := next_fault in
  match f with
  | NoFault =>
      let! dirs := io_gets mc_Dirs in
      let! files := io_gets mc_Files in
      if bool_decide (path ∈ dirs) then io_ret true
      else match files !! path with
           | Some _ => io_ret false
           | None => io_fail (ErrWrap ("stat " +:+ path) ErrNotExist)
           end
  | _ => io_error "stat" path
  end.
Definition MkdirAll (path : string) : IO unit :=
  let! f := next_fault in
  match f with
  | NoFault => λ m, (Ok (), with_dirs ({[path]} ∪ mc_Dirs m) m)
  | _ => io_error "mkdir" path
  end.

(** ** Commands

    [exec n argv files]: what the n-th command prints, given the files on disk,
    or that it fails, with its output. *)
Class Commands := {
  exec : nat → list string → gmap string string → string + string;
  look_path : string → option string       (* exec.LookPath *)
}.
Definition run_command `{Commands} (argv : list string) : IO (string + string) := λ m,
  (Ok (exec (length (mc_Commands m)) argv (mc_Files m)),
   with_counts (mc_Calls m) (mc_Random m) (argv :: mc_Commands m) m).

(** ** Paths (path/filepath) *)
Fixpoint clean_parts (rooted : bool) (stack : list string) (parts : list string) : list string :=
  match parts with
  | [] => List.rev stack
  | p :: parts =>
      if bool_decide (p = "") || bool_decide (p = ".") then clean_parts rooted stack parts
      else if bool_decide (p = "..") then
        match stack with
        | top :: below =>
            if bool_decide (top = "..") then clean_parts rooted (".." :: stack) parts
            else clean_parts rooted below parts
        | [] => clean_parts rooted (if rooted then [] else [".."]) parts
        end
      else clean_parts rooted (p :: stack) parts
  end.
Definition Clean (path : string) : string :=
  if bool_decide (path = "") then "."
  else
    let rooted := HasPrefix path "/" in
    let out := Join (clean_parts rooted [] (Split path "/")) "/" in
    if rooted then "/" +:+ out else if bool_decide (out = "") then "." else out.
(** [filepath.Join(dir, name)] for a name that is not empty. *)
Definition Path_Join (dir name : string) : string :=
  Clean (if bool_decide (dir = "") then name else dir +:+ "/" +:+ name).
Definition Path_Dir (path : string) : string :=
  Clean (match before_last path "/" with Some dir => dir +:+ "/" | None => "" end).
Definition IsAbs (path : string) : bool := HasPrefix path "/".

(** ** Running computations *)
Lemma io_bind_Ok {A B} (c : IO A) (k : A → IO B) m b m' :
  io_bind c k m = (Ok b, m') → ∃ a m1, c m = (Ok a, m1) ∧ k a m1 = (Ok b, m').
Proof. unfold io_bind. destruct (c m) as [[a|e] m1]; [eauto|done]. Qed.

Lemma io_Now_run m :
  ∃ now m', io_Now m = (Ok now, m') ∧ mc_Files m' = mc_Files m ∧ mc_Commands m' = mc_Commands m.
Proof. unfold io_Now. destruct (mc_Ticks m); eauto. Qed.

(** What a write can leave behind. *)
Lemma WriteFile_run path data m :
  ∃ r m', WriteFile path data m = (r, m') ∧ mc_Commands m' = mc_Commands m ∧
  match r with
  | Ok _ => mc_Files m' = <[path := data]> (mc_Files m)
  | Err _ => mc_Files m' = mc_Files m ∨
             ∃ n, mc_Files m' = <[path := take_str n data]> (mc_Files m)
  end.
Proof.
  unfold WriteFile, next_fault, io_bind, set_file, io_error, io_fail.
  destruct (mc_Faults m) as [|[| |n] fs]; do 2 eexists; (split; [reflexivity|]); simpl; eauto.
Qed.

(** Without faults. *)
Lemma ReadFile_ok path m : mc_Faults m = [] → ReadFile path m =
  (match mc_Files m !! path with
   | Some data => Ok data
   | None => Err (ErrWrap ("open " +:+ path) ErrNotExist)
   end, m).
Proof.
  intros Hnf. unfold ReadFile, next_fault, io_bind, io_gets. rewrite Hnf.
  by destruct (mc_Files m !! path).
Qed.
Lemma WriteFile_ok path data m : mc_Faults m = [] →
  WriteFile path data m = (Ok (), with_files (<[path := data]> (mc_Files m)) m).
Proof. intros Hnf. unfold WriteFile, next_fault, io_bind, set_file. by rewrite Hnf. Qed.
Lemma AppendFile_ok path data m : mc_Faults m = [] →
  AppendFile path data m =
  (Ok (), with_files (<[path := default "" (mc_Files m !! path) +:+ data]> (mc_Files m)) m).
Proof. intros Hnf. unfold AppendFile, next_fault, io_bind, set_file, io_gets. by rewrite Hnf. Qed.
Lemma Truncate_ok path m : mc_Faults m = [] → is_Some (mc_Files m !! path) →
  Truncate path m = (Ok (), with_files (<[path := ""]> (mc_Files m)) m).
Proof.
  intros Hnf [data Hd]. unfold Truncate, next_fault, io_bind, set_file, io_gets.
  by rewrite Hnf, Hd.
Qed.

Lemma Remove_ok path m : mc_Faults m = [] → is_Some (mc_Files m !! path) →
  Remove path m = (Ok (), with_files (delete path (mc_Files m)) m).
Proof.
  intros Hnf [data Hd]. unfold Remove, next_fault, io_bind, io_gets. by rewrite Hnf, Hd.
Qed.
Lemma MkdirAll_ok path m : mc_Faults m = [] →
  MkdirAll path m = (Ok (), with_dirs ({[path]} ∪ mc_Dirs m) m).
Proof. intros Hnf. unfold MkdirAll, next_fault, io_bind. by rewrite Hnf. Qed.
Lemma Stat_ok path m : mc_Faults m = [] → ∃ r, Stat path m = (r, m).
Proof.
  intros Hnf. unfold Stat, next_fault, io_bind, io_gets. rewrite Hnf.
  destruct (bool_decide _); [by eexists|]. destruct (mc_Files m !! path); by eexists.
Qed.

Lemma ReadFile_run path m :
  ∃ r m', ReadFile path m = (r, m') ∧ mc_Files m' = mc_Files m ∧ mc_Commands m' = mc_Commands m ∧
  (∀ data, r = Ok data → mc_Files m !! path = Some data).
Proof.
  unfold ReadFile, next_fault, io_bind, io_error, io_fail, io_gets, io_ret.
  destruct (mc_Faults m) as [|[| |n] fs]; simpl;
    [destruct (mc_Files m !! path) eqn:E|destruct (mc_Files m !! path) eqn:E| |];
    do 2 eexists; (split; [reflexivity|]); simpl; split_and!; naive_solver.
Qed.

Lemma ReadFile_calls path m : mc_Calls (ReadFile path m).2 = mc_Calls m.
Proof.
  unfold ReadFile, next_fault, io_bind, io_error, io_fail, io_gets, io_ret.
  by destruct (mc_Faults m) as [|[| |n] fs]; simpl; try destruct (mc_Files m !! path).
Qed.

(** ** Computations that leave the files alone *)
Class KeepsFiles {A} (c : IO A) := keeps_files m : mc_Files (c m).2 = mc_Files m.

#[export] Instance keeps_ret {A} (a : A) : KeepsFiles (io_ret a).
Proof. done. Qed.
#[export] Instance keeps_fail {A} e : KeepsFiles (io_fail (A := A) e).
Proof. done. Qed.
#[export] Instance keeps_gets {A} (f : Machine → A) : KeepsFiles (io_gets f).
Proof. done. Qed.
#[export] Instance keeps_bind {A B} (c : IO A) (k : A → IO B) :
  KeepsFiles c → (∀ a, KeepsFiles (k a)) → KeepsFiles (io_bind c k).
Proof.
  intros Hc Hk m. unfold io_bind. specialize (Hc m). destruct (c m) as [[a|e] m1]; simpl in *;
    [by rewrite Hk|done].
Qed.
#[export] Instance keeps_try {A} (c : IO A) : KeepsFiles c → KeepsFiles (io_try c).
Proof. intros Hc m. unfold io_try. specialize (Hc m). by destruct (c m). Qed.
#[export] Instance keeps_wrap {A} ctx (c : IO A) : KeepsFiles c → KeepsFiles (io_wrap ctx c).
Proof. intros Hc m. unfold io_wrap. specialize (Hc m). by destruct (c m) as [[]]. Qed.
#[export] Instance keeps_if {A} (b : bool) (c1 c2 : IO A) :
  KeepsFiles c1 → KeepsFiles c2 → KeepsFiles (if b then c1 else c2).
Proof. by destruct b. Qed.
#[export] Instance keeps_Now : KeepsFiles io_Now.
Proof. intros m. unfold io_Now. by destruct (mc_Ticks m). Qed.
#[export] Instance keeps_Random : KeepsFiles io_Random.
Proof. done. Qed.
#[export] Instance keeps_call {A} (f : N → result A) : KeepsFiles (io_call f).
Proof. done. Qed.
#[export] Instance keeps_fault : KeepsFiles next_fault.
Proof. intros m. unfold next_fault. by destruct (mc_Faults m). Qed.
#[export] Instance keeps_ReadFile path : KeepsFiles (ReadFile path).
Proof.
  apply keeps_bind; [apply _|]. intros []; try apply _. apply keeps_bind; [apply _|].
  intros files. by destruct (files !! path).
Qed.
#[export] Instance keeps_StatSize path : KeepsFiles (StatSize path).
Proof. apply _. Qed.
#[export] Instance keeps_Stat path : KeepsFiles (Stat path).
Proof.
  apply keeps_bind; [apply _|]. intros []; try apply _. apply keeps_bind; [apply _|]. intros dirs.
  apply keeps_bind; [apply _|]. intros files. apply keeps_if; [apply _|]. by destruct (files !! path).
Qed.
#[export] Instance keeps_MkdirAll path : KeepsFiles (MkdirAll path).
Proof. apply keeps_bind; [apply _|]. by intros []. Qed.
#[export] Instance keeps_command `{Commands} argv : KeepsFiles (run_command argv).
Proof. done. Qed.

(** ** Computations that leave one file alone *)
Class Leaves {A} (path : string) (c : IO A) :=
  leaves m : mc_Files (c m).2 !! path = mc_Files m !! path.

#[export] Instance leaves_keeps {A} path (c : IO A) : KeepsFiles c → Leaves path c | 10.
Proof. intros Hc m. by rewrite Hc. Qed.
#[export] Instance leaves_bind {A B} path (c : IO A) (k : A → IO B) :
  Leaves path c → (∀ a, Leaves path (k a)) → Leaves path (io_bind c k) | 1.
Proof.
  intros Hc Hk m. unfold io_bind. specialize (Hc m). destruct (c m) as [[a|e] m1]; simpl in *;
    [by rewrite Hk|done].
Qed.
#[export] Instance leaves_try {A} path (c : IO A) : Leaves path c → Leaves path (io_try c) | 1.
Proof. intros Hc m. unfold io_try. specialize (Hc m). by destruct (c m). Qed.
#[export] Instance leaves_wrap {A} path ctx (c : IO A) : Leaves path c → Leaves path (io_wrap ctx c) | 1.
Proof. intros Hc m. unfold io_wrap. specialize (Hc m). by destruct (c m) as [[]]. Qed.
#[export] Instance leaves_if {A} path (b : bool) (c1 c2 : IO A) :
  Leaves path c1 → Leaves path c2 → Leaves path (if b then c1 else c2) | 1.
Proof. by destruct b. Qed.
Lemma leaves_write path path' data : path' ≠ path → Leaves path (WriteFile path' data).
Proof.
  intros Hne m. destruct (WriteFile_run path' data m) as (r & m' & -> & _ & Hf). simpl.
  destruct r; [rewrite Hf; by rewrite lookup_insert_ne|].
  destruct Hf as [->|[n ->]]; [done|by rewrite lookup_insert_ne].
Qed.
Lemma leaves_remove path path' : path' ≠ path → Leaves path (Remove path').
Proof.
  intros Hne m. unfold Remove, next_fault, io_bind, io_gets, io_error, io_fail.
  destruct (mc_Faults m) as [|[] fs]; simpl; try done;
    destruct (mc_Files m !! path'); simpl; by rewrite ?lookup_delete_ne.
Qed.

(** ** Computations that meet no fault if none is left *)
Class FaultFree {A} (c : IO A) := fault_free m : mc_Faults m = [] → mc_Faults (c m).2 = [].

#[export] Instance free_ret {A} (a : A) : FaultFree (io_ret a).
Proof. by intros m. Qed.
#[export] Instance free_fail {A} e : FaultFree (io_fail (A := A) e).
Proof. by intros m. Qed.
#[export] Instance free_gets {A} (f : Machine → A) : FaultFree (io_gets f).
Proof. by intros m. Qed.
#[export] Instance free_bind {A B} (c : IO A) (k : A → IO B) :
  FaultFree c → (∀ a, FaultFree (k a)) → FaultFree (io_bind c k).
Proof.
  intros Hc Hk m Hm. unfold io_bind. specialize (Hc m Hm).
  destruct (c m) as [[a|e] m1]; simpl in *; [by apply Hk|done].
Qed.
#[export] Instance free_try {A} (c : IO A) : FaultFree c → FaultFree (io_try c).
Proof. intros Hc m Hm. unfold io_try. specialize (Hc m Hm). by destruct (c m). Qed.
#[export] Instance free_wrap {A} ctx (c : IO A) : FaultFree c → FaultFree (io_wrap ctx c).
Proof. intros Hc m Hm. unfold io_wrap. specialize (Hc m Hm). by destruct (c m) as [[]]. Qed.
#[export] Instance free_if {A} (b : bool) (c1 c2 : IO A) :
  FaultFree c1 → FaultFree c2 → FaultFree (if b then c1 else c2).
Proof. by destruct b. Qed.
#[export] Instance free_Now : FaultFree io_Now.
Proof. intros m Hm. unfold io_Now. by destruct (mc_Ticks m). Qed.
#[export] Instance free_Random : FaultFree io_Random.
Proof. by intros m. Qed.
#[export] Instance free_call {A} (f : N → result A) : FaultFree (io_call f).
Proof. by intros m. Qed.
#[export] Instance free_command `{Commands} argv : FaultFree (run_command argv).
Proof. by intros m. Qed.
#[export] Instance free_ReadFile path : FaultFree (ReadFile path).
Proof. intros m Hm. by rewrite ReadFile_ok. Qed.
#[export] Instance free_WriteFile path data : FaultFree (WriteFile path data).
Proof. intros m Hm. by rewrite WriteFile_ok. Qed.
#[export] Instance free_MkdirAll path : FaultFree (MkdirAll path).
Proof. intros m Hm. by rewrite MkdirAll_ok. Qed.
#[export] Instance free_Stat path : FaultFree (Stat path).
Proof. intros m Hm. by destruct (Stat_ok path m Hm) as [r ->]. Qed.
#[export] Instance free_Remove path : FaultFree (Remove path).
Proof.
  intros m Hm. unfold Remove, next_fault, io_bind, io_gets, io_error, io_fail. rewrite Hm.
  by destruct (mc_Files m !! path).
Qed.

(** ** Paths *)
Lemma Split_one s c : ¬ in_string c s → Split s c = [s].
Proof.
  induction s as [|d s IH]; intros Hs; [done|]. simpl in *.
  rewrite decide_False by (intros ->; tauto). by rewrite IH by tauto.
Qed.
Lemma append_empty (a b : string) : a +:+ b = "" → a = "" ∧ b = "".
Proof. by destruct a. Qed.
Lemma Split_app_last a b c :
  ¬ in_string c b → Split (a +:+ String c b) c = Split a c ++ [b].
Proof.
  intros Hb. induction a as [|d a IH]; simpl.
  - rewrite decide_True by done. by rewrite Split_one.
  - rewrite IH. case_decide; [done|]. destruct (Split a c) eqn:E; [|done].
    by apply Split_nonnil in E.
Qed.
Lemma Split_app_first a b c : ¬ in_string c a → Split (a +:+ String c b) c = a :: Split b c.
Proof.
  induction a as [|d a IH]; intros Ha; simpl in *; [by rewrite decide_True|].
  rewrite decide_False by (intros ->; tauto). by rewrite IH by tauto.
Qed.
Lemma clean_parts_last rooted stack ps name :
  name ≠ "" → name ≠ "." → name ≠ ".." →
  clean_parts rooted stack (ps ++ [name]) = clean_parts rooted stack ps ++ [name].
Proof.
  intros H1 H2 H3. revert stack. induction ps as [|p ps IH]; intros stack; simpl.
  - by rewrite !bool_decide_eq_false_2.
  - repeat case_match; apply IH.
Qed.
Lemma Join_last l name sep : ∃ p, Join (l ++ [name]) sep = p +:+ name.
Proof.
  induction l as [|x l [p IH]]; simpl; [by exists ""|].
  destruct (l ++ [name]) eqn:E; [by destruct l|]. rewrite <-E in *. exists (x +:+ sep +:+ p).
  rewrite IH. by rewrite !append_assoc.
Qed.
Lemma Clean_last s ps name :
  Split s "/" = ps ++ [name] → name ≠ "" → name ≠ "." → name ≠ ".." →
  ∃ p, Clean s = p +:+ name.
Proof.
  intros Hs H1 H2 H3. unfold Clean. case_bool_decide as He.
  { subst s. destruct ps as [|? [|]]; simplify_eq/=. }
  rewrite Hs, clean_parts_last by done.
  destruct (Join_last (clean_parts (HasPrefix s "/") [] ps) name "/") as [p ->].
  destruct (HasPrefix s "/"); [by exists ("/" +:+ p)|].
  rewrite bool_decide_eq_false_2; [by exists p|].
  intros [_ ?]%append_empty. done.
Qed.
(** A joined path ends in its last element. *)
Lemma Path_Join_last dir name :
  ¬ in_string "/" name → name ≠ "" → name ≠ "." → name ≠ ".." →
  ∃ p, Path_Join dir name = p +:+ name.
Proof.
  intros Hn H1 H2 H3. unfold Path_Join. case_bool_decide.
  - apply (Clean_last _ []); [|done..]. apply (Split_one name "/"). done.
  - apply (Clean_last _ (Split dir "/")); [|done..]. by apply Split_app_last.
Qed.
Lemma last_char_inj a b c d : a +:+ String c "" = b +:+ String d "" → c = d.
Proof.
  revert b. induction a as [|x a IH]; intros [|y b]; simpl; intros E; simplify_eq; try done.
  - by destruct b.
  - by destruct a.
  - by eapply IH.
Qed.
