(* ===== verification/Agentd.v ===== *)
(** * The host agent (internal/agentd: config.go, daemon.go, client.go)

    The agent's configuration, its cache of principals, and the maintenance of
    certificates and CA bundle. What the running daemon holds in memory is a
    [Daemon], handed from call to call; files and clock are the [Machine]'s. *)
From S2P Require Export Machine.

Local Open Scope string_scope.
Local Open Scope list_scope.

(** ** Configuration (config.go) *)
Definition DefaultStateDir := "/var/lib/guided-ssh".
Definition DefaultSSHDir := "/etc/ssh".
Definition DefaultPAMDir := "/etc/pam.d".
Definition defaultCacheTTL : Z := (5 * Minute)%Z.
Definition defaultBundleInterval : Z := Hour.
Definition defaultRenewInterval : Z := (5 * Minute)%Z.
Definition defaultHeartbeatInterval : Z := Minute.

Record Config := {
  AgentURL : string; HostID : string; HostName : string; SSHKeyPath : string; SSHDir : string;
  SocketPath : string; CacheTTL : Z; BundleInterval : Z; RenewInterval : Z;
  HeartbeatInterval : Z; ReloadCommand : string; SessionAudit : bool
}.

(** [Paths] is its state directory. *)
Definition ConfigFile (stateDir : string) : string := Path_Join stateDir "config.yaml".
Definition AgentKeyFile (stateDir : string) : string := Path_Join stateDir "agent.key".
Definition AgentCertFile (stateDir : string) : string := Path_Join stateDir "agent.crt".
Definition ServerCAFile (stateDir : string) : string := Path_Join stateDir "server-ca.pem".
Definition CacheFile (stateDir : string) : string := Path_Join stateDir "principals-cache.json".
Definition DefaultSocket (stateDir : string) : string := Path_Join stateDir "agentd.sock".
Definition SocketTokenFile (stateDir : string) : string := Path_Join stateDir "socket-token".
Definition SpoolFile (stateDir : string) : string := Path_Join stateDir "sessions-spool.jsonl".

Definition HostCertPath (sshKeyPath : string) : string :=
  TrimSuffix sshKeyPath ".pub" +:+ "-cert.pub".
Definition UserCAPath (sshDir : string) : string := Path_Join sshDir "guided-ssh-user-ca.pub".
Definition SnippetPath (sshDir : string) : string :=
  Path_Join (Path_Join sshDir "sshd_config.d") "guided-ssh.conf".

Definition positive_or (d default_ : Z) : Z := if (d <=? 0)%Z then default_ else d.
Definition nonempty_or (s default_ : string) : string :=
  if bool_decide (s = "") then default_ else s.
Definition applyDefaults (stateDir : string) (c : Config) : Config := {|
  AgentURL := AgentURL c; HostID := HostID c; HostName := HostName c;
  SSHKeyPath := SSHKeyPath c; SSHDir := nonempty_or (SSHDir c) DefaultSSHDir;
  SocketPath := nonempty_or (SocketPath c) (DefaultSocket stateDir);
  CacheTTL := positive_or (CacheTTL c) defaultCacheTTL;
  BundleInterval := positive_or (BundleInterval c) defaultBundleInterval;
  RenewInterval := positive_or (RenewInterval c) defaultRenewInterval;
  HeartbeatInterval := positive_or (HeartbeatInterval c) defaultHeartbeatInterval;
  ReloadCommand := ReloadCommand c; SessionAudit := SessionAudit c |}.

(** The YAML text of a configuration is gopkg.in/yaml.v3's. *)
Class AgentYAML := {
  config_of : string → option Config;
  config_text : Config → string;
  config_of_text c : config_of (config_text c) = Some c
}.

Section config.
Context `{AgentYAML}.

Definition LoadConfig (stateDir : string) : IO Config :=
  let! raw := io_wrap "reading agent configuration (missing enrollment?)"
                (ReadFile (ConfigFile stateDir)) in
  match config_of raw with
  | None => io_fail (ErrOther ("agent configuration " +:+ ConfigFile stateDir))
  | Some cfg =>
      if bool_decide (AgentURL cfg = "") || bool_decide (HostID cfg = "") ||
         bool_decide (SSHKeyPath cfg = "")
      then io_fail (ErrOther ("agent configuration " +:+ ConfigFile stateDir +:+ " incomplete"))
      else io_ret (applyDefaults stateDir cfg)
  end.
Definition previousReloadCommand (stateDir : string) : IO string :=
  let! raw := io_try (ReadFile (ConfigFile stateDir)) in
  io_ret match raw with
         | Err _ => ""
         | Ok raw => match config_of raw with Some cfg => ReloadCommand cfg | None => "" end
         end.
Definition writeConfig (stateDir : string) (cfg : Config) : IO unit :=
  WriteFile (ConfigFile stateDir) (config_text cfg).
End config.

(** ** Session events on the wire (socket.go) *)
Record sessionEventWire := {
  wire_Phase : string; wire_Service : string; wire_LocalUser : string; wire_RemoteUser : string;
  wire_RemoteAddr : string; wire_TTY : string; wire_Serial : Z; wire_KeyID : string;
  wire_Command : string; wire_OccurredAt : Z
}.

(** ** The server, as the agent sees it (client.go)

    [agentAPI]: the n-th request and its answer. *)
Record agentAPI := {
  api_Renew : string → N → result string;
  api_RenewMTLS : string → N → result string;
  api_Principals : string → N → result (list string);
  api_Bundle : N → result string;
  api_SendSessions : list sessionEventWire → N → result unit;
  api_Heartbeat : N → result unit
}.

(** ** The daemon (daemon.go) *)
Definition minFresh : Z := (10 * Second)%Z.

Record cacheEntry := { ce_Principals : list string; FetchedAt : Z }.
#[export] Instance cacheEntry_eq_dec : EqDecision cacheEntry.
Proof. solve_decision. Defined.
(** A serial seen at login (session.go). *)
Record authRec := { ar_Serial : Z; ar_KeyID : string; ar_At : Z }.

Record Daemon := {
  d_Cfg : Config; d_StateDir : string;
  d_Cache : gmap string cacheEntry;
  d_RecentAuth : gmap string (list authRec);
  d_Token : string;                       (* empty: session audit is off *)
  d_ClientCert : string * string          (* certificate and key in use *)
}.
Definition with_cache (c : gmap string cacheEntry) (d : Daemon) : Daemon := {|
  d_Cfg := d_Cfg d; d_StateDir := d_StateDir d; d_Cache := c; d_RecentAuth := d_RecentAuth d;
  d_Token := d_Token d; d_ClientCert := d_ClientCert d |}.
Definition with_auth (a : gmap string (list authRec)) (d : Daemon) : Daemon := {|
  d_Cfg := d_Cfg d; d_StateDir := d_StateDir d; d_Cache := d_Cache d; d_RecentAuth := a;
  d_Token := d_Token d; d_ClientCert := d_ClientCert d |}.
Definition with_cert (c : string * string) (d : Daemon) : Daemon := {|
  d_Cfg := d_Cfg d; d_StateDir := d_StateDir d; d_Cache := d_Cache d;
  d_RecentAuth := d_RecentAuth d; d_Token := d_Token d; d_ClientCert := c |}.

(** What comes from crypto/tls, crypto/x509 and golang.org/x/crypto/ssh. *)
Class HostCrypto := {
  (** An OpenSSH certificate line: ValidAfter and ValidBefore. *)
  ssh_certificate : string → option (Z * Z);
  (** A PEM certificate: NotBefore and NotAfter. *)
  x509_validity : string → option (Z * Z);
  (** The n-th generated mTLS key (PEM) and its certificate request. *)
  new_key_csr : N → option (string * string);
  (** tls.X509KeyPair of certificate and key. *)
  key_pair : string → string → bool;
  (** AppendCertsFromPEM finds a certificate. *)
  cert_pool : string → bool
}.

Definition sessionAuditEnabled (d : Daemon) : bool :=
  SessionAudit (d_Cfg d) && negb (bool_decide (d_Token d = "")).

(** The cache file is a JSON object of the entries, with its keys sorted. *)
Section cache_file.
Context `{Encodings}.

Definition entry_json (e : cacheEntry) : option json :=
  at_ ← marshal_time (FetchedAt e);
  Some (JObj [("principals", JStrs (ce_Principals e)); ("fetched_at", at_)]).
Definition entry_of (v : json) : option cacheEntry :=
  m ← struct_members v;
  ps ← dec_field dec_strings "principals" [] m;
  at_ ← dec_field dec_time "fetched_at" time_zero m;
  Some {| ce_Principals := ps; FetchedAt := at_ |}.
Definition cache_json (c : gmap string cacheEntry) : option json :=
  JObj <$> mapM (λ '(user, e), pair user <$> entry_json e) (sorted_entries c).
(** null is the nil map, which is read like the empty one. *)
Definition cache_of (v : json) : option (gmap string cacheEntry) :=
  match v with
  | JNull => Some ∅
  | JObj l => foldl (λ acc '(user, v), c ← acc; e ← entry_of v; Some (<[user := e]> c)) (Some ∅) l
  | _ => None
  end.
End cache_file.

Section daemon.
Context `{Encodings} `{AgentYAML} `{HostCrypto} `{Commands} (api : agentAPI).

(** [newAPIClient] and [NewDaemon]: the mTLS material is loaded first. *)
Definition readSocketToken (stateDir : string) : IO string :=
  let! raw := io_try (ReadFile (SocketTokenFile stateDir)) in
  io_ret match raw with Ok raw => TrimSpace raw | Err _ => "" end.
Definition newAPIClient (stateDir : string) : IO (string * string) :=
  let! cert := io_wrap "loading mtls client certificate" (ReadFile (AgentCertFile stateDir)) in
  let! key := io_wrap "loading mtls client certificate" (ReadFile (AgentKeyFile stateDir)) in
  if negb (key_pair cert key) then io_fail (ErrOther "loading mtls client certificate")
  else
    let! caPEM := io_wrap "loading server ca" (ReadFile (ServerCAFile stateDir)) in
    if negb (cert_pool caPEM)
    then io_fail (ErrOther ("server ca " +:+ ServerCAFile stateDir +:+ ": not a valid pem"))
    else io_ret (cert, key).
Definition NewDaemon (stateDir : string) : IO Daemon :=
  let! cfg := LoadConfig stateDir in
  let! cert := newAPIClient stateDir in
  let! token := (if SessionAudit cfg then readSocketToken stateDir else io_ret "") in
  io_ret {| d_Cfg := cfg; d_StateDir := stateDir; d_Cache := ∅; d_RecentAuth := ∅;
            d_Token := token; d_ClientCert := cert |}.

(** The persisted cache; what cannot be read is ignored. *)
Definition loadCache (d : Daemon) : IO Daemon :=
  let! raw := io_try (ReadFile (CacheFile (d_StateDir d))) in
  io_ret match raw with
         | Err _ => d
         | Ok raw => match json_parse raw ≫= cache_of with
                     | Some cache => with_cache cache d
                     | None => d
                     end
         end.
Definition persistCache (d : Daemon) : IO unit :=
  match cache_json (d_Cache d) with
  | None => io_ret ()
  | Some v => let! _ := io_try (WriteFile (CacheFile (d_StateDir d)) (json_text v)) in io_ret ()
  end.

(** [time.Since(entry.FetchedAt) < limit]. *)
Definition younger (limit now : Z) (e : cacheEntry) : bool := (Sub now (FetchedAt e) <? limit)%Z.
Definition if_younger (limit : Z) (entry : option cacheEntry) : IO (option (list string)) :=
  match entry with
  | None => io_ret None
  | Some e => let! now := io_Now in
              io_ret (if younger limit now e then Some (ce_Principals e) else None)
  end.
(** Principals of a local user: a fresh entry of the cache, else the server's
    answer, else an entry that is not too old. *)
Definition principals (d : Daemon) (user : string) : IO (result (list string) * Daemon) :=
  let entry := d_Cache d !! user in
  let! fresh := if_younger minFresh entry in
  match fresh with
  | Some ps => io_ret (Ok ps, d)
  | None =>
  let! answer := io_try (io_call (api_Principals api user)) in
  match answer with
  | Ok ps =>
      let! now := io_Now in
      let d := with_cache (<[user := {| ce_Principals := ps; FetchedAt := now |}]> (d_Cache d)) d in
      persistCache d ;! io_ret (Ok ps, d)
  | Err err =>
      let! old := if_younger (CacheTTL (d_Cfg d)) entry in
      io_ret (match old with
              | Some ps => Ok ps
              | None => Err (ErrWrap "api unreachable and cache expired" err)
              end, d)
  end end.

(** ** Certificates and the CA bundle *)

(** SSH times are capped before they become a [time.Time]. *)
Definition maxCertUnix : Z := (2 ^ 40)%Z.
Definition certTime (sec : Z) : Z := (Z.min sec maxCertUnix * Second)%Z.
(** Two thirds of a validity; the doubled duration wraps around. *)
Definition renew_at (validAfter validBefore : Z) : Z :=
  Add validAfter (Z.quot (int64 (Sub validBefore validAfter * 2)) 3).
Definition past_two_thirds (validity : option (Z * Z)) (now : Z) : bool :=
  match validity with
  | Some (validAfter, validBefore) => After now (renew_at validAfter validBefore)
  | None => true
  end.
Definition needsRenewal (certPath : string) (now : Z) : IO bool :=
  let! raw := io_try (ReadFile certPath) in
  io_ret match raw with
         | Err _ => true
         | Ok raw => past_two_thirds (prod_map certTime certTime <$> ssh_certificate raw) now
         end.
Definition mtlsNeedsRotation (certPath : string) (now : Z) : IO bool :=
  let! raw := io_try (ReadFile certPath) in
  io_ret match raw with
         | Err _ => true
         | Ok raw => past_two_thirds (x509_validity raw) now
         end.

Definition runReloadCommand (d : Daemon) : IO unit :=
  if bool_decide (ReloadCommand (d_Cfg d) = "") then io_ret ()
  else let! _ := run_command ["sh"; "-c"; ReloadCommand (d_Cfg d)] in io_ret ().

Definition renewIfNeeded (d : Daemon) : IO unit :=
  let certPath := HostCertPath (SSHKeyPath (d_Cfg d)) in
  let! now := io_Now in
  let! needed := needsRenewal certPath now in
  if negb needed then io_ret ()
  else
  let! publicKey := io_try (ReadFile (SSHKeyPath (d_Cfg d))) in
  match publicKey with
  | Err _ => io_ret ()
  | Ok publicKey =>
  let! certLine := io_try (io_call (api_Renew api (TrimSpace publicKey))) in
  match certLine with
  | Err _ => io_ret ()
  | Ok certLine =>
  let! written := io_try (WriteFile certPath (certLine +:+ newline)) in
  match written with
  | Err _ => io_ret ()
  | Ok _ => runReloadCommand d
  end end end.

Definition writeFileAtomic (path data : string) : IO unit :=
  let tmp := path +:+ ".tmp" in
  WriteFile tmp data ;! Rename tmp path.

Definition rotateMTLSIfNeeded (d : Daemon) : IO Daemon :=
  let! now := io_Now in
  let! needed := mtlsNeedsRotation (AgentCertFile (d_StateDir d)) now in
  if negb needed then io_ret d
  else
  let! n := io_Random in
  match new_key_csr n with
  | None => io_ret d
  | Some (keyPEM, csrPEM) =>
  let! certPEM := io_try (io_call (api_RenewMTLS api csrPEM)) in
  match certPEM with
  | Err _ => io_ret d
  | Ok certPEM =>
  if negb (key_pair certPEM keyPEM) then io_ret d
  else
  let! key := io_try (writeFileAtomic (AgentKeyFile (d_StateDir d)) keyPEM) in
  match key with
  | Err _ => io_ret d
  | Ok _ =>
  let! cert := io_try (writeFileAtomic (AgentCertFile (d_StateDir d)) certPEM) in
  io_ret match cert with
         | Err _ => d
         | Ok _ => with_cert (certPEM, keyPEM) d
         end
  end end end.

(** The bundle is written on change only. *)
Definition refreshBundle (d : Daemon) : IO unit :=
  let! bundle := io_try (io_call (api_Bundle api)) in
  match bundle with
  | Err _ => io_ret ()
  | Ok bundle =>
  let path := UserCAPath (SSHDir (d_Cfg d)) in
  let! current := io_try (ReadFile path) in
  let current := match current with Ok s => s | Err _ => "" end in
  if bool_decide (current = bundle) then io_ret ()
  else let! _ := io_try (WriteFile path bundle) in io_ret ()
  end.

Definition heartbeat : IO unit :=
  let! _ := io_try (io_call (api_Heartbeat api)) in io_ret ().
End daemon.

(** ** Lookups that overlap

    sshd asks for several logins at once, so lookups interleave: each reads the
    cache, perhaps asks the server, and only then writes the cache. A step is
    what happens between two of these points; the observations of a run are
    listed latest first. *)
Inductive observation :=
| Fetched (user : string) (ps : list string) (at_ : Z)
| Served (user : string) (ps : list string) (at_ : Z)
| Refused (user : string).

Record Lookups := {
  lk_Cache : gmap string cacheEntry;
  lk_Flight : list (string * option cacheEntry);   (* asking the server, with the entry they read *)
  lk_Writes : list (gmap string cacheEntry);       (* marshalled, not yet written *)
  lk_Disk : option (gmap string cacheEntry)        (* what loadCache would read *)
}.
Definition no_lookups : Lookups :=
  {| lk_Cache := ∅; lk_Flight := []; lk_Writes := []; lk_Disk := None |}.

Section lookups.
Variable ttl : Z.

Inductive step (s : Lookups) : list observation → Lookups → Prop :=
| step_cached user e now :
    lk_Cache s !! user = Some e → younger minFresh now e = true →
    step s [Served user (ce_Principals e) now] s
| step_ask user :
    step s [] {| lk_Cache := lk_Cache s; lk_Flight := (user, lk_Cache s !! user) :: lk_Flight s;
                 lk_Writes := lk_Writes s; lk_Disk := lk_Disk s |}
| step_answer user entry ps now :
    (user, entry) ∈ lk_Flight s →
    step s [Served user ps now; Fetched user ps now]
      {| lk_Cache := <[user := {| ce_Principals := ps; FetchedAt := now |}]> (lk_Cache s);
         lk_Flight := lk_Flight s; lk_Writes := lk_Writes s; lk_Disk := lk_Disk s |}
| step_old user e now :
    (user, Some e) ∈ lk_Flight s → younger ttl now e = true →
    step s [Served user (ce_Principals e) now] s
| step_refuse user entry :
    (user, entry) ∈ lk_Flight s → step s [Refused user] s
| step_marshal :
    step s [] {| lk_Cache := lk_Cache s; lk_Flight := lk_Flight s;
                 lk_Writes := lk_Cache s :: lk_Writes s; lk_Disk := lk_Disk s |}
| step_write disk :
    (disk = None ∨ ∃ c, disk = Some c ∧ c ∈ lk_Writes s) →
    step s [] {| lk_Cache := lk_Cache s; lk_Flight := lk_Flight s; lk_Writes := lk_Writes s;
                 lk_Disk := disk |}
| step_restart :
    step s [] {| lk_Cache := default ∅ (lk_Disk s); lk_Flight := []; lk_Writes := [];
                 lk_Disk := lk_Disk s |}.

Inductive run : list observation → Lookups → Prop :=
| run_start : run [] no_lookups
| run_step h s obs s' : run h s → step s obs s' → run (obs ++ h) s'.

(** Every entry anywhere is an answer of the server. *)
Definition known (h : list observation) (user : string) (e : cacheEntry) : Prop :=
  Fetched user (ce_Principals e) (FetchedAt e) ∈ h.
Definition known_all (h : list observation) : gmap string cacheEntry → Prop := map_Forall (known h).
Record sound (h : list observation) (s : Lookups) : Prop := {
  sound_cache : known_all h (lk_Cache s);
  sound_flight : ∀ user e, (user, Some e) ∈ lk_Flight s → known h user e;
  sound_writes : ∀ c, c ∈ lk_Writes s → known_all h c;
  sound_disk : ∀ c, lk_Disk s = Some c → known_all h c
}.
Fixpoint justified (h : list observation) : Prop :=
  match h with
  | [] => True
  | Served user ps now :: h =>
      (∃ at_, Fetched user ps at_ ∈ h ∧ (Sub now at_ < Z.max minFresh ttl)%Z) ∧ justified h
  | _ :: h => justified h
  end.

Lemma known_all_more h obs c : known_all h c → known_all (obs ++ h) c.
Proof. intros Hc u e He. apply elem_of_app. right. by apply Hc. Qed.
Lemma known_more h obs user e : known h user e → known (obs ++ h) user e.
Proof. intros Hk. apply elem_of_app. by right. Qed.
Lemma sound_more h obs s : sound h s → sound (obs ++ h) s.
Proof. intros []. split; intros; eauto using known_all_more, known_more. Qed.

Lemma step_sound h s obs s' : sound h s → step s obs s' → sound (obs ++ h) s'.
Proof.
  intros Hs Hstep. destruct Hs as [Hc Hf Hw Hd].
  destruct Hstep as [u e t He Hy|u|u en ps t Hin|u e t Hin Hy|u en Hin| |disk Hdisk|];
    try (apply sound_more; by split); split; simpl; try done.
  - intros u' e' [Heq|Hin]%elem_of_cons; [|by apply Hf]. simplify_eq. by apply Hc.
  - apply map_Forall_insert_2; [|by apply (known_all_more h [_; _])].
    unfold known. simpl. set_solver.
  - intros u' e' Hin'. by apply (known_more h [_; _]), Hf.
  - intros c Hcw. by apply (known_all_more h [_; _]), Hw.
  - intros c Hcd. by apply (known_all_more h [_; _]), Hd.
  - intros c [->|Hcw]%elem_of_cons; [done|by apply Hw].
  - intros c ->. destruct Hdisk as [?|(c' & [= <-] & Hin)]; [done|by apply Hw].
  - destruct (lk_Disk s) as [c|]; simpl; [by apply Hd|apply map_Forall_empty].
  - intros ? ? []%elem_of_nil.
  - intros ? []%elem_of_nil.
Qed.

Lemma step_justified h s obs s' :
  sound h s → justified h → step s obs s' → justified (obs ++ h).
Proof.
  intros [Hc Hf Hw Hd] Hj Hstep.
  assert (∀ e u now limit, known h u e → younger limit now e = true →
    (limit ≤ Z.max minFresh ttl)%Z → justified (Served u (ce_Principals e) now :: h)) as Hserve.
  { intros e u now limit Hk Hy%Z.ltb_lt Hle. split; [|done]. exists (FetchedAt e).
    split; [done|lia]. }
  destruct Hstep as [u e t He Hy| |u en ps t Hin|u e t Hin Hy| | | |]; simpl; try done.
  - apply (Hserve e u t minFresh); [by apply Hc|done|lia].
  - split; [|done]. exists t. split; [by left|].
    unfold Sub, int64_min, int64_max, minFresh, Second. lia.
  - apply (Hserve e u t ttl); [by apply Hf|done|lia].
Qed.

Lemma run_sound h s : run h s → sound h s ∧ justified h.
Proof.
  induction 1 as [|h s obs s' _ [Hs Hj] Hstep].
  - split; [|done]. split; simpl; [apply map_Forall_empty| | |done].
    + by intros ? ? ?%elem_of_nil.
    + by intros ? ?%elem_of_nil.
  - split; [by eapply step_sound|by eapply step_justified].
Qed.

Lemma justified_at h1 user ps now h2 :
  justified (h1 ++ Served user ps now :: h2) →
  ∃ at_, Fetched user ps at_ ∈ h2 ∧ (Sub now at_ < Z.max minFresh ttl)%Z.
Proof. induction h1 as [|[]]; simpl; tauto. Qed.
End lookups.

(** ** The cache file *)
Section cache_file.
Context `{Encodings}.

Lemma entry_of_json e v : entry_json e = Some v → entry_of v = Some e.
Proof.
  unfold entry_json, marshal_time. case_bool_decide as Hr; [|done]. intros [= <-].
  unfold entry_of, dec_field. cbn -[dec_strings JStrs EqualFold]. field_names.
  cbn -[dec_strings JStrs]. rewrite dec_strings_JStrs. cbn.
  rewrite parse_rfc3339_text by done. by destruct e.
Qed.

Lemma cache_of_json c v : cache_json c = Some v → cache_of v = Some c.
Proof.
  unfold cache_json. intros (l & Hl & ->)%fmap_Some. simpl.
  rewrite <-(foldl_insert_entries (sorted_entries c) c) by apply sort_by_perm.
  revert l Hl. generalize (sorted_entries c) as es. generalize (∅ : gmap string cacheEntry) as c0.
  intros c0 es. revert c0. induction es as [|[k e] es IH]; intros c0 l; simpl.
  { intros [= <-]. done. }
  intros Hl. destruct (entry_json e) as [j|] eqn:Hj; [|done]. simpl in Hl.
  destruct (mapM _ es) as [l'|] eqn:Hl'; [|done]. injection Hl as <-. simpl.
  rewrite (entry_of_json _ _ Hj). simpl. by apply IH.
Qed.
End cache_file.

(** ** The code takes these steps *)
Section refinement.
Context `{Encodings} (api : agentAPI).

Definition disk_cache (m : Machine) (stateDir : string) : option (gmap string cacheEntry) :=
  raw ← mc_Files m !! CacheFile stateDir; v ← json_parse raw; cache_of v.
Record represents (d : Daemon) (m : Machine) (s : Lookups) : Prop := {
  rep_cache : lk_Cache s = d_Cache d;
  rep_disk : lk_Disk s = disk_cache m (d_StateDir d)
}.

Lemma disk_cache_files m m' dir : mc_Files m' = mc_Files m → disk_cache m' dir = disk_cache m dir.
Proof. intros Hf. unfold disk_cache. by rewrite Hf. Qed.

(** The file afterwards is as before, the cache, or nothing that can be read. *)
Lemma persistCache_run d m :
  ∃ m', persistCache d m = (Ok (), m') ∧
  (disk_cache m' (d_StateDir d) = disk_cache m (d_StateDir d) ∨
   disk_cache m' (d_StateDir d) = Some (d_Cache d) ∨ disk_cache m' (d_StateDir d) = None).
Proof.
  unfold persistCache. destruct (cache_json (d_Cache d)) as [v|] eqn:Hv; [|by eauto].
  destruct (WriteFile_run (CacheFile (d_StateDir d)) (json_text v) m) as (r & m' & Hw & _ & Hm').
  exists m'. unfold io_bind, io_try. rewrite Hw. split; [done|].
  assert (json_parse (json_text v) ≫= cache_of = Some (d_Cache d)) as Hall.
  { rewrite json_parse_text. by apply cache_of_json. }
  unfold disk_cache. destruct r as [u|e]; [|destruct Hm' as [Hm'|[n Hm']]]; rewrite Hm'.
  - right. left. by rewrite lookup_insert_eq.
  - by left.
  - rewrite lookup_insert_eq. simpl. right. destruct (decide (n < String.length (json_text v))%nat) as [Hn|Hn].
    + right. unfold cache_json in Hv. apply fmap_Some in Hv as (l & _ & ->).
      by rewrite json_parse_cut.
    + left. by rewrite take_str_all by lia.
Qed.

Lemma if_younger_run limit entry m :
  ∃ r m', if_younger limit entry m = (Ok r, m') ∧ mc_Files m' = mc_Files m ∧
  match r with
  | Some ps => ∃ e now, entry = Some e ∧ ps = ce_Principals e ∧ younger limit now e = true
  | None => True
  end.
Proof.
  unfold if_younger. destruct entry as [e|]; [|by do 2 eexists].
  destruct (io_Now_run m) as (now & m' & Hnow & Hf & _). unfold io_bind. rewrite Hnow.
  do 2 eexists. split; [reflexivity|]. split; [done|]. destruct (younger limit now e) eqn:Hy; [|done].
  by exists e, now.
Qed.

Lemma run_quiet ttl h s s' : run ttl h s → step ttl s [] s' → run ttl h s'.
Proof. intros Hr Hs. exact (run_step _ _ _ _ _ Hr Hs). Qed.

(** An answer of the server: it enters the cache, the cache is marshalled, and the file
    is written or not. *)
Lemma answer_takes_steps ttl d user ps now m h s :
  run ttl h s → (user, d_Cache d !! user) ∈ lk_Flight s → represents d m s →
  let d1 := with_cache (<[user := {| ce_Principals := ps; FetchedAt := now |}]> (d_Cache d)) d in
  ∃ m' s', persistCache d1 m = (Ok (), m') ∧
  run ttl ([Served user ps now; Fetched user ps now] ++ h) s' ∧ represents d1 m' s'.
Proof.
  intros Hrun Hfl [Hc Hd] d1. destruct (persistCache_run d1 m) as (m3 & E3 & Hm3).
  pose proof (run_step _ _ _ _ _ Hrun (step_answer ttl s user _ ps now Hfl)) as Hans.
  set (s2 := {| lk_Cache := <[user := _]> _ |}) in Hans.
  pose proof (run_quiet _ _ _ _ Hans (step_marshal ttl s2)) as Hmar.
  set (s3 := {| lk_Cache := lk_Cache s2; lk_Writes := _ :: _ |}) in Hmar.
  assert (lk_Cache s2 = d_Cache d1) as Hc2 by (simpl; by rewrite Hc).
  exists m3. destruct Hm3 as [Hm3|Hm3].
  - exists s3. split_and!; [done..|]. split; [done|]. simpl in *. congruence.
  - exists {| lk_Cache := lk_Cache s3; lk_Flight := lk_Flight s3; lk_Writes := lk_Writes s3;
              lk_Disk := disk_cache m3 (d_StateDir d) |}.
    split_and!; [done| |done..]. apply (run_quiet _ _ _ _ Hmar), step_write.
    destruct Hm3 as [Hm3|Hm3]; [right|left]; [|done].
    exists (d_Cache d1). split; [done|]. rewrite <-Hc2. by left.
Qed.

End refinement.

(** C11: Fail-closed: however lookups, cache writes and restarts interleave, a
    list of principals is handed to sshd only if the server gave exactly this
    list for this local user earlier, less than the cache lifetime (or the ten
    seconds of [minFresh]) before. *)
Theorem served_principals_come_from_server ttl h s user ps now h1 h2 :
  run ttl h s → h = h1 ++ Served user ps now :: h2 →
  ∃ at_, Fetched user ps at_ ∈ h2 ∧ (Sub now at_ < Z.max minFresh ttl)%Z.
Proof. intros Hrun ->. eapply justified_at, run_sound, Hrun. Qed.

(** ** Renewal *)

(** The longest validity, in seconds, that can be doubled as a Duration. *)
Definition max_doubled : Z := 4611686018.

(** A certificate is renewed exactly when two thirds of its validity are
    over, to the nanosecond, up to a validity of 146 years; of a longer one
    (such as OpenSSH's "forever") the doubled duration overflows, and it is
    renewed at every check. *)
Theorem renewal_schedule validAfter validBefore now :
  (0 ≤ validAfter ≤ validBefore)%Z → (validAfter ≤ maxCertUnix)%Z →
  let length := (Z.min validBefore maxCertUnix - validAfter)%Z in
  let age := (now - validAfter * Second)%Z in
  let due := past_two_thirds (Some (certTime validAfter, certTime validBefore)) now in
  ((length ≤ max_doubled)%Z → due = true ↔ (2 * (length * Second) < 3 * age)%Z) ∧
  ((max_doubled < length)%Z → (0 < age)%Z → due = true).
Proof.
  intros Hle Hcap length age due. unfold due, past_two_thirds, renew_at, certTime, After, Add.
  rewrite Z.ltb_lt. rewrite (Z.min_l validAfter) by lia.
  set (a := validAfter) in *. set (b := Z.min validBefore maxCertUnix) in *.
  assert (a ≤ b)%Z as Hab by (unfold b; lia).
  assert (Sub (b * Second) (a * Second) = Z.min int64_max (length * Second))%Z as ->.
  { unfold Sub, int64_min, int64_max, length, Second. lia. }
  split.
  - intros Hlen. rewrite Z.min_r by (unfold int64_max, max_doubled, Second in *; lia).
    rewrite int64_id by (unfold in_int64, int64_min, int64_max, max_doubled, Second in *; lia).
    rewrite Z.quot_div_nonneg by (unfold Second, length in *; lia).
    unfold age. pose proof (Z.div_mod (length * Second * 2) 3 ltac:(lia)) as Hdiv.
    pose proof (Z.mod_pos_bound (length * Second * 2) 3 ltac:(lia)). lia.
  - intros Hlen Hage. enough (Z.quot (int64 (Z.min int64_max (length * Second) * 2)) 3 ≤ 0)%Z
      by (unfold age in *; lia).
    enough (int64 (Z.min int64_max (length * Second) * 2) ≤ 0)%Z.
    { rewrite <-(Z.quot_0_l 3) by lia. apply Z.quot_le_mono; lia. }
    assert (int64 (Z.min int64_max (length * Second) * 2) =
      Z.min int64_max (length * Second) * 2 - 2 ^ 64)%Z as ->.
    { rewrite <-(int64_period _ (-1)). rewrite int64_id; [lia|].
      unfold in_int64, int64_min, int64_max, max_doubled, Second in *. lia. }
    unfold int64_max. lia.
Qed.

Section maintenance.
Context `{HostCrypto} `{Commands} (api : agentAPI).

(** Renewal: the host certificate on disk is only ever replaced by what the
    server answered for the host's own key, and then sshd is told to reload; a
    write that fails half way tells nobody; otherwise nothing changes. *)
Theorem renewal_installs_answer d m :
  let path := HostCertPath (SSHKeyPath (d_Cfg d)) in
  ∃ m', renewIfNeeded api d m = (Ok (), m') ∧
  ((mc_Files m' = mc_Files m ∧ mc_Commands m' = mc_Commands m) ∨
   ∃ key line n, mc_Files m !! SSHKeyPath (d_Cfg d) = Some key ∧
     api_Renew api (TrimSpace key) n = Ok line ∧
     ((mc_Files m' = <[path := line +:+ newline]> (mc_Files m) ∧
       mc_Commands m' = (if bool_decide (ReloadCommand (d_Cfg d) = "") then []
                         else [["sh"; "-c"; ReloadCommand (d_Cfg d)]]) ++ mc_Commands m) ∨
      ∃ k, mc_Files m' = <[path := take_str k (line +:+ newline)]> (mc_Files m) ∧
           mc_Commands m' = mc_Commands m)).
Proof.
  intros path. unfold renewIfNeeded. fold path.
  destruct (io_Now_run m) as (now & m1 & E1 & Hf1 & Hc1). unfold io_bind at 1. rewrite E1.
  unfold needsRenewal.
  destruct (ReadFile_run path m1) as (r2 & m2 & E2 & Hf2 & Hc2 & _).
  unfold io_bind at 1 2, io_try at 1. rewrite E2. unfold io_ret at 1.
  destruct (negb _); [exists m2; split; [done|]; left; split; congruence|].
  destruct (ReadFile_run (SSHKeyPath (d_Cfg d)) m2) as (r3 & m3 & E3 & Hf3 & Hc3 & Hr3).
  unfold io_bind at 1, io_try at 1. rewrite E3.
  destruct r3 as [key|e]; [|exists m3; split; [done|]; left; split; congruence].
  specialize (Hr3 key eq_refl). unfold io_bind at 1, io_try at 1, io_call at 1.
  set (m4 := with_counts _ _ _ m3).
  destruct (api_Renew api (TrimSpace key) (mc_Calls m3)) as [line|e] eqn:Hline;
    [|exists m4; split; [done|]; left; simpl; split; congruence].
  destruct (WriteFile_run path (line +:+ newline) m4) as (r5 & m5 & E5 & Hc5 & Hf5).
  unfold io_bind at 1, io_try at 1. rewrite E5. simpl in Hc5, Hf5.
  assert (mc_Files m3 = mc_Files m) as Hf by congruence.
  assert (mc_Commands m3 = mc_Commands m) as Hc by congruence. rewrite Hf in Hf5.
  destruct r5 as [u|e].
  - unfold runReloadCommand. case_bool_decide; (eexists; split; [reflexivity|]); right;
      exists key, line, (mc_Calls m3); (split_and!; [congruence|done|]); left; simpl; split;
      congruence.
  - exists m5. split; [done|]. destruct Hf5 as [Hf5|[k Hf5]]; [left; split; congruence|right].
    exists key, line, (mc_Calls m3). split_and!; [congruence|done|]. right. exists k. split; congruence.
Qed.

(** The trusted CA keys of sshd: a check that cannot reach the server
    leaves them alone; otherwise the file holds the server's bundle afterwards,
    a beginning of it if the write failed, and nothing else is touched. *)
Theorem bundle_follows_server d m :
  let path := UserCAPath (SSHDir (d_Cfg d)) in
  ∃ m', refreshBundle api d m = (Ok (), m') ∧
  match api_Bundle api (mc_Calls m) with
  | Err _ => mc_Files m' = mc_Files m
  | Ok bundle =>
      (mc_Files m' = mc_Files m ∨ ∃ k, mc_Files m' = <[path := take_str k bundle]> (mc_Files m)) ∧
      (mc_Faults m = [] → default "" (mc_Files m' !! path) = bundle)
  end.
Proof.
  intros path. unfold refreshBundle. fold path. unfold io_bind at 1, io_try at 1, io_call.
  set (m1 := with_counts _ _ _ m).
  destruct (api_Bundle api (mc_Calls m)) as [bundle|e]; [|by exists m1].
  destruct (ReadFile_run path m1) as (r2 & m2 & E2 & Hf2 & _ & Hr2).
  unfold io_bind at 1, io_try at 1. rewrite E2.
  assert (mc_Faults m = [] → mc_Faults m2 = [] ∧ match r2 with Ok s => s | Err _ => "" end =
    default "" (mc_Files m !! path)) as Hnf.
  { intros Hnil. revert E2. unfold ReadFile, next_fault, io_bind, io_gets, io_fail. simpl.
    rewrite Hnil. simpl. by destruct (mc_Files m !! path); intros [= <- <-]. }
  case_bool_decide as Hcur.
  { exists m2. split; [done|]. split; [by left|]. intros Hnil. rewrite Hf2. simpl.
    rewrite <-Hcur. symmetry. by apply Hnf. }
  destruct (WriteFile_run path bundle m2) as (r3 & m3 & E3 & _ & Hf3).
  unfold io_bind, io_try. rewrite E3. exists m3. split; [done|].
  rewrite Hf2 in Hf3. simpl in Hf3. split.
  - destruct r3; [|done]. right. exists (String.length bundle). by rewrite take_str_all.
  - intros Hnil. apply Hnf in Hnil as [Hnil _]. revert E3.
    unfold WriteFile, next_fault, io_bind, set_file. rewrite Hnil. intros [= <- <-]. simpl.
    by rewrite lookup_insert_eq.
Qed.
(** All or nothing: the file is replaced or as before. *)
Lemma writeFileAtomic_run path data m :
  ∃ r m', writeFileAtomic path data m = (r, m') ∧
  (∀ p, p ≠ path → p ≠ path +:+ ".tmp" → mc_Files m' !! p = mc_Files m !! p) ∧
  mc_Files m' !! path = match r with Ok _ => Some data | Err _ => mc_Files m !! path end.
Proof.
  set (tmp := path +:+ ".tmp").
  assert (tmp ≠ path) as Htmp.
  { intros E. apply (f_equal String.length) in E. unfold tmp in E.
    rewrite append_length in E. simpl in E. lia. }
  unfold writeFileAtomic. fold tmp.
  destruct (WriteFile_run tmp data m) as (r1 & m1 & E1 & _ & Hf1).
  unfold io_bind at 1. rewrite E1. destruct r1 as [u|e].
  - unfold Rename, next_fault, io_bind, io_gets, io_error, io_fail.
    destruct (mc_Faults m1) as [|[| |n] fs]; simpl; rewrite ?Hf1, ?lookup_insert_eq;
      do 2 eexists; (split; [reflexivity|]); simpl; rewrite ?Hf1; split; intros;
      by rewrite ?lookup_insert_eq, ?lookup_insert_ne, ?lookup_delete_ne, ?lookup_insert_ne.
  - do 2 eexists. split; [reflexivity|]. destruct Hf1 as [->|[k ->]]; split; intros; try done;
      by rewrite lookup_insert_ne.
Qed.

Lemma ends_differ p a c q b d :
  c ≠ d → p +:+ (a +:+ String c "") ≠ q +:+ (b +:+ String d "").
Proof. intros Hcd. rewrite <-!append_assoc. by intros ?%last_char_inj. Qed.
Lemma key_is_not_cert dir :
  AgentKeyFile dir ≠ AgentCertFile dir ∧ AgentKeyFile dir ≠ AgentCertFile dir +:+ ".tmp".
Proof.
  destruct (Path_Join_last dir "agent.key") as [p Hp]; [simpl; naive_solver|done..|].
  destruct (Path_Join_last dir "agent.crt") as [q Hq]; [simpl; naive_solver|done..|].
  unfold AgentKeyFile, AgentCertFile. rewrite Hp, Hq. split.
  - by apply (ends_differ p "agent.ke" "y" q "agent.cr" "t").
  - rewrite append_assoc. by apply (ends_differ p "agent.ke" "y" q "agent.crt.tm" "p").
Qed.

(** Rotation of the mTLS identity: the pair the agent uses always
    belongs together; it is either the old one or a new one that is on disk as
    a whole. *)
Theorem rotation_keeps_pair d m :
  ∃ d' m', rotateMTLSIfNeeded api d m = (Ok d', m') ∧
  (d' = d ∨ ∃ cert key, d' = with_cert (cert, key) d ∧ key_pair cert key = true ∧
     mc_Files m' !! AgentCertFile (d_StateDir d) = Some cert ∧
     mc_Files m' !! AgentKeyFile (d_StateDir d) = Some key).
Proof.
  unfold rotateMTLSIfNeeded. destruct (io_Now_run m) as (now & m1 & E1 & _).
  unfold io_bind at 1. rewrite E1. unfold mtlsNeedsRotation.
  destruct (ReadFile_run (AgentCertFile (d_StateDir d)) m1) as (r2 & m2 & E2 & _).
  unfold io_bind at 1 2, io_try at 1. rewrite E2. unfold io_ret at 1.
  destruct (negb _); [by eexists _, _; split; [done|left]|].
  unfold io_bind at 1, io_Random. destruct (new_key_csr _) as [[key csr]|];
    [|by eexists _, _; split; [done|left]].
  unfold io_bind at 1, io_try at 1, io_call at 1. simpl.
  destruct (api_RenewMTLS api csr _) as [cert|e]; [|by eexists _, _; split; [done|left]].
  destruct (key_pair cert key) eqn:Hpair; simpl; [|by eexists _, _; split; [done|left]].
  unfold io_bind at 1, io_try at 1.
  match goal with |- context [writeFileAtomic ?p key ?m3] =>
    destruct (writeFileAtomic_run p key m3) as (r4 & m4 & E4 & Ho4 & Hk4) end.
  rewrite E4. destruct r4 as [u|e]; [|by eexists _, _; split; [done|left]].
  destruct (writeFileAtomic_run (AgentCertFile (d_StateDir d)) cert m4) as (r5 & m5 & E5 & Ho5 & Hk5).
  unfold io_bind, io_try. rewrite E5. destruct r5 as [u'|e]; [|by eexists _, _; split; [done|left]].
  eexists _, _. split; [reflexivity|]. right. exists cert, key. split_and!; try done.
  destruct (key_is_not_cert (d_StateDir d)) as [H1 H2]. by rewrite Ho5.
Qed.
End maintenance.

(** ** Concrete runs *)
Definition config_tuple (c : Config) :=
  (AgentURL c, HostID c, HostName c, SSHKeyPath c, SSHDir c, SocketPath c,
   (CacheTTL c, BundleInterval c, RenewInterval c, HeartbeatInterval c, ReloadCommand c,
    SessionAudit c)).
Definition tuple_config '(url, id, name, key, dir, socket, (ttl, bundle, renew, beat, cmd, audit)) :
    Config := {|
  AgentURL := url; HostID := id; HostName := name; SSHKeyPath := key; SSHDir := dir;
  SocketPath := socket; CacheTTL := ttl; BundleInterval := bundle; RenewInterval := renew;
  HeartbeatInterval := beat; ReloadCommand := cmd; SessionAudit := audit |}.
Program Definition toy_yaml : AgentYAML := {|
  config_of s := tuple_config <$> toy_decode s;
  config_text c := toy_encode (config_tuple c)
|}.
Next Obligation. intros c. cbv beta. rewrite toy_decode_encode. by destruct c. Qed.

(** Certificates are their name: a key fits the certificate of the same name. *)
Definition toy_host : HostCrypto := {|
  ssh_certificate s := if HasPrefix s "cert" then Some (0%Z, 90%Z) else None;
  x509_validity s := if HasPrefix s "crt" then Some (0%Z, (90 * Second)%Z) else None;
  new_key_csr n := Some ("key-new", "csr");
  key_pair cert key := bool_decide (TrimPrefix cert "crt" = TrimPrefix key "key");
  cert_pool s := negb (bool_decide (s = ""))
|}.
Definition toy_commands : Commands := {|
  exec _ _ _ := inl ""; look_path _ := None |}.
Definition toy_config : Config := {|
  AgentURL := "https://gssh.example.org"; HostID := "20"; HostName := "web1";
  SSHKeyPath := "/etc/ssh/key.pub"; SSHDir := "/etc/ssh"; SocketPath := "/run/agentd.sock";
  CacheTTL := (5 * Minute)%Z; BundleInterval := Hour; RenewInterval := (5 * Minute)%Z;
  HeartbeatInterval := Minute; ReloadCommand := "reload"; SessionAudit := true |}.
(** A server that answers the first question and every maintenance request. *)
Definition toy_api : agentAPI := {|
  api_Renew key n := Ok ("cert-" +:+ key);
  api_RenewMTLS csr n := Ok "crt-new";
  api_Principals user n := if bool_decide (n = 0%N) then Ok [user +:+ "@web1"] else Err (ErrOther "down");
  api_Bundle n := Ok "ca"; api_SendSessions evs n := Ok (); api_Heartbeat n := Ok () |}.
Definition toy_daemon : Daemon := {|
  d_Cfg := toy_config; d_StateDir := "/var/lib/guided-ssh"; d_Cache := ∅; d_RecentAuth := ∅;
  d_Token := "t"; d_ClientCert := ("crt-old", "key-old") |}.
Definition toy_machine (ticks : list Z) (faults : list fault) : Machine := {|
  mc_Files := list_to_map [("/var/lib/guided-ssh/agent.crt", "crt-old");
    ("/var/lib/guided-ssh/agent.key", "key-old"); ("/var/lib/guided-ssh/server-ca.pem", "ca");
    ("/var/lib/guided-ssh/config.yaml", config_text (AgentYAML := toy_yaml) toy_config);
    ("/var/lib/guided-ssh/socket-token", "t"); ("/etc/ssh/key.pub", "key")];
  mc_Dirs := ∅; mc_Now := 0; mc_Ticks := ticks; mc_Faults := faults; mc_Calls := 0;
  mc_Random := 0; mc_Commands := [] |}.

(** The server answers once; five seconds later the cache does; after three
    minutes without the server the entry is still good, after six no more. *)
Definition toy_lookups : list (result (list string)) :=
  let ask '(rs, (d, m)) (_ : unit) :=
    match principals (H := toy_encodings) toy_api d "root" m with
    | (Ok (r, d), m) => (rs ++ [r], (d, m))
    | (Err _, m) => (rs, (d, m))
    end in
  (foldl ask ([], (toy_daemon, toy_machine [0; 5 * Second; 3 * Minute; 0; 3 * Minute; 0]%Z []))
     [(); (); (); ()]).1.
Example toy_lookups_run : toy_lookups =
  [Ok ["root@web1"]; Ok ["root@web1"]; Ok ["root@web1"];
   Err (ErrWrap "api unreachable and cache expired" (ErrOther "down"))].
Proof. vm_compute. reflexivity. Qed.


Lemma served_principals_come_from_server_witness :
  ∃ at_, Fetched "root" ["u:1"] at_ ∈ [Served "root" ["u:1"] 0; Fetched "root" ["u:1"] 0] ∧
  (Sub (3 * Minute) at_ < Z.max minFresh (5 * Minute))%Z.
Proof.
  pose proof (run_step (5 * Minute) _ _ _ _ (run_start _) (step_ask _ _ "root")) as R.
  eapply run_step in R; [|apply (step_answer _ _ "root" None ["u:1"] 0); by left].
  eapply run_step in R; [|apply (step_ask _ _ "root")].
  eapply run_step in R; [|apply (step_old _ _ "root" {| ce_Principals := ["u:1"]; FetchedAt := 0 |}
    (3 * Minute)); [by left|done]].
  by apply (served_principals_come_from_server _ _ _ "root" ["u:1"] (3 * Minute) [] _ R).
Defined.

Lemma renewal_schedule_witness :
  past_two_thirds (Some (certTime 1000, certTime 1090)) (1060 * Second) = false ∧
  past_two_thirds (Some (certTime 1000, certTime 1090)) (1060 * Second + 1) = true ∧
  past_two_thirds (Some (certTime 1000, certTime (2 ^ 64 - 1))) (1001 * Second) = true.
Proof.
  destruct (renewal_schedule 1000 1090 (1060 * Second) ltac:(lia) ltac:(discriminate)) as [H1 _].
  destruct (renewal_schedule 1000 1090 (1060 * Second + 1) ltac:(lia) ltac:(discriminate)) as [H2 _].
  destruct (renewal_schedule 1000 (2 ^ 64 - 1) (1001 * Second) ltac:(lia) ltac:(discriminate))
    as [_ H3].
  split_and!.
  - apply not_true_iff_false. rewrite H1; [|discriminate]. intros Hlt. by vm_compute in Hlt.
  - apply H2; [discriminate|reflexivity].
  - apply H3; reflexivity.
Defined.

Example toy_renewal_runs :
  let m := (renewIfNeeded (H1 := toy_host) (H2 := toy_commands) toy_api toy_daemon (toy_machine [] [])).2 in
  mc_Files m !! "/etc/ssh/key-cert.pub" = Some ("cert-key" +:+ newline) ∧
  mc_Commands m = [["sh"; "-c"; "reload"]].
Proof. vm_compute. by split. Qed.

(** ** A rotation that stops half way

    When the new certificate cannot be written after the new key was, the
    running agent goes on with the old pair, but it cannot be restarted any
    more: [NewDaemon] refuses the pair on disk. *)
Definition half_rotated : result Daemon * Machine :=
  rotateMTLSIfNeeded (H1 := toy_host) toy_api toy_daemon
    (toy_machine [(61 * Second)%Z] [NoFault; NoFault; NoFault; FailsAtOnce]).

(** A rotation whose certificate cannot be written leaves a key on disk
    that does not fit the certificate; the running agent keeps its old pair, but
    the agent does not start again. *)
Theorem half_rotation_blocks_restart :
  half_rotated.1 = Ok toy_daemon ∧
  mc_Files half_rotated.2 !! AgentKeyFile (d_StateDir toy_daemon) = Some "key-new" ∧
  mc_Files half_rotated.2 !! AgentCertFile (d_StateDir toy_daemon) = Some "crt-old" ∧
  (NewDaemon (H0 := toy_yaml) (H1 := toy_host) "/var/lib/guided-ssh" (toy_machine [] [])).1 = Ok toy_daemon ∧
  (NewDaemon (H0 := toy_yaml) (H1 := toy_host) "/var/lib/guided-ssh" half_rotated.2).1 =
    Err (ErrOther "loading mtls client certificate").
Proof. split_and!; vm_compute; reflexivity. Qed.
