(* ===== verification/AgentSessions.v ===== *)
(** * Session audit on the host (internal/agentd: session.go, pam.go,
    socket.go, principals.go)

    The daemon's unix socket: principals for sshd, and, with session audit, the
    serials of certificates seen at login and the sessions PAM reports. Events
    wait in a spool file of JSON lines until the server takes them. *)
From S2P Require Export Agentd.

Local Open Scope string_scope.
Local Open Scope list_scope.

Definition sessionFlushInterval : Z := (15 * Second)%Z.
Definition authWindow : Z := (2 * Minute)%Z.
Definition maxSpoolBytes : Z := (2 ^ 20)%Z.
Definition maxLine : Z := (2 ^ 20)%Z.       (* the scanner's buffer *)
Definition maxFlushBatch : nat := 500.

(** ** Wire formats (socket.go) *)
Record authRecord := { auth_User : string; auth_Serial : Z; auth_KeyID : string }.

Section wire.
Context `{Encodings}.

Definition wire_json (ev : sessionEventWire) : option json :=
  at_ ← marshal_time (wire_OccurredAt ev);
  Some (JObj [("phase", JStr (wire_Phase ev)); ("service", JStr (wire_Service ev));
    ("local_user", JStr (wire_LocalUser ev)); ("remote_user", JStr (wire_RemoteUser ev));
    ("remote_addr", JStr (wire_RemoteAddr ev)); ("tty", JStr (wire_TTY ev));
    ("serial", JNum (wire_Serial ev)); ("key_id", JStr (wire_KeyID ev));
    ("command", JStr (wire_Command ev)); ("occurred_at", at_)]).
Definition wire_of (v : json) : option sessionEventWire :=
  m ← struct_members v;
  phase ← dec_field dec_string "phase" "" m;
  service ← dec_field dec_string "service" "" m;
  local ← dec_field dec_string "local_user" "" m;
  remote ← dec_field dec_string "remote_user" "" m;
  addr ← dec_field dec_string "remote_addr" "" m;
  tty ← dec_field dec_string "tty" "" m;
  serial ← dec_field dec_int64 "serial" 0%Z m;
  key_id ← dec_field dec_string "key_id" "" m;
  command ← dec_field dec_string "command" "" m;
  at_ ← dec_field dec_time "occurred_at" time_zero m;
  Some {| wire_Phase := phase; wire_Service := service; wire_LocalUser := local;
          wire_RemoteUser := remote; wire_RemoteAddr := addr; wire_TTY := tty;
          wire_Serial := serial; wire_KeyID := key_id; wire_Command := command;
          wire_OccurredAt := at_ |}.

Definition auth_json (rec : authRecord) : json := JObj [
  ("user", JStr (auth_User rec)); ("serial", JNum (auth_Serial rec)); ("key_id", JStr (auth_KeyID rec))].
Definition auth_of (v : json) : option authRecord :=
  m ← struct_members v;
  user ← dec_field dec_string "user" "" m;
  serial ← dec_field dec_int64 "serial" 0%Z m;
  key_id ← dec_field dec_string "key_id" "" m;
  Some {| auth_User := user; auth_Serial := serial; auth_KeyID := key_id |}.
End wire.

(** A request on the socket: the token header, the user parameter, and the JSON
    value of the body with the offset at which it ends. *)
Record SockRequest := { sr_Token : string; sr_User : string; sr_Body : option (Z * json) }.
Inductive sock_body := SockText (s : string) | SockPrincipals (ps : list string) | SockEmpty.
Record SockResponse := { sock_Status : Z; sock_Body : sock_body }.
Definition sock_error (msg : string) (code : Z) : SockResponse :=
  {| sock_Status := code; sock_Body := SockText msg |}.
Definition sock_done : SockResponse := {| sock_Status := 204; sock_Body := SockEmpty |}.
Definition sock_decode (limit : Z) (r : SockRequest) : option json :=
  match sr_Body r with
  | Some (size, v) => if (size <=? limit)%Z then Some v else None
  | None => None
  end.

(** ** Serials seen at login (session.go) *)
Definition recent (now : Z) (a : authRec) : bool := (Sub now (ar_At a) <? authWindow)%Z.

Definition user_auths (d : Daemon) (user : string) : list authRec := default [] (d_RecentAuth d !! user).
Definition recordAuth (d : Daemon) (rec : authRecord) : IO Daemon :=
  let! now := io_Now in
  let fresh := List.filter (recent now) (user_auths d (auth_User rec)) in
  io_ret (with_auth (<[auth_User rec :=
    fresh ++ [{| ar_Serial := auth_Serial rec; ar_KeyID := auth_KeyID rec; ar_At := now |}]]>
      (d_RecentAuth d)) d).

(** The last element that passes, and the list without it. *)
Fixpoint take_last {A} (f : A → bool) (l : list A) : option (A * list A) :=
  match l with
  | [] => None
  | x :: l =>
      match take_last f l with
      | Some (y, l') => Some (y, x :: l')
      | None => if f x then Some (x, l) else None
      end
  end.
Definition takeSerial (d : Daemon) (user : string) : IO (Z * string * Daemon) :=
  let! now := io_Now in
  io_ret match take_last (recent now) (user_auths d user) with
         | Some (a, rest) => (ar_Serial a, ar_KeyID a, with_auth (<[user := rest]> (d_RecentAuth d)) d)
         | None => (0%Z, "", d)
         end.

Definition with_serial (serial : Z) (key_id : string) (ev : sessionEventWire) : sessionEventWire := {|
  wire_Phase := wire_Phase ev; wire_Service := wire_Service ev; wire_LocalUser := wire_LocalUser ev;
  wire_RemoteUser := wire_RemoteUser ev; wire_RemoteAddr := wire_RemoteAddr ev;
  wire_TTY := wire_TTY ev; wire_Serial := serial; wire_KeyID := key_id;
  wire_Command := wire_Command ev; wire_OccurredAt := wire_OccurredAt ev |}.

Definition checkToken (d : Daemon) (r : SockRequest) : bool :=
  negb (bool_decide (d_Token d = "")) && bool_decide (sr_Token r = d_Token d).

Section sessions.
Context `{Encodings} (api : agentAPI).

Definition handleAuth (d : Daemon) (r : SockRequest) : IO (SockResponse * Daemon) :=
  if negb (checkToken d r) then io_ret (sock_error "forbidden" 403, d)
  else
    match sock_decode 4096 r ≫= auth_of with
    | None => io_ret (sock_error "bad request" 400, d)
    | Some rec =>
        if bool_decide (auth_User rec = "") then io_ret (sock_error "bad request" 400, d)
        else let! d := recordAuth d rec in io_ret (sock_done, d)
    end.

(** ** The spool *)
Definition spool_line (ev : sessionEventWire) : option string := json_text <$> wire_json ev.

Definition spoolAppend (d : Daemon) (ev : sessionEventWire) : IO unit :=
  match spool_line ev with
  | None => io_fail (ErrOther "json: time out of range")
  | Some line =>
      let! size := io_try (StatSize (SpoolFile (d_StateDir d))) in
      let full := match size with Ok n => (maxSpoolBytes <? Z.of_nat n)%Z | Err _ => false end in
      if full then io_ret ()
      else AppendFile (SpoolFile (d_StateDir d)) (line +:+ newline)
  end.

Definition is_sshd_open (ev : sessionEventWire) : bool :=
  bool_decide (wire_Service ev = "sshd") && bool_decide (wire_Phase ev = "open") &&
  (wire_Serial ev =? 0)%Z.
Definition handleSessionEvent (d : Daemon) (r : SockRequest) : IO (SockResponse * Daemon) :=
  if negb (checkToken d r) then io_ret (sock_error "forbidden" 403, d)
  else
    match sock_decode (16 * 1024) r ≫= wire_of with
    | None => io_ret (sock_error "bad request" 400, d)
    | Some ev =>
        let! '(ev, d) :=
          (if is_sshd_open ev
           then let! '(serial, key_id, d) := takeSerial d (wire_LocalUser ev) in
                io_ret (with_serial serial key_id ev, d)
           else io_ret (ev, d)) in
        let! spooled := io_try (spoolAppend d ev) in
        io_ret (match spooled with Ok _ => sock_done | Err _ => sock_error "spool error" 503 end, d)
    end.

(** [bufio.Scanner] stops at a line that does not fit its buffer; a line that
    is no event is skipped (the carriage return it strips is white space). *)
Fixpoint scan_lines (lines : list string) : list string :=
  match lines with
  | [] => []
  | l :: ls => if (Z.of_nat (String.length l) <? maxLine)%Z then l :: scan_lines ls else []
  end.
Definition parse_line (line : string) : option sessionEventWire :=
  if bool_decide (TrimSpace line = "") then None else json_parse (TrimSpace line) ≫= wire_of.
Definition parseSpool (raw : string) : list sessionEventWire :=
  omap parse_line (scan_lines (Split raw "010")).
Fixpoint mustMarshalLines (evs : list sessionEventWire) : string :=
  match evs with
  | [] => ""
  | ev :: evs =>
      match spool_line ev with
      | Some line => line +:+ newline +:+ mustMarshalLines evs
      | None => mustMarshalLines evs
      end
  end.

Definition requeueSpool (d : Daemon) (lines : string) : IO unit :=
  if bool_decide (lines = "") then io_ret ()
  else
    let! existing := io_try (ReadFile (SpoolFile (d_StateDir d))) in
    let existing := match existing with Ok s => s | Err _ => "" end in
    let! _ := io_try (WriteFile (SpoolFile (d_StateDir d)) (lines +:+ existing)) in
    io_ret ().

(** [flushSpool] in its two halves: the spool is emptied under the lock, then
    sent without it. Nothing to send is the empty text. *)
Definition take_spool (d : Daemon) : IO string :=
  let! raw := io_try (ReadFile (SpoolFile (d_StateDir d))) in
  match raw with
  | Err _ => io_ret ""
  | Ok raw =>
      if bool_decide (raw = "") then io_ret ""
      else
        let! cleared := io_try (Truncate (SpoolFile (d_StateDir d))) in
        io_ret match cleared with Ok _ => raw | Err _ => "" end
  end.
Definition send_spool (d : Daemon) (raw : string) : IO unit :=
  let events := parseSpool raw in
  if bool_decide (events = []) then io_ret ()
  else
    (if (maxFlushBatch <? length events)%nat
     then requeueSpool d (mustMarshalLines (drop maxFlushBatch events)) else io_ret ()) ;!
    let events := if (maxFlushBatch <? length events)%nat then take maxFlushBatch events else events in
    let! sent := io_try (io_call (api_SendSessions api events)) in
    match sent with
    | Ok _ => io_ret ()
    | Err _ => requeueSpool d (mustMarshalLines events)
    end.
Definition flushSpool (d : Daemon) : IO unit :=
  let! raw := take_spool d in send_spool d raw.

(** ** The socket (daemon.go, socketHandler) *)
Inductive sock_route := GET_principals | GET_healthz | POST_auth | POST_session_event.
Definition socketHandler (d : Daemon) (route : sock_route) (r : SockRequest)
    : IO (SockResponse * Daemon) :=
  match route with
  | GET_principals =>
      if bool_decide (sr_User r = "")
      then io_ret (sock_error "missing query parameter user" 400, d)
      else
        let! '(answer, d) := principals api d (sr_User r) in
        io_ret (match answer with
                | Ok ps => {| sock_Status := 200; sock_Body := SockPrincipals ps |}
                | Err _ => sock_error "principals unavailable" 503
                end, d)
  | GET_healthz => io_ret ({| sock_Status := 200; sock_Body := SockEmpty |}, d)
  | POST_auth =>
      if sessionAuditEnabled d then handleAuth d r else io_ret (sock_error "404 page not found" 404, d)
  | POST_session_event =>
      if sessionAuditEnabled d then handleSessionEvent d r
      else io_ret (sock_error "404 page not found" 404, d)
  end.
End sessions.

(** ** The helpers sshd and PAM run (principals.go, pam.go)

    They reach the daemon through [post] and [get]: the socket with a JSON body
    (an error is any answer that is not 2xx), and the principals request. *)
Section helpers.
Context `{Encodings} `{AgentYAML}.
Variables (post : string → string → json → IO unit)
  (get : string → IO (Z * option (list string))).

(** What goes to sshd: one principal per line. *)
Definition recordAuthSerial (stateDir user : string) (serial : Z) (keyid : string) : IO unit :=
  if (serial <=? 0)%Z then io_ret ()
  else
    let! token := readSocketToken stateDir in
    if bool_decide (token = "") then io_ret ()
    else
      let! _ := io_try (post token "/auth"
        (auth_json {| auth_User := user; auth_Serial := serial; auth_KeyID := keyid |})) in
      io_ret ().
Definition PrintPrincipals (stateDir user : string) (serial : Z) (keyid : string) : IO (list string) :=
  if bool_decide (user = "") then io_fail (ErrOther "usage: gssh-agentd principals -user <name>")
  else
    let! cfg := LoadConfig stateDir in
    let! '(code, ps) := io_wrap "gssh-agentd unreachable (is the service running?)" (get user) in
    if negb (code =? 200)%Z then io_fail (ErrOther "principals denied")
    else
      match ps with
      | None => io_fail (ErrOther "json")
      | Some ps => recordAuthSerial stateDir user serial keyid ;! io_ret ps
      end.

Definition pamPhase (pamType : string) : string :=
  if bool_decide (pamType = "open_session") then "open"
  else if bool_decide (pamType = "close_session") then "close" else "".
(** The event, given the time it happened. *)
Definition pamEvent (env : string → string) : option (Z → sessionEventWire) :=
  let phase := pamPhase (env "PAM_TYPE") in
  let service := env "PAM_SERVICE" in
  let user := env "PAM_USER" in
  if bool_decide (phase = "") || bool_decide (service = "") || bool_decide (user = "") then None
  else Some (λ now, {|
    wire_Phase := phase; wire_Service := service; wire_LocalUser := user;
    wire_RemoteUser := nonempty_or (env "PAM_RUSER") (env "SUDO_USER");
    wire_RemoteAddr := env "PAM_RHOST"; wire_TTY := env "PAM_TTY"; wire_Serial := 0;
    wire_KeyID := ""; wire_Command := env "SUDO_COMMAND"; wire_OccurredAt := now |}).
Definition RunPAMSession (stateDir : string) (env : string → string) : IO unit :=
  let! token := readSocketToken stateDir in
  if bool_decide (token = "") then io_ret ()
  else
    match pamEvent env with
    | None => io_ret ()
    | Some event =>
        let! now := io_Now in
        let! cfg := LoadConfig stateDir in
        match wire_json (event now) with
        | None => io_fail (ErrOther "json")
        | Some body => post token "/session-event" body
        end
    end.
End helpers.

(** ** Lemmas *)
Section lemmas.
Context `{Encodings}.

Lemma wire_of_json ev v : wire_json ev = Some v → in_int64 (wire_Serial ev) → wire_of v = Some ev.
Proof.
  unfold wire_json, marshal_time. case_bool_decide as Hr; [|done]. intros [= <-] Hs.
  unfold wire_of. cbn [struct_members mbind option_bind]. struct_fields.
  unfold dec_int64, dec_time. rewrite bool_decide_eq_true_2 by done. cbn [mbind option_bind].
  rewrite parse_rfc3339_text by done. by destruct ev.
Qed.

(** An event that survives the spool: writable, and not too long a line. *)
Definition spoolable (ev : sessionEventWire) : Prop :=
  in_int64 (wire_Serial ev) ∧
  ∃ line, spool_line ev = Some line ∧ (Z.of_nat (String.length line) < maxLine)%Z.

Lemma spool_line_text ev line : spool_line ev = Some line → in_int64 (wire_Serial ev) →
  ¬ in_string "010" line ∧ line ≠ "" ∧ parse_line line = Some ev.
Proof.
  unfold spool_line. intros (v & Hv & ->)%fmap_Some Hs.
  destruct (json_text_line v) as (Hnl & Htrim & Hne). split_and!; [done..|].
  unfold parse_line. rewrite Htrim, bool_decide_eq_false_2 by done.
  rewrite json_parse_text. by apply wire_of_json.
Qed.

Lemma parseSpool_cons ev rest line :
  spool_line ev = Some line → in_int64 (wire_Serial ev) →
  (Z.of_nat (String.length line) < maxLine)%Z →
  parseSpool (line +:+ String "010" rest) = ev :: parseSpool rest.
Proof.
  intros Hl Hs Hlen. destruct (spool_line_text ev line Hl Hs) as (Hnl & _ & Hp).
  unfold parseSpool. rewrite Split_app_first by done. simpl.
  rewrite (proj2 (Z.ltb_lt _ _) Hlen). simpl. by rewrite Hp.
Qed.
Lemma parseSpool_lines evs rest :
  Forall spoolable evs → parseSpool (mustMarshalLines evs +:+ rest) = evs ++ parseSpool rest.
Proof.
  induction 1 as [|ev evs (Hs & line & Hl & Hlen) _ IH]; [done|]. simpl. rewrite Hl.
  rewrite append_assoc. simpl. rewrite (parseSpool_cons ev) by done. by rewrite IH.
Qed.
Lemma mustMarshalLines_app l1 l2 :
  mustMarshalLines (l1 ++ l2) = mustMarshalLines l1 +:+ mustMarshalLines l2.
Proof.
  induction l1 as [|ev l1 IH]; [done|]. simpl. destruct (spool_line ev); [|done].
  by rewrite IH, !append_assoc.
Qed.
Lemma mustMarshalLines_empty evs : Forall spoolable evs → mustMarshalLines evs = "" → evs = [].
Proof.
  destruct 1 as [|ev evs (Hs & line & Hl & _) _]; [done|]. simpl. rewrite Hl.
  intros [-> _]%append_empty. by destruct (spool_line_text _ _ Hl Hs) as (_ & ? & _).
Qed.

(** The spool file holds these events, one per line. *)
Definition spool_holds (d : Daemon) (m : Machine) (evs : list sessionEventWire) : Prop :=
  mc_Faults m = [] ∧ Forall spoolable evs ∧
  default "" (mc_Files m !! SpoolFile (d_StateDir d)) = mustMarshalLines evs.

Lemma spool_holds_clock d m evs m' :
  spool_holds d m evs → mc_Faults m' = mc_Faults m → mc_Files m' = mc_Files m →
  spool_holds d m' evs.
Proof. intros (Hnf & Hevs & Hfile) Hf Hm. split_and!; [congruence|done|by rewrite Hm]. Qed.

Lemma requeueSpool_run d m evs new :
  spool_holds d m new → Forall spoolable evs →
  ∃ m', requeueSpool d (mustMarshalLines evs) m = (Ok (), m') ∧ spool_holds d m' (evs ++ new) ∧
        mc_Calls m' = mc_Calls m.
Proof.
  intros (Hnf & Hnew & Hfile) Hevs. unfold requeueSpool. case_bool_decide as He.
  { apply mustMarshalLines_empty in He as ->; [|done]. by exists m. }
  unfold io_bind at 1, io_try at 1. rewrite ReadFile_ok by done.
  unfold io_bind, io_try. rewrite WriteFile_ok by done. eexists. split; [reflexivity|].
  split; [|done]. split_and!; [done|by apply Forall_app|]. simpl.
  rewrite lookup_insert_eq. simpl. rewrite mustMarshalLines_app. f_equal.
  rewrite <-Hfile. by destruct (mc_Files m !! _).
Qed.

Lemma take_spool_run d m evs :
  spool_holds d m evs →
  ∃ m1, take_spool d m = (Ok (mustMarshalLines evs), m1) ∧ spool_holds d m1 [].
Proof.
  intros (Hnf & Hevs & Hfile). unfold take_spool, io_bind at 1, io_try at 1.
  rewrite ReadFile_ok by done.
  destruct (mc_Files m !! SpoolFile (d_StateDir d)) as [raw|] eqn:Hraw; simpl in Hfile; subst.
  - case_bool_decide as He.
    + exists m. rewrite He. split; [done|]. split_and!; [done..|]. by rewrite Hraw.
    + unfold io_bind, io_try. rewrite Truncate_ok by eauto. eexists. split; [reflexivity|].
      split_and!; [done..|]. simpl. by rewrite lookup_insert_eq.
  - exists m. rewrite <-Hfile. split; [done|]. split_and!; [done..|]. by rewrite Hraw.
Qed.

Lemma send_spool_run api d m evs new :
  Forall spoolable evs → spool_holds d m new →
  ∃ m', send_spool api d (mustMarshalLines evs) m = (Ok (), m') ∧
  spool_holds d m' (match api_SendSessions api (take maxFlushBatch evs) (mc_Calls m) with
                    | Ok _ => drop maxFlushBatch evs ++ new
                    | Err _ => evs ++ new
                    end).
Proof.
  intros Hevs Hm. unfold send_spool.
  assert (parseSpool (mustMarshalLines evs) = evs) as ->.
  { rewrite <-(append_nil_r (mustMarshalLines evs)), parseSpool_lines by done.
    apply app_nil_r. }
  case_bool_decide as He.
  { subst. exists m. split; [done|]. by destruct (api_SendSessions _ _ _). }
  assert (∃ m1, (if (maxFlushBatch <? length evs)%nat
    then requeueSpool d (mustMarshalLines (drop maxFlushBatch evs)) else io_ret ()) m = (Ok (), m1) ∧
    spool_holds d m1 (drop maxFlushBatch evs ++ new) ∧ mc_Calls m1 = mc_Calls m) as (m1 & E1 & Hm1 & Hc1).
  { destruct (Nat.ltb_spec maxFlushBatch (length evs)).
    - apply requeueSpool_run; [done|by apply Forall_drop].
    - exists m. rewrite drop_ge by done. done. }
  assert ((if (maxFlushBatch <? length evs)%nat then take maxFlushBatch evs else evs) =
    take maxFlushBatch evs) as ->.
  { destruct (Nat.ltb_spec maxFlushBatch (length evs)); [done|by rewrite take_ge]. }
  unfold io_bind at 1. rewrite E1. unfold io_bind, io_try, io_call. rewrite Hc1.
  set (m2 := with_counts _ _ _ m1).
  assert (spool_holds d m2 (drop maxFlushBatch evs ++ new)) as Hm2 by by eapply spool_holds_clock.
  destruct (api_SendSessions _ _ _) as [u|e]; [by exists m2|].
  destruct (requeueSpool_run d m2 (take maxFlushBatch evs) _ Hm2) as (m3 & E3 & Hm3 & _);
    [by apply Forall_take|].
  exists m3. split; [done|]. by rewrite app_assoc, take_drop in Hm3.
Qed.
End lemmas.

(** No event is lost on the way: a flush takes the spooled events in order
    and sends the first 500; what is not sent, or not taken by the server, is in
    the spool again afterwards, in order and before the events that were
    spooled in the meantime. *)
Theorem flush_loses_nothing `{Encodings} api d m evs :
  spool_holds d m evs →
  ∃ raw m1, take_spool d m = (Ok raw, m1) ∧ spool_holds d m1 [] ∧
  ∀ m2 new, spool_holds d m2 new →
  ∃ m3, send_spool api d raw m2 = (Ok (), m3) ∧
  spool_holds d m3 (match api_SendSessions api (take maxFlushBatch evs) (mc_Calls m2) with
                    | Ok _ => drop maxFlushBatch evs ++ new
                    | Err _ => evs ++ new
                    end).
Proof.
  intros Hm. destruct (take_spool_run d m evs Hm) as (m1 & E1 & Hm1).
  exists (mustMarshalLines evs), m1. split_and!; [done..|]. intros m2 new Hm2.
  by apply send_spool_run; [apply Hm|].
Qed.

(** ** Correlation *)
Lemma take_last_app {A} (f : A → bool) l x : f x = true → take_last f (l ++ [x]) = Some (x, l).
Proof. intros Hx. induction l as [|y l IH]; simpl; [by rewrite Hx|by rewrite IH]. Qed.

(** The last report still in the window is taken, and only that one. *)
Lemma take_last_spec {A} (f : A → bool) l :
  match take_last f l with
  | Some (x, rest) => ∃ pre post, l = pre ++ x :: post ∧ rest = pre ++ post ∧ f x = true ∧
                      Forall (λ y, f y = false) post
  | None => Forall (λ y, f y = false) l
  end.
Proof.
  induction l as [|y l IH]; simpl; [constructor|].
  destruct (take_last f l) as [[x rest]|].
  - destruct IH as (pre & post & -> & -> & Hx & Hpost). by exists (y :: pre), post.
  - destruct (f y) eqn:Hy; [by exists [], l|by constructor].
Qed.

Section correlation.
Context `{Encodings}.

Lemma spoolAppend_run d ev evs m :
  spool_holds d m evs → spoolable ev →
  (Z.of_nat (String.length (mustMarshalLines evs)) ≤ maxSpoolBytes)%Z →
  ∃ m', spoolAppend d ev m = (Ok (), m') ∧ spool_holds d m' (evs ++ [ev]).
Proof.
  intros (Hnf & Hevs & Hfile) Hev Hsize. pose proof Hev as (_ & line & Hline & _).
  unfold spoolAppend. rewrite Hline.
  assert (∃ r, StatSize (SpoolFile (d_StateDir d)) m = (r, m) ∧
    match r with Ok n => (maxSpoolBytes <? Z.of_nat n)%Z | Err _ => false end = false) as (r & E & Hr).
  { unfold StatSize, io_bind. rewrite ReadFile_ok by done.
    destruct (mc_Files m !! _) as [raw|]; simpl in Hfile; (eexists; split; [reflexivity|]); [|done].
    apply Z.ltb_ge. by rewrite Hfile. }
  unfold io_bind, io_try. rewrite E, Hr, AppendFile_ok by done. eexists. split; [reflexivity|].
  split_and!; [done|apply Forall_app; by split; [|constructor]|]. simpl.
  rewrite lookup_insert_eq, Hfile, mustMarshalLines_app. simpl. rewrite Hline.
  unfold newline. by rewrite <-(append_nil_r (String "010" "")).
Qed.
End correlation.

(** A login and the session it opens: the serial sshd reported for a local
    user is put into the next session event of that user within two minutes,
    the event is spooled, and the report is used up. *)
Theorem session_names_login `{Encodings} d rec ev r1 r2 evs m t1 m1 m2 t2 m3 :
  checkToken d r1 = true → sock_decode 4096 r1 ≫= auth_of = Some rec → auth_User rec ≠ "" →
  checkToken d r2 = true → sock_decode (16 * 1024) r2 ≫= wire_of = Some ev →
  is_sshd_open ev = true → wire_LocalUser ev = auth_User rec →
  io_Now m = (Ok t1, m1) → io_Now m2 = (Ok t2, m3) → (Sub t2 t1 < authWindow)%Z →
  spool_holds d m2 evs → (Z.of_nat (String.length (mustMarshalLines evs)) ≤ maxSpoolBytes)%Z →
  spoolable (with_serial (auth_Serial rec) (auth_KeyID rec) ev) →
  ∃ d1 d2 m4, handleAuth d r1 m = (Ok (sock_done, d1), m1) ∧
  handleSessionEvent d1 r2 m2 = (Ok (sock_done, d2), m4) ∧
  spool_holds d m4 (evs ++ [with_serial (auth_Serial rec) (auth_KeyID rec) ev]) ∧
  user_auths d2 (auth_User rec) = List.filter (recent t1) (user_auths d (auth_User rec)).
Proof.
  intros Ht1 Hb1 Hu Ht2 Hb2 Hopen Hlocal Hnow1 Hnow2 Hwin Hspool Hsize Hev.
  set (a := {| ar_Serial := auth_Serial rec; ar_KeyID := auth_KeyID rec; ar_At := t1 |}).
  set (fresh := List.filter (recent t1) (user_auths d (auth_User rec))).
  set (d1 := with_auth (<[auth_User rec := fresh ++ [a]]> (d_RecentAuth d)) d).
  set (d2 := with_auth (<[auth_User rec := fresh]> (d_RecentAuth d1)) d1).
  assert (spool_holds d2 m3 evs) as Hspool3.
  { apply (spool_holds_clock d m2); [done|..]; revert Hnow2; unfold io_Now;
      by destruct (mc_Ticks m2); intros [= <- <-]. }
  destruct (spoolAppend_run d2 _ evs m3 Hspool3 Hev Hsize) as (m4 & Happ & Hm4).
  exists d1, d2, m4. split_and!.
  - unfold handleAuth. rewrite Ht1, Hb1. simpl. rewrite bool_decide_eq_false_2 by done.
    unfold recordAuth, io_bind. by rewrite Hnow1.
  - unfold handleSessionEvent. change (checkToken d1 r2) with (checkToken d r2).
    rewrite Ht2, Hb2. simpl. rewrite Hopen. unfold takeSerial, io_bind. rewrite Hnow2.
    assert (take_last (recent t2) (user_auths d1 (wire_LocalUser ev)) = Some (a, fresh)) as Htake.
    { unfold user_auths, d1. simpl. rewrite Hlocal, lookup_insert_eq. simpl. apply take_last_app.
      unfold recent. by apply Z.ltb_lt. }
    rewrite Htake. simpl. rewrite Hlocal. unfold io_try.
    change (with_auth _ d1) with d2. by rewrite Happ.
  - done.
  - unfold user_auths, d2. simpl. by rewrite lookup_insert_eq.
Qed.

(** ** Concrete runs *)
Definition toy_event : sessionEventWire := {|
  wire_Phase := "open"; wire_Service := "sshd"; wire_LocalUser := "root"; wire_RemoteUser := "";
  wire_RemoteAddr := ""; wire_TTY := ""; wire_Serial := 0; wire_KeyID := ""; wire_Command := "";
  wire_OccurredAt := 5 |}.
Definition toy_report : authRecord := {| auth_User := "root"; auth_Serial := 7; auth_KeyID := "k" |}.
Definition toy_sock (body : option json) : SockRequest :=
  {| sr_Token := "t"; sr_User := ""; sr_Body := pair 100%Z <$> body |}.
Definition toy_login_event : sessionEventWire := with_serial 7 "k" toy_event.
Definition toy_spool : Machine := {|
  mc_Files := {[ SpoolFile (d_StateDir toy_daemon) := mustMarshalLines (H := toy_encodings) [toy_event] ]};
  mc_Dirs := ∅; mc_Now := 30 * Second; mc_Ticks := []; mc_Faults := []; mc_Calls := 0;
  mc_Random := 0; mc_Commands := [] |}.

Lemma toy_spoolable serial :
  serial = 0%Z ∨ serial = 7%Z → spoolable (H := toy_encodings) (with_serial serial "k" toy_event).
Proof.
  intros [->| ->]; (split; [by vm_compute|]); eexists;
    (split; [unfold spool_line; vm_compute; reflexivity|by vm_compute]).
Qed.
Lemma toy_event_spoolable : spoolable (H := toy_encodings) toy_event.
Proof.
  split; [by vm_compute|]. eexists. split; [unfold spool_line; vm_compute; reflexivity|by vm_compute].
Qed.
Lemma toy_spool_holds d : d_StateDir d = d_StateDir toy_daemon →
  spool_holds (H := toy_encodings) d toy_spool [toy_event].
Proof.
  intros Hd. split_and!; [done|constructor; [apply toy_event_spoolable|constructor]|].
  rewrite Hd. vm_compute. reflexivity.
Qed.

Lemma flush_loses_nothing_witness :
  ∃ raw m1, take_spool toy_daemon toy_spool = (Ok raw, m1) ∧
  spool_holds (H := toy_encodings) toy_daemon m1 [].
Proof.
  destruct (flush_loses_nothing (H := toy_encodings) toy_api toy_daemon toy_spool [toy_event])
    as (raw & m1 & Ht & Hm & _); [by apply toy_spool_holds|by exists raw, m1].
Defined.

Lemma session_names_login_witness :
  ∃ d1 d2 m4, handleAuth toy_daemon (toy_sock (Some (auth_json toy_report)))
    (toy_machine [] []) = (Ok (sock_done, d1), (toy_machine [] [])) ∧
  handleSessionEvent (H := toy_encodings) d1
    (toy_sock (wire_json (H := toy_encodings) toy_event)) toy_spool = (Ok (sock_done, d2), m4) ∧
  spool_holds (H := toy_encodings) toy_daemon m4 ([toy_event] ++ [toy_login_event]) ∧
  user_auths d2 "root" = [].
Proof.
  eapply (session_names_login (H := toy_encodings) toy_daemon toy_report toy_event _ _ [toy_event]
    (toy_machine [] []) 0 _ toy_spool (30 * Second)); try reflexivity; try done.
  - by apply toy_spool_holds.
  - apply toy_spoolable. by right.
Defined.
