(* ===== verification/AgentServer.v ===== *)
(** * The host agent and the server together (internal/agentd/client.go,
    internal/api/agent.go)

    The agent's HTTP client, and what the two sides make of each other's
    messages: the principals the agent hands to sshd are the ones the server's
    database authorises, and a batch of events arrives as it was sent. *)
From S2P Require Export AgentSessions GoUrl AgentAPI.

Local Open Scope string_scope.
Local Open Scope list_scope.

(** ** The client (client.go): exchanges over mTLS *)
Definition unreachable : error := ErrOther "reaching agent api".
Definition api_status (a : HTTPAnswer) : error := ErrOther "agent api: status".
Definition is_2xx (code : Z) : bool := (Z.quot code 100 =? 2)%Z.
(** [io.LimitReader(resp.Body, 1<<20)]. *)
Definition limit_text (limit : Z) (s : string) : string :=
  if (Z.of_nat (String.length s) <=? limit)%Z then s else take_str (Z.to_nat limit) s.

Section client.
Context `{Encodings} (agentURL : string) (http : transport).
Definition baseURL : string := TrimRight agentURL "/".

Definition doJSON {A} (answer : option HTTPAnswer) (dec : json → option A) : result A :=
  match answer with
  | None => Err unreachable
  | Some a =>
      if negb (ha_Status a =? 200)%Z then Err (api_status a)
      else match ha_JSON a ≫= dec with Some v => Ok v | None => Err (ErrOther "json") end
  end.
Definition dec_certificate (v : json) : option string :=
  m ← struct_members v; dec_field dec_string "certificate" "" m.
Definition dec_principals (v : json) : option (list string) :=
  m ← struct_members v; dec_field dec_strings "principals" [] m.

Definition certificate_of (name : string) (r : result string) : result string :=
  match r with
  | Ok "" => Err (ErrOther (name +:+ " response without certificate"))
  | r => r
  end.
Definition client_Renew (publicKey : string) (n : N) : result string :=
  certificate_of "renew" (doJSON (http n "POST" (baseURL +:+ "/v1/agent/renew")
    (Some (JObj [("public_key", JStr publicKey)]))) dec_certificate).
Definition client_RenewMTLS (csrPEM : string) (n : N) : result string :=
  certificate_of "renew-mtls" (doJSON (http n "POST" (baseURL +:+ "/v1/agent/renew-mtls")
    (Some (JObj [("csr", JStr csrPEM)]))) dec_certificate).
Definition principals_url (user : string) : string :=
  baseURL +:+ "/v1/agent/principals?user=" +:+ QueryEscape user.
Definition client_Principals (user : string) (n : N) : result (list string) :=
  doJSON (http n "GET" (principals_url user) None) dec_principals.
Definition client_Bundle (n : N) : result string :=
  match http n "GET" (baseURL +:+ "/v1/agent/bundle/user") None with
  | None => Err unreachable
  | Some a => if negb (ha_Status a =? 200)%Z then Err (api_status a)
              else Ok (limit_text (2 ^ 20) (ha_Text a))
  end.
Definition client_Heartbeat (n : N) : result unit :=
  match http n "GET" (baseURL +:+ "/v1/agent/heartbeat") None with
  | None => Err unreachable
  | Some a => if is_2xx (ha_Status a) then Ok () else Err (api_status a)
  end.
Definition sessions_body (events : list sessionEventWire) : option json :=
  l ← mapM wire_json events; Some (JObj [("events", JArr l)]).
Definition client_SendSessions (events : list sessionEventWire) (n : N) : result unit :=
  match sessions_body events with
  | None => Err (ErrOther "json")
  | Some body =>
      match http n "POST" (baseURL +:+ "/v1/agent/sessions") (Some body) with
      | None => Err unreachable
      | Some a => if is_2xx (ha_Status a) then Ok () else Err (api_status a)
      end
  end.
Definition apiClient : agentAPI := {|
  api_Renew := client_Renew; api_RenewMTLS := client_RenewMTLS;
  api_Principals := client_Principals; api_Bundle := client_Bundle;
  api_SendSessions := client_SendSessions; api_Heartbeat := client_Heartbeat |}.
End client.

(** ** The server's side of an exchange *)

(** [url.ParseQuery] of a query string: the first value of a name counts. *)
Definition parse_query (q : string) : gmap string string :=
  foldr (λ part m,
    let '(k, v) := cut_or part "=" in
    match QueryUnescape k, QueryUnescape v with
    | Some k, Some v => <[k := v]> m
    | _, _ => m
    end) ∅ (Split q "&").
(** A request of the agent whose client certificate carries the name [peer]. *)
Definition agent_request (peer addr url : string) : Request := {|
  req_Authorization := ""; req_Body := None; req_EmptyBody := true; req_RemoteAddr := addr;
  req_ForwardedFor := ""; req_PeerCN := Some peer;
  req_Query := parse_query (cut_or url "?").2; req_PathID := ""; req_RequestedWith := "";
  req_Cookies := ∅; req_Host := ""; req_ForwardedProto := ""; req_TLS := true |}.
(** The answers of [agentPrincipals] on the wire: JSON for the list, text else. *)
Definition principals_answer (r : Response) : HTTPAnswer := {|
  ha_Status := status r; ha_Text := "";
  ha_JSON := match content r with
             | Principals_ ps => Some (JObj [("principals", JStrs ps)])
             | _ => None
             end |}.
(** An event as the server decodes it. *)
Definition server_event (ev : sessionEventWire) : sessionEvent := {|
  ev_Phase := wire_Phase ev; ev_Service := wire_Service ev; ev_LocalUser := wire_LocalUser ev;
  ev_RemoteUser := wire_RemoteUser ev; ev_RemoteAddr := wire_RemoteAddr ev; ev_TTY := wire_TTY ev;
  ev_Serial := wire_Serial ev; ev_KeyID := wire_KeyID ev; ev_Command := wire_Command ev;
  ev_OccurredAt := wire_OccurredAt ev |}.

(** ** Composition *)
Lemma cut_query_url base user :
  ¬ in_string "?" base →
  cut_or (base +:+ "/v1/agent/principals?user=" +:+ QueryEscape user) "?" =
  (base +:+ "/v1/agent/principals", "user=" +:+ QueryEscape user).
Proof.
  intros Hb. unfold cut_or.
  change ("/v1/agent/principals?user=" +:+ QueryEscape user) with
    ("/v1/agent/principals" +:+ String "?" ("user=" +:+ QueryEscape user)).
  rewrite <-append_assoc. rewrite Cut_first; [done|].
  rewrite in_string_app. simpl. naive_solver.
Qed.

Lemma parse_query_user user :
  parse_query ("user=" +:+ QueryEscape user) = {[ "user" := user ]}.
Proof.
  unfold parse_query. rewrite Split_one.
  2: { rewrite in_string_app. intros [Hc|Hc]; [simpl in Hc; naive_solver|].
       apply QueryEscape_chars in Hc as [Hc|Hc]; [discriminate Hc|simpl in Hc; naive_solver]. }
  cbn [foldr]. unfold cut_or.
  change ("user=" +:+ QueryEscape user) with ("user" +:+ String "=" (QueryEscape user)).
  rewrite Cut_first by (simpl; naive_solver). simpl. by rewrite QueryUnescape_QueryEscape.
Qed.

Lemma dec_principals_json l : dec_principals (JObj [("principals", JStrs l)]) = Some l.
Proof.
  unfold dec_principals, dec_field. cbn -[dec_strings JStrs EqualFold]. field_names.
  cbn -[dec_strings JStrs]. apply dec_strings_JStrs.
Qed.


Lemma decode_event_json `{Encodings} ev v :
  wire_json ev = Some v → in_int64 (wire_Serial ev) →
  decode_event parse_rfc3339 v = Some (server_event ev).
Proof.
  unfold wire_json, marshal_time. case_bool_decide as Hr; [|done]. intros [= <-] Hs.
  unfold decode_event. cbn [struct_members mbind option_bind]. struct_fields.
  unfold dec_int64, AgentAPI.dec_time. rewrite bool_decide_eq_true_2 by done.
  cbn [mbind option_bind]. by rewrite parse_rfc3339_text.
Qed.

(** The agent's batch arrives as it was sent: the server decodes the body
    of [SendSessions] into the same events, in order. *)
Theorem server_reads_agent_events `{Encodings} evs body :
  sessions_body evs = Some body → Forall (λ ev, in_int64 (wire_Serial ev)) evs →
  decode_sessions parse_rfc3339 body = Some (server_event <$> evs).
Proof.
  unfold sessions_body. intros (l & Hl & [= <-])%bind_Some Hserial.
  unfold decode_sessions, dec_field. cbn -[EqualFold dec_events]. field_names.
  cbn -[decode_event]. apply mapM_Some in Hl. revert Hserial.
  induction Hl as [|ev v evs l Hev _ IH]; intros Hserial; [done|].
  inversion_clear Hserial as [|? ? Hs Hserial']. specialize (IH Hserial').
  simpl. rewrite (decode_event_json ev v Hev Hs). simpl. by rewrite IH.
Qed.

(** ** Concrete runs *)
Definition toy_peer : string := uuid_String (X509 := toy_x509) 20.
Definition toy_enrolled : @World toy_crypto := (toy_enroll toy_server).2.
Definition toy_transport : transport := λ n method url body,
  match agentPrincipals (H1 := toy_x509)
          (agent_request toy_peer "192.0.2.7:5000" url) toy_enrolled with
  | (Ok resp, _) => Some (principals_answer resp)
  | (Err _, _) => None
  end.
Definition toy_client : agentAPI := apiClient (H := toy_encodings) "https://gssh/" toy_transport.
Example toy_client_runs :
  api_Principals toy_client "root" 0 = Ok [] ∧
  api_Principals toy_client "" 0 = Err (ErrOther "agent api: status").
Proof. vm_compute. by split. Qed.


Lemma server_reads_agent_events_witness : ∃ body,
  sessions_body (H := toy_encodings) [toy_event; toy_login_event] = Some body ∧
  decode_sessions (parse_rfc3339 (Encodings := toy_encodings)) body =
    Some (server_event <$> [toy_event; toy_login_event]).
Proof.
  eexists. split; [reflexivity|]. apply (server_reads_agent_events (H := toy_encodings)).
  - reflexivity.
  - repeat constructor; by vm_compute.
Defined.
