(* ===== verification/SessionTrail.v ===== *)
(** * Session events, from the host to the audit log (internal/agentd: session.go,
    client.go; internal/api/agent.go; internal/store/sessions.go)

    The spool of the agent composed with the server's ingestion: what a host reports is
    stored for that host, in order, event by event, or it stays in the spool. *)
From S2P Require Export AgentServer.

Local Open Scope string_scope.
Local Open Scope list_scope.

Section trail.
Context `{Crypto} `{UUIDs}.

(** ** One event *)

(** Exactly one audit event more, of the agent's own time. *)
Definition audited_once (e : SessionEvent) (kind : string) (w w' : World) : Prop :=
  ∃ a, audit_events (w_db w') = audit_events (w_db w) ++ [a] ∧ audit_EventType a = kind ∧
    audit_Actor a = session_actor e ∧
    (IsZero (se_OccurredAt e) = false → audit_OccurredAt a = se_OccurredAt e).
(** The session a start is stored as; its user is the one of the certificate. *)
Definition session_started (e : SessionEvent) (w : World) (s : HostSession) : Prop :=
  session_HostID s = se_HostID e ∧ session_LocalUser s = se_LocalUser e ∧
  session_RemoteUser s = se_RemoteUser e ∧ session_RemoteAddr s = se_RemoteAddr e ∧
  session_TTY s = se_TTY e ∧ session_CertSerial s = se_CertSerial e ∧ session_KeyID s = se_KeyID e ∧
  session_EndedAt s = None ∧ session_StartedAt s = default (w_now w) (nullableTime (se_OccurredAt e)) ∧
  ∀ u, session_UserID s = Some u → ∃ c, c ∈ certificates (w_db w) ∧
    se_CertSerial e = Some (crt_Serial c) ∧ crt_UserID c = Some u.
(** What an event does that is stored. *)
Definition event_stored (host : Host) (ev : sessionEvent) (w w' : World) : Prop :=
  let e := session_event host ev in
  match classify (ev_Service ev) (ev_Phase ev) with
  | Opened => audited_once e EventSessionOpened w w' ∧
      ∃ s, session_started e w s ∧ host_sessions (w_db w') = host_sessions (w_db w) ++ [s]
  | Closed => audited_once e EventSessionClosed w w' ∧
      (host_sessions (w_db w') = host_sessions (w_db w) ∧ (∀ s, s ∈ host_sessions (w_db w) → ¬ open_match e s) ∨
       ∃ t, t ∈ host_sessions (w_db w) ∧ open_match e t ∧
         host_sessions (w_db w') =
           List.map (λ s, if bool_decide (session_ID s = session_ID t)
                          then session_ended (nullableTime (se_OccurredAt e)) (w_now w) s else s)
             (host_sessions (w_db w)))
  | Sudo => audited_once e EventSudo w w' ∧ host_sessions (w_db w') = host_sessions (w_db w)
  | Discarded => w_db w' = w_db w
  end.

Lemma stored_at id now at_ kind actor payload :
  IsZero at_ = false → audit_OccurredAt (stored_audit id now (audit_at at_ kind actor payload)) = at_.
Proof. intros Hz. unfold stored_audit, audit_at. cbn. by rewrite Hz. Qed.

(** The user a session belongs to: its certificate's, if the register knows it. *)
Lemma session_user_run (serial : option Z) w u w' :
  (match serial with
   | None => ret None
   | Some serial =>
       let* r := try (queryOne (sql_select (λ db, List.filter (λ c, (crt_Serial c =? serial)%Z) (certificates db)))) in
       match r with
       | Ok cert => ret (crt_UserID cert)
       | Err err => if errors_Is err ErrNotFound then ret None else fail err
       end
   end) w = (Ok u, w') →
  w_db w' = w_db w ∧ w_now w' = w_now w ∧
  ∀ x, u = Some x → ∃ c, c ∈ certificates (w_db w) ∧ serial = Some (crt_Serial c) ∧ crt_UserID c = Some x.
Proof.
  destruct serial as [serial|]; intros Hrun; [|run_step; subst; by split_and!].
  rewrite bind_try in Hrun. destruct (queryOne _ w) as [[cert|err] w1] eqn:Eq.
  - unfold ret in Hrun. injection Hrun as <- <-. run_step. run_step. subst. split_and!; [done..|].
    intros y Hy. exists cert. match goal with Hq : [cert] = _ |- _ => assert (cert ∈ [cert]) as Hin by (by constructor); rewrite Hq in Hin end.
    apply filter_bool_In in Hin as [Hin Hs]. apply Z.eqb_eq in Hs as <-. by split_and!.
  - destruct (errors_Is err ErrNotFound); [|done]. unfold ret in Hrun. injection Hrun as <- <-.
    unfold queryOne, bind, sql_select, stmt in Eq. repeat (case_match; unfold ret, fail in *; simplify_eq/=); by split_and!.
Qed.

Lemma OpenHostSession_Ok e w u w' :
  OpenHostSession e w = (Ok u, w') →
  audited_once e EventSessionOpened w w' ∧
  ∃ s, session_started e w s ∧ host_sessions (w_db w') = host_sessions (w_db w) ++ [s].
Proof.
  unfold OpenHostSession. intros Hrun. run_step. subst. run_step. run_step. run_step. run_step.
  match goal with Hq : (match se_CertSerial e with _ => _ end) _ = _ |- _ => apply session_user_run in Hq as (Hdb & Hnow & Huser) end.
  match goal with Ha : insertAuditEvent _ _ = _ |- _ => apply insertAuditEvent_Ok in Ha as (fs & ->) end.
  simplify_eq. simpl in *. rewrite Hdb. split.
  - eexists. split; [reflexivity|]. split_and!; [done..|]. by apply stored_at.
  - eexists. split; [|reflexivity]. split_and!; try done. simpl. by rewrite Hnow.
Qed.
Lemma CloseHostSession_Ok e w u w' :
  CloseHostSession e w = (Ok u, w') →
  audited_once e EventSessionClosed w w' ∧
  (host_sessions (w_db w') = host_sessions (w_db w) ∧ (∀ s, s ∈ host_sessions (w_db w) → ¬ open_match e s) ∨
   ∃ t, t ∈ host_sessions (w_db w) ∧ open_match e t ∧
     host_sessions (w_db w') =
       List.map (λ s, if bool_decide (session_ID s = session_ID t)
                      then session_ended (nullableTime (se_OccurredAt e)) (w_now w) s else s)
         (host_sessions (w_db w))).
Proof.
  intros Hrun. apply close_session_ends_latest in Hrun as (matched & a & Ha & Hty & Hact & Hat & _ & Hm). split.
  - exists a. split_and!; [done..|]. unfold nullableTime in Hat. intros Hz. rewrite Hz in Hat. destruct Hat; congruence.
  - destruct matched; [right|left]; [|tauto]. destruct Hm as (t & ? & ? & _ & ?). by exists t.
Qed.
Lemma RecordSudoEvent_Ok e w u w' :
  RecordSudoEvent e w = (Ok u, w') →
  audited_once e EventSudo w w' ∧ host_sessions (w_db w') = host_sessions (w_db w).
Proof.
  unfold RecordSudoEvent, AppendAuditEvent. intros (fs & ->)%insertAuditEvent_Ok. simpl. split; [|done].
  eexists. split; [reflexivity|]. split_and!; [done..|]. by apply stored_at.
Qed.
Lemma insertAuditEvent_Err a w e w' : insertAuditEvent a w = (Err e, w') → w_db w' = w_db w.
Proof. unfold insertAuditEvent, stmt. intros. by repeat (case_match; simplify_eq/=). Qed.

(** An event is stored, or it fails and leaves the database as it was. *)
Lemma ingest_run host ev w r w' :
  ingestSessionEvent host ev w = (r, w') →
  match r with Ok _ => event_stored host ev w w' | Err _ => w_db w' = w_db w end.
Proof.
  unfold ingestSessionEvent, event_stored. destruct (classify _ _); destruct r as [u|e]; intros Hrun.
  - by apply RecordSudoEvent_Ok in Hrun.
  - by apply insertAuditEvent_Err in Hrun.
  - by apply OpenHostSession_Ok in Hrun.
  - by apply transaction_Err in Hrun.
  - by apply CloseHostSession_Ok in Hrun.
  - by apply transaction_Err in Hrun.
  - unfold ret in Hrun. by simplify_eq.
  - done.
Qed.

(** ** A batch *)

(** The events in order, each stored or, when storing it failed, dropped without a trace. *)
Inductive trail (host : Host) : list sessionEvent → World → World → Prop :=
| trail_end w : trail host [] w w
| trail_stored ev evs w w1 w' :
    event_stored host ev w w1 → trail host evs w1 w' → trail host (ev :: evs) w w'
| trail_dropped ev evs w e w1 w' :
    ingestSessionEvent host ev w = (Err e, w1) → w_db w1 = w_db w →
    trail host evs w1 w' → trail host (ev :: evs) w w'.

Lemma ingest_trail host evs w :
  ∃ w', foldM (λ _ ev, let* stored := try (ingestSessionEvent host ev) in ret ()) () evs w = (Ok (), w') ∧
    trail host evs w w'.
Proof.
  revert w. induction evs as [|ev evs IH]; intros w; [by exists w; split; [|constructor]|].
  cbn [foldM]. unfold bind at 1. rewrite bind_try. destruct (ingestSessionEvent host ev w) as [r w1] eqn:Ei.
  destruct (IH w1) as (w' & Hrun & Ht). exists w'. split; [exact Hrun|]. pose proof (ingest_run _ _ _ _ _ Ei) as Hi.
  destruct r as [u|e]; [by eapply trail_stored|by eapply trail_dropped].
Qed.
End trail.

(** ** The handler *)
Section handler.
Context `{Crypto} `{UUIDs} `{X509}.

(** The audit log and the sessions. *)
Definition log_kept : relation Db := λ db db',
  audit_events db' = audit_events db ∧ host_sessions db' = host_sessions db.
#[export] Instance log_kept_preorder : PreOrder log_kept.
Proof. split; [done|]. intros a b c [] []. split; congruence. Qed.
#[export] Instance hosts_log_kept : KeepsTable log_kept hosts_table.
Proof. by intros l db. Qed.
#[export] Instance agentHost_log_kept r : Keeps log_kept (agentHost r).
Proof.
  unfold agentHost, GetHost, TouchHostLastSeen. destruct (req_PeerCN r) as [cn|]; [|apply _].
  destruct (uuid_Parse cn); [|apply _]. apply keeps_bind; [apply _..|]. intros [|]; apply _.
Qed.

(** A batch is refused, or acknowledged once it has been gone through. *)
Lemma agentSessions_run decode r w o w' :
  agentSessions decode r w = (o, w') →
  ∃ resp, o = Ok resp ∧
  (is_2xx (status resp) = false ∧ log_kept (w_db w) (w_db w') ∨
   status resp = StatusNoContent ∧ ∃ host cn evs w1, req_PeerCN r = Some cn ∧
     uuid_Parse cn = Some (host_ID host) ∧ host ∈ hosts (w_db w) ∧ log_kept (w_db w) (w_db w1) ∧
     decode_body (1024 * 1024) r ≫= decode = Some evs ∧ trail host evs w1 w').
Proof.
  unfold agentSessions, with_host. unfold bind at 1.
  pose proof (keeps (R := log_kept) (m := agentHost r) w) as Hk.
  destruct (agentHost r w) as [x w1] eqn:Ea. simpl in Hk.
  apply agentHost_run in Ea as (caller & -> & Hcaller). destruct caller as [resp|host].
  { destruct Hcaller as [Hst _]. unfold ret. intros Hrun. simplify_eq. exists resp. split; [done|]. left.
    split; [|done]. by destruct Hst as [->| ->]. }
  destruct Hcaller as (cn & Hcn & Hid & Hin & _). destruct (_ ≫= decode) as [evs|] eqn:Edec.
  2: { unfold ret. intros Hrun. simplify_eq. eexists. split; [done|]. by left. }
  destruct (ingest_trail host evs w1) as (w2 & Hf & Ht).
  unfold bind at 1. rewrite Hf. unfold ret. intros Hrun. simplify_eq. eexists. split; [done|]. right.
  split; [done|]. by exists host, cn, evs, w1.
Qed.
End handler.

(** ** The spool and the server *)
Section composed.
Context `{Crypto} `{UUIDs} `{X509} `{Encodings}.
Variables (agentURL : string) (http : transport).

(** The batch as a request under a client certificate with the name [peer]. *)
Definition sessions_request (peer addr : string) (size : Z) (body : json) : Request := {|
  req_Authorization := ""; req_Body := Some (size, body); req_EmptyBody := false; req_RemoteAddr := addr;
  req_ForwardedFor := ""; req_PeerCN := Some peer; req_Query := ∅; req_PathID := ""; req_RequestedWith := "";
  req_Cookies := ∅; req_Host := ""; req_ForwardedProto := ""; req_TLS := true |}.

Lemma take_spool_calls d m : mc_Calls (take_spool d m).2 = mc_Calls m.
Proof.
  unfold take_spool, io_bind at 1, io_try at 1. pose proof (ReadFile_calls (SpoolFile (d_StateDir d)) m) as Hc.
  destruct (ReadFile _ m) as [[raw|e] m1]; simpl in Hc; [|done]. case_bool_decide; [done|].
  unfold io_bind, io_try, Truncate, next_fault, io_gets, io_error, io_fail, set_file.
  unfold io_bind. destruct (mc_Faults m1) as [|[] fs]; simpl; try done; destruct (mc_Files m1 !! _); simpl; done.
Qed.

Lemma spoolable_body evs : Forall spoolable evs → ∃ body, sessions_body evs = Some body.
Proof.
  unfold sessions_body. induction 1 as [|ev evs (_ & line & Hl & _) _ (body & IH)]; [by eexists|].
  apply bind_Some in IH as (l & Hl' & _). unfold spool_line in Hl. apply fmap_Some in Hl as (v & Hv & _).
  exists (JObj [("events", JArr (v :: l))]). apply bind_Some. exists (v :: l). split; [|done].
  apply mapM_Some. constructor; [done|]. by apply mapM_Some.
Qed.

End composed.

(** ** A login that is reported *)
Notation toy_events_body := (match sessions_body (H := toy_encodings) [toy_event] with Some b => b | None => JNull end).
Notation toy_ingest := (agentSessions (H0 := counting_uuids) (H1 := toy_x509)
  (decode_sessions (parse_rfc3339 (Encodings := toy_encodings))) (sessions_request toy_peer "192.0.2.7:5000" 200 toy_events_body)
  toy_server).
Definition toy_acknowledged : HTTPAnswer := {| ha_Status := 204; ha_Text := ""; ha_JSON := None |}.
Example toy_ingest_runs :
  toy_ingest.1 = Ok {| status := 204; content := NoBody |} ∧
  audit_EventType <$> List.rev (take 1 (List.rev (audit_events (w_db toy_ingest.2)))) = [EventSessionOpened] ∧
  session_LocalUser <$> host_sessions (w_db toy_ingest.2) = ["root"].
Proof. vm_compute. repeat split. Qed.
