(* ===== verification/AgentEnroll.v ===== *)
(** * Enrollment on the host (internal/agentd: enroll.go, sshd.go)

    What [gssh-agentd enroll] checks, writes and activates: the preflight that
    keeps the token unused, the state directory, the sshd snippet with its
    rollback, the PAM hooks, and the probe of the running sshd. Messages on
    standard output are left out. *)
From S2P Require Export AgentSessions.
From S2P Require Pins.

Local Open Scope string_scope.
Local Open Scope list_scope.

(** ** filepath.Match *)
Inductive glob_token :=
| Star | AnyChar | Lit (c : ascii) | ClassOf (negated : bool) (ranges : list (ascii * ascii)).

(** One end of a range ([getEsc]), and the ranges up to the closing bracket. *)
Definition range_char (s : string) : option (ascii * string) :=
  match s with
  | "" => None
  | String "\" s => match s with String c (String d s) => Some (c, String d s) | _ => None end
  | String c s =>
      if bool_decide (c = "-"%char) || bool_decide (c = "]"%char) || bool_decide (s = "") then None
      else Some (c, s)
  end.
Fixpoint class_ranges (fuel : nat) (seen : list (ascii * ascii)) (s : string)
    : option (list (ascii * ascii) * string) :=
  match fuel with
  | O => None
  | S fuel =>
      match s, seen with
      | String "]" rest, _ :: _ => Some (seen, rest)
      | _, _ =>
          '(lo, s) ← range_char s;
          match s with
          | String "-" s => '(hi, s) ← range_char s; class_ranges fuel ((lo, hi) :: seen) s
          | _ => class_ranges fuel ((lo, lo) :: seen) s
          end
      end
  end.
(** The tokens of a well-formed pattern. *)
Fixpoint glob_parse (fuel : nat) (p : string) : option (list glob_token) :=
  match fuel with
  | O => None
  | S fuel =>
      match p with
      | "" => Some []
      | String "*" p => cons Star <$> glob_parse fuel p
      | String "?" p => cons AnyChar <$> glob_parse fuel p
      | String "[" p =>
          let '(negated, p) := match p with String "^" p => (true, p) | _ => (false, p) end in
          '(ranges, p) ← class_ranges (String.length p) [] p;
          cons (ClassOf negated ranges) <$> glob_parse fuel p
      | String "\" (String c p) => cons (Lit c) <$> glob_parse fuel p
      | String "\" "" => None
      | String c p => cons (Lit c) <$> glob_parse fuel p
      end
  end.
Definition in_range (c : ascii) (r : ascii * ascii) : bool :=
  (nat_of_ascii r.1 <=? nat_of_ascii c)%nat && (nat_of_ascii c <=? nat_of_ascii r.2)%nat.
(** A star or a question mark never stands for a slash. *)
Fixpoint glob_match (ts : list glob_token) : string → bool :=
  match ts with
  | [] => λ name, bool_decide (name = "")
  | Star :: ts =>
      fix star (name : string) : bool :=
        glob_match ts name ||
        match name with
        | String c name => negb (bool_decide (c = "/"%char)) && star name
        | "" => false
        end
  | AnyChar :: ts => λ name,
      match name with
      | String c name => negb (bool_decide (c = "/"%char)) && glob_match ts name
      | "" => false
      end
  | Lit d :: ts => λ name,
      match name with String c name => bool_decide (c = d) && glob_match ts name | "" => false end
  | ClassOf negated ranges :: ts => λ name,
      match name with
      | String c name => xorb negated (existsb (in_range c) ranges) && glob_match ts name
      | "" => false
      end
  end.
(** [err == nil && matched]. *)
Definition filepath_Match (pattern name : string) : bool :=
  match glob_parse (S (String.length pattern)) pattern with
  | Some ts => glob_match ts name
  | None => false
  end.

(** ** The main sshd configuration (sshd.go) *)
Definition SSHDConfigPath (sshDir : string) : string := Path_Join sshDir "sshd_config".
Definition includeLine (sshDir : string) : string :=
  "Include " +:+ TrimRight sshDir "/" +:+ "/sshd_config.d/*.conf".

Definition include_pattern (sshDir pattern : string) : string :=
  if IsAbs pattern then pattern else Path_Join sshDir pattern.
Fixpoint includes (sshDir : string) (lines : list string) : bool :=
  match lines with
  | [] => false
  | line :: lines =>
      match Fields (TrimSpace line) with
      | [] => includes sshDir lines
      | keyword :: args =>
          if HasPrefix keyword "#" then includes sshDir lines
          else if EqualFold keyword "Match" then false
          else if negb (EqualFold keyword "Include") then includes sshDir lines
          else existsb (λ pattern, filepath_Match (include_pattern sshDir pattern) (SnippetPath sshDir)) args
               || includes sshDir lines
      end
  end.
Definition includeCovers (config sshDir : string) : bool := includes sshDir (Split config "010").

Definition verifyInclude (sshDir : string) : IO unit :=
  let! raw := io_wrap "reading (is openssh-server installed?)" (ReadFile (SSHDConfigPath sshDir)) in
  if includeCovers raw sshDir then io_ret ()
  else io_fail (ErrOther (SSHDConfigPath sshDir +:+ " does not include " +:+ SnippetPath sshDir)).

(** ** Finding, checking and reloading sshd *)
Definition sshdSearchPaths : list string :=
  ["/usr/sbin/sshd"; "/usr/local/sbin/sshd"; "/sbin/sshd"; "/usr/bin/sshd"].
Definition reloadSettle : Z := (10 * Second)%Z.
Definition reloadPollInterval : Z := (200 * Millisecond)%Z.

(** [probeHostKey]: the host key the n-th probe sees, a certificate or a plain
    key; [Err]: no answer. [os_Hostname], [os_Executable]: nothing on error. *)
Class HostEnv := {
  probeHostKey : string → N → result bool;
  os_Hostname : option string;
  os_Executable : option string
}.

Section sshd.
Context `{Commands} `{HostEnv}.

Definition exists_path (path : string) : IO bool :=
  let! dir := io_try (Stat path) in io_ret (is_ok dir).
Fixpoint first_file (paths : list string) : IO string :=
  match paths with
  | [] => io_ret ""
  | p :: paths =>
      let! dir := io_try (Stat p) in
      match dir with Ok false => io_ret p | _ => first_file paths end
  end.
Definition resolveSSHD (explicit : string) : IO string :=
  if negb (bool_decide (explicit = "")) then io_ret explicit
  else match look_path "sshd" with
       | Some path => io_ret path
       | None => first_file sshdSearchPaths
       end.

(** The lines of [sshd -T]: several values of a directive in order. *)
Definition directive (config : gmap string (list string)) (line : string) : gmap string (list string) :=
  match Cut (TrimSpace line) " " with
  | Some (key, value) => <[key := default [] (config !! key) ++ [value]]> config
  | None => config
  end.
Definition effectiveSSHDConfig (sshdBin : string) : IO (gmap string (list string)) :=
  if bool_decide (sshdBin = "") then io_ret ∅
  else
    let! out := run_command [sshdBin; "-T"] in
    io_ret match out with
           | inl out => foldl directive ∅ (Split out "010")
           | inr _ => ∅
           end.
Definition validateSSHDConfig (sshdBin : string) : IO unit :=
  if bool_decide (sshdBin = "") then io_ret ()
  else
    let! out := run_command [sshdBin; "-t"] in
    match out with inl _ => io_ret () | inr out => io_fail (ErrOther (TrimSpace out)) end.

Definition systemdUnitLoaded (systemctl unit_ : string) : IO bool :=
  let! out := run_command
    [systemctl; "show"; "--property=LoadState"; "--value"; unit_ +:+ ".service"] in
  io_ret match out with inl out => bool_decide (TrimSpace out = "loaded") | inr _ => false end.
Fixpoint loaded_unit (systemctl : string) (units : list string) : IO (option string) :=
  match units with
  | [] => io_ret None
  | u :: us => let! loaded := systemdUnitLoaded systemctl u in
               if loaded then io_ret (Some u) else loaded_unit systemctl us
  end.
Definition detectReloadCommand (sshdBin : string) : IO string :=
  let! unit_ := (match look_path "systemctl" with
                 | Some systemctl => loaded_unit systemctl ["ssh"; "sshd"]
                 | None => io_ret None
                 end) in
  match unit_ with
  | Some u => io_ret ("systemctl reload " +:+ u)
  | None =>
  let! service := (match look_path "rc-service" with
                   | Some _ => run_command ["rc-service"; "sshd"; "status"]
                   | None => io_ret (inr "")
                   end) in
  match service with
  | inl _ => io_ret "rc-service sshd reload"
  | inr _ =>
  let! config := effectiveSSHDConfig sshdBin in
  match config !! "pidfile" with
  | Some (pid :: _) =>
      let! found := exists_path pid in
      io_ret (if found then "kill -HUP $(cat " +:+ pid +:+ ")" else "")
  | _ => io_ret ""
  end end end.

Definition runReloadCmd (command : string) : IO unit :=
  let! out := run_command ["sh"; "-c"; command] in
  match out with inl _ => io_ret () | inr out => io_fail (ErrOther (TrimSpace out)) end.

Definition probeAddr (config : gmap string (list string)) : string :=
  "127.0.0.1:" +:+ match config !! "port" with Some (p :: _) => p | _ => "22" end.
Definition Sleep (d : Z) : IO unit := λ m, (Ok (), with_clock (mc_Now m + d) (mc_Ticks m) m).
(** The loop of [probeRunningSSHD]; [None] is out of fuel. *)
Fixpoint probe_loop (fuel : nat) (addr : string) (reloaded : bool) (deadline : Z)
    : IO (option (result bool)) :=
  match fuel with
  | O => io_ret None
  | S fuel =>
      let! key := io_try (io_call (probeHostKey addr)) in
      if match key with Ok true => true | _ => false end || negb reloaded then io_ret (Some key)
      else
        let! now := io_Now in
        if negb (Before now deadline) then io_ret (Some key)
        else Sleep reloadPollInterval ;! probe_loop fuel addr reloaded deadline
  end.
Definition probe_fuel : nat := 51.
Definition probeRunningSSHD (addr : string) (reloaded : bool) : IO (option (result bool)) :=
  let! now := io_Now in probe_loop probe_fuel addr reloaded (Add now reloadSettle).

Definition verifyRunningSSHD (sshdBin sshDir : string) (unreloaded : bool) : IO unit :=
  if bool_decide (sshdBin = "") then io_ret ()
  else
    let! config := effectiveSSHDConfig sshdBin in
    let! key := probeRunningSSHD (probeAddr config) (negb unreloaded) in
    match key with
    | Some (Ok false) =>
        if unreloaded then io_ret ()
        else io_fail (ErrOther "still serves a plain host key — the reload did not take effect")
    | _ => io_ret ()
    end.
Definition activateSSHD (sshdBin sshDir reloadCmd : string) (noReload : bool) : IO unit :=
  (if noReload || bool_decide (reloadCmd = "") then io_ret ()
   else io_wrap "reloading sshd failed — the configuration is written but inactive"
          (runReloadCmd reloadCmd)) ;!
  verifyRunningSSHD sshdBin sshDir (noReload || bool_decide (reloadCmd = "")).
End sshd.

(** ** Enrollment (enroll.go) *)
Record EnrollOptions := {
  opt_ServerURL : string; opt_AgentURL : string; opt_Token : string; opt_Hostname : string;
  opt_Tags : gmap string string; opt_PinSHA256 : string; opt_StateDir : string;
  opt_SSHDir : string; opt_SSHKeyPath : string; opt_SessionAudit : bool; opt_PAMDir : string;
  opt_ReloadCommand : string; opt_NoReload : bool; opt_sshdBinary : string
}.
Record enrollResponse := {
  resp_HostID : string; resp_HostCertificate : string; resp_UserCABundle : string;
  resp_MTLSCertificate : string; resp_MTLSCA : string
}.
Definition dec_enroll_response (v : json) : option enrollResponse :=
  m ← struct_members v;
  id ← dec_field dec_string "host_id" "" m;
  cert ← dec_field dec_string "host_certificate" "" m;
  bundle ← dec_field dec_string "user_ca_bundle" "" m;
  mtls ← dec_field dec_string "mtls_certificate" "" m;
  ca ← dec_field dec_string "mtls_ca" "" m;
  Some {| resp_HostID := id; resp_HostCertificate := cert; resp_UserCABundle := bundle;
          resp_MTLSCertificate := mtls; resp_MTLSCA := ca |}.

Definition with_defaults (o : EnrollOptions) (hostname : string) : EnrollOptions :=
  let sshDir := nonempty_or (opt_SSHDir o) DefaultSSHDir in {|
  opt_ServerURL := opt_ServerURL o; opt_AgentURL := opt_AgentURL o; opt_Token := opt_Token o;
  opt_Hostname := hostname; opt_Tags := opt_Tags o; opt_PinSHA256 := opt_PinSHA256 o;
  opt_StateDir := nonempty_or (opt_StateDir o) DefaultStateDir;
  opt_SSHDir := sshDir;
  opt_SSHKeyPath := nonempty_or (opt_SSHKeyPath o) (Path_Join sshDir "ssh_host_ed25519_key.pub");
  opt_SessionAudit := opt_SessionAudit o;
  opt_PAMDir := nonempty_or (opt_PAMDir o) DefaultPAMDir;
  opt_ReloadCommand := opt_ReloadCommand o; opt_NoReload := opt_NoReload o;
  opt_sshdBinary := opt_sshdBinary o |}.

Definition with_tags (tags : gmap string string) (o : EnrollOptions) : EnrollOptions := {|
  opt_ServerURL := opt_ServerURL o; opt_AgentURL := opt_AgentURL o; opt_Token := opt_Token o;
  opt_Hostname := opt_Hostname o; opt_Tags := tags; opt_PinSHA256 := opt_PinSHA256 o;
  opt_StateDir := opt_StateDir o; opt_SSHDir := opt_SSHDir o; opt_SSHKeyPath := opt_SSHKeyPath o;
  opt_SessionAudit := opt_SessionAudit o; opt_PAMDir := opt_PAMDir o;
  opt_ReloadCommand := opt_ReloadCommand o; opt_NoReload := opt_NoReload o;
  opt_sshdBinary := opt_sshdBinary o |}.

(** [pintls.DecodePin] only decides whether the pin can be used. *)
Definition read_file_or (path : string) : IO (option string) :=
  let! raw := io_try (ReadFile path) in
  io_ret match raw with Ok s => Some s | Err _ => None end.

Definition readSnippet (sshDir : string) : IO (option string) := read_file_or (SnippetPath sshDir).
Definition restoreSnippet (sshDir : string) (previous : option string) : IO unit :=
  let! _ := io_try (match previous with
                    | None => Remove (SnippetPath sshDir)
                    | Some content => WriteFile (SnippetPath sshDir) content
                    end) in
  io_ret ().

Definition pamManagedMarker := "# guided-ssh session audit (managed)".
(** Appends the hook, unless the file is missing or has the marker. *)
Definition ends_with_newline (s : string) : bool := HasSuffix s newline.
Definition with_hook (existing line : string) : string :=
  (if bool_decide (existing = "") || ends_with_newline existing then existing
   else existing +:+ newline) +:+ line.
Definition ensurePAMLine (path line : string) : IO unit :=
  let! existing := io_try (ReadFile path) in
  match existing with
  | Err e => if errors_Is e ErrNotExist then io_ret () else io_fail e
  | Ok existing =>
      if Contains existing pamManagedMarker then io_ret ()
      else WriteFile path (with_hook existing line)
  end.
Definition pam_hook (binary stateDir : string) : string :=
  pamManagedMarker +:+ newline +:+ "session optional pam_exec.so quiet " +:+ binary +:+
  " pam-session -state-dir " +:+ stateDir +:+ newline.
Definition writePAMFiles (o : EnrollOptions) (binary : string) : IO unit :=
  let! dir := io_try (Stat (opt_PAMDir o)) in
  match dir with
  | Ok true =>
      let line := pam_hook binary (opt_StateDir o) in
      io_wrap "pam hook sshd" (ensurePAMLine (Path_Join (opt_PAMDir o) "sshd") line) ;!
      io_wrap "pam hook sudo" (ensurePAMLine (Path_Join (opt_PAMDir o) "sudo") line)
  | _ => io_ret ()
  end.

(** The sshd snippet. *)
Definition lines (l : list string) : string := String.concat newline l +:+ newline.
Definition snippet_text (o : EnrollOptions) (binary : string) : string :=
  let audit := opt_SessionAudit o in
  lines (["# guided-ssh — generated by gssh-agentd enroll, do not edit manually.";
    "# Requires the main sshd_config to contain " +:+ String "034" ("Include " +:+ opt_SSHDir o +:+
      "/sshd_config.d/*.conf" +:+ String "034" ".");
    "TrustedUserCAKeys " +:+ UserCAPath (opt_SSHDir o);
    "HostCertificate " +:+ HostCertPath (opt_SSHKeyPath o)] ++
    (if audit then ["LogLevel VERBOSE"] else []) ++
    ["AuthorizedPrincipalsCommand " +:+ binary +:+ " principals -state-dir " +:+ opt_StateDir o +:+
       (if audit then " -user %u -serial %s -keyid %i" else " -user %u");
     "AuthorizedPrincipalsCommandUser root"]).

Definition usable_pin (pin : string) : bool :=
  match Pins.DecodePin pin with Ok _ => true | Err _ => false end.

Section enroll.
Context `{AgentYAML} `{HostCrypto} `{Commands} `{HostEnv}.
(** [random_hex n]: the n-th draw of 32 bytes, in hexadecimal. *)
Variables (http : transport) (random_hex : N → string).

Definition opts_applyDefaults (o : EnrollOptions) : IO EnrollOptions :=
  if negb (bool_decide (opt_Hostname o = "")) then io_ret (with_defaults o (opt_Hostname o))
  else match os_Hostname with
       | Some name => io_ret (with_defaults o name)
       | None => io_fail (ErrOther "determining hostname")
       end.

Definition newMTLSKeyAndCSR : IO (string * string) :=
  let! n := io_Random in
  match new_key_csr n with
  | Some pair_ => io_ret pair_
  | None => io_fail (ErrOther "generating mtls key")
  end.

Definition enroll_body (o : EnrollOptions) (sshPub csrPEM : string) : json := JObj [
  ("hostname", JStr (opt_Hostname o)); ("mtls_csr", JStr csrPEM); ("ssh_public_key", JStr sshPub);
  ("tags", JMap (opt_Tags o)); ("token", JStr (opt_Token o))].
Definition postEnroll (o : EnrollOptions) (sshPub csrPEM : string) : IO enrollResponse :=
  if negb (bool_decide (opt_PinSHA256 o = "")) && negb (usable_pin (opt_PinSHA256 o))
  then io_fail (ErrOther "pin")
  else
    let url := TrimRight (opt_ServerURL o) "/" +:+ "/v1/enroll" in
    let! resp := io_call (λ n, Ok (http n "POST" url (Some (enroll_body o sshPub csrPEM)))) in
    match resp with
    | None => io_fail (ErrOther "reaching enroll endpoint")
    | Some a =>
        if negb (ha_Status a =? 200)%Z then io_fail (ErrOther "enrollment rejected")
        else
          match ha_JSON a ≫= dec_enroll_response with
          | None => io_fail (ErrOther "decoding enroll response")
          | Some r =>
              if bool_decide (resp_HostID r = "") || bool_decide (resp_MTLSCertificate r = "") ||
                 bool_decide (resp_HostCertificate r = "")
              then io_fail (ErrOther "enroll response incomplete")
              else io_ret r
          end
    end.

Definition writeSocketToken (stateDir : string) : IO unit :=
  let! found := exists_path (SocketTokenFile stateDir) in
  if found then io_ret ()
  else let! n := io_Random in WriteFile (SocketTokenFile stateDir) (random_hex n).

(** The configuration written at enrollment, with its defaults. *)
Definition enrolled_config (o : EnrollOptions) (r : enrollResponse) (reloadCmd : string) : Config :=
  applyDefaults (opt_StateDir o) {|
    AgentURL := opt_AgentURL o; HostID := resp_HostID r; HostName := opt_Hostname o;
    SSHKeyPath := opt_SSHKeyPath o; SSHDir := opt_SSHDir o; SocketPath := ""; CacheTTL := 0;
    BundleInterval := 0; RenewInterval := 0; HeartbeatInterval := 0;
    ReloadCommand := reloadCmd; SessionAudit := opt_SessionAudit o |}.
Definition writeState (o : EnrollOptions) (keyPEM : string) (r : enrollResponse) (reloadCmd : string)
    : IO unit :=
  let dir := opt_StateDir o in
  io_wrap "creating state directory" (MkdirAll dir) ;!
  io_wrap "writing" (WriteFile (AgentKeyFile dir) keyPEM) ;!
  io_wrap "writing" (WriteFile (AgentCertFile dir) (resp_MTLSCertificate r)) ;!
  io_wrap "writing" (WriteFile (ServerCAFile dir) (resp_MTLSCA r)) ;!
  (if opt_SessionAudit o then writeSocketToken dir else io_ret ()) ;!
  writeConfig dir (enrolled_config o r reloadCmd).

Definition writeSSHDFiles (o : EnrollOptions) (r : enrollResponse) : IO unit :=
  io_wrap "writing host certificate"
    (WriteFile (HostCertPath (opt_SSHKeyPath o)) (resp_HostCertificate r +:+ newline)) ;!
  io_wrap "writing user ca bundle" (WriteFile (UserCAPath (opt_SSHDir o)) (resp_UserCABundle r)) ;!
  MkdirAll (Path_Dir (SnippetPath (opt_SSHDir o))) ;!
  let binary := default "gssh-agentd" os_Executable in
  io_wrap "writing sshd snippet" (WriteFile (SnippetPath (opt_SSHDir o)) (snippet_text o binary)) ;!
  (if opt_SessionAudit o then writePAMFiles o binary else io_ret ()).

Definition reload_command (o : EnrollOptions) (sshdBin : string) : IO string :=
  let! cmd := (if bool_decide (opt_ReloadCommand o = "") && negb (opt_NoReload o)
               then detectReloadCommand sshdBin else io_ret (opt_ReloadCommand o)) in
  if bool_decide (cmd = "") then previousReloadCommand (opt_StateDir o) else io_ret cmd.

(** The snippet is rolled back when sshd rejects the configuration. *)
Definition write_checked (o : EnrollOptions) (sshdBin : string) (r : enrollResponse) : IO unit :=
  let! previous := readSnippet (opt_SSHDir o) in
  writeSSHDFiles o r ;!
  let! valid := io_try (validateSSHDConfig sshdBin) in
  match valid with
  | Ok _ => io_ret ()
  | Err e =>
      restoreSnippet (opt_SSHDir o) previous ;!
      io_fail (ErrWrap "sshd rejected the generated configuration (rolled back)" e)
  end.
Definition writeAndActivate (o : EnrollOptions) (keyPEM : string) (r : enrollResponse) : IO unit :=
  let! sshdBin := resolveSSHD (opt_sshdBinary o) in
  let! reloadCmd := reload_command o sshdBin in
  writeState o keyPEM r reloadCmd ;!
  write_checked o sshdBin r ;!
  activateSSHD sshdBin (opt_SSHDir o) reloadCmd (opt_NoReload o).

Definition Enroll (o : EnrollOptions) : IO unit :=
  if bool_decide (opt_ServerURL o = "") || bool_decide (opt_Token o = "") ||
     bool_decide (opt_AgentURL o = "")
  then io_fail (ErrOther "server-url, agent-url, and token are required")
  else
    let! o := opts_applyDefaults o in
    verifyInclude (opt_SSHDir o) ;!
    let! sshPub := io_wrap "reading ssh-host-key" (ReadFile (opt_SSHKeyPath o)) in
    let! '(keyPEM, csrPEM) := newMTLSKeyAndCSR in
    let! response := postEnroll o (TrimSpace sshPub) csrPEM in
    writeAndActivate o keyPEM response.
End enroll.

(** ** The arguments of the enroll command (cli.go) *)
Definition requirePinFromEnv (getenv : string → string) : bool :=
  let v := ToLower (getenv "GSSH_ENROLL_REQUIRE_PIN") in
  negb (bool_decide (v = "") || bool_decide (v = "0") || bool_decide (v = "false")).
Definition parseTags (raw : string) : result (gmap string string) :=
  if bool_decide (raw = "") then Ok ∅
  else foldl (λ acc part,
    match acc with
    | Err e => Err e
    | Ok tags =>
        match Cut part "=" with
        | Some (key, value) =>
            if bool_decide (key = "") then Err (ErrOther ("invalid tag " +:+ part))
            else Ok (<[key := value]> tags)
        | None => Err (ErrOther ("invalid tag " +:+ part))
        end
    end) (Ok ∅) (Split raw ",").

(** ** Lemmas *)

(** *** The Include check *)
Definition directive_of (line : string) : option (string * list string) :=
  match Fields (TrimSpace line) with
  | [] => None
  | keyword :: args => if HasPrefix keyword "#" then None else Some (keyword, args)
  end.
Definition is_match_line (line : string) : Prop :=
  ∃ keyword args, directive_of line = Some (keyword, args) ∧ EqualFold keyword "Match" = true.
Definition is_include_of (sshDir line : string) : Prop :=
  ∃ keyword args p, directive_of line = Some (keyword, args) ∧ EqualFold keyword "Include" = true ∧
    p ∈ args ∧ filepath_Match (include_pattern sshDir p) (SnippetPath sshDir) = true.

(** The snippet counts as included exactly if a line outside comments and
    before any Match block includes a pattern that matches it. *)
Theorem include_check_exact config sshDir :
  includeCovers config sshDir = true ↔
  ∃ pre line post, Split config "010" = pre ++ line :: post ∧
    (∀ l, l ∈ pre → ¬ is_match_line l) ∧ is_include_of sshDir line.
Proof.
  unfold includeCovers. generalize (Split config "010") as ls. intros ls. split.
  - induction ls as [|line ls IH]; [done|]. simpl. intros Hinc.
    assert (is_include_of sshDir line ∨ (¬ is_match_line line ∧ includes sshDir ls = true)) as [Hl|[Hl Hr]].
    { unfold is_include_of, is_match_line, directive_of.
      destruct (Fields (TrimSpace line)) as [|k args]; [right; split; [|done]; naive_solver|].
      destruct (HasPrefix k "#"); [right; split; [|done]; naive_solver|].
      destruct (EqualFold k "Match") eqn:Em; [done|].
      destruct (EqualFold k "Include") eqn:Ei; simpl in Hinc;
        [|right; split; [|done]; intros (? & ? & [= <- <-] & ?); congruence].
      apply orb_true_iff in Hinc as [Hex|Hrest].
      - left. apply existsb_elem in Hex as (p & Hp & Hm). by exists k, args, p.
      - right. split; [|done]. intros (? & ? & [= <- <-] & ?). congruence. }
    + by exists [], line, ls; split_and!; [|intros ? []%elem_of_nil|].
    + destruct (IH Hr) as (pre & l & post & -> & Hpre & Hinc').
      exists (line :: pre), l, post. split_and!; [done| |done].
      intros l' [->|Hl']%elem_of_cons; [done|by apply Hpre].
  - intros (pre & line & post & -> & Hpre & Hinc). induction pre as [|l pre IH]; simpl.
    + destruct Hinc as (k & args & p & Hd & Hk & Hp & Hm). unfold directive_of in Hd.
      destruct (Fields (TrimSpace line)) as [|k' args']; [done|].
      destruct (HasPrefix k' "#"); [done|]. injection Hd as -> ->.
      assert (EqualFold k "Match" = false) as ->.
      { unfold EqualFold in *. apply bool_decide_eq_true in Hk. rewrite Hk. reflexivity. }
      rewrite Hk. simpl. apply orb_true_iff. left. apply existsb_elem. by exists p.
    + assert (¬ is_match_line l) as Hl by (apply Hpre; by left).
      specialize (IH ltac:(intros; apply Hpre; by right)).
      unfold is_match_line, directive_of in Hl. destruct (Fields (TrimSpace l)) as [|k args]; [done|].
      destruct (HasPrefix k "#"); [done|].
      destruct (EqualFold k "Match") eqn:Em; [by exfalso; apply Hl; exists k, args|].
      destruct (EqualFold k "Include"); simpl; [|done]. by rewrite IH, orb_true_r.
Qed.

(** *** Before the server accepted *)
Section before.
Context `{AgentYAML} `{HostCrypto} `{Commands} `{HostEnv}.
Variables (http : transport) (random_hex : N → string).

#[export] Instance keeps_defaults o : KeepsFiles (opts_applyDefaults o).
Proof. unfold opts_applyDefaults. destruct os_Hostname; apply _. Qed.
#[export] Instance keeps_include sshDir : KeepsFiles (verifyInclude sshDir).
Proof. apply _. Qed.
#[export] Instance keeps_new_key : KeepsFiles newMTLSKeyAndCSR.
Proof. apply keeps_bind; [apply _|]. intros n. destruct (new_key_csr n); apply _. Qed.

Lemma opts_applyDefaults_run o m :
  ∃ r, opts_applyDefaults o m = (r, m) ∧
  ∀ o', r = Ok o' → ∃ hostname, o' = with_defaults o hostname.
Proof.
  unfold opts_applyDefaults. destruct (negb _); [|destruct os_Hostname];
    (eexists; split; [reflexivity|]); intros o' [= <-]; eauto.
Qed.
Lemma verifyInclude_run sshDir m :
  ∃ r m', verifyInclude sshDir m = (r, m') ∧ mc_Files m' = mc_Files m ∧ mc_Calls m' = mc_Calls m ∧
  (is_ok r = true → ∃ config, mc_Files m !! SSHDConfigPath sshDir = Some config ∧
                              includeCovers config sshDir = true).
Proof.
  unfold verifyInclude, io_bind, io_wrap.
  destruct (ReadFile_run (SSHDConfigPath sshDir) m) as (r & m1 & E & Hf & _ & Hr).
  pose proof (ReadFile_calls (SSHDConfigPath sshDir) m) as Hc. rewrite E in *. simpl in Hc.
  destruct r as [raw|e]; [|by do 2 eexists].
  destruct (includeCovers raw sshDir) eqn:Hinc; do 2 eexists; (split; [reflexivity|]);
    (split_and!; [done..|]); [|done]. intros _. exists raw. split; [by apply Hr|done].
Qed.

(** An answer that makes the host enroll. *)
Definition accepted (o : EnrollOptions) : Prop :=
  ∃ n body a resp, http n "POST" (TrimRight (opt_ServerURL o) "/" +:+ "/v1/enroll") (Some body) = Some a ∧
    ha_Status a = 200%Z ∧ ha_JSON a ≫= dec_enroll_response = Some resp ∧
    resp_HostID resp ≠ "" ∧ resp_MTLSCertificate resp ≠ "" ∧ resp_HostCertificate resp ≠ "" ∧
    (opt_PinSHA256 o = "" ∨ usable_pin (opt_PinSHA256 o) = true).
Lemma postEnroll_run o sshPub csr m :
  ∃ r m', postEnroll http o sshPub csr m = (r, m') ∧ mc_Files m' = mc_Files m ∧
  (is_ok r = true → accepted o).
Proof.
  unfold postEnroll.
  destruct (negb (bool_decide (opt_PinSHA256 o = "")) && negb (usable_pin (opt_PinSHA256 o))) eqn:Hpin;
    [by do 2 eexists|].
  assert (opt_PinSHA256 o = "" ∨ usable_pin (opt_PinSHA256 o) = true) as Hp.
  { apply andb_false_iff in Hpin as [Hpin%negb_false_iff|Hpin%negb_false_iff]; [left|by right].
    by apply bool_decide_eq_true in Hpin. }
  clear Hpin. unfold io_bind, io_call. destruct (http _ _ _ _) as [a|] eqn:Ha; [|by do 2 eexists].
  destruct (Z.eqb_spec (ha_Status a) 200) as [Hs|]; simpl; [|by do 2 eexists].
  destruct (ha_JSON a ≫= dec_enroll_response) as [resp|] eqn:Hj; [|by do 2 eexists].
  do 3 case_bool_decide; simpl; do 2 eexists; (split; [reflexivity|]); try done.
  split; [done|]. intros _. unfold accepted. eauto 12.
Qed.
End before.

(** C32: A token is only spent on a host that can use it: enrollment changes no
    file on the host before the server accepted the request with a complete
    answer, and it does not even ask unless sshd's main configuration includes
    the snippet and the pin, if any, can be used. *)
Theorem enrollment_writes_after_acceptance
    `{AgentYAML} `{HostCrypto} `{Commands} `{HostEnv}
    http random_hex o m r m' :
  Enroll http random_hex o m = (r, m') →
  (mc_Calls m' ≠ mc_Calls m → ∃ config,
     mc_Files m !! SSHDConfigPath (nonempty_or (opt_SSHDir o) DefaultSSHDir) = Some config ∧
     includeCovers config (nonempty_or (opt_SSHDir o) DefaultSSHDir) = true) ∧
  (mc_Files m' ≠ mc_Files m → accepted http o).
Proof.
  set (dir := nonempty_or (opt_SSHDir o) DefaultSSHDir). unfold Enroll.
  destruct (_ || _); [intros [= <- <-]; done|].
  destruct (opts_applyDefaults_run o m) as (r1 & E1 & Ho1). unfold io_bind at 1. rewrite E1.
  destruct r1 as [o1|e]; [|by intros [= <- <-]].
  destruct (Ho1 o1 eq_refl) as [hostname ->].
  change (opt_SSHDir (with_defaults o hostname)) with dir.
  destruct (verifyInclude_run dir m) as (r2 & m2 & E2 & Hf2 & Hc2 & Hinc).
  unfold io_bind at 1. rewrite E2. destruct r2 as [u|e]; [|intros [= <- <-]; by rewrite Hf2, Hc2].
  specialize (Hinc eq_refl). intros Hrun. split; [done|]. intros Hne. revert Hrun.
  unfold io_bind at 1, io_wrap at 1.
  destruct (ReadFile_run (opt_SSHKeyPath (with_defaults o hostname)) m2) as (r3 & m3 & E3 & Hf3 & _).
  rewrite E3. destruct r3 as [key|e]; [|intros [= <- <-]; congruence].
  unfold io_bind at 1. pose proof (keeps_new_key m3) as Hf4.
  destruct (newMTLSKeyAndCSR m3) as [[[keyPEM csr]|e] m4]; simpl in Hf4; [|intros [= <- <-]; congruence].
  destruct (postEnroll_run http (with_defaults o hostname) (TrimSpace key) csr m4)
    as (r5 & m5 & E5 & Hf5 & Hacc).
  unfold io_bind at 1. rewrite E5. destruct r5 as [resp|e]; [|intros [= <- <-]; congruence].
  intros _. by apply Hacc.
Qed.

(** *** Rollback *)

(** A healthy disk: the computation succeeds, and no file disappears. *)
Definition healthy (c : IO unit) : Prop :=
  ∀ m, mc_Faults m = [] →
  ∃ m', c m = (Ok (), m') ∧ mc_Faults m' = [] ∧
        ∀ p, is_Some (mc_Files m !! p) → is_Some (mc_Files m' !! p).

Lemma healthy_bind c k : healthy c → healthy k → healthy (c ;! k).
Proof.
  intros Hc Hk m Hnf. destruct (Hc m Hnf) as (m1 & E1 & Hnf1 & Hp1).
  destruct (Hk m1 Hnf1) as (m2 & E2 & Hnf2 & Hp2). exists m2. unfold io_bind. rewrite E1, E2. auto.
Qed.
Lemma healthy_wrap ctx c : healthy c → healthy (io_wrap ctx c).
Proof.
  intros Hc m Hnf. destruct (Hc m Hnf) as (m1 & E1 & ?). exists m1. unfold io_wrap. by rewrite E1.
Qed.
Lemma healthy_ret : healthy (io_ret ()).
Proof. intros m Hnf. by exists m. Qed.
Lemma healthy_write path data : healthy (WriteFile path data).
Proof.
  intros m Hnf. rewrite WriteFile_ok by done. eexists. split; [reflexivity|]. split; [done|].
  intros p Hp. simpl. by apply lookup_insert_is_Some'; right.
Qed.
Lemma healthy_mkdir path : healthy (MkdirAll path).
Proof. intros m Hnf. rewrite MkdirAll_ok by done. by eexists. Qed.
Lemma healthy_pam path line : healthy (ensurePAMLine path line).
Proof.
  intros m Hnf. unfold ensurePAMLine, io_bind, io_try. rewrite ReadFile_ok by done.
  destruct (mc_Files m !! path) as [old|]; [|by exists m].
  destruct (Contains old _); [by exists m|]. by apply healthy_write.
Qed.
#[local] Hint Resolve healthy_bind healthy_wrap healthy_ret healthy_write healthy_mkdir healthy_pam : core.

Section rollback.
Context `{Commands} `{HostEnv}.

Lemma healthy_pam_files o binary : healthy (writePAMFiles o binary).
Proof.
  intros m Hnf. unfold writePAMFiles, io_bind at 1, io_try.
  destruct (Stat_ok (opt_PAMDir o) m Hnf) as [r ->]. destruct r as [[]|e]; [|by exists m..].
  apply healthy_bind; auto.
Qed.
Lemma writeSSHDFiles_run o r m :
  mc_Faults m = [] → ∃ m', writeSSHDFiles o r m = (Ok (), m') ∧ mc_Faults m' = [] ∧
  is_Some (mc_Files m' !! SnippetPath (opt_SSHDir o)).
Proof.
  intros Hnf. unfold writeSSHDFiles. set (binary := default _ _).
  destruct (healthy_wrap "writing host certificate" _ (healthy_write (HostCertPath (opt_SSHKeyPath o))
    (resp_HostCertificate r +:+ newline)) m Hnf) as (m1 & E1 & Hnf1 & _).
  unfold io_bind at 1. rewrite E1.
  destruct (healthy_wrap "writing user ca bundle" _ (healthy_write (UserCAPath (opt_SSHDir o))
    (resp_UserCABundle r)) m1 Hnf1) as (m2 & E2 & Hnf2 & _).
  unfold io_bind at 1. rewrite E2. unfold io_bind at 1. rewrite MkdirAll_ok by done.
  unfold io_bind at 1, io_wrap at 1. rewrite WriteFile_ok by done.
  set (m4 := with_files _ _).
  assert (healthy (if opt_SessionAudit o then writePAMFiles o binary else io_ret ())) as Hpam.
  { destruct (opt_SessionAudit o); [apply healthy_pam_files|apply healthy_ret]. }
  destruct (Hpam m4 Hnf2) as (m5 & E5 & Hnf5 & Hkeep). exists m5. split_and!; [done..|].
  apply Hkeep. simpl. by rewrite lookup_insert_eq.
Qed.
End rollback.


(** *** The agent starts after enrollment *)

(** The files of the state directory and those of sshd and PAM end in different
    characters, whatever the directories are. *)
Definition ends_in (path : string) (c : ascii) : Prop := ∃ q, path = q +:+ String c "".
Lemma ends_in_ne p q c d : ends_in p c → ends_in q d → c ≠ d → p ≠ q.
Proof. intros [a ->] [b ->] Hne E. by apply last_char_inj in E. Qed.
Lemma joined_ends dir q c :
  ¬ in_string "/" (q +:+ String c "") → c ≠ "."%char → ends_in (Path_Join dir (q +:+ String c "")) c.
Proof.
  intros Hs Hc. destruct (Path_Join_last dir (q +:+ String c "") Hs) as [p ->].
  - by intros [? ?]%append_empty.
  - intros E. apply (last_char_inj q "") in E. done.
  - intros E. apply (last_char_inj q ".") in E. done.
  - exists (p +:+ q). by rewrite append_assoc.
Qed.

Section starts.
Context `{AgentYAML} `{HostCrypto} `{Commands} `{HostEnv}.
Variable random_hex : N → string.

Ltac file_ends q :=
  match goal with |- ends_in ?p ?c => apply (joined_ends _ q c); [vm_compute; intuition discriminate|done] end.
Lemma ends_key dir : ends_in (AgentKeyFile dir) "y". Proof. file_ends "agent.ke". Qed.
Lemma ends_cert dir : ends_in (AgentCertFile dir) "t". Proof. file_ends "agent.cr". Qed.
Lemma ends_ca dir : ends_in (ServerCAFile dir) "m". Proof. file_ends "server-ca.pe". Qed.
Lemma ends_config dir : ends_in (ConfigFile dir) "l". Proof. file_ends "config.yam". Qed.
Lemma ends_token dir : ends_in (SocketTokenFile dir) "n". Proof. file_ends "socket-toke". Qed.
Lemma ends_bundle dir : ends_in (UserCAPath dir) "b". Proof. file_ends "guided-ssh-user-ca.pu". Qed.
Lemma ends_snippet dir : ends_in (SnippetPath dir) "f". Proof. file_ends "guided-ssh.con". Qed.
Lemma ends_pam_sshd dir : ends_in (Path_Join dir "sshd") "d". Proof. file_ends "ssh". Qed.
Lemma ends_pam_sudo dir : ends_in (Path_Join dir "sudo") "o". Proof. file_ends "sud". Qed.
Lemma ends_hostcert path : ends_in (HostCertPath path) "b".
Proof. exists (TrimSuffix path ".pub" +:+ "-cert.pu"). by rewrite append_assoc. Qed.

#[export] Instance free_first_file paths : FaultFree (first_file paths).
Proof. induction paths; simpl; [apply _|]. apply free_bind; [apply _|]. intros [[]|]; apply _. Qed.
#[export] Instance free_resolve explicit : FaultFree (resolveSSHD explicit).
Proof. unfold resolveSSHD. apply free_if; [apply _|]. destruct (look_path _); apply _. Qed.
#[export] Instance free_config bin : FaultFree (effectiveSSHDConfig bin).
Proof. apply _. Qed.
#[export] Instance free_unit ctl units : FaultFree (loaded_unit ctl units).
Proof. induction units; simpl; apply _. Qed.
#[export] Instance free_detect bin : FaultFree (detectReloadCommand bin).
Proof.
  unfold detectReloadCommand. apply free_bind; [destruct (look_path _); apply _|].
  intros [u|]; [apply _|]. apply free_bind; [destruct (look_path _); apply _|].
  intros [|]; [apply _|]. apply free_bind; [apply _|]. intros config.
  destruct (config !! "pidfile") as [[]|]; apply _.
Qed.
#[export] Instance free_reload_command o bin : FaultFree (reload_command o bin).
Proof. unfold reload_command, previousReloadCommand. apply _. Qed.
#[export] Instance free_pam path line : FaultFree (ensurePAMLine path line).
Proof.
  unfold ensurePAMLine. apply free_bind; [apply _|]. intros []; apply _.
Qed.
#[export] Instance free_pam_files o binary : FaultFree (writePAMFiles o binary).
Proof. unfold writePAMFiles. apply free_bind; [apply _|]. intros [[]|]; apply _. Qed.
#[export] Instance free_probe fuel addr reloaded deadline :
  FaultFree (probe_loop fuel addr reloaded deadline).
Proof.
  induction fuel; simpl; [apply _|]. apply free_bind; [apply _|]. intros key.
  apply free_if; [apply _|]. apply free_bind; [apply _|]. intros now. apply free_if; [apply _|].
  apply free_bind; [by intros m|apply _].
Qed.
#[export] Instance free_activate bin dir cmd b : FaultFree (activateSSHD bin dir cmd b).
Proof.
  unfold activateSSHD, verifyRunningSSHD, probeRunningSSHD, runReloadCmd.
  apply free_bind.
  - apply free_if; [apply _|]. apply free_wrap, free_bind; [apply _|]. intros []; apply _.
  - intros _. apply free_if; [apply _|]. apply free_bind; [apply _|]. intros config.
    apply free_bind; [apply _|]. intros [[[]|]|]; apply _.
Qed.
#[export] Instance free_write_checked o bin r : FaultFree (write_checked o bin r).
Proof.
  unfold write_checked, readSnippet, read_file_or, writeSSHDFiles, restoreSnippet, validateSSHDConfig.
  apply free_bind; [apply _|]. intros previous. apply free_bind; [apply _|]. intros _.
  apply free_bind; [apply free_try, free_if; [apply _|]; apply free_bind; [apply _|]; intros []; apply _|].
  intros []; [apply _|]. apply free_bind; [|apply _].
  apply free_bind; [apply free_try; destruct previous; apply _|apply _].
Qed.

(** A file whose last character none of sshd's and PAM's files has. *)
Definition state_file (path : string) : Prop :=
  ∃ c, ends_in path c ∧ c ≠ "b"%char ∧ c ≠ "f"%char ∧ c ≠ "d"%char ∧ c ≠ "o"%char.
Ltac other_file := eapply ends_in_ne; [|eassumption|];
  [first [apply ends_hostcert|apply ends_bundle|apply ends_snippet|apply ends_pam_sshd|apply ends_pam_sudo]
  |done].
Lemma leaves_pam path file line : file ≠ path → Leaves path (ensurePAMLine file line).
Proof.
  intros Hne. unfold ensurePAMLine. apply leaves_bind; [apply _|]. intros []; [|apply _].
  apply leaves_if; [apply _|by apply leaves_write].
Qed.
Lemma leaves_sshd path o r : state_file path → Leaves path (writeSSHDFiles o r).
Proof.
  intros (c & Hc & Hb & Hf & Hd & Ho). unfold writeSSHDFiles, writePAMFiles. cbv zeta.
  repeat (apply leaves_bind; [|intros _]); try apply leaves_wrap; try apply _;
    try (apply leaves_write; other_file).
  apply leaves_if; [|apply _]. apply leaves_bind; [apply _|]. intros [[]|]; try apply _.
  apply leaves_bind; [|intros _]; apply leaves_wrap, leaves_pam; other_file.
Qed.
Lemma leaves_checked path o bin r : state_file path → Leaves path (write_checked o bin r).
Proof.
  intros Hp. pose proof (leaves_sshd path o r Hp) as Hsshd. destruct Hp as (c & Hc & Hb & Hf & Hd & Ho).
  unfold write_checked, readSnippet, read_file_or, restoreSnippet, validateSSHDConfig.
  apply leaves_bind; [apply _|]. intros previous. apply leaves_bind; [apply _|]. intros _.
  apply leaves_bind; [apply leaves_try, leaves_if; [apply _|]; apply leaves_bind; [apply _|];
                      intros []; apply _|].
  intros []; [apply _|]. apply leaves_bind; [|apply _].
  apply leaves_bind; [|apply _]. apply leaves_try.
  destruct previous; [apply leaves_write|apply leaves_remove]; other_file.
Qed.
#[export] Instance keeps_probe fuel addr reloaded deadline :
  KeepsFiles (probe_loop fuel addr reloaded deadline).
Proof.
  induction fuel; simpl; [apply _|]. apply keeps_bind; [apply _|]. intros key.
  apply keeps_if; [apply _|]. apply keeps_bind; [apply _|]. intros now. apply keeps_if; [apply _|].
  apply keeps_bind; [by intros m|apply _].
Qed.
#[export] Instance keeps_activate bin dir cmd b : KeepsFiles (activateSSHD bin dir cmd b).
Proof.
  unfold activateSSHD, verifyRunningSSHD, probeRunningSSHD, runReloadCmd.
  apply keeps_bind.
  - apply keeps_if; [apply _|]. apply keeps_wrap, keeps_bind; [apply _|]. intros []; apply _.
  - intros _. apply keeps_if; [apply _|]. apply keeps_bind; [apply _|]. intros config.
    apply keeps_bind; [apply _|]. intros [[[]|]|]; apply _.
Qed.

(** What the state directory holds after [writeState]. *)
Definition state_written (o : EnrollOptions) (keyPEM : string) (r : enrollResponse) (cmd : string)
    (files : gmap string string) : Prop :=
  let dir := opt_StateDir o in
  files !! AgentKeyFile dir = Some keyPEM ∧
  files !! AgentCertFile dir = Some (resp_MTLSCertificate r) ∧
  files !! ServerCAFile dir = Some (resp_MTLSCA r) ∧
  files !! ConfigFile dir = Some (config_text (enrolled_config o r cmd)).
#[export] Instance free_token dir : FaultFree (writeSocketToken random_hex dir).
Proof. apply _. Qed.
Lemma leaves_token path dir c : ends_in path c → c ≠ "n"%char →
  Leaves path (writeSocketToken random_hex dir).
Proof.
  intros Hc Hn. unfold writeSocketToken. apply leaves_bind; [apply _|]. intros found.
  apply leaves_if; [apply _|]. apply leaves_bind; [apply _|]. intros n. apply leaves_write.
  eapply ends_in_ne; [apply ends_token|eassumption|done].
Qed.
Lemma writeState_run o keyPEM r cmd m m' :
  mc_Faults m = [] → writeState random_hex o keyPEM r cmd m = (Ok (), m') →
  state_written o keyPEM r cmd (mc_Files m').
Proof.
  intros Hnf. unfold writeState. set (dir := opt_StateDir o).
  unfold io_bind at 1, io_wrap at 1. rewrite MkdirAll_ok by done. set (m1 := with_dirs _ _).
  unfold io_bind at 1, io_wrap at 1. rewrite WriteFile_ok by done. set (m2 := with_files _ _).
  unfold io_bind at 1, io_wrap at 1. rewrite WriteFile_ok by done. set (m3 := with_files _ _).
  unfold io_bind at 1, io_wrap at 1. rewrite WriteFile_ok by done. set (m4 := with_files _ _).
  set (token := if opt_SessionAudit o then _ else _).
  assert (∀ path c, ends_in path c → c ≠ "n"%char → Leaves path token) as Htok.
  { intros path c Hc Hn. apply leaves_if; [by eapply leaves_token|apply _]. }
  assert (FaultFree token) as Hfree by apply _.
  pose proof (ends_key dir) as Hk. pose proof (ends_cert dir) as Hce.
  pose proof (ends_ca dir) as Hca. pose proof (ends_config dir) as Hco.
  pose proof (Htok _ _ Hk ltac:(done) m4) as Tk. pose proof (Htok _ _ Hce ltac:(done) m4) as Tce.
  pose proof (Htok _ _ Hca ltac:(done) m4) as Tca. specialize (Hfree m4 Hnf).
  unfold io_bind at 1. destruct (token m4) as [[[]|e] m5]; [|done]. simpl in Tk, Tce, Tca, Hfree.
  unfold writeConfig. rewrite WriteFile_ok by done. intros [= <-]. unfold state_written. fold dir. simpl.
  rewrite lookup_insert_eq, !lookup_insert_ne by
    (eapply ends_in_ne; [exact Hco|eassumption|done]). rewrite Tk, Tce, Tca.
  assert (AgentCertFile dir ≠ AgentKeyFile dir) by (eapply ends_in_ne; [exact Hce|exact Hk|done]).
  assert (ServerCAFile dir ≠ AgentKeyFile dir) by (eapply ends_in_ne; [exact Hca|exact Hk|done]).
  assert (ServerCAFile dir ≠ AgentCertFile dir) by (eapply ends_in_ne; [exact Hca|exact Hce|done]).
  unfold m4, m3, m2, m1. cbn [mc_Files with_files with_dirs].
  split_and!; [|by rewrite lookup_insert_ne, lookup_insert_eq by done|by rewrite lookup_insert_eq|done].
  by rewrite !lookup_insert_ne, lookup_insert_eq by done.
Qed.
Lemma applyDefaults_idem dir c : applyDefaults dir (applyDefaults dir c) = applyDefaults dir c.
Proof.
  unfold applyDefaults, positive_or, nonempty_or. simpl. f_equal.
  - by repeat case_bool_decide.
  - repeat case_bool_decide; try done.
  - destruct (Z.leb_spec (CacheTTL c) 0); simpl; [done|]. by destruct (Z.leb_spec (CacheTTL c) 0); [lia|].
  - destruct (Z.leb_spec (BundleInterval c) 0); simpl; [done|]. by destruct (Z.leb_spec (BundleInterval c) 0); [lia|].
  - destruct (Z.leb_spec (RenewInterval c) 0); simpl; [done|]. by destruct (Z.leb_spec (RenewInterval c) 0); [lia|].
  - destruct (Z.leb_spec (HeartbeatInterval c) 0); simpl; [done|]. by destruct (Z.leb_spec (HeartbeatInterval c) 0); [lia|].
Qed.
Lemma NewDaemon_written o keyPEM r cmd m :
  mc_Faults m = [] → state_written o keyPEM r cmd (mc_Files m) →
  opt_AgentURL o ≠ "" → resp_HostID r ≠ "" → opt_SSHKeyPath o ≠ "" →
  key_pair (resp_MTLSCertificate r) keyPEM = true → cert_pool (resp_MTLSCA r) = true →
  ∃ d, NewDaemon (opt_StateDir o) m = (Ok d, m) ∧ d_Cfg d = enrolled_config o r cmd ∧
       d_ClientCert d = (resp_MTLSCertificate r, keyPEM).
Proof.
  intros Hnf (Hkey & Hcert & Hca & Hconf) Hurl Hid Hpath Hpair Hpool.
  assert (LoadConfig (opt_StateDir o) m = (Ok (enrolled_config o r cmd), m)) as Hload.
  { unfold LoadConfig, io_bind, io_wrap. rewrite ReadFile_ok, Hconf, config_of_text by done.
    unfold enrolled_config at 1 2 3. cbn [AgentURL HostID SSHKeyPath applyDefaults].
    rewrite !bool_decide_eq_false_2 by done. cbn [orb]. unfold io_ret, enrolled_config.
    by rewrite applyDefaults_idem. }
  assert (newAPIClient (opt_StateDir o) m = (Ok (resp_MTLSCertificate r, keyPEM), m)) as Hclient.
  { unfold newAPIClient, io_bind, io_wrap. rewrite ReadFile_ok, Hcert by done.
    rewrite ReadFile_ok, Hkey by done. rewrite Hpair. cbn [negb].
    rewrite ReadFile_ok, Hca by done. by rewrite Hpool. }
  unfold NewDaemon, io_bind at 1 2. rewrite Hload, Hclient. unfold readSocketToken, io_bind, io_try.
  destruct (SessionAudit _); [rewrite ReadFile_ok by done|]; eexists; (split; [reflexivity|done]).
Qed.
End starts.

(** C33: Enrollment leaves an agent that starts: when enrollment succeeds on a
    machine without faults, with a certificate for the new key and a CA from the
    server, [gssh-agentd run] comes up with exactly the configuration enrollment
    wrote and with that key pair. *)
Theorem enrolled_agent_starts `{AgentYAML} `{HostCrypto} `{Commands} `{HostEnv}
    random_hex o keyPEM r m m' :
  mc_Faults m = [] → writeAndActivate random_hex o keyPEM r m = (Ok (), m') →
  opt_AgentURL o ≠ "" → resp_HostID r ≠ "" → opt_SSHKeyPath o ≠ "" →
  key_pair (resp_MTLSCertificate r) keyPEM = true → cert_pool (resp_MTLSCA r) = true →
  ∃ d cmd, NewDaemon (opt_StateDir o) m' = (Ok d, m') ∧ d_Cfg d = enrolled_config o r cmd ∧
           d_ClientCert d = (resp_MTLSCertificate r, keyPEM).
Proof.
  intros Hnf Hrun Hurl Hid Hpath Hpair Hpool. unfold writeAndActivate in Hrun.
  apply io_bind_Ok in Hrun as (bin & m1 & E1 & Hrun).
  pose proof (free_resolve (opt_sshdBinary o) m Hnf) as Hn1. rewrite E1 in Hn1. simpl in Hn1.
  apply io_bind_Ok in Hrun as (cmd & m2 & E2 & Hrun).
  pose proof (free_reload_command o bin m1 Hn1) as Hn2. rewrite E2 in Hn2. simpl in Hn2.
  apply io_bind_Ok in Hrun as ([] & m3 & E3 & Hrun).
  pose proof (writeState_run _ o keyPEM r cmd m2 m3 Hn2 E3) as (Hkey & Hcert & Hca & Hconf).
  assert (FaultFree (writeState random_hex o keyPEM r cmd)) as Hfree by apply _.
  pose proof (Hfree m2 Hn2) as Hn3. rewrite E3 in Hn3. simpl in Hn3.
  apply io_bind_Ok in Hrun as ([] & m4 & E4 & Hrun).
  pose proof (free_write_checked o bin r m3 Hn3) as Hn4. rewrite E4 in Hn4. simpl in Hn4.
  assert (∀ path, state_file path → mc_Files m4 !! path = mc_Files m3 !! path) as Hleave.
  { intros path Hp. pose proof (leaves_checked path o bin r Hp m3) as Hl. by rewrite E4 in Hl. }
  pose proof (keeps_activate bin (opt_SSHDir o) cmd (opt_NoReload o) m4) as Hf5. rewrite Hrun in Hf5.
  pose proof (free_activate bin (opt_SSHDir o) cmd (opt_NoReload o) m4 Hn4) as Hn5. rewrite Hrun in Hn5.
  simpl in Hf5, Hn5.
  destruct (NewDaemon_written o keyPEM r cmd m') as (d & Hd & Hc & Hp); try done; [|by eauto].
  unfold state_written. rewrite Hf5, !Hleave; [done|..];
    eexists; (split; [first [apply ends_config|apply ends_ca|apply ends_cert|apply ends_key]|done]).
Qed.

(** *** PAM hooks *)
Lemma with_hook_marked existing binary stateDir :
  Contains (with_hook existing (pam_hook binary stateDir)) pamManagedMarker = true.
Proof.
  apply Contains_spec. unfold with_hook, pam_hook. eexists _, _. reflexivity.
Qed.
Lemma with_hook_keeps existing line : ∃ rest, with_hook existing line = existing +:+ rest.
Proof. unfold with_hook. destruct (_ || _); rewrite ?append_assoc; eauto. Qed.

(** The PAM hook is added once: enrolling again leaves the file as the first
    enrollment left it, and what the administrator had in it stays in front. *)
Theorem pam_hook_added_once path binary stateDir binary' stateDir' existing m :
  mc_Faults m = [] → mc_Files m !! path = Some existing →
  ∃ m' rest, ensurePAMLine path (pam_hook binary stateDir) m = (Ok (), m') ∧
  mc_Files m' !! path = Some (existing +:+ rest) ∧
  Contains (existing +:+ rest) pamManagedMarker = true ∧
  ensurePAMLine path (pam_hook binary' stateDir') m' = (Ok (), m').
Proof.
  intros Hnf Hfile. unfold ensurePAMLine at 1. unfold io_bind at 1, io_try at 1.
  rewrite ReadFile_ok, Hfile by done.
  destruct (Contains existing pamManagedMarker) eqn:Hc.
  - exists m, "". rewrite append_nil_r. split_and!; [done..|].
    unfold ensurePAMLine, io_bind, io_try. by rewrite ReadFile_ok, Hfile, Hc.
  - rewrite WriteFile_ok by done. set (m' := with_files _ m).
    destruct (with_hook_keeps existing (pam_hook binary stateDir)) as [rest Hrest].
    exists m', rest. assert (mc_Files m' !! path = Some (existing +:+ rest)) as Hm'.
    { simpl. by rewrite lookup_insert_eq, Hrest. }
    pose proof (with_hook_marked existing binary stateDir) as Hmark. rewrite Hrest in Hmark.
    split_and!; [done..|]. unfold ensurePAMLine, io_bind, io_try.
    by rewrite ReadFile_ok, Hm', Hmark.
Qed.

(** *** The probe ends *)
Lemma probe_loop_ends `{HostEnv} fuel addr reloaded deadline m :
  Forall (λ t, 0 ≤ t)%Z (mc_Ticks m) →
  (deadline - mc_Now m ≤ (Z.of_nat fuel - 1) * reloadPollInterval)%Z → (0 < fuel)%nat →
  ∃ key m', probe_loop fuel addr reloaded deadline m = (Ok (Some key), m').
Proof.
  revert m. induction fuel as [|fuel IH]; intros m Hticks Hfuel Hpos; [lia|]. cbn [probe_loop].
  unfold io_bind at 1, io_try at 1, io_call. set (m1 := with_counts _ _ _ m).
  set (key := probeHostKey addr (mc_Calls m)).
  destruct (_ || _); [by exists key, m1|].
  assert (∃ now m2, io_Now m1 = (Ok now, m2) ∧ (mc_Now m ≤ now)%Z ∧ mc_Now m2 = now ∧
    Forall (λ t, 0 ≤ t)%Z (mc_Ticks m2)) as (now & m2 & E2 & Hle & Hnow & Ht2).
  { unfold io_Now. simpl. destruct (mc_Ticks m) as [|t ts] eqn:Ht.
    - exists (mc_Now m), m1. split_and!; [done|lia|done|simpl; by rewrite Ht].
    - inversion_clear Hticks. do 2 eexists. split; [reflexivity|]. simpl. split_and!; [lia|done|done]. }
  unfold io_bind at 1. rewrite E2. unfold Before. destruct (Z.ltb_spec now deadline) as [Hlt|Hge]; simpl.
  - unfold io_bind, Sleep. apply IH; [done| |].
    + simpl. rewrite Nat2Z.inj_succ in Hfuel. lia.
    + destruct fuel; [|lia]. lia.
  - by exists key, m2.
Qed.
(** C40: Verification of the running sshd ends: while the clock does not run
    backwards, the probe gives up after at most fifty pauses, so it never runs out
    of fuel. *)
Theorem probe_terminates `{HostEnv} addr reloaded m :
  Forall (λ t, 0 ≤ t)%Z (mc_Ticks m) →
  ∃ key m', probeRunningSSHD addr reloaded m = (Ok (Some key), m').
Proof.
  intros Hticks. unfold probeRunningSSHD.
  assert (∃ now m1, io_Now m = (Ok now, m1) ∧ mc_Now m1 = now ∧ Forall (λ t, 0 ≤ t)%Z (mc_Ticks m1))
    as (now & m1 & E1 & Hnow & Ht1).
  { unfold io_Now. destruct (mc_Ticks m) as [|t ts] eqn:Ht.
    - exists (mc_Now m), m. by rewrite Ht.
    - inversion_clear Hticks. by do 2 eexists. }
  unfold io_bind at 1. rewrite E1. apply probe_loop_ends; [done| |unfold probe_fuel; lia].
  unfold probe_fuel, reloadPollInterval, reloadSettle, Add, Millisecond, Second. lia.
Qed.

(** ** Concrete runs *)
Definition toy_env : HostEnv := {|
  probeHostKey addr n := Ok (2 <? n)%N; os_Hostname := Some "web1";
  os_Executable := Some "/usr/sbin/gssh-agentd" |}.
Definition strict_sshd : Commands := {|
  exec _ argv _ := if bool_decide (argv = ["sshd"; "-t"]) then inr "bad configuration" else inl "";
  look_path _ := None |}.
Definition toy_sshd_config : string :=
  "# Debian" +:+ newline +:+ " include sshd_config.d/*.conf" +:+ newline +:+ "Match User git".
Definition toy_new_host : Machine := {|
  mc_Files := list_to_map [("/etc/ssh/sshd_config", toy_sshd_config);
    ("/etc/ssh/ssh_host_ed25519_key.pub", "key"); ("/etc/pam.d/sshd", "auth required")];
  mc_Dirs := {["/etc/pam.d"]}; mc_Now := 0; mc_Ticks := []; mc_Faults := []; mc_Calls := 0;
  mc_Random := 0; mc_Commands := [] |}.
Definition toy_options : EnrollOptions := {|
  opt_ServerURL := "https://gssh/"; opt_AgentURL := "https://agent"; opt_Token := "t";
  opt_Hostname := ""; opt_Tags := ∅; opt_PinSHA256 := ""; opt_StateDir := ""; opt_SSHDir := "";
  opt_SSHKeyPath := ""; opt_SessionAudit := true; opt_PAMDir := ""; opt_ReloadCommand := "reload";
  opt_NoReload := false; opt_sshdBinary := "sshd" |}.
Definition toy_enroll_answer : transport := λ n method url body,
  if bool_decide (method = "POST") && bool_decide (url = "https://gssh/v1/enroll") then
    Some {| ha_Status := 200; ha_Text := ""; ha_JSON := Some (JObj [("host_id", JStr "20");
      ("host_certificate", JStr "cert-web1"); ("user_ca_bundle", JStr "ca");
      ("mtls_certificate", JStr "crt-1"); ("mtls_ca", JStr "root")]) |}
  else None.
Definition toy_enrollment (c : Commands) (o : EnrollOptions) (m : Machine) : result unit * Machine :=
  Enroll (H := toy_yaml) (H0 := toy_host) (H1 := c) (H2 := toy_env)
    toy_enroll_answer (λ _, "cafe") o m.

(** The host enrolls: the probe sees the certificate the fourth time. *)
Example toy_enrollment_runs :
  let '(r, m) := toy_enrollment toy_commands toy_options toy_new_host in
  r = Ok () ∧ mc_Files m !! "/etc/ssh/ssh_host_ed25519_key-cert.pub" = Some ("cert-web1" +:+ newline) ∧
  mc_Files m !! "/var/lib/guided-ssh/socket-token" = Some "cafe" ∧ mc_Calls m = 4%N ∧
  mc_Commands m = [["sshd"; "-T"]; ["sh"; "-c"; "reload"]; ["sshd"; "-t"]].
Proof. vm_compute. repeat split. Qed.
(** An Include under a Match block, or in a comment, does not count. *)
Example toy_include_runs :
  includeCovers toy_sshd_config "/etc/ssh" = true ∧
  includeCovers ("Match User git" +:+ newline +:+ toy_sshd_config) "/etc/ssh" = false ∧
  includeCovers "#Include /etc/ssh/sshd_config.d/*.conf" "/etc/ssh" = false ∧
  includeCovers "Include /etc/ssh/*/*" "/etc/ssh" = true ∧
  includeCovers "Include /etc/ssh/*.conf" "/etc/ssh" = false.
Proof. vm_compute. repeat split. Qed.

Definition toy_response : enrollResponse := {|
  resp_HostID := "20"; resp_HostCertificate := "cert-web1"; resp_UserCABundle := "ca";
  resp_MTLSCertificate := "crt-1"; resp_MTLSCA := "root" |}.

(** A disk that fills up while the snippet is written: enrollment fails, and the
    cut snippet stays. *)
Example partial_snippet_stays :
  let '(r, m) := write_checked (H1 := toy_commands) (H2 := toy_env) (with_defaults toy_options "web1") "sshd"
    toy_response
    (with_faults [NoFault; NoFault; NoFault; NoFault; FailsAfter 3] toy_new_host) in
  is_ok r = false ∧ String.length <$> mc_Files m !! SnippetPath "/etc/ssh" = Some 3%nat.
Proof. vm_compute. done. Qed.

Lemma enrollment_writes_after_acceptance_witness :
  accepted toy_enroll_answer toy_options.
Proof.
  destruct (enrollment_writes_after_acceptance (H := toy_yaml) (H0 := toy_host) (H1 := toy_commands)
    (H2 := toy_env) toy_enroll_answer (λ _, "cafe") toy_options toy_new_host _ _
    (surjective_pairing _)) as [_ Hacc].
  apply Hacc. intros E. apply (f_equal (lookup "/var/lib/guided-ssh/socket-token")) in E.
  vm_compute in E. discriminate.
Defined.


Lemma pam_hook_added_once_witness :
  ∃ m' rest, ensurePAMLine "/etc/pam.d/sshd" (pam_hook "gssh-agentd" "/var/lib/guided-ssh") toy_new_host =
    (Ok (), m') ∧ mc_Files m' !! "/etc/pam.d/sshd" = Some ("auth required" +:+ rest) ∧
    Contains ("auth required" +:+ rest) pamManagedMarker = true ∧
    ensurePAMLine "/etc/pam.d/sshd" (pam_hook "other" "/srv") m' = (Ok (), m').
Proof. apply pam_hook_added_once; reflexivity. Defined.

Lemma probe_terminates_witness :
  ∃ key m', probeRunningSSHD (H0 := toy_env) "127.0.0.1:22" true (toy_machine [0; 5 * Second]%Z []) =
    (Ok (Some key), m').
Proof.
  apply (probe_terminates (H := toy_env)). repeat constructor; vm_compute; discriminate.
Defined.

Definition toy_activated : result unit * Machine :=
  writeAndActivate (H := toy_yaml) (H1 := toy_commands) (H2 := toy_env) (λ _, "cafe")
    (with_defaults toy_options "web1") "key-1" toy_response toy_new_host.
Lemma enrolled_agent_starts_witness :
  ∃ d, NewDaemon (H0 := toy_yaml) (H1 := toy_host) "/var/lib/guided-ssh" toy_activated.2 =
         (Ok d, toy_activated.2) ∧ d_ClientCert d = ("crt-1", "key-1").
Proof.
  destruct (enrolled_agent_starts (H := toy_yaml) (H0 := toy_host) (H1 := toy_commands)
    (H2 := toy_env) (λ _, "cafe") (with_defaults toy_options "web1") "key-1" toy_response
    toy_new_host toy_activated.2) as (d & cmd & Hd & _ & Hc).
  - reflexivity.
  - vm_compute. reflexivity.
  - discriminate.
  - discriminate.
  - discriminate.
  - reflexivity.
  - reflexivity.
  - exists d. split; [exact Hd|exact Hc].
Defined.
