(* ===== verification/AuditStream.v ===== *)
(** * The audit stream (internal/auditstream/stream.go)

    The streamer polls the audit table above the highest id it has seen and
    writes what it finds to the log and to a webhook. Other processes commit
    events between its queries; the step relation interleaves both. *)
From stdpp Require Import sorting.
From S2P Require Export StoreAudit GoEncoding.

Local Open Scope string_scope.
Local Open Scope list_scope.

Record Config := {
  HasLogger : bool;        (* Logger != nil *)
  LogEvents : bool; WebhookURL : string; Interval : Z
}.
Definition batchSize : nat := 500.

Record Streamer := { s_Config : Config; lastID : Z }.

Definition New (cfg : Config) : Streamer := {|
  s_Config := {| HasLogger := HasLogger cfg; LogEvents := LogEvents cfg; WebhookURL := WebhookURL cfg;
                 Interval := if (Interval cfg <=? 0)%Z then (10 * Second)%Z else Interval cfg |};
  lastID := 0 |}.
Definition with_last (id : Z) (s : Streamer) : Streamer :=
  {| s_Config := s_Config s; lastID := id |}.

(** What leaves the streamer: log lines, and requests to the webhook, which
    fails or not. *)
Inductive output :=
| AuditLine (e : AuditEvent)
| Request (url : string) (batch : list AuditEvent) (body : json)
| WebhookFailed (events : nat)
| StoreFailed (e : error).

Section stream.
Context `{Crypto} `{UUIDs} `{Encodings}.
(** The status the webhook answers a batch with; nothing: unreachable. *)
Variable webhook : json → option Z.

Definition eventJSON (e : AuditEvent) : option json :=
  at_ ← marshal_time (audit_OccurredAt e);
  Some (JObj [("id", JNum (audit_ID e)); ("occurred_at", at_); ("event_type", JStr (audit_EventType e));
              ("actor", JStr (audit_Actor e)); ("payload", audit_Payload e)]).

(** The request, if the batch can be encoded, and whether the delivery failed. *)
Definition postWebhook (s : Streamer) (events : list AuditEvent) : list output * bool :=
  match mapM eventJSON events with
  | None => ([], true)
  | Some out =>
      ([Request (WebhookURL (s_Config s)) events (JArr out)],
       match webhook (JArr out) with Some status => (300 <=? status)%Z | None => true end)
  end.

Definition emit (s : Streamer) (events : list AuditEvent) : list output :=
  let cfg := s_Config s in
  (if LogEvents cfg && HasLogger cfg then AuditLine <$> events else []) ++
  if bool_decide (WebhookURL cfg = "") then []
  else
    let '(sent, failed) := postWebhook s events in
    sent ++ (if failed && HasLogger cfg then [WebhookFailed (length events)] else []).

(** One query of [drain], and whether it polls again at once. *)
Definition poll (s : Streamer) : M (Streamer * list output * bool) :=
  let* events := try (ListAuditEventsAfter (lastID s) batchSize) in
  match events with
  | Err e => ret (s, if HasLogger (s_Config s) then [StoreFailed e] else [], false)
  | Ok events =>
      match last events with
      | None => ret (s, [], false)
      | Some e =>
          ret (with_last (audit_ID e) s, emit s events, negb (length events <? batchSize)%nat)
      end
  end.
(** [drain]; nothing when out of fuel. *)
Fixpoint drain (fuel : nat) (s : Streamer) : M (option (Streamer * list output)) :=
  match fuel with
  | O => ret None
  | S fuel =>
      let* '(s, outs, again) := poll s in
      if again then
        let* rest := drain fuel s in
        ret ((λ '(s, outs'), (s, outs ++ outs')) <$> rest)
      else ret (Some (s, outs))
  end.

(** [Run] up to the first tick: the position the stream starts from. *)
Definition start (s : Streamer) : M (option Streamer * list output) :=
  let* maxID := try MaxAuditEventID in
  match maxID with
  | Err e => ret (None, if HasLogger (s_Config s) then [StoreFailed e] else [])
  | Ok maxID => ret (Some (with_last maxID s), [])
  end.

(** ** Interleaving

    [committed w w' es]: other processes commit the events [es]. *)
Definition committed (w w' : World) (es : list AuditEvent) : Prop :=
  audit_events (w_db w') = audit_events (w_db w) ++ es.
(** The ids come from a sequence. *)
Definition good_ids (table : list AuditEvent) : Prop :=
  NoDup (audit_ID <$> table) ∧ ∀ e, e ∈ table → (0 < audit_ID e)%Z.
Definition in_order (w : World) (es : list AuditEvent) : Prop :=
  ∀ e e', e ∈ es → e' ∈ audit_events (w_db w) → (audit_ID e' < audit_ID e)%Z.

Definition state : Type := Streamer * World * list output.
(** [ordered]: events become visible in the order of their ids. *)
Inductive stream_step (ordered : bool) : state → state → Prop :=
| commits s w w' es outs :
    committed w w' es → good_ids (audit_events (w_db w')) → (ordered = true → in_order w es) →
    stream_step ordered (s, w, outs) (s, w', outs)
| polls s w s' w' outs new again :
    poll s w = (Ok (s', new, again), w') →
    stream_step ordered (s, w, outs) (s', w', outs ++ new).

(** The events in the log and in the requests. *)
Definition log_lines (outs : list output) : list AuditEvent :=
  omap (λ o, match o with AuditLine e => Some e | _ => None end) outs.
Definition requested (outs : list output) : list AuditEvent :=
  concat (omap (λ o, match o with Request _ batch _ => Some batch | _ => None end) outs).
End stream.

(** ** Lemmas *)

Lemma StronglySorted_take {A} (R : A → A → Prop) n l : StronglySorted R l → StronglySorted R (take n l).
Proof.
  intros Hl. revert n. induction Hl as [|x l Hl IH Hx]; intros [|n]; simpl; constructor; [done|].
  by apply Forall_take.
Qed.
Lemma StronglySorted_app_2 {A} (R : A → A → Prop) l1 l2 :
  StronglySorted R (l1 ++ l2) → ∀ x y, x ∈ l1 → y ∈ l2 → R x y.
Proof.
  induction l1 as [|z l1 IH]; simpl; intros Hs x y Hx Hy; [by apply elem_of_nil in Hx|].
  inversion_clear Hs as [|? ? Hs' Hz]. apply elem_of_cons in Hx as [->|Hx]; [|by apply IH].
  rewrite Forall_forall in Hz. apply Hz. set_solver.
Qed.
Lemma StronglySorted_app_join {A} (R : A → A → Prop) l1 l2 :
  StronglySorted R l1 → StronglySorted R l2 → (∀ x y, x ∈ l1 → y ∈ l2 → R x y) →
  StronglySorted R (l1 ++ l2).
Proof.
  induction 1 as [|z l1 Hl IH Hz]; simpl; intros H2 Hxy; [done|]. constructor.
  - apply IH; [done|]. set_solver.
  - apply Forall_app. split; [done|]. apply Forall_forall. set_solver.
Qed.

(** *** The rows of one query *)
Definition by_id (a b : AuditEvent) : Prop := (audit_ID a < audit_ID b)%Z.
Definition batch_after (after : Z) (n : nat) (table : list AuditEvent) : list AuditEvent :=
  take n (sort_by (λ a b, (audit_ID a <=? audit_ID b)%Z)
            (List.filter (λ e, (after <? audit_ID e)%Z) table)).

Lemma sorted_by_id l :
  NoDup (audit_ID <$> l) → StronglySorted (λ a b, (audit_ID a <=? audit_ID b)%Z = true) l →
  StronglySorted by_id l.
Proof.
  intros Hnd. induction 1 as [|x l Hl IH Hx]; [constructor|].
  apply NoDup_cons in Hnd as [Hx' Hnd]. constructor; [by apply IH|].
  rewrite Forall_forall in Hx |- *. intros y Hy. specialize (Hx y Hy). simpl in Hx.
  unfold by_id. apply Z.leb_le in Hx. assert (audit_ID x ≠ audit_ID y); [|lia].
  intros E. apply Hx'. rewrite E. by apply list_elem_of_fmap_2.
Qed.
Lemma batch_after_spec after n table :
  NoDup (audit_ID <$> table) →
  StronglySorted by_id (batch_after after n table) ∧
  (∀ e, e ∈ batch_after after n table → e ∈ table ∧ (after < audit_ID e)%Z) ∧
  (∀ e0 e, last (batch_after after n table) = Some e0 → e ∈ table →
     (after < audit_ID e ≤ audit_ID e0)%Z → e ∈ batch_after after n table).
Proof.
  intros Hnd. unfold batch_after. set (leb := λ a b : AuditEvent, _).
  set (found := List.filter _ _). set (L := sort_by leb found).
  assert (StronglySorted by_id L) as HL.
  { apply sorted_by_id.
    - unfold L. rewrite sort_by_perm. by apply fmap_NoDup_filter.
    - apply sort_by_sorted; unfold leb; intros; [lia|]. bool_to_prop. apply Z.leb_le. lia. }
  assert (∀ e, e ∈ L ↔ e ∈ table ∧ (after < audit_ID e)%Z) as Hin.
  { intros e. unfold L, found. by rewrite sort_by_elem, filter_bool_In, Z.ltb_lt. }
  split_and!.
  - by apply StronglySorted_take.
  - intros e He. apply Hin. rewrite <-(take_drop n L). set_solver.
  - intros e0 e Hlast He [Hlo Hhi]. assert (e ∈ L) as HeL by by apply Hin.
    rewrite <-(take_drop n L) in HeL, HL. apply elem_of_app in HeL as [?|Hd]; [done|].
    apply last_Some_elem_of in Hlast.
    pose proof (StronglySorted_app_2 _ _ _ HL e0 e Hlast Hd) as Hlt. unfold by_id in Hlt. lia.
Qed.
Lemma sorted_last l e0 : StronglySorted by_id l → last l = Some e0 →
  ∀ e, e ∈ l → (audit_ID e ≤ audit_ID e0)%Z.
Proof.
  intros Hs Hl e He. apply last_Some in Hl as [l' ->].
  apply elem_of_app in He as [He|He%list_elem_of_singleton]; [|by subst].
  pose proof (StronglySorted_app_2 _ _ _ Hs e e0 He ltac:(set_solver)) as H. unfold by_id in H. lia.
Qed.

(** *** What leaves the streamer *)
Section lemmas.
Context `{Crypto} `{UUIDs} `{Encodings}.
Variable webhook : json → option Z.

Lemma log_lines_app l1 l2 : log_lines (l1 ++ l2) = log_lines l1 ++ log_lines l2.
Proof. apply omap_app. Qed.
Lemma log_lines_emit s events :
  log_lines (emit webhook s events) =
  if LogEvents (s_Config s) && HasLogger (s_Config s) then events else [].
Proof.
  unfold emit. rewrite log_lines_app.
  assert (log_lines (if bool_decide (WebhookURL (s_Config s) = "") then []
    else let '(sent, failed) := postWebhook webhook s events in
         sent ++ (if failed && HasLogger (s_Config s) then [WebhookFailed (length events)] else [])) = [])
    as ->.
  { case_bool_decide; [done|]. unfold postWebhook. destruct (mapM eventJSON events) as [out|].
    - destruct (webhook (JArr out)) as [st|]; [destruct (300 <=? st)%Z|]; by destruct (HasLogger _).
    - by destruct (HasLogger _). }
  rewrite app_nil_r. destruct (_ && _); [|done].
  induction events as [|e events IH]; [done|]. rewrite <-IH at 2. done.
Qed.

Lemma poll_run s w s' new again w' :
  poll webhook s w = (Ok (s', new, again), w') →
  w_db w' = w_db w ∧
  let events := batch_after (lastID s) batchSize (audit_events (w_db w)) in
  (s' = s ∧ log_lines new = [] ∧ again = false ∧ (w_faults w = [] → events = [])) ∨
  ∃ e0, last events = Some e0 ∧ s' = with_last (audit_ID e0) s ∧ new = emit webhook s events ∧
        again = negb (length events <? batchSize)%nat.
Proof.
  unfold poll. intros Hrun. apply bind_Ok in Hrun as (r & w1 & Hr%try_run & Hrun).
  assert (w_db w1 = w_db w ∧ (r = Ok (batch_after (lastID s) batchSize (audit_events (w_db w))) ∨
            is_ok r = false ∧ w_faults w ≠ [])) as [Hdb Hcases].
  { unfold ListAuditEventsAfter, queryAll, sql_select, stmt in Hr.
    destruct (w_faults w) as [|[] fs]; injection Hr as <- <-; split; auto. }
  destruct Hcases as [->|[Hbad Hf]].
  - destruct (last _) as [e0|] eqn:Hlast; apply ret_Ok in Hrun as [[= <- <- <-] <-].
    + split; [done|]. right. by exists e0.
    + split; [done|]. left. split_and!; [done..|]. intros _. by apply last_None in Hlast.
  - destruct r as [|e]; [done|]. apply ret_Ok in Hrun as [[= <- <- <-] <-]. split; [done|]. left.
    by destruct (HasLogger _).
Qed.
Lemma poll_total s w : ∃ r w', poll webhook s w = (Ok r, w').
Proof.
  unfold poll, bind, try. destruct (ListAuditEventsAfter _ _ w) as [[events|e] w1].
  - destruct (last events); by do 2 eexists.
  - by do 2 eexists.
Qed.

(** *** The log holds exactly what was passed *)
Definition logging (s : Streamer) : Prop :=
  LogEvents (s_Config s) && HasLogger (s_Config s) = true.
(** The position is that of an event, or none was seen. *)
Definition position_ok (s : Streamer) (table : list AuditEvent) : Prop :=
  lastID s = 0%Z ∨ ∃ e, e ∈ table ∧ audit_ID e = lastID s.
Definition log_exact (from : Z) (s : Streamer) (table : list AuditEvent) (outs : list output) : Prop :=
  StronglySorted by_id (log_lines outs) ∧
  ∀ e, e ∈ log_lines outs ↔ e ∈ table ∧ (from < audit_ID e ≤ lastID s)%Z.

Definition stream_inv (from : Z) (st : state) : Prop :=
  let '(s, w, outs) := st in
  let table := audit_events (w_db w) in
  logging s ∧ good_ids table ∧ position_ok s table ∧ (from ≤ lastID s)%Z ∧ log_exact from s table outs.

Lemma commits_keep_inv from s w w' es outs :
  committed w w' es → good_ids (audit_events (w_db w')) → in_order w es →
  stream_inv from (s, w, outs) → stream_inv from (s, w', outs).
Proof.
  intros Hc Hids Hlt (Hlog & _ & Hposn & Hle & Hsort & Hex). unfold stream_inv.
  refine (conj Hlog (conj Hids (conj _ (conj Hle (conj Hsort _))))); rewrite Hc.
  - destruct Hposn as [?|(e & He & ?)]; [by left|]. right. exists e. set_solver.
  - intros e. rewrite Hex, elem_of_app. split; [naive_solver|].
    intros [[He|He] Hb]; [done|]. assert (lastID s < audit_ID e)%Z; [|lia].
    destruct Hposn as [->|(e' & He' & <-)]; [|by apply Hlt].
    apply Hids. rewrite Hc. set_solver.
Qed.
Lemma poll_keeps_inv from s w s' w' outs new again :
  poll webhook s w = (Ok (s', new, again), w') →
  stream_inv from (s, w, outs) → stream_inv from (s', w', outs ++ new).
Proof.
  intros (Hdb & Hcases)%poll_run (Hlog & Hids & Hposn & Hle & Hsort & Hex). unfold stream_inv.
  rewrite Hdb. unfold log_exact. rewrite log_lines_app.
  destruct Hcases as [(-> & -> & _)|(e0 & Hlast & -> & -> & _)]; [by rewrite app_nil_r|].
  rewrite log_lines_emit, Hlog. set (events := batch_after _ _ _) in *.
  destruct (batch_after_spec (lastID s) batchSize (audit_events (w_db w)) (proj1 Hids))
    as (Hs & Hsound & Hcompl). fold events in Hs, Hsound, Hcompl.
  pose proof (last_Some_elem_of _ _ Hlast) as He0. destruct (Hsound e0 He0) as [He0t Hgt].
  pose proof (sorted_last events e0 Hs Hlast) as Hmax.
  split_and!; [done|done|right; by exists e0|simpl; lia| |].
  - apply StronglySorted_app_join; [done..|]. intros x y Hx%Hex Hy%Hsound. unfold by_id. lia.
  - intros e. rewrite elem_of_app, Hex. simpl. split.
    + intros [[He Hb]|He]; [split; [done|lia]|]. destruct (Hsound e He).
      split; [done|]. specialize (Hmax e He). lia.
    + intros [He Hb]. destruct (Z.le_gt_cases (audit_ID e) (lastID s)); [left; split; [done|lia]|].
      right. apply (Hcompl e0); [done..|lia].
Qed.
End lemmas.

Section drains.
Context `{Crypto} `{UUIDs} `{Encodings}.
Variable webhook : json → option Z.

Lemma run_keeps_inv from st st' :
  rtc (stream_step webhook true) st st' → stream_inv from st → stream_inv from st'.
Proof.
  induction 1 as [|st1 st2 st3 Hstep _ IH]; [done|]. intros Hinv. apply IH.
  destruct Hstep; [eapply commits_keep_inv; eauto|by eapply poll_keeps_inv].
Qed.

Lemma max_id_attained table :
  (∀ e : AuditEvent, e ∈ table → (0 < audit_ID e)%Z) →
  let m := foldr Z.max 0%Z (List.map audit_ID table) in
  (m = 0%Z ∨ ∃ e, e ∈ table ∧ audit_ID e = m) ∧ ∀ e, e ∈ table → (audit_ID e ≤ m)%Z.
Proof.
  induction table as [|e table IH]; simpl; intros Hpos; [split; [by left|set_solver]|].
  destruct IH as [IH1 IH2]; [set_solver|]. simpl in IH1, IH2.
  set (m := foldr _ _ _) in *. split.
  - destruct (Z.max_spec (audit_ID e) m) as [[_ ->]|[_ ->]].
    + destruct IH1 as [?|(e' & ? & ?)]; [by left|right; exists e'; set_solver].
    + right. exists e. set_solver.
  - intros e' [->|He']%elem_of_cons; [lia|]. specialize (IH2 e' He'). lia.
Qed.
Lemma start_inv cfg w0 s w outs :
  start (New cfg) w0 = (Ok (Some s, outs), w) →
  good_ids (audit_events (w_db w0)) → LogEvents cfg && HasLogger cfg = true →
  w_db w = w_db w0 ∧ outs = [] ∧ stream_inv (lastID s) (s, w, []) ∧
  ∀ e, e ∈ audit_events (w_db w0) → (audit_ID e ≤ lastID s)%Z.
Proof.
  unfold start. intros Hrun Hids Hlog. apply bind_Ok in Hrun as (r & w1 & Hr%try_run & Hrun).
  destruct r as [m|e]; [|by apply ret_Ok in Hrun as [? ?]].
  apply ret_Ok in Hrun as [[= <- <-] <-].
  unfold MaxAuditEventID in Hr. repeat run_step. simplify_eq/=.
  destruct (max_id_attained (audit_events (w_db w0)) (proj2 Hids)) as [Hm Hle].
  refine (conj eq_refl (conj eq_refl (conj _ Hle))).
  refine (conj Hlog (conj Hids (conj _ (conj _ (conj _ _))))); [|done|constructor|].
  - destruct Hm as [?|(e & ? & ?)]; [by left|right; by exists e].
  - intros e. split; [by intros ?%elem_of_nil|]. simpl. lia.
Qed.
(** The events of the table above a position. *)
Definition above (after : Z) (table : list AuditEvent) : list AuditEvent :=
  List.filter (λ e, (after <? audit_ID e)%Z) table.
Lemma above_shrinks after e0 table :
  e0 ∈ table → (after < audit_ID e0)%Z →
  (length (above (audit_ID e0) table) < length (above after table))%nat.
Proof.
  intros (l1 & l2 & ->)%list_elem_of_split Hgt. unfold above.
  rewrite !List.filter_app, !length_app. simpl.
  destruct (Z.ltb_spec (audit_ID e0) (audit_ID e0)); [lia|].
  destruct (Z.ltb_spec after (audit_ID e0)); [|lia]. simpl.
  assert (∀ l, length (above (audit_ID e0) l) ≤ length (above after l))%nat as Hmono.
  { intros l. unfold above. rewrite <-(filter_filter (λ e : AuditEvent, (after <? audit_ID e)%Z)
      (λ e : AuditEvent, (audit_ID e0 <? audit_ID e)%Z) l) by (intros; bool_to_prop; apply Z.ltb_lt; lia).
    apply List.filter_length_le. }
  pose proof (Hmono l1) as H1m. pose proof (Hmono l2) as H2m. unfold above in H1m, H2m. lia.
Qed.
(** A batch that is not full has everything above. *)
Lemma short_batch after table e :
  (length (batch_after after batchSize table) < batchSize)%nat → e ∈ table → (after < audit_ID e)%Z →
  e ∈ batch_after after batchSize table.
Proof.
  unfold batch_after. set (L := sort_by _ _). intros Hlen He Hgt.
  rewrite length_take in Hlen. rewrite take_ge by lia.
  unfold L. apply sort_by_elem, filter_bool_In. by rewrite Z.ltb_lt.
Qed.

Lemma poll_same_world s w r w' :
  w_faults w = [] → poll webhook s w = (Ok r, w') → w' = w.
Proof.
  intros Hf. unfold poll, bind, try, ListAuditEventsAfter, queryAll, sql_select.
  rewrite stmt_nofault by done. destruct (last _); by intros [= _ <-].
Qed.
Lemma drain_run fuel s w :
  w_faults w = [] → NoDup (audit_ID <$> audit_events (w_db w)) →
  (length (above (lastID s) (audit_events (w_db w))) < fuel)%nat →
  ∃ s' outs, drain webhook fuel s w = (Ok (Some (s', outs)), w) ∧
  (∀ e, e ∈ audit_events (w_db w) → (audit_ID e ≤ lastID s')%Z) ∧
  ∀ ordered outs0, rtc (stream_step webhook ordered) (s, w, outs0) (s', w, outs0 ++ outs).
Proof.
  intros Hf Hnd. set (table := audit_events (w_db w)) in *. revert s.
  induction fuel as [|fuel IH]; intros s Hlen; [lia|]. cbn [drain].
  destruct (poll_total webhook s w) as ([[s1 new] again] & w1 & Hp).
  pose proof (poll_same_world _ _ _ _ Hf Hp) as ->.
  destruct (poll_run webhook s w s1 new again w Hp) as [_ Hcases]. fold table in Hcases.
  destruct (batch_after_spec (lastID s) batchSize table Hnd) as (Hs & Hsound & _).
  pose proof (short_batch (lastID s) table) as Hshort.
  unfold bind at 1. rewrite Hp.
  assert (∀ ordered outs0, rtc (stream_step webhook ordered) (s, w, outs0) (s1, w, outs0 ++ new)) as Hone
    by (intros; apply rtc_once; by eapply polls).
  destruct Hcases as [(-> & _ & -> & He)|(e0 & Hlast & -> & -> & ->)].
  { exists s, new. split_and!; [done| |done]. intros e Hin.
    destruct (Z.le_gt_cases (audit_ID e) (lastID s)) as [|Hgt]; [done|].
    specialize (Hshort e). rewrite (He Hf) in Hshort.
    assert (e ∈ []) as []%elem_of_nil. apply Hshort; [simpl; unfold batchSize; lia|done|lia]. }
  set (events := batch_after _ _ _) in *.
  destruct (Hsound e0 (last_Some_elem_of _ _ Hlast)) as [He0t Hgt].
  destruct (Nat.ltb_spec (length events) batchSize) as [Hlt|_]; simpl.
  - exists (with_last (audit_ID e0) s), (emit webhook s events). split_and!; [done| |done].
    intros e Hin. simpl. destruct (Z.le_gt_cases (audit_ID e) (lastID s)) as [|Hgt']; [lia|].
    apply (sorted_last events); [done..|]. apply Hshort; [done..|lia].
  - destruct (IH (with_last (audit_ID e0) s)) as (s' & outs & Hd & Hle & Hsteps).
    { pose proof (above_shrinks (lastID s) e0 table He0t Hgt). simpl. lia. }
    exists s', (emit webhook s events ++ outs). unfold bind. rewrite Hd. split_and!; [done..|].
    intros ordered outs0. etrans; [apply Hone|]. rewrite app_assoc. apply Hsteps.
Qed.
End drains.

(** C37: The stream is exact: however polls (failed ones too) and commits in the
    order of the event ids interleave after the start, the log has every audit
    event above the starting position and up to the current one exactly once,
    in order, and nothing that was there before. *)
Theorem stream_exactly_once `{Crypto} `{UUIDs} `{Encodings} webhook cfg w0 s0 outs0 w1 s w outs :
  start (New cfg) w0 = (Ok (Some s0, outs0), w1) →
  good_ids (audit_events (w_db w0)) → LogEvents cfg && HasLogger cfg = true →
  rtc (stream_step webhook true) (s0, w1, []) (s, w, outs) →
  StronglySorted by_id (log_lines outs) ∧
  (∀ e, e ∈ log_lines outs ↔
        e ∈ audit_events (w_db w) ∧ (lastID s0 < audit_ID e ≤ lastID s)%Z) ∧
  (∀ e, e ∈ log_lines outs → e ∉ audit_events (w_db w0)).
Proof.
  intros Hstart Hids Hlog Hrun. destruct (start_inv cfg w0 s0 w1 outs0) as (_ & _ & Hinv & Hold); [done..|].
  pose proof (run_keeps_inv webhook _ _ _ Hrun Hinv) as (_ & _ & _ & _ & Hsort & Hex).
  split_and!; [done..|]. intros e He%Hex Ho%Hold. lia.
Qed.

(** A drain catches up: without database errors [drain] ends within one
    query per event, and then the position is at the last event; its queries are
    steps of the interleaving. *)
Theorem drain_catches_up `{Crypto} `{UUIDs} `{Encodings} webhook s w :
  w_faults w = [] → good_ids (audit_events (w_db w)) →
  ∃ s' outs, drain webhook (S (length (audit_events (w_db w)))) s w = (Ok (Some (s', outs)), w) ∧
  (∀ e, e ∈ audit_events (w_db w) → (audit_ID e ≤ lastID s')%Z) ∧
  ∀ ordered outs0, rtc (stream_step webhook ordered) (s, w, outs0) (s', w, outs0 ++ outs).
Proof.
  intros Hf [Hnd _]. apply drain_run; [done..|]. unfold above.
  pose proof (List.filter_length_le (λ e : AuditEvent, (lastID s <? audit_ID e)%Z)
    (audit_events (w_db w))). lia.
Qed.

(** An event whose transaction commits after an event with a higher id was
    polled is lost: whatever is committed and polled from then on, it never
    reaches the log, although it is in the audit table. *)
Theorem late_commit_never_streamed `{Crypto} `{UUIDs} `{Encodings} webhook s w outs s' w' outs' e :
  rtc (stream_step webhook false) (s, w, outs) (s', w', outs') →
  good_ids (audit_events (w_db w)) →
  (audit_ID e ≤ lastID s)%Z → e ∉ log_lines outs → e ∉ log_lines outs'.
Proof.
  intros Hrun Hids Hle Hout.
  assert (let '(s, w, outs) := (s, w, outs) in
          good_ids (audit_events (w_db w)) ∧ (audit_ID e ≤ lastID s)%Z ∧ e ∉ log_lines outs) as Hinv by done.
  clear Hids Hle Hout. revert Hinv.
  remember (s', w', outs') as st' eqn:Est. revert s' w' outs' Est.
  generalize (s, w, outs) as st, Hrun. clear. intros st Hrun.
  induction Hrun as [[[s w] outs]|st1 st2 st3 Hstep _ IH]; intros s' w' outs' Est Hinv.
  { simplify_eq. apply Hinv. }
  eapply IH; [done|]. destruct Hstep as [s w w2 es outs Hc Hids _|s w s2 w2 outs new again Hp].
  - destruct Hinv as (_ & ? & ?). done.
  - destruct Hinv as (Hids & Hle & Hout).
    destruct (poll_run webhook _ _ _ _ _ _ Hp) as [Hdb Hcases]. rewrite Hdb, log_lines_app.
    destruct Hcases as [(-> & -> & _)|(e0 & Hlast & -> & -> & _)]; [by rewrite app_nil_r|].
    destruct (batch_after_spec (lastID s) batchSize _ (proj1 Hids)) as (_ & Hsound & _).
    destruct (Hsound e0 (last_Some_elem_of _ _ Hlast)) as [_ Hgt].
    split_and!; [done|simpl; lia|]. rewrite log_lines_emit.
    intros [?|Hin]%elem_of_app; [done|]. destruct (_ && _); [|by apply elem_of_nil in Hin].
    destruct (Hsound e Hin) as [_ Hgt']. lia.
Qed.

(** ** Concrete runs *)
Definition toy_stream_config : Config := {|
  HasLogger := true; LogEvents := true; WebhookURL := "https://siem"; Interval := 0 |}.
Definition toy_audit (id : Z) : AuditEvent := {|
  audit_ID := id; audit_OccurredAt := 0; audit_EventType := "ca.cert_issued"; audit_Actor := "alice";
  audit_Payload := JObj [] |}.
Definition toy_audit_world (ids : list Z) : @World toy_crypto :=
  toy_world (put_rows audit_events_table (toy_audit <$> ids) toy_db).
Definition toy_webhook (body : json) : option Z := Some 204%Z.
Definition toy_streamer (last : Z) : Streamer := with_last last (New toy_stream_config).

(** 501 new events take two queries: 500 and one, each a request. *)
Example toy_drain_runs :
  match (drain (H := toy_crypto) (H1 := toy_encodings) toy_webhook 3 (toy_streamer 1)
           (toy_audit_world (Z.of_nat <$> seq 1 502))).1 with
  | Ok (Some (s, outs)) =>
      lastID s = 502%Z ∧ length (log_lines outs) = 501%nat ∧ length (requested outs) = 501%nat ∧
      length outs = 503%nat
  | _ => False
  end.
Proof. vm_compute. repeat split. Qed.

Lemma toy_good_ids ids :
  bool_decide (NoDup ids) && forallb (λ i, 0 <? i)%Z ids = true →
  good_ids (audit_events (w_db (H := toy_crypto) (toy_audit_world ids))).
Proof.
  intros [Hnd%bool_decide_eq_true Hpos]%andb_true_iff.
  change (good_ids (toy_audit <$> ids)). split.
  - rewrite <-list_fmap_compose. change (NoDup (id <$> ids)). by rewrite list_fmap_id.
  - intros e (i & -> & Hi)%list_elem_of_fmap. rewrite forallb_elem in Hpos.
    specialize (Hpos i Hi). simpl in *. lia.
Qed.
Lemma toy_poll (last next : Z) (ids new : list Z) :
  poll (H := toy_crypto) (H1 := toy_encodings) toy_webhook (toy_streamer last) (toy_audit_world ids) =
    (Ok (toy_streamer next, emit (H1 := toy_encodings) toy_webhook (toy_streamer last) (toy_audit <$> new),
         false), toy_audit_world ids) →
  ∀ ordered outs, stream_step (H := toy_crypto) (H1 := toy_encodings) toy_webhook ordered
    (toy_streamer last, toy_audit_world ids, outs)
    (toy_streamer next, toy_audit_world ids,
     outs ++ emit (H1 := toy_encodings) toy_webhook (toy_streamer last) (toy_audit <$> new)).
Proof. intros Hp ordered outs. by eapply polls. Qed.
Lemma toy_commit last ids new ordered outs :
  bool_decide (NoDup (ids ++ new)) && forallb (λ i, 0 <? i)%Z (ids ++ new) = true →
  (ordered = true → in_order (toy_audit_world ids) (toy_audit <$> new)) →
  stream_step (H := toy_crypto) (H1 := toy_encodings) toy_webhook ordered
    (toy_streamer last, toy_audit_world ids, outs) (toy_streamer last, toy_audit_world (ids ++ new), outs).
Proof.
  intros Hids Hord. apply commits with (toy_audit <$> new); [|by apply toy_good_ids|done].
  change (toy_audit <$> ids ++ new = (toy_audit <$> ids) ++ (toy_audit <$> new)). apply fmap_app.
Qed.

Definition toy_emitted (last : Z) (new : list Z) : list output :=
  emit (H1 := toy_encodings) toy_webhook (toy_streamer last) (toy_audit <$> new).

Lemma stream_exactly_once_witness :
  StronglySorted by_id (log_lines (toy_emitted 1 [2; 3]%Z)) ∧
  ∀ e, e ∈ log_lines (toy_emitted 1 [2; 3]%Z) → e ∉ audit_events (w_db (H := toy_crypto) (toy_audit_world [1]%Z)).
Proof.
  destruct (stream_exactly_once (H := toy_crypto) (H0 := counting_uuids) (H1 := toy_encodings) toy_webhook
    toy_stream_config (toy_audit_world [1]%Z) (toy_streamer 1) [] (toy_audit_world [1]%Z)
    (toy_streamer 3) (toy_audit_world [1; 2; 3]%Z) (toy_emitted 1 [2; 3]%Z)) as (Hsort & _ & Hnew).
  - vm_compute. reflexivity.
  - apply toy_good_ids. reflexivity.
  - reflexivity.
  - eapply rtc_l; [apply (toy_commit 1 [1]%Z [2; 3]%Z); [reflexivity|]|].
    + intros _ e e' (i & -> & Hi)%list_elem_of_fmap (j & -> & Hj)%(list_elem_of_fmap toy_audit [1]%Z).
      simpl. set_unfold. lia.
    + apply rtc_once. apply (toy_poll 1 3 [1; 2; 3]%Z [2; 3]%Z). vm_compute. reflexivity.
  - split; [exact Hsort|exact Hnew].
Defined.

Lemma drain_catches_up_witness : ∃ s' outs,
  drain (H := toy_crypto) (H1 := toy_encodings) toy_webhook 4 (toy_streamer 1) (toy_audit_world [1; 2; 3]%Z) =
    (Ok (Some (s', outs)), toy_audit_world [1; 2; 3]%Z) ∧
  ∀ e, e ∈ audit_events (w_db (H := toy_crypto) (toy_audit_world [1; 2; 3]%Z)) → (audit_ID e ≤ lastID s')%Z.
Proof.
  destruct (drain_catches_up (H := toy_crypto) (H0 := counting_uuids) (H1 := toy_encodings) toy_webhook
    (toy_streamer 1) (toy_audit_world [1; 2; 3]%Z)) as (s' & outs & Hd & Hle & _).
  - reflexivity.
  - apply toy_good_ids. reflexivity.
  - exists s', outs. split; [exact Hd|exact Hle].
Defined.

(** The transaction of event 1 commits after event 2 was polled. *)
Lemma late_commit_never_streamed_witness :
  toy_audit 1 ∈ audit_events (w_db (H := toy_crypto) (toy_audit_world [2; 1; 3]%Z)) ∧
  toy_audit 1 ∉ log_lines (toy_emitted 0 [2]%Z ++ toy_emitted 2 [3]%Z).
Proof.
  split; [apply (list_elem_of_fmap_2 toy_audit [2; 1; 3]%Z 1%Z); set_solver|].
  apply (late_commit_never_streamed (H := toy_crypto) (H0 := counting_uuids) (H1 := toy_encodings)
    toy_webhook (toy_streamer 2) (toy_audit_world [2]%Z) (toy_emitted 0 [2]%Z) (toy_streamer 3)
    (toy_audit_world [2; 1; 3]%Z)).
  - eapply rtc_l; [apply (toy_commit 2 [2]%Z [1; 3]%Z); [reflexivity|done]|].
    apply rtc_once. apply (toy_poll 2 3 [2; 1; 3]%Z [3]%Z). vm_compute. reflexivity.
  - apply toy_good_ids. reflexivity.
  - simpl. lia.
  - intros Hin. vm_compute in Hin. set_solver.
Defined.
