(* ===== verification/ProxyTrust.v ===== *)
(** * Trust policy of the PROXY protocol (internal/proxytrust/proxytrust.go)

    Which peers of the agent listener must, and which must not, send a PROXY
    header. DNS answers are inputs; refreshes in the background are steps of
    their own between the connections. *)
From S2P Require Export GoNetip Http.

Local Open Scope string_scope.
Local Open Scope list_scope.

Definition DefaultRefresh : Z := (15 * Second)%Z.
Definition forcedInterval : Z := (2 * Second)%Z.

Record Trust := {
  prefixes : list Prefix; names : list string; t_refresh : Z;
  resolved : list Addr; lastForced : Z
}.
Definition with_resolved (addrs : list Addr) (t : Trust) : Trust := {|
  prefixes := prefixes t; names := names t; t_refresh := t_refresh t;
  resolved := addrs; lastForced := lastForced t |}.
Definition with_forced (now : Z) (t : Trust) : Trust := {|
  prefixes := prefixes t; names := names t; t_refresh := t_refresh t;
  resolved := resolved t; lastForced := now |}.

(** One resolution round: what the resolver says for each name. *)
Definition dns : Type := string → result (list Addr).

(** [Refresh]: all names, or nothing changes. *)
Definition resolve_one (lookup : dns) (acc : list Addr * list error) (name : string)
    : list Addr * list error :=
  let '(addrs, errs) := acc in
  match lookup name with
  | Err e => (addrs, errs ++ [ErrWrap ("resolve " +:+ name) e])
  | Ok [] => (addrs, errs ++ [ErrOther ("resolve " +:+ name +:+ ": no addresses")])
  | Ok got => (addrs ++ (Unmap <$> got), errs)
  end.
Definition resolve_all (lookup : dns) (ns : list string) : list Addr * list error :=
  foldl (resolve_one lookup) ([], []) ns.
Definition Refresh (lookup : dns) (t : Trust) : result Trust :=
  match names t with
  | [] => Ok t
  | _ =>
      match resolve_all lookup (names t) with
      | (addrs, []) => Ok (with_resolved addrs t)
      | (_, e :: _) => Err (ErrWrap "dns" e)
      end
  end.

(** [New]: the configured entries, and the first round. *)
Definition parse_entry (acc : result Trust) (raw : string) : result Trust :=
  match acc with
  | Err e => Err e
  | Ok t =>
      let entry := TrimSpace raw in
      if bool_decide (entry = "") then Ok t
      else if Contains entry "/" then
        match ParsePrefix entry with
        | None => Err (ErrOther ("trusted entry " +:+ entry))
        | Some p => Ok {| prefixes := prefixes t ++ [Masked p]; names := names t;
                          t_refresh := t_refresh t; resolved := resolved t; lastForced := lastForced t |}
        end
      else
        match ParseAddr entry with
        | Some a =>
            let a := Unmap a in
            Ok {| prefixes := prefixes t ++ [PrefixFrom a (BitLen a)]; names := names t;
                  t_refresh := t_refresh t; resolved := resolved t; lastForced := lastForced t |}
        | None => Ok {| prefixes := prefixes t; names := names t ++ [entry];
                        t_refresh := t_refresh t; resolved := resolved t; lastForced := lastForced t |}
        end
  end.
Definition New (lookup : dns) (trusted : list string) (refresh : Z) : result Trust :=
  let t := {| prefixes := []; names := [];
              t_refresh := if (refresh <=? 0)%Z then DefaultRefresh else refresh;
              resolved := []; lastForced := time_zero |} in
  match foldl parse_entry (Ok t) trusted with
  | Err e => Err e
  | Ok t => Refresh lookup t
  end.

Definition Empty (t : Trust) : bool :=
  match prefixes t, names t with [], [] => true | _, _ => false end.

Definition Trusted (t : Trust) (addr : Addr) : bool :=
  let addr := WithoutZone (Unmap addr) in
  existsb (λ p, Prefix_Contains p addr) (prefixes t) ||
  existsb (λ known, bool_decide (known = addr)) (resolved t).

(** A peer: the bytes of a TCP address, and the text of any address. *)
Inductive Peer :=
| NoPeer
| TCPPeer (ip : list Z) (text : string)
| OtherPeer (text : string).
Definition addr_of_text (text : string) : option Addr :=
  '(host, _) ← SplitHostPort text; Unmap <$> ParseAddr host.
Definition addrOf (peer : Peer) : option Addr :=
  match peer with
  | NoPeer => None
  | TCPPeer ip text =>
      match AddrFromSlice ip with
      | Some a => Some (Unmap a)
      | None => addr_of_text text
      end
  | OtherPeer text => addr_of_text text
  end.

(** [triggerRefresh]: the new state, and whether a round was started. *)
Definition triggerRefresh (now : Z) (t : Trust) : Trust * bool :=
  match names t with
  | [] => (t, false)
  | _ => if (Sub now (lastForced t) <? forcedInterval)%Z then (t, false) else (with_forced now t, true)
  end.

Inductive Policy := REQUIRE | REJECT.
#[export] Instance Policy_eq_dec : EqDecision Policy.
Proof. solve_decision. Defined.
(** [ConnPolicy]: the policy, whether the connection is dropped at once
    ([ErrInvalidUpstream]), the new state, and whether a round was started. *)
Definition ConnPolicy (now : Z) (peer : Peer) (t : Trust) : Policy * bool * Trust * bool :=
  if Empty t then (REQUIRE, false, t, false)
  else
    match addrOf peer with
    | None => (REJECT, true, t, false)
    | Some addr =>
        if Trusted t addr then (REQUIRE, false, t, false)
        else let '(t, started) := triggerRefresh now t in (REJECT, false, t, started)
    end.

(** ** The listener over time

    [Connect]: a connection and the policy it gets. [Resolve]: a round ends,
    of the ticker ([Run]) or one that a connection started. *)
Inductive event :=
| Connect (peer : Peer) (policy : Policy) (started : bool)
| Resolve (lookup : dns).
Inductive trust_step : Z * Trust → event → Z * Trust → Prop :=
| connects now now' t peer policy dropped t' started :
    (now ≤ now')%Z → ConnPolicy now' peer t = (policy, dropped, t', started) →
    trust_step (now, t) (Connect peer policy started) (now', t')
| resolves now now' t lookup :
    (now ≤ now')%Z → names t ≠ [] →
    trust_step (now, t) (Resolve lookup)
      (now', match Refresh lookup t with Ok t' => t' | Err _ => t end).
Inductive trust_run : Z * Trust → list event → Z * Trust → Prop :=
| run_nil st : trust_run st [] st
| run_cons st e st' es st'' : trust_step st e st' → trust_run st' es st'' → trust_run st (e :: es) st''.

Definition started_rounds (es : list event) : nat :=
  length (List.filter (λ e, match e with Connect _ _ true => true | _ => false end) es).

(** ** Lemmas *)

(** What an entry of the configuration trusts, given a round of DNS answers. *)
Definition same_prefix (p : Prefix) (a : Addr) : Prop :=
  BitLen (prefix_Addr p) = BitLen a ∧
  (addr_bits a / 2 ^ (BitLen a - prefix_Bits p) =
   addr_bits (prefix_Addr p) / 2 ^ (BitLen a - prefix_Bits p))%Z.
Definition trusts_entry (round : dns) (raw : string) (a : Addr) : Prop :=
  let entry := TrimSpace raw in
  entry ≠ "" ∧
  if Contains entry "/" then ∃ p, ParsePrefix entry = Some p ∧ same_prefix p a
  else match ParseAddr entry with
       | Some b => a = WithoutZone (Unmap b)
       | None => ∃ got b, round entry = Ok got ∧ b ∈ got ∧ a = Unmap b
       end.

(** *** One round *)
Definition answered (round : dns) (name : string) : bool :=
  match round name with Ok (_ :: _) => true | _ => false end.
Definition answers (round : dns) (ns : list string) : list Addr :=
  ns ≫= λ name, match round name with Ok got => Unmap <$> got | Err _ => [] end.

Lemma resolve_all_spec round ns :
  (forallb (answered round) ns = true → resolve_all round ns = (answers round ns, [])) ∧
  (forallb (answered round) ns = false → ∃ addrs e errs, resolve_all round ns = (addrs, e :: errs)).
Proof.
  unfold resolve_all, answers.
  assert (∀ ns addrs errs,
    (forallb (answered round) ns = true →
       foldl (resolve_one round) (addrs, errs) ns =
       (addrs ++ (ns ≫= λ name, match round name with Ok got => Unmap <$> got | Err _ => [] end), errs)) ∧
    (errs ≠ [] ∨ forallb (answered round) ns = false →
       ∃ addrs' e errs', foldl (resolve_one round) (addrs, errs) ns = (addrs', e :: errs'))) as Hgen.
  { clear. induction ns as [|n ns IH]; intros addrs errs; simpl.
    - split; [by rewrite app_nil_r|]. intros [He|]; [|done]. destruct errs; [done|eauto].
    - unfold answered at 1 3. destruct (round n) as [[|a got]|e] eqn:Hn; simpl; split; intros Hall;
        try done.
      + apply IH. left. by destruct errs.
      + destruct (IH (addrs ++ Unmap a :: (Unmap <$> got)) errs) as [E _].
        specialize (E Hall). by rewrite <-app_assoc in E.
      + apply IH. destruct Hall; [by left|by right].
      + apply IH. left. by destruct errs. }
  destruct (Hgen ns [] []) as [H1 H2]. split; [apply H1|]. intros Hf. apply H2. by right.
Qed.

Lemma Refresh_spec round t : names t ≠ [] →
  (forallb (answered round) (names t) = true →
     Refresh round t = Ok (with_resolved (answers round (names t)) t)) ∧
  (forallb (answered round) (names t) = false → ∃ e, Refresh round t = Err e).
Proof.
  intros Hn. destruct (resolve_all_spec round (names t)) as [H1 H2]. unfold Refresh.
  destruct (names t) as [|n ns] eqn:E; [done|]. split; intros Hall.
  - by rewrite H1.
  - destruct H2 as (addrs & e & errs & ->); [done|]. eauto.
Qed.

(** *** The configured entries *)
Definition entry_prefix (raw : string) : option Prefix :=
  let entry := TrimSpace raw in
  if bool_decide (entry = "") then None
  else if Contains entry "/" then Masked <$> ParsePrefix entry
  else match ParseAddr entry with
       | Some a => Some (PrefixFrom (Unmap a) (BitLen (Unmap a)))
       | None => None
       end.
Definition entry_name (raw : string) : option string :=
  let entry := TrimSpace raw in
  if bool_decide (entry = "") then None
  else if Contains entry "/" then None
  else match ParseAddr entry with Some _ => None | None => Some entry end.

(** An entry that is not blank is among what the configuration yields. *)
Ltac in_entries raw :=
  apply list_elem_of_omap; exists raw; split; [done|];
  unfold entry_prefix, entry_name; rewrite bool_decide_eq_false_2 by done.

Lemma parse_entries_Err e l : foldl parse_entry (Err e) l = Err e.
Proof. by induction l. Qed.
Lemma parse_entries trusted t t' :
  foldl parse_entry (Ok t) trusted = Ok t' →
  prefixes t' = prefixes t ++ omap entry_prefix trusted ∧
  names t' = names t ++ omap entry_name trusted ∧
  resolved t' = resolved t ∧ lastForced t' = lastForced t ∧
  (∀ raw, raw ∈ trusted → Contains (TrimSpace raw) "/" = true → is_Some (ParsePrefix (TrimSpace raw))).
Proof.
  revert t. induction trusted as [|raw l IH]; intros t; cbn [foldl].
  { intros [= <-]. simpl. rewrite !app_nil_r. split_and!; [done..|]. by intros raw ?%elem_of_nil. }
  unfold parse_entry at 2, entry_prefix, entry_name. simpl.
  case_bool_decide as Hempty.
  { intros (-> & -> & -> & -> & Hc)%IH. split_and!; [done..|].
    intros raw' [->|?]%elem_of_cons; [by rewrite Hempty|by apply Hc]. }
  destruct (Contains (TrimSpace raw) "/") eqn:Hslash.
  { destruct (ParsePrefix (TrimSpace raw)) as [p|] eqn:Hp; [|by rewrite parse_entries_Err].
    intros (-> & -> & -> & -> & Hc)%IH. simpl. rewrite <-app_assoc. split_and!; [done..|].
    intros raw' [->|?]%elem_of_cons Hs; [by rewrite Hp|by apply Hc]. }
  destruct (ParseAddr (TrimSpace raw)) as [a|]; intros (-> & -> & -> & -> & Hc)%IH; simpl;
    rewrite <-app_assoc; (split_and!; [done..|]); intros raw' [->|?]%elem_of_cons Hs; try congruence;
    by apply Hc.
Qed.

Lemma ParsePrefix_bits s p : ParsePrefix s = Some p →
  (0 ≤ prefix_Bits p ≤ BitLen (prefix_Addr p))%Z.
Proof.
  unfold ParsePrefix. intros Hp. destruct (before_last s "/") as [pre|]; [|done]. simpl in Hp.
  destruct (ParseAddr pre) as [a|]; [|done]. simpl in Hp. destruct (hasZone a); [done|].
  destruct (_ && _); [done|]. destruct (Atoi _) as [n|]; [|done]. simpl in Hp.
  destruct ((n <? 0)%Z || (BitLen a <? n)%Z) eqn:Hb; [done|]. simplify_eq/=. bool_to_prop.
  assert (BitLen (WithoutZone a) = BitLen a) as -> by by destruct a. lia.
Qed.
(** Any address without a zone: what [Trusted] compares. *)
Lemma full_prefix b a : hasZone a = false →
  Prefix_Contains (PrefixFrom b (BitLen b)) a = true ↔ a = WithoutZone b.
Proof.
  intros Hz. unfold Prefix_Contains, PrefixFrom. rewrite Hz.
  assert (BitLen (WithoutZone b) = BitLen b) as Hbl by by destruct b.
  simpl prefix_Addr. simpl prefix_Bits. rewrite Hbl. rewrite !andb_true_iff, !Z.eqb_eq.
  split.
  - intros [[_ Hl] Hbits]. rewrite Hl, Z.sub_diag, Z.shiftr_0_r, Z.lxor_eq_0_iff in Hbits.
    destruct a as [x|x zone], b as [y|y zone']; simpl in *; try done; simplify_eq; [done|].
    apply negb_false_iff, bool_decide_eq_true in Hz. by subst.
  - intros ->. split; [done|]. rewrite Hbl, Z.sub_diag, Z.shiftr_0_r.
    apply Z.lxor_eq_0_iff. by destruct b.
Qed.

Lemma contains_entry p a : hasZone a = false → (0 ≤ prefix_Bits p ≤ BitLen (prefix_Addr p))%Z →
  Prefix_Contains (Masked p) a = true ↔ same_prefix p a.
Proof.
  intros Hz Hb. rewrite Masked_contains by done. unfold same_prefix.
  destruct (decide (BitLen (prefix_Addr p) = BitLen a)) as [Hl|Hl].
  - rewrite Prefix_Contains_spec by lia. rewrite Hz. tauto.
  - unfold Prefix_Contains. rewrite (proj2 (Z.eqb_neq _ _) Hl), andb_false_r. simpl. naive_solver.
Qed.

(** The state matches a configuration and a complete round of answers. *)
Definition configured (trusted : list string) (round : dns) (t : Trust) : Prop :=
  prefixes t = omap entry_prefix trusted ∧ names t = omap entry_name trusted ∧
  resolved t = answers round (names t) ∧
  forallb (answered round) (names t) = true ∧
  (∀ raw, raw ∈ trusted → Contains (TrimSpace raw) "/" = true → is_Some (ParsePrefix (TrimSpace raw))).

Lemma New_configured round trusted refresh t :
  New round trusted refresh = Ok t → configured trusted round t ∧ lastForced t = time_zero.
Proof.
  unfold New. set (t0 := {| prefixes := [] |}).
  destruct (foldl parse_entry (Ok t0) trusted) as [t1|e] eqn:Hp; [|done]. intros Hr.
  destruct (parse_entries trusted t0 t1 Hp) as (Hpre & Hnames & Hres & Hlast & Hslash).
  destruct (decide (names t1 = [])) as [Hn|Hn].
  - unfold Refresh in Hr. rewrite Hn in Hr. simplify_eq. unfold configured. rewrite Hn. 
    rewrite Hn in Hnames. done.
  - destruct (Refresh_spec round t1 Hn) as [H1 H2].
    destruct (forallb (answered round) (names t1)) eqn:Hall.
    + rewrite H1 in Hr by done. simplify_eq. done.
    + destruct H2 as [e ?]; [done|]. congruence.
Qed.

Lemma entries_trusted trusted round t a :
  configured trusted round t → hasZone a = false →
  existsb (λ p, Prefix_Contains p a) (prefixes t) || existsb (λ known, bool_decide (known = a)) (resolved t) = true
  ↔ ∃ raw, raw ∈ trusted ∧ trusts_entry round raw a.
Proof.
  intros (Hpre & Hnames & Hres & Hall & Hslash) Hz. rewrite orb_true_iff, !existsb_elem. split.
  - intros [(p & Hp & Hc)|(b & Hb & ->%bool_decide_eq_true)].
    + rewrite Hpre in Hp. apply list_elem_of_omap in Hp as (raw & Hraw & Hp). exists raw. split; [done|].
      unfold entry_prefix in Hp. unfold trusts_entry. case_bool_decide; [done|]. split; [done|].
      destruct (Contains (TrimSpace raw) "/").
      * destruct (ParsePrefix (TrimSpace raw)) as [q|] eqn:Hq; [|done]. simpl in Hp. simplify_eq.
        exists q. split; [done|]. by apply contains_entry, Hc; [|eapply ParsePrefix_bits].
      * destruct (ParseAddr _) as [b|]; [|done]. simplify_eq. by apply full_prefix in Hc.
    + rewrite Hres, Hnames in Hb. unfold answers in Hb.
      apply list_elem_of_bind in Hb as (n & Hb & Hn). apply list_elem_of_omap in Hn as (raw & Hraw & Hn).
      exists raw. split; [done|]. unfold entry_name in Hn. unfold trusts_entry. case_bool_decide; [done|].
      split; [done|]. destruct (Contains (TrimSpace raw) "/"); [done|].
      destruct (ParseAddr _); [done|]. simplify_eq.
      destruct (round (TrimSpace raw)) as [got|e]; [|by apply elem_of_nil in Hb].
      apply list_elem_of_fmap in Hb as (c & -> & Hc). by exists got, c.
  - intros (raw & Hraw & Hne & Ht). destruct (Contains (TrimSpace raw) "/") eqn:Hs.
    + left. destruct Ht as (q & Hq & Hsame). exists (Masked q). split.
      * rewrite Hpre. in_entries raw. by rewrite Hs, Hq.
      * by apply contains_entry; [|eapply ParsePrefix_bits|].
    + destruct (ParseAddr (TrimSpace raw)) as [b|] eqn:Hb.
      * left. exists (PrefixFrom (Unmap b) (BitLen (Unmap b))). split; [|by apply full_prefix].
        rewrite Hpre. in_entries raw. by rewrite Hs, Hb.
      * right. destruct Ht as (got & b & Hgot & Hb' & ->). exists (Unmap b).
        rewrite bool_decide_true by done. split; [|done]. rewrite Hres, Hnames. unfold answers.
        apply list_elem_of_bind. exists (TrimSpace raw). rewrite Hgot. split.
        { by apply list_elem_of_fmap_2. }
        in_entries raw. by rewrite Hs, Hb.
Qed.

Lemma Empty_configured trusted round t : configured trusted round t →
  Empty t = true ↔ ∀ raw, raw ∈ trusted → TrimSpace raw = "".
Proof.
  intros (Hpre & Hnames & _ & _ & Hslash). unfold Empty. split.
  - destruct (prefixes t); [|done]. destruct (names t); [|done]. intros _ raw Hraw.
    destruct (decide (TrimSpace raw = "")) as [|Hne]; [done|]. exfalso.
    destruct (Contains (TrimSpace raw) "/") eqn:Hs.
    + destruct (Hslash raw Hraw Hs) as [p Hp].
      assert (Masked p ∈ omap entry_prefix trusted) as Hin.
      { in_entries raw. by rewrite Hs, Hp. }
      rewrite <-Hpre in Hin. by apply elem_of_nil in Hin.
    + destruct (ParseAddr (TrimSpace raw)) as [b|] eqn:Hb.
      * assert (PrefixFrom (Unmap b) (BitLen (Unmap b)) ∈ omap entry_prefix trusted) as Hin.
        { in_entries raw. by rewrite Hs, Hb. }
        rewrite <-Hpre in Hin. by apply elem_of_nil in Hin.
      * assert (TrimSpace raw ∈ omap entry_name trusted) as Hin.
        { in_entries raw. by rewrite Hs, Hb. }
        rewrite <-Hnames in Hin. by apply elem_of_nil in Hin.
  - intros Hblank. rewrite Hpre, Hnames.
    assert (∀ {B} (f : string → option B), (∀ raw, TrimSpace raw = "" → f raw = None) → omap f trusted = []) as Hno.
    { intros B f Hf. clear Hpre Hnames Hslash. induction trusted as [|raw l IH]; [done|]. simpl.
      rewrite Hf by (apply Hblank; set_solver). apply IH. intros. apply Hblank. set_solver. }
    rewrite !Hno; [done|..]; intros raw Hraw; unfold entry_name, entry_prefix; by rewrite bool_decide_true.
Qed.

(** *** Over time *)
(** The last round in which every name was answered. *)
Definition last_good (ns : list string) (round : dns) (es : list event) : dns :=
  foldl (λ good e, match e with
    | Resolve lookup => if forallb (answered lookup) ns then lookup else good
    | _ => good
    end) round es.

Lemma ConnPolicy_configured trusted round now peer t policy dropped t' started :
  ConnPolicy now peer t = (policy, dropped, t', started) →
  configured trusted round t → configured trusted round t'.
Proof.
  unfold ConnPolicy, triggerRefresh. intros Hc Hconf.
  repeat (case_match; simplify_eq; try done).
Qed.
Lemma run_configured trusted round st es st' :
  trust_run st es st' → configured trusted round st.2 →
  configured trusted (last_good (names st.2) round es) st'.2 ∧ names st'.2 = names st.2.
Proof.
  intros Hrun. revert round. induction Hrun as [st|st e st1 es st2 Hstep _ IH]; intros round Hconf; [done|].
  destruct Hstep as [now now' t peer policy dropped t1 started _ Hc|now now' t lookup _ Hn]; simpl in *.
  - assert (names t1 = names t) as Hnames.
    { destruct (ConnPolicy_configured trusted round _ _ _ _ _ _ _ Hc Hconf) as (_ & -> & _).
      by destruct Hconf as (_ & -> & _). }
    rewrite <-Hnames. apply IH. by eapply ConnPolicy_configured.
  - destruct (Refresh_spec lookup t Hn) as [H1 H2].
    destruct (forallb (answered lookup) (names t)) eqn:Hall.
    + specialize (H1 eq_refl). rewrite H1 in *. apply (IH lookup).
      destruct Hconf as (Hpre & Hnames & _ & _ & Hs). done.
    + destruct H2 as [e He]; [done|]. rewrite He in *. by apply IH.
Qed.

(** C38: The trust policy is the configuration: whatever connections and DNS
    rounds came before, a peer is required to send a PROXY header exactly if no
    entry is configured, or its address is in a configured prefix, equal to a
    configured address, or among the addresses of a configured name in the last
    round that answered every name; everyone else may not send one. *)
Theorem policy_follows_configuration round trusted refresh t0 now0 es now t now' peer :
  New round trusted refresh = Ok t0 → trust_run (now0, t0) es (now, t) →
  (ConnPolicy now' peer t).1.1.1 = REQUIRE ↔
  (∀ raw, raw ∈ trusted → TrimSpace raw = "") ∨
  ∃ a raw, addrOf peer = Some a ∧ raw ∈ trusted ∧
           trusts_entry (last_good (names t0) round es) raw (WithoutZone (Unmap a)).
Proof.
  intros [Hconf _]%New_configured Hrun.
  destruct (run_configured trusted round _ _ _ Hrun Hconf) as [Hconf' _]. simpl in Hconf'.
  unfold ConnPolicy. rewrite <-(Empty_configured trusted _ t Hconf').
  destruct (Empty t) eqn:Hempty; simpl; [by split; [left|]|].
  destruct (addrOf peer) as [a|] eqn:Ha; simpl; [|split; [done|naive_solver]].
  assert (hasZone (WithoutZone (Unmap a)) = false) as Hz.
  { unfold hasZone, WithoutZone. by destruct (Unmap a). }
  pose proof (entries_trusted trusted _ t _ Hconf' Hz) as Hiff. unfold Trusted.
  destruct (_ || _) eqn:Ht; simpl; [apply proj1 in Hiff|apply proj2 in Hiff].
  - split; [|done]. intros _. right. destruct (Hiff eq_refl) as (raw & ? & ?). eauto.
  - destruct (triggerRefresh now' t). simpl. split; [done|].
    intros [?|(a' & raw & [= <-] & Hraw & Htr)]; [done|]. discriminate Hiff. eauto.
Qed.

(** *** Rounds started by connections *)
Lemma started_bound st es st' : trust_run st es st' →
  (st.1 ≤ st'.1)%Z ∧
  (Z.of_nat (started_rounds es) * forcedInterval ≤ Z.max 0 (st'.1 - lastForced st.2))%Z ∧
  (Z.of_nat (started_rounds es) * forcedInterval ≤ st'.1 - st.1 + forcedInterval)%Z.
Proof.
  unfold started_rounds.
  induction 1 as [st|st e st1 es st2 Hstep _ (IHt & IHf & IHb)]; simpl; [unfold forcedInterval, Second; lia|].
  assert (0 < forcedInterval)%Z as Hpos by (unfold forcedInterval, Second; lia).
  destruct Hstep as [now now' t peer policy dropped t1 started Hle Hc|now now' t lookup Hle Hn]; simpl in *.
  - assert (started = false ∧ t1 = t ∨
      started = true ∧ lastForced t1 = now' ∧ (lastForced t + forcedInterval ≤ now')%Z) as Hcases.
    { unfold ConnPolicy, triggerRefresh in Hc. repeat (case_match; simplify_eq; auto).
      right. split_and!; [done..|]. bool_to_prop.
      assert (¬ Sub now' (lastForced t) ≤ forcedInterval - 1)%Z as HS by lia.
      rewrite Sub_le in HS by (unfold in_int64, int64_min, int64_max, forcedInterval, Second; lia). lia. }
    destruct Hcases as [[-> ->]|(-> & Hf & Hgap)]; simpl; [lia|]. rewrite Hf in IHf. lia.
  - assert (lastForced (match Refresh lookup t with Ok t' => t' | Err _ => t end) = lastForced t) as E.
    { unfold Refresh. destruct (names t); [done|]. by destruct (resolve_all _ _) as [? []]. }
    rewrite E in IHf. lia.
Qed.

(** Unknown peers cannot drive DNS traffic: however many connect, in any
    order and at any times, the rounds they start in a span of time are at most
    one per two seconds, plus one. *)
Theorem forced_rounds_bounded now0 t0 es now t :
  trust_run (now0, t0) es (now, t) →
  (Z.of_nat (started_rounds es) ≤ (now - now0) / forcedInterval + 1)%Z.
Proof.
  intros (Hle & _ & Hb)%started_bound. simpl in *.
  assert (0 < forcedInterval)%Z as Hpos by (unfold forcedInterval, Second; lia).
  apply (Z.div_le_mono _ _ forcedInterval) in Hb; [|done].
  rewrite Z.div_mul in Hb by lia.
  replace (now - now0 + forcedInterval)%Z with (now - now0 + 1 * forcedInterval)%Z in Hb by lia.
  by rewrite Z.div_add in Hb by lia.
Qed.

(** ** Concrete runs *)
Definition toy_dns (pod : Z) : dns := λ name,
  if bool_decide (name = "ingress") then Ok [IPv6 (65535 * 2 ^ 32 + pod) ""] else Err (ErrOther "no such host").
Definition dead_dns : dns := λ _, Err (ErrOther "timeout").
Definition toy_entries : list string := [" 10.0.0.0/8 "; ""; "fe80::1%eth0"; "ingress"].
Definition toy_trust : result Trust := New (toy_dns 1) toy_entries 0.
Example toy_policy_runs :
  let ask peer := match toy_trust with Ok t => Some (ConnPolicy 0 peer t).1.1 | Err _ => None end in
  ask (TCPPeer [10; 9; 8; 7]%Z "") = Some (REQUIRE, false) ∧
  ask (TCPPeer [0; 0; 0; 1]%Z "") = Some (REQUIRE, false) ∧
  ask (TCPPeer [0; 0; 0; 2]%Z "") = Some (REJECT, false) ∧
  ask (OtherPeer "[fe80::1%eth1]:22") = Some (REQUIRE, false) ∧ ask (OtherPeer "@") = Some (REJECT, true) ∧
  is_ok (New dead_dns toy_entries 0) = false ∧ is_ok (New dead_dns ["10.0.0.0/33"] 0) = false.
Proof. vm_compute. repeat split. Qed.
(** A mapped prefix is accepted, and trusts nobody. *)
Example mapped_prefix_is_useless :
  match New dead_dns ["::ffff:10.0.0.0/104"] 0 with
  | Ok t => (ConnPolicy 0 (TCPPeer [10; 9; 8; 7]%Z "") t).1.1 = (REJECT, false) ∧
            (ConnPolicy 0 (OtherPeer "[::ffff:10.9.8.7]:22") t).1.1 = (REJECT, false)
  | Err _ => False
  end.
Proof. vm_compute. done. Qed.

(** A new pod connects twice, is refused, and starts one round, whose answer
    trusts it; a failed round later changes nothing. *)
Definition toy_trust0 : Trust := {|
  prefixes := [{| prefix_Addr := IPv4 167772160; prefix_Bits := 8 |};
    {| prefix_Addr := IPv6 (65152 * 2 ^ 112 + 1) ""; prefix_Bits := 128 |}];
  names := ["ingress"]; t_refresh := (15 * Second)%Z; resolved := [IPv4 1]; lastForced := time_zero |}.
Definition pod (n : Z) : Peer := TCPPeer [0; 0; 0; n]%Z "".
Definition toy_history : list event := [
  Connect (pod 2) REJECT true; Connect (pod 2) REJECT false; Resolve (toy_dns 2); Resolve dead_dns].
Lemma toy_history_runs :
  trust_run (0%Z, toy_trust0) toy_history (Second, with_resolved [IPv4 2] (with_forced 0 toy_trust0)).
Proof.
  repeat (eapply run_cons; [first
    [ eapply connects with (now' := 0%Z); [lia|vm_compute; reflexivity]
    | eapply resolves with (now' := Second); [done|discriminate] ]|]).
  apply run_nil.
Qed.
Lemma policy_follows_configuration_witness :
  New (toy_dns 1) toy_entries 0 = Ok toy_trust0 ∧
  ∃ a raw, addrOf (pod 2) = Some a ∧ raw ∈ toy_entries ∧
           trusts_entry (last_good ["ingress"] (toy_dns 1) toy_history) raw (WithoutZone (Unmap a)).
Proof.
  split; [vm_compute; reflexivity|].
  destruct (proj1 (policy_follows_configuration (toy_dns 1) toy_entries 0 toy_trust0 0 toy_history Second
    (with_resolved [IPv4 2] (with_forced 0 toy_trust0)) Second (pod 2) ltac:(vm_compute; reflexivity)
    toy_history_runs) ltac:(vm_compute; reflexivity)) as [Hblank|Hex].
  - exfalso. specialize (Hblank "ingress" ltac:(set_solver)). vm_compute in Hblank. discriminate.
  - exact Hex.
Defined.
Lemma forced_rounds_bounded_witness :
  (Z.of_nat (started_rounds toy_history) ≤ (Second - 0) / forcedInterval + 1)%Z ∧
  started_rounds toy_history = 1%nat.
Proof.
  split; [|reflexivity].
  apply (forced_rounds_bounded 0 toy_trust0 toy_history Second
    (with_resolved [IPv4 2] (with_forced 0 toy_trust0)) toy_history_runs).
Defined.
