(* ===== verification/Rules.v ===== *)
(** * Declarative rule files (internal/rulespec/rulespec.go,
      internal/rulesync/rulesync.go)

    Loading of the rule files above the YAML decoder, and the reconciler that
    applies them to the database tick by tick. [files path] is what the file
    holds, or the error of reading it, at the time of the tick. *)
From S2P Require Export StoreCIGrants.

Local Open Scope string_scope.
Local Open Scope list_scope.

Definition EnvManualRules := "GSSH_MANUAL_RULES".
Definition EnvHostRulesFile := "GSSH_HOST_RULES_FILE".
Definition EnvCIRulesFile := "GSSH_CI_RULES_FILE".

Record GrantEntry := {
  entry_Group : string; entry_Issuer : string; entry_Tags : gmap string string;
  entry_Principals : list string; entry_Sudo : bool; entry_MaxValidity : Z
}.
Definition GrantEntry_Spec (e : GrantEntry) : GrantSpec := {|
  spec_Group := entry_Group e; spec_Issuer := entry_Issuer e; spec_TagSelector := entry_Tags e;
  spec_Principals := entry_Principals e; spec_Sudo := entry_Sudo e;
  spec_MaxValiditySeconds := to_seconds (entry_MaxValidity e) |}.

Record CIGrantEntry := {
  cientry_Project : string; cientry_Ref : string; cientry_ProtectedOnly : option bool;
  cientry_Environment : string; cientry_Tags : gmap string string;
  cientry_Principals : list string; cientry_MaxValidity : Z
}.
Definition CIGrantEntry_Spec (e : CIGrantEntry) : CIGrantSpec := {|
  cispec_ProjectPath := cientry_Project e; cispec_RefPattern := cientry_Ref e;
  cispec_ProtectedOnly := default true (cientry_ProtectedOnly e);
  cispec_EnvironmentPattern := cientry_Environment e; cispec_TagSelector := cientry_Tags e;
  cispec_Principals := cientry_Principals e;
  cispec_MaxValiditySeconds := to_seconds (cientry_MaxValidity e) |}.

(** A missing key is not an empty list. *)
Record rulesFile := { file_Grants : option (list GrantEntry); file_CIGrants : option (list CIGrantEntry) }.

(** gopkg.in/yaml.v3 with known fields only, given the decoder of a duration's
    text: a document, nothing for an empty file ([io.EOF]), or an error. *)
Class RulesYAML := {
  yaml_rules : (string → option Z) → string → option (option rulesFile)
}.

Section rules.
Context `{Crypto} `{UUIDs} `{MapOrder} `{RulesYAML}.
Variable files : string → result string.

Definition decodeFile (path : string) : result rulesFile :=
  match files path with
  | Err e => Err (ErrWrap "read rules file" e)
  | Ok raw =>
      match yaml_rules ParseDuration raw with
      | None => Err (ErrOther ("rules file " +:+ path))
      | Some None => Ok {| file_Grants := None; file_CIGrants := None |}
      | Some (Some file) => Ok file
      end
  end.
Definition errMissingGrants (path : string) : error :=
  ErrOther ("rules file " +:+ path +:+ ": missing top-level grants key").
Definition errMissingCIGrants (path : string) : error :=
  ErrOther ("rules file " +:+ path +:+ ": missing top-level ci_grants key").

Definition grantSpecs (entries : list GrantEntry) : list GrantSpec := GrantEntry_Spec <$> entries.
Definition ciGrantSpecs (entries : list CIGrantEntry) : list CIGrantSpec := CIGrantEntry_Spec <$> entries.

Definition LoadHostRules (path : string) : result (list GrantSpec) :=
  match decodeFile path with
  | Err e => Err e
  | Ok file =>
      match file_CIGrants file, file_Grants file with
      | Some _, _ => Err (ErrOther ("host rules file " +:+ path +:+ ": unexpected ci_grants key"))
      | None, None => Err (errMissingGrants path)
      | None, Some entries => Ok (grantSpecs entries)
      end
  end.
Definition LoadCIRules (path : string) : result (list CIGrantSpec) :=
  match decodeFile path with
  | Err e => Err e
  | Ok file =>
      match file_Grants file, file_CIGrants file with
      | Some _, _ => Err (ErrOther ("CI rules file " +:+ path +:+ ": unexpected grants key"))
      | None, None => Err (errMissingCIGrants path)
      | None, Some entries => Ok (ciGrantSpecs entries)
      end
  end.
(** The combined file of [gssh-admin apply]: no CI section leaves CI rules alone. *)
Definition LoadCombined (path : string) : result (list GrantSpec * option (list CIGrantSpec)) :=
  match decodeFile path with
  | Err e => Err e
  | Ok file =>
      match file_Grants file with
      | None => Err (errMissingGrants path)
      | Some entries => Ok (grantSpecs entries, ciGrantSpecs <$> file_CIGrants file)
      end
  end.

(** ** The reconciler *)
Definition Actor := "system:rules-file".
Definition DefaultInterval : Z := (30 * Second)%Z.

Record SyncConfig := {
  HostFile : string; CIFile : string; DefaultIssuer : string; SyncInterval : Z
}.
Definition NewSyncer (cfg : SyncConfig) : SyncConfig := {|
  HostFile := HostFile cfg; CIFile := CIFile cfg; DefaultIssuer := DefaultIssuer cfg;
  SyncInterval := if (SyncInterval cfg <=? 0)%Z then DefaultInterval else SyncInterval cfg |}.
Definition Enabled (cfg : SyncConfig) : bool :=
  negb (bool_decide (HostFile cfg = "")) || negb (bool_decide (CIFile cfg = "")).

Definition syncHost (cfg : SyncConfig) : M unit :=
  match LoadHostRules (HostFile cfg) with
  | Err e => fail (ErrWrap ("host rules (" +:+ EnvHostRulesFile +:+ ")") e)
  | Ok specs =>
      let* result := wrap ("apply host rules from " +:+ HostFile cfg)
                       (ApplyGrants Actor (DefaultIssuer cfg) specs) in
      ret ()
  end.
Definition syncCI (cfg : SyncConfig) : M unit :=
  match LoadCIRules (CIFile cfg) with
  | Err e => fail (ErrWrap ("ci rules (" +:+ EnvCIRulesFile +:+ ")") e)
  | Ok specs =>
      let* result := wrap ("apply ci rules from " +:+ CIFile cfg) (ApplyCIGrants Actor specs) in
      ret ()
  end.
(** One domain of [Sync]: its error, under the label it is counted with. *)
Definition sync_domain (label path : string) (sync : M unit) : M (list (string * error)) :=
  if bool_decide (path = "") then ret []
  else
    let* r := try sync in
    ret match r with Ok _ => [] | Err e => [(label, e)] end.
(** [Sync]: every domain is tried; the errors of all of them. *)
Definition Sync (cfg : SyncConfig) : M (list (string * error)) :=
  let* host := sync_domain "host" (HostFile cfg) (syncHost cfg) in
  let* ci := sync_domain "ci" (CIFile cfg) (syncCI cfg) in
  ret (host ++ ci).
End rules.

(** ** The two domains do not touch each other *)
Definition same_host : relation Db := λ a b, groups b = groups a ∧ access_grants b = access_grants a.
Definition same_ci : relation Db := λ a b, ci_grants b = ci_grants a.
#[export] Instance same_host_preorder : PreOrder same_host.
Proof. split; [done|]. intros a b c [H1 H2] [H3 H4]. split; congruence. Qed.
#[export] Instance same_ci_preorder : PreOrder same_ci.
Proof. split; [done|]. intros a b c H1 H2. unfold same_ci in *. congruence. Qed.

Section domains.
Context `{Crypto} `{UUIDs} `{MapOrder}.

#[export] Instance host_audit_table : KeepsTable same_host audit_events_table.
Proof. done. Qed.
#[export] Instance host_ci_table : KeepsTable same_host ci_grants_table.
Proof. done. Qed.
#[export] Instance ci_audit_table : KeepsTable same_ci audit_events_table.
Proof. done. Qed.
#[export] Instance ci_grants_keeps : KeepsTable same_ci access_grants_table.
Proof. done. Qed.
#[export] Instance ci_groups_keeps : KeepsTable same_ci groups_table.
Proof. done. Qed.
#[export] Instance audit_same_host e : Keeps same_host (insertAuditEvent e).
Proof. apply keeps_stmt; [apply _|]. done. Qed.
#[export] Instance audit_same_ci e : Keeps same_ci (insertAuditEvent e).
Proof. apply keeps_stmt; [apply _|]. done. Qed.
#[export] Instance audit_frames e : Frames (insertAuditEvent e).
Proof. apply frames_stmt. intros w. split; simpl; [done|lia]. Qed.

#[export] Instance ensureGroup_frames issuer name : Frames (ensureGroupTx issuer name).
Proof.
  unfold ensureGroupTx. apply frames_bind; [apply _|]. intros [g|e]; [apply _|].
  destruct (errors_Is e ErrNotFound); apply _.
Qed.
#[export] Instance ensureGroup_ci issuer name : Keeps same_ci (ensureGroupTx issuer name).
Proof.
  unfold ensureGroupTx. apply keeps_bind; [apply _..|]. intros [g|e]; [apply _|].
  destruct (errors_Is e ErrNotFound); apply _.
Qed.
#[export] Instance ApplyGrants_frames a d specs : Frames (ApplyGrants a d specs).
Proof.
  unfold ApplyGrants. apply frames_BeginFunc, frames_bind; [apply _|]. intros existing.
  apply frames_reconcile.
  - intros sp. unfold create_from_spec, createGrantTx. apply _.
  - intros r sp. unfold update_from_spec, updateGrantTx. apply _.
  - intros r. unfold delete_grant_row, deleteGrantTx. apply _.
Qed.
#[export] Instance ApplyGrants_ci a d specs : Keeps same_ci (ApplyGrants a d specs).
Proof.
  unfold ApplyGrants. apply keeps_BeginFunc; [apply _|]. apply keeps_bind; [apply _..|].
  intros existing. apply keeps_reconcile; [apply _..| | |].
  - intros sp. unfold create_from_spec, createGrantTx. apply _.
  - intros r sp. unfold update_from_spec, updateGrantTx. apply _.
  - intros r. unfold delete_grant_row, deleteGrantTx. apply _.
Qed.
#[export] Instance ApplyCIGrants_frames a specs : Frames (ApplyCIGrants a specs).
Proof.
  unfold ApplyCIGrants. apply frames_BeginFunc, frames_bind; [apply _|]. intros existing.
  apply frames_reconcile.
  - intros sp. unfold create_ci_from_spec, createCIGrantTx. apply _.
  - intros r sp. unfold update_ci_from_spec, updateCIGrantTx. apply _.
  - intros r. unfold delete_ci_row, deleteCIGrantTx. apply _.
Qed.
#[export] Instance ApplyCIGrants_host a specs : Keeps same_host (ApplyCIGrants a specs).
Proof.
  unfold ApplyCIGrants. apply keeps_BeginFunc; [apply _|]. apply keeps_bind; [apply _..|].
  intros existing. apply keeps_reconcile; [apply _..| | |].
  - intros sp. unfold create_ci_from_spec, createCIGrantTx. apply _.
  - intros r sp. unfold update_ci_from_spec, updateCIGrantTx. apply _.
  - intros r. unfold delete_ci_row, deleteCIGrantTx. apply _.
Qed.

(** The invariants of a domain survive what the other one does. *)
Lemma drawn_mono n n' id : (n ≤ n')%N → drawn n id → drawn n' id.
Proof. intros Hle (k & Hk & <-). exists k. split; [lia|done]. Qed.
Lemma grants_wf_mono w w' :
  same_host (w_db w) (w_db w') → (w_uuid w ≤ w_uuid w')%N → grants_wf w → grants_wf w'.
Proof.
  unfold grants_wf. intros [-> ->] Hle [? ? ? ? ? ?].
  split; eauto using drawn_mono.
Qed.
Lemma ci_wf_mono w w' :
  same_ci (w_db w) (w_db w') → (w_uuid w ≤ w_uuid w')%N → ci_wf w → ci_wf w'.
Proof. unfold ci_wf. intros -> Hle [? ? ?]. split; eauto using drawn_mono. Qed.
End domains.

(** ** One synchronisation *)
Lemma owns_label label (errs other : list (string * error)) :
  errs.*1 ⊆ [label] → label ∉ other.*1 →
  (label ∈ (errs ++ other).*1 ↔ errs ≠ []) ∧ (label ∈ (other ++ errs).*1 ↔ errs ≠ []).
Proof.
  intros Hsub Hother. rewrite !fmap_app, !elem_of_app.
  assert (label ∈ errs.*1 ↔ errs ≠ []) as Hiff.
  { destruct errs as [|[l e] errs]; [set_solver|]. split; [done|]. intros _.
    assert (l = label) as -> by (specialize (Hsub l); set_solver). simpl. set_solver. }
  tauto.
Qed.
Section sync.
Context `{Crypto} `{UUIDs} `{MapOrder} `{RulesYAML}.
Variables (files : string → result string) (cfg : SyncConfig).
Implicit Types w : World.

(** The names in the file can be told apart in the database. *)
Definition host_file_declarable : Prop :=
  ∀ specs, LoadHostRules files (HostFile cfg) = Ok specs →
           Forall (grants_declarable (DefaultIssuer cfg)) specs.
Definition ci_file_declarable : Prop :=
  ∀ specs, LoadCIRules files (CIFile cfg) = Ok specs → Forall ci_declarable specs.
(** The database says what the file says. *)
Definition host_rules_hold (db : Db) : Prop :=
  ∃ specs rows, LoadHostRules files (HostFile cfg) = Ok specs ∧
    Forall2 (carries (DefaultIssuer cfg)) specs rows ∧ grants_with_group db ≡ₚ rows.
Definition ci_rules_hold (db : Db) : Prop :=
  ∃ specs rows, LoadCIRules files (CIFile cfg) = Ok specs ∧
    Forall2 ci_carries specs rows ∧ ci_grants db ≡ₚ rows.

Lemma syncHost_run w r w1 :
  grants_wf w → host_file_declarable → syncHost files cfg w = (r, w1) →
  grants_wf w1 ∧ same_ci (w_db w) (w_db w1) ∧ (w_uuid w ≤ w_uuid w1)%N ∧
  match r with Ok _ => host_rules_hold (w_db w1) | Err _ => same_host (w_db w) (w_db w1) end.
Proof.
  intros Hwf Hdecl. unfold syncHost, host_rules_hold.
  destruct (LoadHostRules files (HostFile cfg)) as [specs|e] eqn:Hload.
  - pose proof (Hdecl specs Hload) as Hd.
    pose proof (ApplyGrants_ci Actor (DefaultIssuer cfg) specs w) as Hci.
    pose proof (ApplyGrants_frames Actor (DefaultIssuer cfg) specs w) as [_ Hu].
    unfold bind, wrap. destruct (ApplyGrants Actor (DefaultIssuer cfg) specs w) as [[res|e] w2] eqn:Hrun;
      simpl in Hci, Hu; intros [= <- <-].
    + destruct (ApplyGrants_Ok _ _ _ _ _ _ Hwf Hd Hrun) as (Hwf' & (rows & Hm & Hinv) & _).
      split_and!; [done..|]. by exists specs, rows.
    + apply transaction_Err in Hrun. split_and!; [|done..|].
      * apply (grants_wf_mono w); [|done..]. unfold same_host. by rewrite Hrun.
      * unfold same_host. by rewrite Hrun.
  - intros [= <- <-]. split_and!; done || lia.
Qed.
Lemma syncCI_run w r w1 :
  ci_wf w → ci_file_declarable → syncCI files cfg w = (r, w1) →
  ci_wf w1 ∧ same_host (w_db w) (w_db w1) ∧ (w_uuid w ≤ w_uuid w1)%N ∧
  match r with Ok _ => ci_rules_hold (w_db w1) | Err _ => same_ci (w_db w) (w_db w1) end.
Proof.
  intros Hwf Hdecl. unfold syncCI, ci_rules_hold.
  destruct (LoadCIRules files (CIFile cfg)) as [specs|e] eqn:Hload.
  - pose proof (Hdecl specs Hload) as Hd.
    pose proof (ApplyCIGrants_host Actor specs w) as Hho.
    pose proof (ApplyCIGrants_frames Actor specs w) as [_ Hu].
    unfold bind, wrap. destruct (ApplyCIGrants Actor specs w) as [[res|e] w2] eqn:Hrun;
      simpl in Hho, Hu; intros [= <- <-].
    + destruct (ApplyCIGrants_Ok _ _ _ _ _ Hwf Hd Hrun) as (Hwf' & (rows & Hm & Hinv) & _).
      split_and!; [done..|]. by exists specs, rows.
    + apply transaction_Err in Hrun. split_and!; [|done..|].
      * apply (ci_wf_mono w); [|done..]. unfold same_ci. by rewrite Hrun.
      * unfold same_ci. by rewrite Hrun.
  - intros [= <- <-]. split_and!; done || lia.
Qed.

(** What a domain's synchronisation leaves behind, given whether it is owned by
    a file and whether it reported an error. *)
Definition follows (path label : string) (holds : Db → Prop) (same : relation Db)
    (errs : list (string * error)) (db db' : Db) : Prop :=
  if bool_decide (path = "") then same db db' ∧ label ∉ errs.*1
  else if bool_decide (label ∈ errs.*1) then same db db' else holds db'.

Lemma sync_domain_run label path sync w :
  ∃ errs w1, sync_domain label path sync w = (Ok errs, w1) ∧ errs.*1 ⊆ [label] ∧
  (if bool_decide (path = "") then errs = [] ∧ w1 = w
   else ∃ r, sync w = (r, w1) ∧ (is_ok r = true ↔ errs = [])).
Proof.
  unfold sync_domain. case_bool_decide.
  - exists [], w. split_and!; done || set_solver.
  - unfold bind, try. destruct (sync w) as [[a|e] w1].
    + exists [], w1. split_and!; [done|set_solver|]. by exists (Ok a).
    + exists [(label, e)], w1. split_and!; [done|set_solver|]. by exists (Err e).
Qed.
End sync.

Section sync_results.
Context `{Crypto} `{UUIDs} `{MapOrder} `{RulesYAML}.
Variables (files : string → result string) (cfg : SyncConfig).
Implicit Types w : World.

Lemma host_rules_same db db' :
  same_host db db' → host_rules_hold files cfg db → host_rules_hold files cfg db'.
Proof.
  intros [Hg Ha] (specs & rows & ? & ? & Hinv). exists specs, rows. split_and!; [done..|].
  unfold grants_with_group in *. by rewrite Hg, Ha.
Qed.
Lemma ci_rules_same db db' :
  same_ci db db' → ci_rules_hold files cfg db → ci_rules_hold files cfg db'.
Proof. unfold same_ci, ci_rules_hold. by intros ->. Qed.

Lemma Sync_run w r w' :
  grants_wf w → ci_wf w → host_file_declarable files cfg → ci_file_declarable files cfg →
  Sync files cfg w = (r, w') →
  ∃ errs, r = Ok errs ∧ grants_wf w' ∧ ci_wf w' ∧
  follows (HostFile cfg) "host" (host_rules_hold files cfg) same_host errs (w_db w) (w_db w') ∧
  follows (CIFile cfg) "ci" (ci_rules_hold files cfg) same_ci errs (w_db w) (w_db w').
Proof.
  intros Hwf Hciwf Hdh Hdc. unfold Sync.
  destruct (sync_domain_run "host" (HostFile cfg) (syncHost files cfg) w) as (he & w1 & Eh & Hsubh & Hh).
  destruct (sync_domain_run "ci" (CIFile cfg) (syncCI files cfg) w1) as (ce & w2 & Ec & Hsubc & Hc).
  unfold bind at 1. rewrite Eh. unfold bind. rewrite Ec. intros [= <- <-].
  exists (he ++ ce). split; [done|].
  assert ("host" ∉ ce.*1) as Hhc by (intros Hin%Hsubc; set_solver).
  assert ("ci" ∉ he.*1) as Hch by (intros Hin%Hsubh; set_solver).
  destruct (owns_label "host" he ce Hsubh Hhc) as [Hh1 _].
  destruct (owns_label "ci" ce he Hsubc Hch) as [_ Hc1].
  assert (grants_wf w1 ∧ same_ci (w_db w) (w_db w1) ∧ (w_uuid w ≤ w_uuid w1)%N ∧
    follows (HostFile cfg) "host" (host_rules_hold files cfg) same_host (he ++ ce) (w_db w) (w_db w1))
    as (Hwf1 & Hsci & Hu1 & Hfh).
  { unfold follows. clear Hc. revert Hh. destruct (bool_decide (HostFile cfg = "")); [intros [-> ->]|intros Hh].
    - rewrite Hh1. split_and!; try done; lia || naive_solver.
    - destruct Hh as (rh & Hrun & Hiff). destruct (syncHost_run files cfg w rh w1) as (? & ? & ? & Hr); [done..|].
      split_and!; [done..|]. case_bool_decide as Hin; rewrite Hh1 in Hin; destruct rh; naive_solver. }
  assert (ci_wf w1) as Hciwf1 by by eapply ci_wf_mono.
  assert (ci_wf w2 ∧ same_host (w_db w1) (w_db w2) ∧ (w_uuid w1 ≤ w_uuid w2)%N ∧
    follows (CIFile cfg) "ci" (ci_rules_hold files cfg) same_ci (he ++ ce) (w_db w1) (w_db w2))
    as (Hciwf2 & Hsh & Hu2 & Hfc).
  { unfold follows. clear Hh. revert Hc. destruct (bool_decide (CIFile cfg = "")); [intros [-> ->]|intros Hc].
    - rewrite Hc1. split_and!; try done; lia || naive_solver.
    - destruct Hc as (rc & Hrun & Hiff). destruct (syncCI_run files cfg w1 rc w2) as (? & ? & ? & Hr); [done..|].
      split_and!; [done..|]. case_bool_decide as Hin; rewrite Hc1 in Hin; destruct rc; naive_solver. }
  split_and!; [by eapply grants_wf_mono|done| |].
  - clear Hfc. unfold follows in *. destruct (bool_decide (HostFile cfg = ""));
      [destruct Hfh; split; [by etrans|done]|].
    destruct (bool_decide ("host" ∈ _)); [by etrans|by eapply host_rules_same].
  - clear Hfh. unfold follows in *. destruct (bool_decide (CIFile cfg = ""));
      [destruct Hfc; split; [by etrans|done]|].
    destruct (bool_decide ("ci" ∈ _)); [by etrans|done].
Qed.

(** A converged database stays as it is. *)
Lemma Sync_noop w r w' :
  grants_wf w → ci_wf w → host_file_declarable files cfg → ci_file_declarable files cfg →
  (HostFile cfg ≠ "" → host_rules_hold files cfg (w_db w)) →
  (CIFile cfg ≠ "" → ci_rules_hold files cfg (w_db w)) →
  Sync files cfg w = (r, w') → w_db w' = w_db w.
Proof.
  intros Hwf Hciwf Hdh Hdc Hhold Hcihold. unfold Sync.
  destruct (sync_domain_run "host" (HostFile cfg) (syncHost files cfg) w) as (he & w1 & Eh & _ & Hh).
  destruct (sync_domain_run "ci" (CIFile cfg) (syncCI files cfg) w1) as (ce & w2 & Ec & _ & Hc).
  unfold bind at 1. rewrite Eh. unfold bind. rewrite Ec. intros [= _ <-].
  assert (w_db w1 = w_db w ∧ (w_uuid w ≤ w_uuid w1)%N) as [Hdb1 Hu].
  { clear Hc. case_bool_decide; [destruct Hh as [_ ->]; split; [done|lia]|]. destruct Hh as (rh & Hrun & _).
    destruct (syncHost_run files cfg w rh w1) as (_ & _ & Hu & _); [done..|]. split; [|done].
    destruct Hhold as (specs & rows & Hload & Hm & Hinv); [done|]. unfold syncHost in Hrun.
    rewrite Hload in Hrun. unfold bind, wrap in Hrun.
    destruct (ApplyGrants _ _ specs w) as [ra wa] eqn:Ha.
    destruct (ApplyGrants_noop _ _ _ rows _ _ _ Hwf (Hdh specs Hload) Hm Hinv Ha) as [Hdb _].
    destruct ra; unfold ret in Hrun; by simplify_eq. }
  assert (ci_wf w1) as Hciwf1 by (apply (ci_wf_mono w); [unfold same_ci; by rewrite Hdb1|done..]).
  assert (w_db w2 = w_db w1); [|congruence].
  clear Hh. case_bool_decide; [by destruct Hc as [_ ->]|]. destruct Hc as (rc & Hrun & _).
  destruct Hcihold as (specs & rows & Hload & Hm & Hinv); [done|]. unfold syncCI in Hrun.
  rewrite Hload in Hrun. unfold bind, wrap in Hrun.
  destruct (ApplyCIGrants _ specs w1) as [ra wa] eqn:Ha.
  rewrite <-Hdb1 in Hinv.
  destruct (ApplyCIGrants_noop _ _ rows _ _ _ Hciwf1 (Hdc specs Hload) Hm Hinv Ha) as [Hdb _].
  destruct ra; unfold ret in Hrun; by simplify_eq.
Qed.
End sync_results.

(** C5: The files own their rules: whatever the database held, after a
    synchronisation each domain with a file holds exactly the rules of that file
    if no error was reported for it, and is untouched otherwise, as is a domain
    without a file; a broken file of one domain does not keep the other from
    following its own. *)
Theorem sync_follows_files `{Crypto} `{UUIDs} `{MapOrder} `{RulesYAML} files cfg w r w' :
  grants_wf w → ci_wf w → host_file_declarable files cfg → ci_file_declarable files cfg →
  Sync files cfg w = (r, w') →
  ∃ errs, r = Ok errs ∧
  follows (HostFile cfg) "host" (host_rules_hold files cfg) same_host errs (w_db w) (w_db w') ∧
  follows (CIFile cfg) "ci" (ci_rules_hold files cfg) same_ci errs (w_db w) (w_db w').
Proof.
  intros Hwf Hciwf Hdh Hdc Hrun.
  destruct (Sync_run files cfg w r w') as (errs & -> & _ & _ & Hh & Hc); [done..|]. by exists errs.
Qed.

(** An unchanged file is quiet: after a synchronisation without errors, the
    next one with the same files, at any time, leaves the whole database as it
    is, audit log included, whether it succeeds or fails. *)
Theorem sync_is_quiet `{Crypto} `{UUIDs} `{MapOrder} `{RulesYAML}
    files cfg w w1 now ticks faults r w2 :
  grants_wf w → ci_wf w → host_file_declarable files cfg → ci_file_declarable files cfg →
  Sync files cfg w = (Ok [], w1) →
  Sync files cfg (set_faults faults (set_clock now ticks w1)) = (r, w2) →
  w_db w2 = w_db w1.
Proof.
  intros Hwf Hciwf Hdh Hdc Hfirst Hsecond.
  destruct (Sync_run files cfg w _ w1 Hwf Hciwf Hdh Hdc Hfirst) as (errs & [= <-] & Hwf1 & Hciwf1 & Hh & Hc).
  apply (Sync_noop files cfg (set_faults faults (set_clock now ticks w1)) r w2); try done.
  - intros Hne. unfold follows in Hh. by rewrite bool_decide_eq_false_2 in Hh by done.
  - intros Hne. unfold follows in Hc. by rewrite bool_decide_eq_false_2 in Hc by done.
Qed.

(** A typo never deletes: a host file without a document that has the key
    grants and lacks the key ci_grants is an error, and the rules stay. *)
Theorem broken_host_file_deletes_nothing `{Crypto} `{UUIDs} `{MapOrder} `{RulesYAML} files cfg w r w' :
  grants_wf w → ci_wf w → host_file_declarable files cfg → ci_file_declarable files cfg →
  HostFile cfg ≠ "" →
  (∀ file, decodeFile files (HostFile cfg) = Ok file → file_Grants file = None ∨ is_Some (file_CIGrants file)) →
  Sync files cfg w = (r, w') →
  ∃ errs, r = Ok errs ∧ "host" ∈ errs.*1 ∧ same_host (w_db w) (w_db w').
Proof.
  intros Hwf Hciwf Hdh Hdc Hne Hbroken Hrun.
  destruct (Sync_run files cfg w r w') as (errs & -> & _ & _ & Hh & _); [done..|]. exists errs.
  split; [done|]. unfold follows in Hh. rewrite bool_decide_eq_false_2 in Hh by done.
  case_bool_decide as Hin; [done|]. destruct Hh as (specs & rows & Hload & _). unfold LoadHostRules in Hload.
  destruct (decodeFile files (HostFile cfg)) as [file|e]; [|done].
  destruct (Hbroken file eq_refl) as [Hno|[l Hl]]; [rewrite Hno in Hload|rewrite Hl in Hload];
    by destruct (file_CIGrants file).
Qed.

(** ** Concrete runs *)
Definition toy_grant_entry (validity : Z) : GrantEntry := {|
  entry_Group := "dev"; entry_Issuer := ""; entry_Tags := {["env" := "prod"]};
  entry_Principals := ["deploy"]; entry_Sudo := false; entry_MaxValidity := validity |}.
Definition toy_ci_entry : CIGrantEntry := {|
  cientry_Project := "infra"; cientry_Ref := "main"; cientry_ProtectedOnly := None;
  cientry_Environment := ""; cientry_Tags := ∅; cientry_Principals := ["deploy"];
  cientry_MaxValidity := Hour |}.
(** Documents are their names. *)
Definition toy_rules_yaml : RulesYAML := {|
  yaml_rules duration text :=
    if bool_decide (text = "host") then
      d ← duration "8h";
      Some (Some {| file_Grants := Some [toy_grant_entry d]; file_CIGrants := None |})
    else if bool_decide (text = "ci") then
      Some (Some {| file_Grants := None; file_CIGrants := Some [toy_ci_entry] |})
    else if bool_decide (text = "") then Some None
    else None |}.
Definition toy_files (host ci : string) : string → result string := λ path,
  if bool_decide (path = "/rules/host.yaml") then Ok host
  else if bool_decide (path = "/rules/ci.yaml") then Ok ci else Err ErrNotExist.
Definition toy_sync_config : SyncConfig := NewSyncer {|
  HostFile := "/rules/host.yaml"; CIFile := "/rules/ci.yaml"; DefaultIssuer := "idp"; SyncInterval := 0 |}.
Definition toy_sync (host ci : string) (w : @World toy_crypto)
    : result (list (string * error)) * @World toy_crypto :=
  Sync (H0 := counting_uuids) (H1 := key_order) (H2 := toy_rules_yaml) (toy_files host ci)
    toy_sync_config w.

(** The first tick applies both files; then the host file is emptied, which is
    an error and changes nothing, while the CI rules keep being followed. *)
Example toy_sync_runs :
  let '(r1, w1) := toy_sync "host" "ci" (toy_world toy_db) in
  let '(r2, w2) := toy_sync "" "ci" (set_db (put_rows ci_grants_table [] (w_db w1)) w1) in
  r1 = Ok [] ∧ length (access_grants (w_db w1)) = 1%nat ∧
  (grant_MaxValiditySeconds <$> access_grants (w_db w1)) = [28800%Z] ∧
  (match r2 with Ok errs => errs.*1 | Err _ => [] end) = ["host"] ∧
  length (access_grants (w_db w2)) = 1%nat ∧
  (cigrant_ProtectedOnly <$> ci_grants (w_db w2)) = [true].
Proof. vm_compute. repeat split. Qed.

Lemma toy_host_declarable ci : host_file_declarable (H2 := toy_rules_yaml) (toy_files "host" ci) toy_sync_config.
Proof.
  intros specs Hload. vm_compute in Hload. injection Hload as <-.
  repeat constructor; unfold nul_free; simpl; naive_solver.
Qed.
Lemma toy_ci_declarable host : ci_file_declarable (H2 := toy_rules_yaml) (toy_files host "ci") toy_sync_config.
Proof.
  intros specs Hload. vm_compute in Hload. injection Hload as <-.
  repeat constructor; unfold nul_free; simpl; naive_solver.
Qed.
Lemma toy_ci_rows_ok : ci_wf (H0 := counting_uuids) (toy_world toy_db).
Proof. split; simpl; [constructor|by intros ? ?%elem_of_nil..]. Qed.

Lemma sync_follows_files_witness :
  host_rules_hold (H2 := toy_rules_yaml) (toy_files "host" "ci") toy_sync_config
    (w_db (toy_sync "host" "ci" (toy_world toy_db)).2).
Proof.
  destruct (sync_follows_files (H0 := counting_uuids) (H1 := key_order) (H2 := toy_rules_yaml)
    (toy_files "host" "ci") toy_sync_config (toy_world toy_db) (Ok [])
    (toy_sync "host" "ci" (toy_world toy_db)).2) as (errs & [= <-] & Hh & _).
  - exact toy_grants_wf.
  - exact toy_ci_rows_ok.
  - apply toy_host_declarable.
  - apply toy_ci_declarable.
  - vm_compute. reflexivity.
  - exact Hh.
Defined.

Lemma sync_is_quiet_witness :
  let w1 := (toy_sync "host" "ci" (toy_world toy_db)).2 in
  w_db (toy_sync "host" "ci" (set_faults [false; true] (set_clock 5 [] w1))).2 = w_db w1.
Proof.
  apply (sync_is_quiet (H0 := counting_uuids) (H1 := key_order) (H2 := toy_rules_yaml)
    (toy_files "host" "ci") toy_sync_config (toy_world toy_db)
    (toy_sync "host" "ci" (toy_world toy_db)).2 5 [] [false; true]
    (toy_sync "host" "ci" (set_faults [false; true]
      (set_clock 5 [] (toy_sync "host" "ci" (toy_world toy_db)).2))).1).
  - exact toy_grants_wf.
  - exact toy_ci_rows_ok.
  - apply toy_host_declarable.
  - apply toy_ci_declarable.
  - vm_compute. reflexivity.
  - vm_compute. reflexivity.
Defined.
