(* ===== verification/Bindist.v ===== *)
(** * Embedded binaries (internal/bindist, internal/agentdist,
      internal/clientdist)

    The names of the binaries the server hands out, the scan of their directory
    and the lookup of one platform. The directory is a list of entries, as
    [fs.ReadDir] gives them: in the order of their names, which are unique. *)
From S2P Require Export GoBase64 Crypto.

Local Open Scope string_scope.
Local Open Scope list_scope.

(** ** Names *)
Definition slash : ascii := "/"%char.
Definition ParseName (name prefix : string) : option (string * string) :=
  match CutPrefix name prefix with
  | None => None
  | Some rest =>
      match Cut rest "-" with
      | None => None
      | Some (osName, arch) =>
          if bool_decide (osName = "") || bool_decide (arch = "") || Contains arch "-" then None
          else Some (osName, arch)
      end
  end.

Definition agent_prefix := "gssh-agentd-".     (* agentdist.binPrefix *)
Definition client_prefix := "gssh-".           (* clientdist.binPrefix *)

(** ** A source over a directory *)
Record Info := { bin_OS : string; bin_Arch : string; bin_Size : Z; bin_SHA256 : string }.
(** An entry: its name, and the file it is unless it is a directory; a file that
    cannot be read has no content. *)
Record DirEntry := { de_Name : string; de_IsDir : bool; de_Content : option string }.
(** [None]: the directory cannot be read. *)
Definition FS := option (list DirEntry).
Definition fs_Open (fsys : FS) (name : string) : option string :=
  match fsys with
  | None => None
  | Some entries => e ← list_find (λ e, de_Name e = name) entries; de_Content e.2
  end.

Section source.
Context `{Crypto}.

Definition hashFile (fsys : FS) (name : string) : option (Z * string) :=
  match fs_Open fsys name with
  | None => None
  | Some data => Some (Z.of_nat (String.length data), hex_EncodeToString (sha256 data))
  end.
Definition info_leb (a b : Info) : bool :=
  if bool_decide (bin_OS a = bin_OS b) then String.leb (bin_Arch a) (bin_Arch b)
  else String.leb (bin_OS a) (bin_OS b).
Definition platform (osName arch : string) : string := osName +:+ "/" +:+ arch.

(** The loop of [scan] over the entries. *)
Fixpoint scan_entries (fsys : FS) (prefix : string) (entries : list DirEntry)
    (infos : list Info) (files : gmap string string) : list Info * gmap string string :=
  match entries with
  | [] => (infos, files)
  | e :: entries =>
      if de_IsDir e then scan_entries fsys prefix entries infos files
      else
        match ParseName (de_Name e) prefix with
        | None => scan_entries fsys prefix entries infos files
        | Some (osName, arch) =>
            match hashFile fsys (de_Name e) with
            | None => scan_entries fsys prefix entries infos files
            | Some (size, sum) =>
                scan_entries fsys prefix entries
                  (infos ++ [{| bin_OS := osName; bin_Arch := arch; bin_Size := size; bin_SHA256 := sum |}])
                  (<[platform osName arch := de_Name e]> files)
            end
        end
  end.
Definition scan (fsys : FS) (prefix : string) : list Info * gmap string string :=
  match fsys with
  | None => ([], ∅)
  | Some entries =>
      let '(infos, files) := scan_entries fsys prefix entries [] ∅ in
      (sort_by info_leb infos, files)
  end.

(** A source: the directory and the prefix; [scan] runs once, on an embedded
    directory that does not change. *)
Record BinSource := { src_FS : FS; src_prefix : string }.
Definition NewFromFS (fsys : FS) (prefix : string) : BinSource := {| src_FS := fsys; src_prefix := prefix |}.
Definition AgentSource (fsys : FS) : BinSource := NewFromFS fsys agent_prefix.
Definition ClientSource (fsys : FS) : BinSource := NewFromFS fsys client_prefix.

Definition ErrNoBinary : error := ErrOther "no binary for this platform".
Definition zero_info : Info := {| bin_OS := ""; bin_Arch := ""; bin_Size := 0; bin_SHA256 := "" |}.
Definition List_ (s : BinSource) : list Info := (scan (src_FS s) (src_prefix s)).1.
Definition Open_ (s : BinSource) (osName arch : string) : result (string * Info) :=
  let '(infos, files) := scan (src_FS s) (src_prefix s) in
  match files !! platform osName arch with
  | None => Err ErrNoBinary
  | Some name =>
      match fs_Open (src_FS s) name with
      | None => Err (ErrOther ("open binary " +:+ name))
      | Some data =>
          let info := default zero_info
            (snd <$> list_find (λ i, bin_OS i = osName ∧ bin_Arch i = arch) infos) in
          Ok (data, info)
      end
  end.
End source.

(** ** Lemmas *)
Lemma Contains_char s c : Contains s (String c "") = true ↔ in_string c s.
Proof. rewrite Contains_spec, in_string_ex. done. Qed.
Lemma Split_app_sep x c y : Split (x +:+ String c y) c = Split x c ++ Split y c.
Proof.
  induction x as [|d x IH]; simpl; [by rewrite decide_True|]. rewrite IH. case_decide; [done|].
  pose proof (Split_nonnil x c). by destruct (Split x c).
Qed.
Lemma Split_single s c : ¬ in_string c s → Split s c = [s].
Proof.
  induction s as [|d s IH]; simpl; [done|]. intros Hn. rewrite decide_False by tauto. by rewrite IH by tauto.
Qed.

Lemma ParseName_spec name prefix osName arch :
  ParseName name prefix = Some (osName, arch) ↔
  name = prefix +:+ osName +:+ "-" +:+ arch ∧ osName ≠ "" ∧ arch ≠ "" ∧
  ¬ in_string "-" osName ∧ ¬ in_string "-" arch.
Proof.
  unfold ParseName. split.
  - destruct (CutPrefix name prefix) as [rest|] eqn:Ep; [|done]. apply CutPrefix_Some in Ep as ->.
    destruct (Cut rest "-") as [[o a]|] eqn:Ec; [|done].
    pose proof (Cut_Some _ _ _ _ Ec) as ->.
    destruct (bool_decide (o = "")) eqn:E1; [done|]. destruct (bool_decide (a = "")) eqn:E2; [done|].
    simpl. destruct (Contains a "-") eqn:E3; [done|]. intros; simplify_eq. bool_to_prop.
    split_and!; [done..| |by rewrite <- Contains_char, E3].
    intros (p & q & ->)%in_string_ex.
    pose proof (Cut_leftmost _ _ _ _ p (q +:+ "-" +:+ arch) Ec) as Hl.
    rewrite append_assoc in Hl. specialize (Hl eq_refl). rewrite append_length in Hl. simpl in Hl. lia.
  - intros (-> & Ho & Ha & Hdo & Hda). rewrite CutPrefix_app.
    change ("-" +:+ arch) with (String "-" arch). rewrite (Cut_first osName "-"%char arch) by done. rewrite !bool_decide_eq_false_2 by done. simpl.
    destruct (Contains arch "-") eqn:E; [|done]. by apply Contains_char in E.
Qed.

Section proofs.
Context `{Crypto}.

(** [fs.ValidPath]: the name of an entry has no slash. *)
Definition directory (entries : list DirEntry) : Prop :=
  Forall (λ e, ¬ in_string slash (de_Name e)) entries.
(** The binary of the family that an entry is, if any. *)
Definition entry_info (fsys : FS) (prefix : string) (e : DirEntry) : option Info :=
  if de_IsDir e then None
  else
    '(os, arch) ← ParseName (de_Name e) prefix;
    '(size, sum) ← hashFile fsys (de_Name e);
    Some {| bin_OS := os; bin_Arch := arch; bin_Size := size; bin_SHA256 := sum |}.
Lemma entry_info_Some fsys prefix e i : entry_info fsys prefix e = Some i →
  ParseName (de_Name e) prefix = Some (bin_OS i, bin_Arch i) ∧
  hashFile fsys (de_Name e) = Some (bin_Size i, bin_SHA256 i).
Proof.
  unfold entry_info. destruct (de_IsDir e); [done|].
  destruct (ParseName _ _) as [[o a]|]; [|done]. simpl.
  destruct (hashFile _ _) as [[n h]|]; [|done]. intros; by simplify_eq/=.
Qed.
Lemma scan_entries_step fsys prefix e entries infos files :
  scan_entries fsys prefix (e :: entries) infos files =
  match entry_info fsys prefix e with
  | None => scan_entries fsys prefix entries infos files
  | Some i => scan_entries fsys prefix entries (infos ++ [i])
                (<[platform (bin_OS i) (bin_Arch i) := de_Name e]> files)
  end.
Proof.
  cbn [scan_entries]. unfold entry_info. destruct (de_IsDir e); [done|].
  destruct (ParseName _ _) as [[o a]|]; [|done]. simpl. by destruct (hashFile _ _) as [[n h]|].
Qed.

Lemma platform_entry fsys prefix e i os arch :
  ¬ in_string slash (de_Name e) → entry_info fsys prefix e = Some i →
  platform (bin_OS i) (bin_Arch i) = platform os arch → bin_OS i = os ∧ bin_Arch i = arch.
Proof.
  intros Hs (Hp & _)%entry_info_Some E. apply ParseName_spec in Hp as (Hn & _). rewrite Hn in Hs.
  rewrite !in_string_app in Hs.
  change (bin_OS i +:+ String "/" (bin_Arch i) = os +:+ String "/" arch) in E.
  apply (f_equal (λ s, Split s "/"%char)) in E. rewrite !Split_app_sep in E.
  rewrite !(Split_single (bin_OS i)), !(Split_single (bin_Arch i)) in E by (unfold slash in Hs; tauto).
  pose proof (Split_nonnil os "/") as H1. pose proof (Split_nonnil arch "/") as H2.
  pose proof (Join_Split os "/") as J1. pose proof (Join_Split arch "/") as J2.
  destruct (Split os "/") as [|o1 [|? os']]; [done| |]; destruct (Split arch "/") as [|a1 [|? as']];
    [done| | |done| |]; simplify_eq/=; [|by destruct os'..].
  done.
Qed.

Lemma platform_name fsys prefix e e' i i' :
  entry_info fsys prefix e = Some i → entry_info fsys prefix e' = Some i' →
  bin_OS i = bin_OS i' → bin_Arch i = bin_Arch i' → de_Name e = de_Name e'.
Proof.
  intros (Hp & _)%entry_info_Some (Hp' & _)%entry_info_Some Ho Ha.
  apply ParseName_spec in Hp as (-> & _). apply ParseName_spec in Hp' as (-> & _). by rewrite Ho, Ha.
Qed.

Lemma scan_entries_infos fsys prefix entries infos files :
  (scan_entries fsys prefix entries infos files).1 = infos ++ omap (entry_info fsys prefix) entries.
Proof.
  revert infos files. induction entries as [|e entries IH]; intros infos files.
  { simpl. by rewrite app_nil_r. }
  rewrite scan_entries_step. simpl. destruct (entry_info fsys prefix e) as [i|]; rewrite IH; [|done].
  by rewrite <- app_assoc.
Qed.
Lemma scan_entries_files_inv fsys prefix entries infos files k name :
  (scan_entries fsys prefix entries infos files).2 !! k = Some name →
  files !! k = Some name ∨ ∃ e i, e ∈ entries ∧ entry_info fsys prefix e = Some i ∧
    platform (bin_OS i) (bin_Arch i) = k ∧ name = de_Name e.
Proof.
  revert infos files. induction entries as [|e entries IH]; intros infos files; [by left|].
  rewrite scan_entries_step. destruct (entry_info fsys prefix e) as [i|] eqn:Ei.
  - intros [Hk|(e' & i' & He' & ?)]%IH; [|right; exists e', i'; set_solver].
    destruct (decide (platform (bin_OS i) (bin_Arch i) = k)) as [<-|Hne].
    + rewrite lookup_insert_eq in Hk. right. exists e, i. set_solver.
    + rewrite lookup_insert_ne in Hk by done. by left.
  - intros [Hk|(e' & i' & He' & ?)]%IH; [by left|right; exists e', i'; set_solver].
Qed.
Lemma scan_entries_files_keep fsys prefix entries infos files k name :
  files !! k = Some name →
  (∀ e i, e ∈ entries → entry_info fsys prefix e = Some i → platform (bin_OS i) (bin_Arch i) = k →
     de_Name e = name) →
  (scan_entries fsys prefix entries infos files).2 !! k = Some name.
Proof.
  revert infos files. induction entries as [|e entries IH]; intros infos files Hk Hsame; [done|].
  rewrite scan_entries_step. destruct (entry_info fsys prefix e) as [i|] eqn:Ei.
  - apply IH; [|intros e' i' He'; apply Hsame; set_solver].
    destruct (decide (platform (bin_OS i) (bin_Arch i) = k)) as [Hp|Hne].
    + rewrite Hp, lookup_insert_eq. f_equal. eapply Hsame; [left|done..].
    + by rewrite lookup_insert_ne.
  - apply IH; [done|]. intros e' i' He'. apply Hsame. set_solver.
Qed.
Lemma scan_entries_files fsys prefix entries infos files e i :
  Forall (λ e, ¬ in_string slash (de_Name e)) entries →
  e ∈ entries → entry_info fsys prefix e = Some i →
  (scan_entries fsys prefix entries infos files).2 !! platform (bin_OS i) (bin_Arch i) = Some (de_Name e).
Proof.
  intros Hs He Ei. revert infos files. induction Hs as [|e1 entries Hs1 Hs IH]; intros infos files;
    [by apply elem_of_nil in He|].
  rewrite scan_entries_step. apply elem_of_cons in He as [<-|He].
  - rewrite Ei. apply scan_entries_files_keep; [by rewrite lookup_insert_eq|]. intros e' i' He' Ei' Hk.
    assert (¬ in_string slash (de_Name e')) as Hs' by (rewrite Forall_forall in Hs; auto).
    destruct (platform_entry _ _ _ _ _ _ Hs' Ei' Hk). by eapply platform_name.
  - destruct (entry_info fsys prefix e1); by apply IH.
Qed.

Lemma List_elem s entries i : src_FS s = Some entries →
  i ∈ List_ s ↔ ∃ e, e ∈ entries ∧ entry_info (src_FS s) (src_prefix s) e = Some i.
Proof.
  intros Hfs. unfold List_, scan. rewrite Hfs.
  destruct (scan_entries (Some entries) (src_prefix s) entries [] ∅) as [infos files] eqn:E.
  pose proof (scan_entries_infos (Some entries) (src_prefix s) entries [] ∅) as Hi. rewrite E in Hi.
  simpl in *. rewrite sort_by_elem, Hi. by rewrite list_elem_of_omap.
Qed.
Lemma entry_info_platform fsys prefix e e' i i' :
  entry_info fsys prefix e = Some i → entry_info fsys prefix e' = Some i' →
  bin_OS i = bin_OS i' → bin_Arch i = bin_Arch i' → i = i'.
Proof.
  intros Ei Ei' Ho Ha. pose proof (platform_name _ _ _ _ _ _ Ei Ei' Ho Ha) as Hn.
  apply entry_info_Some in Ei as [_ H1]. apply entry_info_Some in Ei' as [_ H2].
  rewrite Hn in H1. destruct i, i'; simpl in *. congruence.
Qed.
Lemma hashFile_data fsys name size sum : hashFile fsys name = Some (size, sum) →
  ∃ data, fs_Open fsys name = Some data ∧ size = Z.of_nat (String.length data) ∧
    sum = hex_EncodeToString (sha256 data).
Proof. unfold hashFile. destruct (fs_Open fsys name); [|done]. intros; simplify_eq; eauto. Qed.

Lemma Open_entry s entries e i : src_FS s = Some entries → directory entries →
  e ∈ entries → entry_info (src_FS s) (src_prefix s) e = Some i →
  ∃ data, Open_ s (bin_OS i) (bin_Arch i) = Ok (data, i) ∧
    bin_Size i = Z.of_nat (String.length data) ∧ bin_SHA256 i = hex_EncodeToString (sha256 data).
Proof.
  intros Hfs Hd He Ei. pose proof (entry_info_Some _ _ _ _ Ei) as [_ Hh].
  apply hashFile_data in Hh as (data & Hopen & Hsize & Hsum). exists data. split; [|done].
  assert (i ∈ List_ s) as Hin by (rewrite (List_elem s entries) by done; eauto).
  pose proof (λ i', proj1 (List_elem s entries i' Hfs)) as Hall. unfold Open_, List_ in *.
  pose proof (scan_entries_files (Some entries) (src_prefix s) entries [] ∅ e i Hd He) as Hf.
  rewrite Hfs in *. unfold scan in *. specialize (Hf Ei).
  destruct (scan_entries (Some entries) _ entries [] ∅) as [infos files]. simpl in *.
  rewrite Hf, Hopen. do 2 f_equal.
  destruct (list_find _ (sort_by info_leb infos)) as [[n i']|] eqn:Efind; simpl.
  - apply list_find_Some in Efind as (Hl & [Ho Ha] & _). apply list_elem_of_lookup_2 in Hl.
    destruct (Hall i' Hl) as (e' & _ & Ei'). by eapply entry_info_platform.
  - apply list_find_None in Efind. rewrite Forall_forall in Efind. exfalso. by apply (Efind i).
Qed.

Lemma info_leb_total a b : info_leb a b = true ∨ info_leb b a = true.
Proof.
  unfold info_leb. destruct (bool_decide (bin_OS a = bin_OS b)) eqn:E; bool_to_prop.
  - rewrite bool_decide_eq_true_2 by done. apply String.leb_total.
  - rewrite bool_decide_eq_false_2 by done. apply String.leb_total.
Qed.
Lemma leb_trans_string a b c : String.leb a b = true → String.leb b c = true → String.leb a c = true.
Proof. intros H1%Is_true_true H2%Is_true_true. apply Is_true_true. by etrans. Qed.
Lemma info_leb_trans a b c : info_leb a b = true → info_leb b c = true → info_leb a c = true.
Proof.
  unfold info_leb.
  destruct (bool_decide (bin_OS a = bin_OS b)) eqn:E1; bool_to_prop;
  destruct (bool_decide (bin_OS b = bin_OS c)) eqn:E2; bool_to_prop.
  - rewrite bool_decide_eq_true_2 by congruence. apply leb_trans_string.
  - rewrite bool_decide_eq_false_2 by congruence. by rewrite E1.
  - rewrite bool_decide_eq_false_2 by congruence. by rewrite E2.
  - intros H1 H2. rewrite bool_decide_eq_false_2; [by eapply leb_trans_string|].
    intros E. rewrite E in H1. by apply E2, String.leb_antisym.
Qed.

(** ** Theorems *)

(** No name is a binary of both families: neither ends up in the other's manifest. *)
Theorem families_disjoint name os arch : ParseName name agent_prefix = Some (os, arch) →
  ParseName name client_prefix = None.
Proof.
  intros (Hn & _)%ParseName_spec. destruct (ParseName name client_prefix) as [[o a]|] eqn:E; [|done].
  apply ParseName_spec in E as (Hc & Ho & Ha & Hdo & Hda). rewrite Hn in Hc.
  unfold agent_prefix, client_prefix in Hc. simpl in Hc. simplify_eq.
  change (String "-" (os +:+ String "-" arch)) with ("-" +:+ os +:+ String "-" arch) in Hc.
  exfalso. change ("agentd" +:+ String "-" (os +:+ String "-" arch) = o +:+ String "-" a) in Hc.
  apply (sep_inj "-"%char) in Hc as [_ <-]; [|by vm_compute; intuition discriminate|done].
  apply Hda. apply in_string_ex. by exists os, arch.
Qed.

(** What the source opens is what it lists: a download is the file whose size and
    SHA-256 the manifest names for that platform, every listed platform can be
    downloaded, and a platform that is not listed is reported as missing. *)
Theorem downloads_match_manifest s entries : src_FS s = Some entries → directory entries →
  (∀ os arch data i, Open_ s os arch = Ok (data, i) →
     i ∈ List_ s ∧ bin_OS i = os ∧ bin_Arch i = arch ∧
     bin_Size i = Z.of_nat (String.length data) ∧ bin_SHA256 i = hex_EncodeToString (sha256 data)) ∧
  (∀ i, i ∈ List_ s → ∃ data, Open_ s (bin_OS i) (bin_Arch i) = Ok (data, i)) ∧
  (∀ os arch, (∀ i, i ∈ List_ s → ¬ (bin_OS i = os ∧ bin_Arch i = arch)) →
     Open_ s os arch = Err ErrNoBinary) ∧
  StronglySorted (λ a b, info_leb a b = true) (List_ s).
Proof.
  intros Hfs Hd.
  assert (∀ os arch name, (scan (src_FS s) (src_prefix s)).2 !! platform os arch = Some name →
    ∃ e i, e ∈ entries ∧ entry_info (src_FS s) (src_prefix s) e = Some i ∧
      bin_OS i = os ∧ bin_Arch i = arch) as Hkey.
  { intros os arch name Hk. unfold scan in Hk. rewrite Hfs in Hk.
    pose proof (scan_entries_files_inv (Some entries) (src_prefix s) entries [] ∅
      (platform os arch) name) as Hinv.
    destruct (scan_entries (Some entries) _ entries [] ∅) as [infos files]. simpl in *.
    destruct (Hinv Hk) as [?|(e & i & He & Ei & Hp & _)]; [by rewrite lookup_empty in *|].
    exists e, i. rewrite Hfs. unfold directory in Hd. rewrite Forall_forall in Hd.
    by destruct (platform_entry _ _ _ _ _ _ (Hd e He) Ei Hp). }
  split_and!.
  - intros os arch data i Ho. destruct ((scan (src_FS s) (src_prefix s)).2 !! platform os arch) as [name|] eqn:Ek.
    + destruct (Hkey os arch name Ek) as (e & i' & He & Ei & <- & <-).
      destruct (Open_entry s entries e i' Hfs Hd He Ei) as (data' & Ho' & Hsize & Hsum).
      rewrite Ho in Ho'. simplify_eq. rewrite (List_elem s entries) by done. eauto 10.
    + unfold Open_ in Ho. destruct (scan _ _) as [infos files]. simpl in Ek. by rewrite Ek in Ho.
  - intros i (e & He & Ei)%(List_elem s entries); [|done].
    destruct (Open_entry s entries e i Hfs Hd He Ei) as (data & ? & _). eauto.
  - intros os arch Hno. unfold Open_. specialize (Hkey os arch).
    pose proof (λ i, proj2 (List_elem s entries i Hfs)) as Hl.
    destruct (scan _ _) as [infos files]. simpl in *.
    destruct (files !! platform os arch) as [name|]; [|done].
    destruct (Hkey name eq_refl) as (e & i & He & Ei & Ho & Ha). exfalso. apply (Hno i); eauto.
  - unfold List_, scan. rewrite Hfs. destruct (scan_entries _ _ _ _ _) as [infos files]. simpl.
    apply sort_by_sorted; [apply info_leb_total|apply info_leb_trans].
Qed.
End proofs.

(** ** Witnesses *)
Definition toy_dist : list DirEntry := [
  {| de_Name := ".gitkeep"; de_IsDir := false; de_Content := Some "" |};
  {| de_Name := "gssh-agentd-linux-amd64"; de_IsDir := false; de_Content := Some "agent" |};
  {| de_Name := "gssh-darwin-arm64"; de_IsDir := false; de_Content := Some "mac" |};
  {| de_Name := "gssh-linux-amd64"; de_IsDir := false; de_Content := Some "client" |};
  {| de_Name := "gssh-linux-arm64"; de_IsDir := false; de_Content := None |}].
Example toy_families :
  (λ i, platform (bin_OS i) (bin_Arch i)) <$> @List_ toy_crypto (ClientSource (Some toy_dist)) =
    ["darwin/arm64"; "linux/amd64"] ∧
  (λ i, platform (bin_OS i) (bin_Arch i)) <$> @List_ toy_crypto (AgentSource (Some toy_dist)) =
    ["linux/amd64"].
Proof. vm_compute. done. Qed.

Lemma downloads_match_manifest_witness :
  ∃ data i, @Open_ toy_crypto (ClientSource (Some toy_dist)) "linux" "amd64" = Ok (data, i) ∧
    bin_SHA256 i = hex_EncodeToString (@sha256 toy_crypto data).
Proof.
  set (i := {| bin_OS := "linux"; bin_Arch := "amd64"; bin_Size := 6; bin_SHA256 := "636c69656e74" |}).
  assert (@Open_ toy_crypto (ClientSource (Some toy_dist)) "linux" "amd64" = Ok ("client", i)) as Ho
    by (vm_compute; reflexivity).
  exists "client", i. split; [exact Ho|].
  destruct (@downloads_match_manifest toy_crypto (ClientSource (Some toy_dist)) toy_dist) as [H _];
    [reflexivity|repeat constructor; vm_compute; intuition discriminate|].
  apply (H "linux" "amd64" "client" i Ho).
Defined.
