(* ===== verification/Rollout.v ===== *)
(** * Rollout of agents and clients (internal/api: rollout.go, agents.go,
      clients.go, install_script.go, client_script.go, ui.go)

    The unauthenticated routes that hand out binaries, their manifests and the two
    shell scripts, behind the gates that name what the configuration misses; and
    the handler of the web UI's files. [text/template]'s execution of the two
    templates, the embedded systemd unit and the version text are parameters. *)
From S2P Require Export AdminAPI Bindist.
From S2P Require Pins.

Local Open Scope string_scope.
Local Open Scope list_scope.

(** A response with the headers these routes set. *)
Record Served := { sv_Response : Response; sv_ContentType : string; sv_CacheControl : string;
                   sv_ContentLength : option Z }.
Definition plain_answer (r : Response) : Served :=
  {| sv_Response := r; sv_ContentType := ""; sv_CacheControl := ""; sv_ContentLength := None |}.
Definition no_store : string := "no-store".

(** ** The dependencies of these routes, and what a request reads

    [dep_Pins] is the provider; its status is read once per request. *)
Record RolloutDeps := {
  dep_Agents : option BinSource; dep_Clients : option BinSource; dep_Pins : option Pins.PinProvider;
  dep_AgentPublicURL : string; dep_PublicBaseURL : string;
  dep_OIDCIssuer : string; dep_OIDCClientID : string
}.
Definition no_pin : Pins.PinStatus :=
  {| Pins.ps_Pin := ""; Pins.ps_Source := ""; Pins.ps_Err := ""; Pins.ps_ErrCode := "" |}.

Record agentManifestItem := { item_OS : string; item_Arch : string; item_Size : Z; item_SHA256 : string }.
Definition item_of (i : Info) : agentManifestItem :=
  {| item_OS := bin_OS i; item_Arch := bin_Arch i; item_Size := bin_Size i; item_SHA256 := bin_SHA256 i |}.
Definition item_json (i : agentManifestItem) : json := JObj [
  ("os", JStr (item_OS i)); ("arch", JStr (item_Arch i)); ("size", JNum (item_Size i));
  ("sha256", JStr (item_SHA256 i))].

Record installScriptData := {
  is_BaseURL : string; is_AgentURL : string; is_Version : string; is_Pin : string;
  is_ArchList : string; is_Agents : list agentManifestItem; is_Unit : string
}.
Record clientScriptData := {
  cs_BaseURL : string; cs_Version : string; cs_Issuer : string; cs_ClientID : string;
  cs_Pin : string; cs_PinHint : string; cs_PlatformList : string; cs_Clients : list agentManifestItem
}.

(** ** The checks of the scripts' values *)
(** [strings.ContainsAny]. *)
Fixpoint any_char (f : ascii → bool) (s : string) : bool :=
  match s with "" => false | String c s => f c || any_char f s end.
Definition ContainsAny (s chars : string) : bool := any_char (λ c, bool_decide (in_string c chars)) s.
Definition all_chars (f : ascii → bool) (s : string) : bool := negb (any_char (λ c, negb (f c)) s).
Definition lower_alnum (c : ascii) : bool :=
  let n := nat_of_ascii c in
  ((48 <=? n) && (n <=? 57) || (97 <=? n) && (n <=? 122))%nat.
Definition lower_hex (c : ascii) : bool :=
  let n := nat_of_ascii c in
  ((48 <=? n) && (n <=? 57) || (97 <=? n) && (n <=? 102))%nat.
(** [^[a-z0-9]+$] and [^[0-9a-f]{64}$]. *)
Definition archPattern (s : string) : bool := negb (bool_decide (s = "")) && all_chars lower_alnum s.
Definition osPattern : string → bool := archPattern.
Definition sha256Pattern (s : string) : bool := (String.length s =? 64)%nat && all_chars lower_hex s.

(** The characters that end a single-quoted word of the shell, and those that
    end a double-quoted scalar of YAML too. *)
Definition script_breakers : string := "'" +:+ newline.
Definition config_breakers : string := "'" +:+ String "034" "\" +:+ newline +:+ String "013" "".
Definition heredoc_end : string := "UNIT_EOF".

Definition set_archs (d : installScriptData) : installScriptData := {|
  is_BaseURL := is_BaseURL d; is_AgentURL := is_AgentURL d; is_Version := is_Version d;
  is_Pin := is_Pin d; is_ArchList := Join (item_Arch <$> is_Agents d) " "; is_Agents := is_Agents d;
  is_Unit := TrimRight (is_Unit d) "010" +:+ newline |}.
Definition install_values (d : installScriptData) : list string :=
  [is_BaseURL d; is_AgentURL d; is_Pin d; is_Version d; is_ArchList d].
Definition agent_ok (i : agentManifestItem) : bool :=
  archPattern (item_Arch i) && sha256Pattern (item_SHA256 i).
(** Which of several bad values is named depends on the order of a map; every error is
    answered alike. *)
Definition renderInstallScript (template : installScriptData → option string) (data : installScriptData)
    : result string :=
  let data := set_archs data in
  if existsb (λ v, ContainsAny v script_breakers) (install_values data)
  then Err (ErrOther "value contains a quote or line break")
  else if negb (forallb agent_ok (is_Agents data)) then Err (ErrOther "arch or sha256")
  else if Contains (newline +:+ is_Unit data) (newline +:+ heredoc_end)
  then Err (ErrOther "systemd unit contains the here-doc terminator")
  else match template data with
       | None => Err (ErrOther "templating install.sh")
       | Some script => Ok script
       end.

Definition set_platforms (d : clientScriptData) : clientScriptData := {|
  cs_BaseURL := cs_BaseURL d; cs_Version := cs_Version d; cs_Issuer := cs_Issuer d;
  cs_ClientID := cs_ClientID d; cs_Pin := cs_Pin d; cs_PinHint := cs_PinHint d;
  cs_PlatformList := Join ((λ i, platform (item_OS i) (item_Arch i)) <$> cs_Clients d) " ";
  cs_Clients := cs_Clients d |}.
Definition client_values (d : clientScriptData) : list string :=
  [cs_BaseURL d; cs_Issuer d; cs_ClientID d; cs_Pin d; cs_PinHint d; cs_Version d; cs_PlatformList d].
Definition client_ok (i : agentManifestItem) : bool :=
  osPattern (item_OS i) && archPattern (item_Arch i) && sha256Pattern (item_SHA256 i).
Definition renderClientScript (template : clientScriptData → option string) (data : clientScriptData)
    : result string :=
  let data := set_platforms data in
  if existsb (λ v, ContainsAny v config_breakers) (client_values data)
  then Err (ErrOther "value contains a quote, backslash or line break")
  else if negb (forallb client_ok (cs_Clients data)) then Err (ErrOther "os, arch or sha256")
  else match template data with
       | None => Err (ErrOther "templating client.sh")
       | Some script => Ok script
       end.

(** [offeredPin]: only the pin of an operator-controlled source. *)
Definition offeredPin (st : Pins.PinStatus) : string :=
  if bool_decide (Pins.ps_Source st = Pins.PinSourceStatic) ||
     bool_decide (Pins.ps_Source st = Pins.PinSourceFile)
  then Pins.ps_Pin st else "".
Definition pinHint (pins : option Pins.PinProvider) (st : Pins.PinStatus) : string :=
  if negb (bool_decide (offeredPin st = "")) then ""
  else
    match pins with
    | Some p =>
        if bool_decide (Pins.Source p = Pins.PinSourceDial)
        then "server pin source is auto-derived (dial) — set GSSH_PUBLIC_PIN or GSSH_PUBLIC_PIN_CERT_FILE to enable --pin"
        else "no operator-controlled pin source configured on the server"
    | None => "no operator-controlled pin source configured on the server"
    end.

Section rollout.
Context `{Crypto} `{Encodings}.
Variables (version_String UnitFile : string)
          (install_template : installScriptData → option string)
          (client_template : clientScriptData → option string).
(** What [PinProvider.Status] answers for this request. *)
Variable pin_read : Pins.PinProvider → Pins.PinStatus.

Definition list_of (s : option BinSource) : list Info :=
  match s with None => [] | Some s => List_ s end.
Definition items (s : option BinSource) : list agentManifestItem := item_of <$> list_of s.
Definition pin_status (d : RolloutDeps) : Pins.PinStatus :=
  match dep_Pins d with None => no_pin | Some p => pin_read p end.

(** ** The gate of the host rollout (rollout.go) *)
Definition newRolloutGate (d : RolloutDeps) (st : Pins.PinStatus) : rolloutGate := {|
  gate_Agents := length (list_of (dep_Agents d)); gate_Pin := Pins.ps_Pin st;
  gate_AgentPublicURL := dep_AgentPublicURL d; gate_PublicBaseURL := dep_PublicBaseURL d |}.
Definition rollout_status (d : RolloutDeps) : list string * Pins.PinStatus :=
  (gate_missing (newRolloutGate d (pin_status d)), pin_status d).
Definition unavailable (message : string) (missing : list string) : Served :=
  plain_answer (writeJSON StatusServiceUnavailable
    (JObj [("error", JStr message); ("missing", JStrs missing)])).
Definition rollout_closed := "host rollout not configured".

(** ** Agents (agents.go) *)
Definition handleAgentManifest (d : RolloutDeps) : Served :=
  let '(missing, st) := rollout_status d in
  {| sv_Response := writeJSON StatusOK (JObj [
       ("version", JStr version_String); ("rollout_ready", JBool (bool_decide (missing = [])));
       ("missing", JStrs missing); ("pin_source", JStr (Pins.ps_Source st));
       ("pin_error", JStr (Pins.ps_ErrCode st)); ("agents", JArr (item_json <$> items (dep_Agents d)))]);
     sv_ContentType := ""; sv_CacheControl := no_store; sv_ContentLength := None |}.
(** The download of one binary; [None]: the handler panics on a missing source. *)
Definition download (family : string) (source : option BinSource) (osName arch : string) : option Served :=
  s ← source;
  Some (match Open_ s osName arch with
        | Err _ => plain_answer
            (HttpError ("no " +:+ family +:+ " binary for " +:+ osName +:+ "/" +:+ arch) StatusNotFound)
        | Ok (data, info) =>
            {| sv_Response := {| status := StatusOK; content := Plain data |};
               sv_ContentType := "application/octet-stream"; sv_CacheControl := no_store;
               sv_ContentLength := Some (bin_Size info) |}
        end).
Definition handleAgentDownload (d : RolloutDeps) (osName arch : string) : option Served :=
  match (rollout_status d).1 with
  | [] => download "agent" (dep_Agents d) osName arch
  | missing => Some (unavailable rollout_closed missing)
  end.

(** ** install.sh (install_script.go) *)
Definition linuxAgents (s : option BinSource) : list agentManifestItem :=
  item_of <$> filter (λ i, bin_OS i = "linux") (list_of s).
Definition script_answer (script : result string) : Served :=
  match script with
  | Err _ => plain_answer internalError
  | Ok script =>
      {| sv_Response := {| status := StatusOK; content := Plain script |};
         sv_ContentType := "text/x-shellscript; charset=utf-8"; sv_CacheControl := no_store;
         sv_ContentLength := None |}
  end.
Definition install_data (d : RolloutDeps) (st : Pins.PinStatus) : installScriptData := {|
  is_BaseURL := dep_PublicBaseURL d; is_AgentURL := dep_AgentPublicURL d; is_Version := version_String;
  is_Pin := Pins.ps_Pin st; is_ArchList := ""; is_Agents := linuxAgents (dep_Agents d);
  is_Unit := UnitFile |}.
Definition handleInstallScript (d : RolloutDeps) : Served :=
  let '(missing, st) := rollout_status d in
  match missing with
  | [] => script_answer (renderInstallScript install_template (install_data d st))
  | missing => unavailable rollout_closed missing
  end.

(** ** Clients (clients.go, client_script.go) *)
Definition client_missing (d : RolloutDeps) : list string :=
  (if (length (list_of (dep_Clients d)) =? 0)%nat then ["binaries"] else []) ++
  missing_url "public_url" (dep_PublicBaseURL d) ++
  (if bool_decide (dep_OIDCIssuer d = "") then ["oidc_issuer"] else []) ++
  (if bool_decide (dep_OIDCClientID d = "") then ["oidc_client_id"] else []).
Definition client_closed := "client install not configured".
Definition handleClientManifest (d : RolloutDeps) : Served :=
  let missing := client_missing d in
  let st := pin_status d in
  {| sv_Response := writeJSON StatusOK (JObj [
       ("version", JStr version_String); ("ready", JBool (bool_decide (missing = [])));
       ("missing", JStrs missing); ("pin", JStr (offeredPin st)); ("pin_source", JStr (Pins.ps_Source st));
       ("clients", JArr (item_json <$> items (dep_Clients d)))]);
     sv_ContentType := ""; sv_CacheControl := no_store; sv_ContentLength := None |}.
Definition handleClientDownload (d : RolloutDeps) (osName arch : string) : option Served :=
  match client_missing d with
  | [] => download "client" (dep_Clients d) osName arch
  | missing => Some (unavailable client_closed missing)
  end.
Definition client_data (d : RolloutDeps) : clientScriptData :=
  let st := pin_status d in {|
  cs_BaseURL := dep_PublicBaseURL d; cs_Version := version_String; cs_Issuer := dep_OIDCIssuer d;
  cs_ClientID := dep_OIDCClientID d; cs_Pin := offeredPin st; cs_PinHint := pinHint (dep_Pins d) st;
  cs_PlatformList := ""; cs_Clients := items (dep_Clients d) |}.
Definition handleClientScript (d : RolloutDeps) : Served :=
  match client_missing d with
  | [] => script_answer (renderClientScript client_template (client_data d))
  | missing => unavailable client_closed missing
  end.
End rollout.

(** ** The web UI's files (ui.go)

    [stat] tells whether the embedded build has the file; serving it is the standard
    library's. *)
Inductive UIAnswer := UIStatus (code : Z) (text : string) | ServeFile (path cacheControl : string).
Definition ui_class (c : ascii) : bool :=
  let n := nat_of_ascii c in
  ((48 <=? n) && (n <=? 57) || (65 <=? n) && (n <=? 90) || (97 <=? n) && (n <=? 122) ||
   (n =? 95) || (n =? 45))%nat.
(** Read from the end: the extension, its dot, and then a run of the class that has a dash
    after at least eight characters. *)
Fixpoint dash_after (n : nat) (s : string) : bool :=
  match s with
  | "" => false
  | String c s =>
      (n =? 0)%nat && bool_decide (c = "-"%char) || ui_class c && dash_after (pred n) s
  end.
Fixpoint extension_then (seen : bool) (s : string) : bool :=
  match s with
  | "" => false
  | String c s =>
      if bool_decide (c = "."%char) then seen && dash_after 8 s
      else lower_alnum c && extension_then true s
  end.
(** [-[A-Za-z0-9_-]{8,}\.[a-z0-9]+$] *)
Definition hashedAsset (path : string) : bool := extension_then false (String.rev path).

Definition immutable_cache : string := "public, max-age=31536000, immutable".
Definition NewUIHandler (stat : string → bool) (method path : string) : UIAnswer :=
  let path := TrimPrefix path "/" in
  if HasPrefix path "v1/" then UIStatus StatusNotFound "404 page not found"
  else if negb (bool_decide (method = "GET")) && negb (bool_decide (method = "HEAD"))
  then UIStatus 405 "method not allowed"
  else
    let path := if bool_decide (path = "") then "index.html" else path in
    let path := if stat path then path else "index.html" in
    if bool_decide (path = "index.html") then
      if stat "index.html" then ServeFile path no_store
      else UIStatus StatusServiceUnavailable "web ui not built (make web)"
    else ServeFile path (if hashedAsset path then immutable_cache else "").

(** ** Lemmas *)
Lemma any_char_false f s : any_char f s = false ↔ ∀ c, in_string c s → f c = false.
Proof.
  induction s as [|d s IH]; simpl; [by split|]. rewrite orb_false_iff, IH. split.
  - intros [Hd Hs] c [<-|Hc]; auto.
  - intros Hall. split; [apply Hall; by left|intros c Hc; apply Hall; by right].
Qed.
Lemma ContainsAny_false s chars :
  ContainsAny s chars = false ↔ ∀ c, in_string c chars → ¬ in_string c s.
Proof.
  unfold ContainsAny. rewrite any_char_false. setoid_rewrite bool_decide_eq_false. naive_solver.
Qed.
Lemma all_chars_true f s : all_chars f s = true ↔ ∀ c, in_string c s → f c = true.
Proof.
  unfold all_chars. rewrite negb_true_iff, any_char_false. setoid_rewrite negb_false_iff. done.
Qed.
Lemma Join_mid l1 p l2 c :
  ∃ a b, String c (Join (l1 ++ p :: l2) (String c "")) = a +:+ String c (p +:+ b).
Proof.
  induction l1 as [|q l1 (a & b & IH)]; simpl.
  - exists "". destruct l2 as [|q l2]; [exists ""; by rewrite append_nil_r|eexists; done].
  - exists (String c (q +:+ a)), b. simpl. rewrite append_assoc, <- IH.
    by destruct (l1 ++ p :: l2) eqn:E; [by destruct l1|].
Qed.
Lemma Split_elem s c p : p ∈ Split s c → ∃ a b, String c s = a +:+ String c (p +:+ b).
Proof.
  intros (l1 & l2 & E)%list_elem_of_split. pose proof (Join_mid l1 p l2 c) as Hj.
  by rewrite <- E, Join_Split in Hj.
Qed.
(** No line of a text that lacks the terminator after a line break starts with it. *)
Lemma heredoc_lines u t : Contains (newline +:+ u) (newline +:+ t) = false →
  ∀ line, line ∈ Split u "010" → HasPrefix line t = false.
Proof.
  intros Hno line (a & b & E)%Split_elem. destruct (HasPrefix line t) eqn:Hp; [|done].
  apply HasPrefix_spec in Hp as [r ->].
  assert (Contains (newline +:+ u) (newline +:+ t) = true); [|congruence].
  apply Contains_spec. exists a, (r +:+ b). unfold newline. simpl. rewrite E, !append_assoc. done.
Qed.
Lemma renderInstallScript_Ok template data script :
  renderInstallScript template data = Ok script →
  template (set_archs data) = Some script ∧
  (∀ v c, v ∈ install_values (set_archs data) → in_string c script_breakers → ¬ in_string c v) ∧
  Forall (λ a, agent_ok a = true) (is_Agents data) ∧
  (∀ line, line ∈ Split (is_Unit (set_archs data)) "010" → HasPrefix line heredoc_end = false).
Proof.
  unfold renderInstallScript. set (d := set_archs data).
  destruct (existsb _ (install_values d)) eqn:Ev; [done|].
  destruct (forallb agent_ok (is_Agents d)) eqn:Ea; [|done]. cbn [negb].
  destruct (Contains (newline +:+ is_Unit d) (newline +:+ heredoc_end)) eqn:Eu; [done|].
  destruct (template d) eqn:Et; [|done]. intros; simplify_eq. split_and!.
  - done.
  - intros v c Hv Hc. apply not_true_iff_false in Ev. rewrite existsb_exists in Ev.
    assert (ContainsAny v script_breakers = false) as Hn.
    { apply not_true_iff_false. intros Hx. apply Ev. exists v. by rewrite <- list_elem_of_In. }
    rewrite ContainsAny_false in Hn. by apply Hn.
  - apply Forall_forall. intros a Ha. rewrite forallb_forall in Ea. by apply Ea, list_elem_of_In.
  - by apply heredoc_lines.
Qed.
Lemma renderClientScript_Ok template data script :
  renderClientScript template data = Ok script →
  template (set_platforms data) = Some script ∧
  (∀ v c, v ∈ client_values (set_platforms data) → in_string c config_breakers → ¬ in_string c v) ∧
  Forall (λ a, client_ok a = true) (cs_Clients data).
Proof.
  unfold renderClientScript. set (d := set_platforms data).
  destruct (existsb _ (client_values d)) eqn:Ev; [done|].
  destruct (forallb client_ok (cs_Clients d)) eqn:Ea; [|done]. simpl.
  destruct (template d) eqn:Et; [|done]. intros; simplify_eq. split_and!.
  - done.
  - intros v c Hv Hc. apply not_true_iff_false in Ev. rewrite existsb_exists in Ev.
    assert (ContainsAny v config_breakers = false) as Hn.
    { apply not_true_iff_false. intros Hx. apply Ev. exists v. by rewrite <- list_elem_of_In. }
    rewrite ContainsAny_false in Hn. by apply Hn.
  - apply Forall_forall. intros a Ha. rewrite forallb_forall in Ea. by apply Ea, list_elem_of_In.
Qed.
Lemma hex_length s : String.length (hex_EncodeToString s) = (2 * String.length s)%nat.
Proof. induction s as [|c s IH]; simpl; [done|]. rewrite IH. lia. Qed.
Lemma hex_chars s : all_chars lower_hex (hex_EncodeToString s) = true.
Proof.
  apply all_chars_true.
  assert (∀ n, lower_hex (hex_char n) = true) as Hhex.
  { intros n. unfold hex_char. destruct (Z.to_nat n) as [|k]; [done|].
    do 16 (destruct k as [|k]; [done|]). simpl. by destruct k. }
  induction s as [|c s IH]; intros x; simpl; [done|]. intros [<-|[<-|Hx]]; [apply Hhex..|by apply IH].
Qed.

Section theorems.
Context `{Crypto} `{Encodings}.
Variables (version_String UnitFile : string)
          (install_template : installScriptData → option string)
          (client_template : clientScriptData → option string)
          (pin_read : Pins.PinProvider → Pins.PinStatus).

Lemma missing_url_nil name url : missing_url name url = [] → isHTTPSURL url = true.
Proof. unfold missing_url. destruct (bool_decide _); [done|]. by destruct (isHTTPSURL url). Qed.
Lemma gate_open d : (rollout_status pin_read d).1 = [] →
  (∃ s, dep_Agents d = Some s ∧ List_ s ≠ []) ∧ Pins.ps_Pin (pin_status pin_read d) ≠ "" ∧
  isHTTPSURL (dep_AgentPublicURL d) = true ∧ isHTTPSURL (dep_PublicBaseURL d) = true.
Proof.
  unfold rollout_status, gate_missing, newRolloutGate. cbn [fst gate_Agents gate_Pin gate_AgentPublicURL gate_PublicBaseURL].
  intros [Ha [Hp [Hu Hb]%app_eq_nil]%app_eq_nil]%app_eq_nil. split_and!.
  - destruct (dep_Agents d) as [s|]; simpl in Ha; [|done]. exists s. split; [done|].
    intros E. by rewrite E in Ha.
  - intros E. by rewrite bool_decide_eq_true_2 in Hp.
  - by eapply missing_url_nil.
  - by eapply missing_url_nil.
Qed.
Lemma client_gate_open d : client_missing d = [] →
  (∃ s, dep_Clients d = Some s ∧ List_ s ≠ []) ∧ isHTTPSURL (dep_PublicBaseURL d) = true ∧
  dep_OIDCIssuer d ≠ "" ∧ dep_OIDCClientID d ≠ "".
Proof.
  unfold client_missing.
  intros [Ha [Hp [Hu Hb]%app_eq_nil]%app_eq_nil]%app_eq_nil. split_and!.
  - destruct (dep_Clients d) as [s|]; simpl in Ha; [|done]. exists s. split; [done|].
    intros E. by rewrite E in Ha.
  - by eapply missing_url_nil.
  - intros E. by rewrite bool_decide_eq_true_2 in Hu.
  - intros E. by rewrite bool_decide_eq_true_2 in Hb.
Qed.
Lemma linuxAgents_elem s a : a ∈ linuxAgents s ↔ ∃ i, i ∈ list_of s ∧ bin_OS i = "linux" ∧ a = item_of i.
Proof.
  unfold linuxAgents. rewrite list_elem_of_fmap. setoid_rewrite list_elem_of_filter. naive_solver.
Qed.

(** C39: install.sh is served only with a pin and https URLs, as the template
    applied to values that none of the script's quotings can be left with: no quote or
    line break in a quoted word, only lower-case letters and digits in a case pattern,
    and no line of the systemd unit that ends its here-document. *)
Theorem install_script_fail_closed d :
  status (sv_Response (handleInstallScript version_String UnitFile install_template pin_read d)) = StatusOK →
  ∃ data script,
    content (sv_Response (handleInstallScript version_String UnitFile install_template pin_read d)) =
      Plain script ∧
    install_template data = Some script ∧
    is_Pin data = Pins.ps_Pin (pin_status pin_read d) ∧ is_Pin data ≠ "" ∧
    isHTTPSURL (is_AgentURL data) = true ∧ isHTTPSURL (is_BaseURL data) = true ∧
    (∀ v c, v ∈ install_values data → in_string c script_breakers → ¬ in_string c v) ∧
    (∀ a, a ∈ is_Agents data → item_OS a = "linux" ∧ archPattern (item_Arch a) = true ∧
       sha256Pattern (item_SHA256 a) = true) ∧
    (∀ line, line ∈ Split (is_Unit data) "010" → HasPrefix line heredoc_end = false).
Proof.
  unfold handleInstallScript. destruct (rollout_status pin_read d) as [missing st] eqn:E.
  assert (st = pin_status pin_read d) as Hst by (unfold rollout_status in E; congruence).
  destruct missing; [|done].
  destruct (gate_open d) as (_ & Hp & Hau & Hpu); [by rewrite E|].
  destruct (renderInstallScript install_template _) as [script|] eqn:Er; [|done]. intros _.
  apply renderInstallScript_Ok in Er as (Ht & Hv & Ha & Hu).
  exists (set_archs (install_data version_String UnitFile d st)), script.
  split_and!; try done; [by simpl; rewrite Hst|by simpl; rewrite Hst|].
  intros a Hain. simpl in Hain. rewrite Forall_forall in Ha. pose proof (Ha a Hain) as Hok.
  apply linuxAgents_elem in Hain as (i & _ & Ho & ->). unfold agent_ok in Hok. by bool_to_prop.
Qed.

(** What the script verifies is what the server serves: every hash in install.sh
    (the SHA-256 it compares a download with) is the hash of the file the agent route
    answers for that platform, as long as the gate stays open; the length header is
    that file's. *)
Theorem script_hashes_match_downloads d entries :
  (∀ s, dep_Agents d = Some s → src_FS s = Some entries) → directory entries →
  (rollout_status pin_read d).1 = [] →
  ∀ a, a ∈ is_Agents (set_archs (install_data version_String UnitFile d (pin_status pin_read d))) →
  ∃ served data, handleAgentDownload pin_read d "linux" (item_Arch a) = Some served ∧
    sv_Response served = {| status := StatusOK; content := Plain data |} ∧
    sv_ContentLength served = Some (Z.of_nat (String.length data)) ∧
    item_SHA256 a = hex_EncodeToString (sha256 data).
Proof.
  intros Hfs Hdir Hgate a Ha. destruct (gate_open d Hgate) as [(s & Hs & _) _].
  unfold handleAgentDownload. rewrite Hgate, Hs. simpl in Ha.
  apply linuxAgents_elem in Ha as (i & Hi & Ho & ->). rewrite Hs in Hi. simpl in Hi.
  apply (List_elem s entries) in Hi as (e & He & Ei); [|by apply Hfs].
  destruct (Open_entry s entries e i (Hfs s Hs) Hdir He Ei) as (data & Hopen & Hsize & Hsum).
  unfold download. simpl. rewrite Ho in Hopen. rewrite Hopen. eexists _, data. split; [done|].
  simpl. by rewrite Hsize.
Qed.

(** client.sh and the client manifest never carry a dialed pin, whatever the
    provider's state: a pin is handed out only from a source the operator controls. *)
Theorem offered_pin_is_operators pem_Decode x509_Parse now locked later file outcome cfg es st p' :
  Pins.Status pem_Decode x509_Parse now locked later file outcome
    (Pins.run_pins (Pins.NewPinProvider cfg) es).1 = Some (st, p') →
  offeredPin st ≠ "" →
  Pins.StaticPin cfg = offeredPin st ∨
  Pins.StaticPin cfg = "" ∧ Pins.CertFile cfg ≠ "" ∧
    Pins.pinFromCertFile pem_Decode x509_Parse file = Some (inr (offeredPin st)).
Proof.
  pose proof (Pins.run_tracks cfg es) as Ht.
  destruct (Pins.run_pins (Pins.NewPinProvider cfg) es) as [p dials].
  destruct Ht as (Hc & Hs & _). simpl in Hs. simpl. unfold Pins.Status. rewrite Hs, Hc.
  destruct (bool_decide (Pins.StaticPin cfg = "")) eqn:E1; simpl; bool_to_prop.
  2: { intros ? _. simplify_eq. by left. }
  destruct (bool_decide (Pins.CertFile cfg = "")) eqn:E2; simpl; bool_to_prop.
  - unfold Pins.dialStatus, Pins.cached_status. intros Hst Hoff. exfalso. apply Hoff. simplify_eq/=.
    by case_match.
  - intros Hst Hoff. right. destruct (Pins.pinFromCertFile _ _ file) as [[e|pin]|]; simplify_eq/=; done.
Qed.

(** client.sh is served only with everything the configuration it writes needs,
    and only values that leave neither the shell's nor YAML's quotes. *)
Theorem client_script_fail_closed d :
  status (sv_Response (handleClientScript version_String client_template pin_read d)) = StatusOK →
  ∃ data script,
    content (sv_Response (handleClientScript version_String client_template pin_read d)) = Plain script ∧
    client_template data = Some script ∧
    isHTTPSURL (cs_BaseURL data) = true ∧ cs_Issuer data ≠ "" ∧ cs_ClientID data ≠ "" ∧
    cs_Clients data ≠ [] ∧
    (∀ v c, v ∈ client_values data → in_string c config_breakers → ¬ in_string c v) ∧
    Forall (λ a, client_ok a = true) (cs_Clients data).
Proof.
  unfold handleClientScript. destruct (client_missing d) eqn:E; [|done].
  destruct (client_gate_open d E) as ((s & Hs & Hne) & Hb & Hi & Hc).
  destruct (renderClientScript client_template _) as [script|] eqn:Er; [|done]. intros _.
  apply renderClientScript_Ok in Er as (Ht & Hv & Ha).
  exists (set_platforms (client_data version_String pin_read d)), script.
  split_and!; try done. simpl. unfold items. rewrite Hs. simpl. by destruct (List_ s).
Qed.

(** A closed gate is answered with 503 and its conditions, and the download
    handlers never reach for a binary source that is not there. *)
Theorem downloads_are_gated d osName arch :
  (∃ served, handleAgentDownload pin_read d osName arch = Some served ∧
    ((rollout_status pin_read d).1 ≠ [] →
     served = unavailable rollout_closed (rollout_status pin_read d).1)) ∧
  (∃ served, handleClientDownload d osName arch = Some served ∧
    (client_missing d ≠ [] → served = unavailable client_closed (client_missing d))).
Proof.
  unfold handleAgentDownload, handleClientDownload, download. split.
  - destruct ((rollout_status pin_read d).1) eqn:E; [|by eexists].
    destruct (gate_open d E) as [(s & -> & _) _]. simpl. by eexists.
  - destruct (client_missing d) eqn:E; [|by eexists].
    destruct (client_gate_open d E) as [(s & -> & _) _]. simpl. by eexists.
Qed.

(** The hash check never refuses what a source lists, so with a 32-byte digest only
    the architecture's name and the configured values can stop the script. *)
Theorem listed_hashes_pass s entries i : src_FS s = Some entries →
  (∀ data, String.length (sha256 data) = 32%nat) → i ∈ List_ s → sha256Pattern (bin_SHA256 i) = true.
Proof.
  intros Hfs Hlen (e & _ & [_ Hh]%entry_info_Some)%(List_elem s entries); [|done].
  apply hashFile_data in Hh as (data & _ & _ & ->). unfold sha256Pattern.
  by rewrite hex_length, Hlen, hex_chars.
Qed.
End theorems.

(** *** The pattern of hashed assets *)
Lemma dash_after_spec n s : dash_after n s = true ↔
  ∃ b a, s = b +:+ String "-" a ∧ all_chars ui_class b = true ∧ (n ≤ String.length b)%nat.
Proof.
  revert n. induction s as [|c s IH]; intros n; simpl.
  { split; [done|]. by intros ([|? ?] & x & ? & _). }
  rewrite orb_true_iff, !andb_true_iff, bool_decide_eq_true, Nat.eqb_eq, IH. split.
  - intros [[-> ->]|[Hc (b & a & -> & Hb & Hn)]]; [by exists "", s|].
    exists (String c b), a. split_and!; [done| |simpl; lia].
    rewrite all_chars_true in *. intros x [<-|Hx]; auto.
  - intros ([|x b] & a & E & Hb & Hn); simplify_eq/=; [left; split; [lia|done]|]. right.
    rewrite all_chars_true in Hb. split; [apply Hb; by left|]. exists b, a.
    split_and!; [done| |lia]. apply all_chars_true. intros y Hy. apply Hb. by right.
Qed.
Lemma extension_then_spec seen s : extension_then seen s = true ↔
  ∃ e r, s = e +:+ String "." r ∧ all_chars lower_alnum e = true ∧ (seen = true ∨ e ≠ "") ∧
    dash_after 8 r = true.
Proof.
  revert seen. induction s as [|c s IH]; intros seen; cbn [extension_then].
  { split; [done|]. by intros ([|? ?] & x & ? & _). }
  destruct (bool_decide (c = "."%char)) eqn:Ec; bool_to_prop.
  - subst c. rewrite andb_true_iff. split.
    + intros [Hs Hd]. exists "", s. auto.
    + intros ([|x e] & r & E & He & Hs & Hd); simplify_eq/=. by destruct Hs.
  - rewrite andb_true_iff, IH. split.
    + intros [Hc (e & r & -> & He & _ & Hd)]. exists (String c e), r. split_and!; [done| |by right|done].
      rewrite all_chars_true in *. intros x [<-|Hx]; auto.
    + intros ([|x e] & r & E & He & _ & Hd); simplify_eq/=. rewrite all_chars_true in He.
      split; [apply He; by left|]. exists e, r. split_and!; [done| |by left|done].
      apply all_chars_true. intros y Hy. apply He. by right.
Qed.
Lemma all_chars_rev f s : all_chars f (String.rev s) = all_chars f s.
Proof.
  apply eq_true_iff_eq. rewrite !all_chars_true. by setoid_rewrite in_string_rev.
Qed.
Lemma rev_length s : String.length (String.rev s) = String.length s.
Proof.
  induction s as [|c s IH]; [done|]. change (String c s) with (String c "" +:+ s).
  rewrite rev_append, !append_length, IH. simpl. lia.
Qed.
(** The matcher accepts what the regular expression -[A-Za-z0-9_-]{8,}\.[a-z0-9]+$ does. *)
Theorem hashedAsset_matches path : hashedAsset path = true ↔
  ∃ a b e, path = a +:+ "-" +:+ b +:+ "." +:+ e ∧ all_chars ui_class b = true ∧
    (8 ≤ String.length b)%nat ∧ all_chars lower_alnum e = true ∧ e ≠ "".
Proof.
  unfold hashedAsset. rewrite extension_then_spec. split.
  - intros (e & r & E & He & [?|Hne] & Hd); [done|].
    apply dash_after_spec in Hd as (b & a & -> & Hb & Hn).
    exists (String.rev a), (String.rev b), (String.rev e).
    rewrite !all_chars_rev, rev_length. split_and!; try done.
    + apply (f_equal String.rev) in E. rewrite rev_rev in E. rewrite E.
      change (String "." ?x) with ("." +:+ x). change (String "-" ?x) with ("-" +:+ x).
      by rewrite !rev_append, !append_assoc.
    + intros Hr. apply (f_equal String.rev) in Hr. by rewrite rev_rev in Hr.
  - intros (a & b & e & -> & Hb & Hn & He & Hne). exists (String.rev e), (String.rev b +:+ "-" +:+ String.rev a).
    rewrite all_chars_rev. split_and!; [|done| |].
    + by rewrite !rev_append, !append_assoc.
    + right. intros Hr. apply (f_equal String.rev) in Hr. by rewrite rev_rev in Hr.
    + apply dash_after_spec. exists (String.rev b), (String.rev a). by rewrite all_chars_rev, rev_length.
Qed.

(** API paths never get a page, only hashed files are cached for good, the entry
    page never is, and only an unbuilt UI is answered with 503. *)
Theorem ui_handler_cases stat method path :
  let path' := TrimPrefix path "/" in
  match NewUIHandler stat method path with
  | ServeFile p cache =>
      HasPrefix path' "v1/" = false ∧ stat p = true ∧
      (p = path' ∨ p = "index.html" ∧ cache = no_store) ∧
      (cache = immutable_cache → hashedAsset p = true)
  | UIStatus code _ =>
      HasPrefix path' "v1/" = true ∧ code = StatusNotFound ∨
      code = 405%Z ∧ method ≠ "GET" ∧ method ≠ "HEAD" ∨
      code = StatusServiceUnavailable ∧ stat "index.html" = false
  end.
Proof.
  intros path'. unfold NewUIHandler. fold path'.
  destruct (HasPrefix path' "v1/"); [by left|].
  destruct (bool_decide (method = "GET")) eqn:Eg; destruct (bool_decide (method = "HEAD")) eqn:Eh;
    cbn [negb andb]; bool_to_prop; [..|by right; left].
  all: set (p := if bool_decide (path' = "") then "index.html" else path').
  all: assert (p = path' ∨ p = "index.html") as Hp by (unfold p; case_match; auto).
  all: destruct (stat p) eqn:Es;
    [|rewrite (bool_decide_eq_true_2 ("index.html" = "index.html")) by done;
      destruct (stat "index.html") eqn:Ei; [by split_and!; auto|by right; right]].
  all: destruct (bool_decide (p = "index.html")) eqn:Ep; bool_to_prop;
    [rewrite Ep in *; rewrite Es; by split_and!; auto|].
  all: destruct Hp as [Hp|?]; [|done]; destruct (hashedAsset p) eqn:Eh'; by split_and!; auto.
Qed.

(** ** Witnesses *)
Definition toy_bytes : string := "0123456789abcdef0123456789abcdef".
Definition toy_agents : list DirEntry :=
  [{| de_Name := "gssh-agentd-linux-amd64"; de_IsDir := false; de_Content := Some toy_bytes |}].
Definition toy_clients : list DirEntry :=
  [{| de_Name := "gssh-linux-amd64"; de_IsDir := false; de_Content := Some toy_bytes |}].
Definition toy_rollout : RolloutDeps := {|
  dep_Agents := Some (AgentSource (Some toy_agents)); dep_Clients := Some (ClientSource (Some toy_clients));
  dep_Pins := Some (Pins.NewPinProvider {| Pins.StaticPin := "pin"; Pins.CertFile := "";
                                          Pins.DialURL := ""; Pins.RefreshInterval := 0 |});
  dep_AgentPublicURL := "https://agent"; dep_PublicBaseURL := "https://gssh";
  dep_OIDCIssuer := "https://idp"; dep_OIDCClientID := "gssh" |}.
Definition static_read (p : Pins.PinProvider) : Pins.PinStatus := {|
  Pins.ps_Pin := Pins.StaticPin (Pins.pp_cfg p); Pins.ps_Source := Pins.PinSourceStatic;
  Pins.ps_Err := ""; Pins.ps_ErrCode := "" |}.
Definition toy_install_script (d : RolloutDeps) : Served :=
  handleInstallScript (H := toy_crypto) (H0 := toy_encodings) "v1" "[Unit]"
    (λ data, Some (is_Pin data +:+ is_ArchList data)) static_read d.
Example toy_install_script_runs :
  sv_Response (toy_install_script toy_rollout) = {| status := StatusOK; content := Plain "pinamd64" |} ∧
  hashedAsset "main-Q3ZUVLNB.js" = true ∧ hashedAsset "main.js" = false.
Proof. vm_compute. done. Qed.

Lemma install_script_fail_closed_witness :
  ∃ data script, content (sv_Response (toy_install_script toy_rollout)) = Plain script ∧
    is_Pin data = "pin" ∧ is_Pin data ≠ "".
Proof.
  destruct (install_script_fail_closed (H := toy_crypto) (H0 := toy_encodings) "v1" "[Unit]"
    (λ data, Some (is_Pin data +:+ is_ArchList data)) static_read toy_rollout)
    as (data & script & H1 & _ & H3 & H4 & _); [vm_compute; reflexivity|].
  exists data, script. split; [exact H1|]. split; [exact H3|exact H4].
Defined.

Lemma script_hashes_match_downloads_witness :
  ∃ served data, handleAgentDownload (H := toy_crypto) (H0 := toy_encodings) static_read toy_rollout
      "linux" "amd64" = Some served ∧
    sv_Response served = {| status := StatusOK; content := Plain data |} ∧
    sv_ContentLength served = Some (Z.of_nat (String.length data)) ∧
    hex_EncodeToString toy_bytes = hex_EncodeToString (@sha256 toy_crypto data).
Proof.
  refine (script_hashes_match_downloads (H := toy_crypto) (H0 := toy_encodings) "v1" "[Unit]" static_read
    toy_rollout toy_agents _ _ _
    {| item_OS := "linux"; item_Arch := "amd64"; item_Size := 32;
       item_SHA256 := hex_EncodeToString toy_bytes |} _).
  - intros s E. simplify_eq/=. reflexivity.
  - repeat constructor; vm_compute; intuition discriminate.
  - vm_compute. reflexivity.
  - apply list_elem_of_In. left. vm_compute. reflexivity.
Defined.
