(* ===== verification/Server.v ===== *)
(** * The public HTTP handler (internal/api/server.go, internal/metrics)

    [New]: every route of the public listener with its middleware, composed from
    the components' handlers. The handlers' stores are those of the World and always
    there, as main.go passes them. A path is the list of its unescaped segments, as
    net/http's mux matches it after cleaning ([[""]] is the path /); a pattern with
    GET also takes HEAD. *)
From S2P Require Export AdminAPI AgentAPI Rollout.
From S2P Require RateLimit.

Local Open Scope string_scope.
Local Open Scope list_scope.

(** ** Routes *)
Inductive Route :=
| Healthz | GetUIConfig | CABundle (purpose : string)
| PostEnroll | PostSignUser | PostSignCI
| AgentManifest | AgentDownload (os arch : string) | InstallScript
| ClientManifest | ClientDownload (os arch : string) | ClientScript
| AuthLogin | AuthCallback | AuthLogout | AuthMe | AuthOther
| Admin (route : admin_route) | AdminOther
| UI.

Definition is_get (m : string) : bool := bool_decide (m = "GET") || bool_decide (m = "HEAD").
(** A wildcard takes one segment that is not empty. *)
Definition wild (s : string) : bool := negb (bool_decide (s = "")).

Definition admin_route_of (m : string) (segs : list string) : option admin_route :=
  match segs with
  | ["grants"] => if is_get m then Some GetGrants else if bool_decide (m = "POST") then Some PostGrant else None
  | ["grants"; x] =>
      if bool_decide (m = "POST") && bool_decide (x = "apply") then Some PostGrantsApply
      else if negb (wild x) then None
      else if is_get m then Some GetGrantById
      else if bool_decide (m = "PUT") then Some PutGrant
      else if bool_decide (m = "DELETE") then Some DeleteGrantById else None
  | ["ci-grants"] =>
      if is_get m then Some GetCIGrants else if bool_decide (m = "POST") then Some PostCIGrant else None
  | ["ci-grants"; x] =>
      if bool_decide (m = "POST") && bool_decide (x = "apply") then Some PostCIGrantsApply
      else if negb (wild x) then None
      else if is_get m then Some GetCIGrantById
      else if bool_decide (m = "PUT") then Some PutCIGrant
      else if bool_decide (m = "DELETE") then Some DeleteCIGrantById else None
  | ["hosts"] => if is_get m then Some GetHosts else None
  | ["users"] => if is_get m then Some GetUsers else None
  | ["groups"] => if is_get m then Some GetGroups else None
  | ["service-accounts"] => if is_get m then Some GetServiceAccounts else None
  | ["service-accounts"; x] =>
      if bool_decide (m = "PATCH") && wild x then Some PatchServiceAccount else None
  | ["certificates"] => if is_get m then Some GetCertificates else None
  | ["audit"] => if is_get m then Some GetAudit else None
  | ["audit"; "export"] => if is_get m then Some GetAuditExport else None
  | ["enroll-tokens"] => if bool_decide (m = "POST") then Some PostEnrollToken else None
  | _ => None
  end.

(** The most specific pattern; the web UI's takes the rest. *)
Definition route_of (m : string) (segs : list string) : Route :=
  match segs with
  | ["healthz"] => if is_get m then Healthz else UI
  | ["v1"; "ui"; "config"] => if is_get m then GetUIConfig else UI
  | ["v1"; "ca"; "bundle"; purpose] => if is_get m && wild purpose then CABundle purpose else UI
  | ["v1"; "enroll"] => if bool_decide (m = "POST") then PostEnroll else UI
  | ["v1"; "sign"; "user"] => if bool_decide (m = "POST") then PostSignUser else UI
  | ["v1"; "sign"; "ci"] => if bool_decide (m = "POST") then PostSignCI else UI
  | ["v1"; "agents"] => if is_get m then AgentManifest else UI
  | ["v1"; "agents"; os; arch] => if is_get m && wild os && wild arch then AgentDownload os arch else UI
  | ["install.sh"] => if is_get m then InstallScript else UI
  | ["v1"; "clients"] => if is_get m then ClientManifest else UI
  | ["v1"; "clients"; os; arch] => if is_get m && wild os && wild arch then ClientDownload os arch else UI
  | ["client.sh"] => if is_get m then ClientScript else UI
  | ["v1"; "auth"; "login"] => if is_get m then AuthLogin else AuthOther
  | ["v1"; "auth"; "callback"] => if is_get m then AuthCallback else AuthOther
  | ["v1"; "auth"; "logout"] => if bool_decide (m = "POST") then AuthLogout else AuthOther
  | ["v1"; "auth"; "me"] => if is_get m then AuthMe else AuthOther
  | "v1" :: "auth" :: _ :: _ => AuthOther
  | "v1" :: "admin" :: ((_ :: _) as rest) =>
      match admin_route_of m rest with Some route => Admin route | None => AdminOther end
  | _ => UI
  end.

Example routes_found :
  route_of "POST" ["v1"; "admin"; "grants"; "apply"] = Admin PostGrantsApply ∧
  route_of "PUT" ["v1"; "admin"; "ci-grants"; "7"] = Admin PutCIGrant ∧
  route_of "HEAD" ["v1"; "admin"; "audit"; "export"] = Admin GetAuditExport ∧
  route_of "PUT" ["v1"; "admin"; "audit"] = AdminOther ∧ route_of "GET" ["v1"; "admin"] = UI ∧
  route_of "GET" ["v1"; "agents"; "linux"; "amd64"] = AgentDownload "linux" "amd64" ∧
  route_of "POST" ["v1"; "sign"; "ci"] = PostSignCI ∧ route_of "GET" [""] = UI.
Proof. by vm_compute. Qed.

(** ** Answers *)
Inductive Answer :=
| Api (r : Response) | Web (r : UIResponse) | File (s : Served) | Page (p : UIAnswer)
| Panics.                       (* a nil dereference; net/http drops the connection *)
Definition answer_response (a : Answer) : Response :=
  match a with
  | Api r => r
  | Web r => ui_Response r
  | File s => sv_Response s
  | Page (UIStatus code text) => HttpError text code
  | Page (ServeFile _ _) => {| status := StatusOK; content := NoBody |}
  | Panics => internalError
  end.

Section server.
Context `{Crypto} `{UUIDs} `{X509} `{Encodings} `{OAuth2} `{MapOrder}.

(** [Deps]. The verifier of the UI login is its own; [d_RandomState] and
    [d_RandomToken] are the texts of random draws, [d_JSONB] PostgreSQL's text of a
    JSON column. *)
Record Deps := {
  d_CA : CA;
  d_Verifier : option (TokenVerifier Claims); d_CIVerifier : option (TokenVerifier CIClaims);
  d_RateLimit : option RateLimit.RateLimiterConfig;
  d_DownloadRateLimit : option RateLimit.RateLimiterConfig;
  d_HostCertValidity : Z; d_AdminGroup : string; d_AuditorGroup : string;
  d_OIDCIssuer : string; d_OIDCClientID : string;
  d_UIAuth : option (UIAuthConfig * TokenVerifier Claims);
  d_DevUser : option Claims;
  d_Agents : option BinSource; d_Clients : option BinSource; d_Pins : option Pins.PinProvider;
  d_AgentPublicURL : string; d_PublicBaseURL : string; d_Rules : RulesConfig;
  d_Version : string; d_Unit : string;
  d_InstallTemplate : installScriptData → option string;
  d_ClientTemplate : clientScriptData → option string;
  d_RandomState : N → string; d_RandomToken : N → string; d_JSONB : json → string;
  d_UIFile : string → bool
}.
Variable d : Deps.

(** The UI login acts with the roles of the server. *)
Definition ui_cfg (cfg : UIAuthConfig) : UIAuthConfig := {|
  uia_Codec := uia_Codec cfg; uia_BaseURL := uia_BaseURL cfg; uia_SessionTTL := uia_SessionTTL cfg;
  uia_AdminGroup := d_AdminGroup d; uia_AuditorGroup := d_AuditorGroup d |}.
Definition rollout_deps : RolloutDeps := {|
  dep_Agents := d_Agents d; dep_Clients := d_Clients d; dep_Pins := d_Pins d;
  dep_AgentPublicURL := d_AgentPublicURL d; dep_PublicBaseURL := d_PublicBaseURL d;
  dep_OIDCIssuer := d_OIDCIssuer d; dep_OIDCClientID := d_OIDCClientID d |}.
(** [pin_read]: the pin's status for this request. *)
Definition admin_ctx (pin_read : Pins.PinProvider → Pins.PinStatus) : adminContext := {|
  adm_Verifier := d_Verifier d; adm_UIAuth := ui_cfg ∘ fst <$> d_UIAuth d;
  adm_AdminGroup := d_AdminGroup d; adm_AuditorGroup := d_AuditorGroup d;
  adm_Rollout := newRolloutGate rollout_deps (pin_status pin_read rollout_deps);
  adm_PublicBaseURL := d_PublicBaseURL d; adm_DevUser := d_DevUser d; adm_Rules := d_Rules d;
  adm_RandomText := d_RandomToken d |}.

(** ** Handlers of server.go itself *)
Definition handleHealthz : Response := {| status := StatusOK; content := Plain ("ok" +:+ newline) |}.
Definition handleUIConfig : Response := writeJSON StatusOK (JObj [
  ("oidc_issuer", JStr (d_OIDCIssuer d)); ("oidc_client_id", JStr (d_OIDCClientID d));
  ("admin_group", JStr (d_AdminGroup d)); ("auditor_group", JStr (d_AuditorGroup d));
  ("grants_editable", JBool (editable (d_Rules d) domainHost));
  ("ci_grants_editable", JBool (editable (d_Rules d) domainCI))]).
Definition handleBundle (purpose : string) : M Response :=
  if negb (bool_decide (purpose = CertTypeUser)) && negb (bool_decide (purpose = CertTypeHost))
  then ret (HttpError "unknown purpose (allowed: user, host)" StatusNotFound)
  else
    let* bundle := try (Bundle purpose) in
    ret (match bundle with
         | Err _ => internalError
         | Ok b => {| status := StatusOK; content := Plain b |}
         end).
Definition unavailable_text (text : string) : Response := HttpError text StatusServiceUnavailable.

(** [registerUIAuthRoutes]. *)
Definition ui_not_found (m path : string) : Answer := Page (NewUIHandler (d_UIFile d) m path).
Definition serve_auth (route : Route) (m path : string) (r : Request) : M Answer :=
  match d_DevUser d with
  | Some dev =>
      match route with
      | AuthLogin => let* a := devLogin r in ret (Web a)
      | AuthLogout => let* a := devLogout r in ret (Web a)
      | AuthMe => let* a := devMe dev (d_AdminGroup d) (d_AuditorGroup d) r in ret (Web a)
      | _ => ret (ui_not_found m path)
      end
  | None =>
      match d_UIAuth d with
      | None => ret (Api (unavailable_text "ui login not configured (server-side oidc required)"))
      | Some (cfg, verifier) =>
          match route with
          | AuthLogin => let* a := handleLogin (ui_cfg cfg) (d_RandomState d) r in ret (Web a)
          | AuthCallback =>
              let* a := handleCallback (TokenVerifier0 := verifier) (ui_cfg cfg) r in ret (Web a)
          | AuthLogout => let* a := handleLogout r in ret (Web a)
          | AuthMe => let* a := handleMe (ui_cfg cfg) r in ret (Web a)
          | _ => ret (ui_not_found m path)
          end
      end
  end.

(** ** The mux *)
Record HttpRequest := { hr_Method : string; hr_Path : list string; hr_Request : Request }.
Definition path_text (segs : list string) : string := "/" +:+ Join segs "/".
Record Limiters := { lim_sign : RateLimit.RateLimiter; lim_download : RateLimit.RateLimiter }.

Definition of_file (served : option Served) : Answer :=
  match served with Some s => File s | None => Panics end.
(** What a route does once its limiter, if it has one, let the request through. *)
Definition handle (pin_read : Pins.PinProvider → Pins.PinStatus) (route : Route) (req : HttpRequest)
    (r : Request) : M Answer :=
  let m := hr_Method req in
  let path := path_text (hr_Path req) in
  match route with
  | Healthz => ret (Api handleHealthz)
  | GetUIConfig => ret (Api handleUIConfig)
  | CABundle purpose => let* a := handleBundle purpose in ret (Api a)
  | PostEnroll => let* a := handleEnroll (d_CA d) (d_HostCertValidity d) r in ret (Api a)
  | PostSignUser =>
      match d_Verifier d with
      | Some v => let* a := handleSignUser (TokenVerifier0 := v) (d_CA d) r in ret (Api a)
      | None => ret (Api (unavailable_text "oidc not configured"))
      end
  | PostSignCI =>
      match d_CIVerifier d with
      | Some v => let* a := handleSignCI (TokenVerifier0 := v) (d_CA d) r in ret (Api a)
      | None => ret (Api (unavailable_text "gitlab ci not configured"))
      end
  | AgentManifest => ret (File (handleAgentManifest (d_Version d) pin_read rollout_deps))
  | AgentDownload os arch => ret (of_file (handleAgentDownload pin_read rollout_deps os arch))
  | InstallScript =>
      ret (File (handleInstallScript (d_Version d) (d_Unit d) (d_InstallTemplate d) pin_read rollout_deps))
  | ClientManifest => ret (File (handleClientManifest (d_Version d) pin_read rollout_deps))
  | ClientDownload os arch => ret (of_file (handleClientDownload rollout_deps os arch))
  | ClientScript => ret (File (handleClientScript (d_Version d) (d_ClientTemplate d) pin_read rollout_deps))
  | AuthLogin | AuthCallback | AuthLogout | AuthMe | AuthOther => serve_auth route m path r
  | Admin route => let* a := serve_admin (admin_ctx pin_read) (d_JSONB d) route r in ret (Api a)
  | AdminOther =>
      ret (if admin_configured (admin_ctx pin_read) then ui_not_found m path
           else Api (unavailable_text "admin api not configured (oidc and role group required)"))
  | UI => ret (ui_not_found m path)
  end.

(** Which limiter a route is behind; a disabled sign route is behind none. *)
Inductive limited_by := Unlimited | BySign | ByDownload.
Definition limiter_of (route : Route) : limited_by :=
  match route with
  | PostEnroll | AgentManifest | InstallScript | ClientManifest | ClientScript => BySign
  | PostSignUser => match d_Verifier d with Some _ => BySign | None => Unlimited end
  | PostSignCI => match d_CIVerifier d with Some _ => BySign | None => Unlimited end
  | AgentDownload _ _ | ClientDownload _ _ => ByDownload
  | _ => Unlimited
  end.
Definition serve_http (pin_read : Pins.PinProvider → Pins.PinStatus) (req : HttpRequest) (l : Limiters)
    : M (Answer * Limiters) :=
  let route := route_of (hr_Method req) (hr_Path req) in
  let next := handle pin_read route req in
  let r := hr_Request req in
  match limiter_of route with
  | Unlimited => let* a := next r in ret (a, l)
  | BySign =>
      let* '(a, s) := RateLimit.limit answer_response Api (d_RateLimit d) next r (lim_sign l) in
      ret (a, {| lim_sign := s; lim_download := lim_download l |})
  | ByDownload =>
      let* '(a, s) := RateLimit.limit answer_response Api (d_DownloadRateLimit d) next r (lim_download l) in
      ret (a, {| lim_sign := lim_sign l; lim_download := s |})
  end.

(** [metrics.Middleware]: the responses counted by status code. *)
Definition count_response (a : Answer) (counts : gmap Z N) : gmap Z N :=
  match a with
  | Panics => counts
  | _ => let code := status (answer_response a) in <[code := (default 0 (counts !! code) + 1)%N]> counts
  end.
End server.

(** ** Lemmas *)
Section lemmas.
Context `{Crypto} `{UUIDs} `{X509} `{Encodings} `{OAuth2} `{MapOrder}.
Implicit Types w : World.

#[export] Instance Bundle_keeps R `{!PreOrder R} purpose : Keeps R (Bundle purpose).
Proof. unfold Bundle, ListActiveCAKeys. by_cases. Qed.
#[export] Instance handleBundle_keeps R `{!PreOrder R} purpose : Keeps R (handleBundle purpose).
Proof. unfold handleBundle. by_cases. Qed.
#[export] Instance Seal_keeps R `{!PreOrder R} key text : Keeps R (Seal key text).
Proof. unfold Seal. by_cases. Qed.
#[export] Instance callbackState_keeps R `{!PreOrder R} cfg r : Keeps R (callbackState cfg r).
Proof. unfold callbackState. by_cases. Qed.
#[export] Instance handleLogin_keeps R `{!PreOrder R} cfg text r : Keeps R (handleLogin cfg text r).
Proof. unfold handleLogin. by_cases. Qed.

(** The steps of the web login that answer, and what they write. *)
Lemma callback_changes cfg (v : TokenVerifier Claims) r w o w' :
  handleCallback (TokenVerifier0 := v) cfg r w = (o, w') →
  (∃ resp, o = Ok resp) ∧ admin_kept (w_db w) (w_db w') ∧
  (w_db w' = w_db w ∨ ∃ raw claims w1 w2, token_Verify (TokenVerifier := v) raw w1 = (Ok claims, w2)).
Proof.
  intros Hrun.
  assert (Keeps admin_kept (handleCallback (TokenVerifier0 := v) cfg r)) as Hk.
  { unfold handleCallback, open_session. by_cases. }
  specialize (Hk w). rewrite Hrun in Hk. simpl in Hk.
  assert (Answers (handleCallback (TokenVerifier0 := v) cfg r)) as Ha.
  { unfold handleCallback, open_session, callbackState, Seal. by_cases. }
  destruct (Ha w) as [resp Hresp]. rewrite Hrun in Hresp. simpl in Hresp. subst o.
  split; [by eexists|]. split; [done|].
  unfold handleCallback in Hrun. destruct (negb _); [left; unfold ret in Hrun; by simplify_eq|].
  unfold bind in Hrun at 1. pose proof (callbackState_keeps eq cfg r w) as Hc.
  destruct (callbackState cfg r w) as [[[cookies checked]|e] w1]; simpl in Hc; [|by simplify_eq].
  destruct checked as [resp'|state]; [left; unfold ret in Hrun; by simplify_eq|].
  destruct (Exchange _ _ _) as [idToken|]; [|left; unfold ret in Hrun; by simplify_eq].
  destruct (bool_decide _); [left; unfold ret in Hrun; by simplify_eq|]. rewrite bind_try in Hrun.
  destruct (token_frames (TokenVerifier := v) (default "" idToken) w1) as [Hv _].
  destruct (token_Verify _ w1) as [[claims|e] w2] eqn:Ev; [right; by eauto|].
  left. unfold ret in Hrun. simplify_eq/=. congruence.
Qed.
Lemma me_changes cfg r w o w' :
  handleMe cfg r w = (o, w') →
  (∃ resp, o = Ok resp) ∧ admin_kept (w_db w) (w_db w') ∧
  (w_db w' = w_db w ∨ ∃ claims w1, sessionFromRequest cfg r w = (Ok (Some claims), w1)).
Proof.
  intros Hrun. unfold handleMe in Hrun.
  assert (Keeps admin_kept (handleMe cfg r)) as Hk by (unfold handleMe; by_cases).
  specialize (Hk w). unfold handleMe in Hk. rewrite Hrun in Hk. simpl in Hk.
  unfold bind in Hrun at 1. pose proof (sessionFromRequest_kept eq cfg r w) as Hs.
  assert (Answers (sessionFromRequest cfg r)) as Ha by (unfold sessionFromRequest; by_cases).
  destruct (Ha w) as [x Hx].
  destruct (sessionFromRequest cfg r w) as [rs w1] eqn:Es. simpl in *. subst rs.
  destruct x as [claims|]; [|unfold ret in Hrun; simplify_eq; split; [by eexists|by auto]].
  rewrite bind_try in Hrun. split; [|by eauto].
  destruct (EnsureUser claims w1) as [[user|e] w2]; unfold ret in Hrun; simplify_eq; by eexists.
Qed.
Lemma devMe_changes dev ag ug r w o w' :
  devMe dev ag ug r w = (o, w') → (∃ resp, o = Ok resp) ∧ admin_kept (w_db w) (w_db w').
Proof.
  intros Hrun. assert (Keeps admin_kept (devMe dev ag ug r)) as Hk by (unfold devMe; by_cases).
  assert (Answers (devMe dev ag ug r)) as Ha by (unfold devMe; by_cases).
  specialize (Hk w). destruct (Ha w) as [x Hx]. rewrite Hrun in *. simpl in *. eauto.
Qed.

(** A wrapped handler is refused without being run, or it runs on the same database. *)
Lemma limit_run {A} response_of of_response limiter (next : Request → M A) r l w o w' :
  RateLimit.limit response_of of_response limiter next r l w = (o, w') →
  (w_db w' = w_db w ∧ ∃ l', o = Ok (of_response RateLimit.tooManyRequests, l')) ∨
  ∃ w1 o1 w2, w_db w1 = w_db w ∧ w_uuid w1 = w_uuid w ∧ next r w1 = (o1, w2) ∧ w_db w' = w_db w2 ∧
    match o1 with Ok a => ∃ l', o = Ok (a, l') | Err e => o = Err e end.
Proof.
  assert (∀ w1, ∃ now, time_Now w1 = (Ok now, (time_Now w1).2) ∧ w_db (time_Now w1).2 = w_db w1) as Htime.
  { intros w1. unfold time_Now. destruct (w_ticks w1); by eexists. }
  unfold RateLimit.limit. destruct limiter as [cfg|].
  2: { unfold bind. destruct (next r w) as [[a|e] w2] eqn:En; unfold ret; intros; simplify_eq; right;
         eexists w, _, _; (split_and!; [done..|]); first [done|by eexists]. }
  destruct (Htime w) as (now & Ht & Hdb). unfold bind at 1. rewrite Ht.
  pose proof (time_Now_uuid w) as Hu. set (w1 := (time_Now w).2) in *.
  destruct (RateLimit.allow _ _ _ _) as [ok l1]. destruct ok; cbn [negb].
  2: { unfold ret. intros; simplify_eq. left. eauto. }
  unfold bind at 1. destruct (next r w1) as [[a|e] w2] eqn:En; intros Hrun; right; exists w1; eexists _, w2.
  2: { simplify_eq. by split_and!. }
  destruct (RateLimit.rejected _).
  - destruct (Htime w2) as (now2 & Ht2 & Hdb2). unfold bind in Hrun. rewrite Ht2 in Hrun.
    unfold ret in Hrun. simplify_eq. split_and!; [done..|by rewrite Hdb2|by eexists].
  - unfold ret in Hrun. simplify_eq. split_and!; [done..|by eexists].
Qed.
End lemmas.

(** ** Who may change what *)
Section access.
Context `{Crypto} `{UUIDs} `{X509} `{Encodings} `{OAuth2} `{MapOrder} (d : Deps)
        (pin_read : Pins.PinProvider → Pins.PinStatus).
Implicit Types w : World.

Definition usable_token (r : Request) w : Prop :=
  ∃ req t, decode_body maxRequestBody r ≫= decode_enroll = Some req ∧
    t ∈ enrollment_tokens (w_db w) ∧ token_usable (sha256 (enr_Token req)) (w_now w) t = true ∧
    (token_HostName t = None ∨ token_HostName t = Some (enr_Hostname req)).
(** The request is somebody's: a token's, an accepted bearer token's, a login's, a session's. *)
Definition identified (route : Route) (r : Request) w : Prop :=
  match route with
  | PostEnroll => usable_token r w
  | PostSignUser => ∃ v, d_Verifier d = Some v ∧ verified_bearer (TokenVerifier0 := v) r w
  | PostSignCI => ∃ v, d_CIVerifier d = Some v ∧ verified_bearer (TokenVerifier0 := v) r w
  | AuthCallback => d_DevUser d = None ∧ ∃ cfg v raw claims w1 w2, d_UIAuth d = Some (cfg, v) ∧
      token_Verify (TokenVerifier := v) raw w1 = (Ok claims, w2)
  | AuthMe => is_Some (d_DevUser d) ∨ ∃ cfg v claims w1, d_UIAuth d = Some (cfg, v) ∧
      sessionFromRequest (ui_cfg d cfg) r w = (Ok (Some claims), w1)
  | Admin _ => ∃ claims w1, authenticate (admin_ctx d pin_read) r w = (Ok (inr claims), w1)
  | _ => False
  end.
(** ... and may change more than its own account: for the admin API, an active member of the
    configured admin group on a route the rules let write. *)
Definition authorised (route : Route) (r : Request) w : Prop :=
  match route with
  | Admin route =>
      rules_allow (d_Rules d) route = true ∧ ∃ claims user w1 w2,
        authenticate (admin_ctx d pin_read) r w = (Ok (inr claims), w1) ∧
        EnsureUser claims w1 = (Ok user, w2) ∧ user_Active user = true ∧
        d_AdminGroup d ≠ "" ∧ d_AdminGroup d ∈ claims_Groups claims
  | PostEnroll | PostSignUser | PostSignCI => identified route r w
  | _ => False
  end.

Lemma downloads_answer os arch :
  is_Some (handleAgentDownload pin_read (rollout_deps d) os arch) ∧
  is_Some (handleClientDownload (rollout_deps d) os arch).
Proof.
  unfold handleAgentDownload, handleClientDownload, download. split.
  - destruct ((rollout_status pin_read (rollout_deps d)).1) eqn:E; [|done].
    destruct (gate_open pin_read _ E) as [(s & -> & _) _]. done.
  - destruct (client_missing (rollout_deps d)) eqn:E; [|done].
    destruct (client_gate_open _ E) as [(s & -> & _) _]. done.
Qed.

Lemma serve_auth_run route m path r w o w' :
  route ∈ [AuthLogin; AuthCallback; AuthLogout; AuthMe; AuthOther] →
  serve_auth d route m path r w = (o, w') →
  (∃ a, o = Ok a ∧ a ≠ Panics) ∧ admin_kept (w_db w) (w_db w') ∧ (w_db w' = w_db w ∨ identified route r w).
Proof.
  intros Hr Hrun.
  assert (∀ A (m1 : M A) (f : A → Answer), (∀ x, f x ≠ Panics) →
    (let* a := m1 in ret (f a)) w = (o, w') →
    ∃ r1, m1 w = (r1, w') ∧ ((∃ x, r1 = Ok x) → ∃ a, o = Ok a ∧ a ≠ Panics)) as Hwrap.
  { intros A m1 f Hf E. unfold bind, ret in E. destruct (m1 w) as [[x|e] w1]; simplify_eq; eexists;
      (split; [done|]); [by eauto|by intros [? ?]]. }
  assert (∀ a, (o, w') = (Ok a, w) → a ≠ Panics →
    (∃ a, o = Ok a ∧ a ≠ Panics) ∧ admin_kept (w_db w) (w_db w') ∧
    (w_db w' = w_db w ∨ identified route r w)) as Hret.
  { intros a E Hne. simplify_eq. split; [by eauto|]. split; [reflexivity|by left]. }
  unfold serve_auth in Hrun. destruct (d_DevUser d) as [dev|] eqn:Edev.
  { destruct route; try (by eapply Hret; [symmetry; exact Hrun|]).
    apply Hwrap in Hrun as (r1 & Hrun & Ha); [|done]. apply devMe_changes in Hrun as [Hx Hk].
    split; [by apply Ha|]. split; [done|]. right. left. rewrite Edev. by eexists. }
  destruct (d_UIAuth d) as [[cfg v]|] eqn:Eui; [|by eapply Hret; [symmetry; exact Hrun|]].
  destruct route; try (by eapply Hret; [symmetry; exact Hrun|]).
  - apply Hwrap in Hrun as (r1 & Hrun & Ha); [|done].
    pose proof (handleLogin_keeps eq (ui_cfg d cfg) (d_RandomState d) r w) as Hk.
    assert (Answers (handleLogin (ui_cfg d cfg) (d_RandomState d) r)) as Han
      by (unfold handleLogin, Seal; by_cases).
    specialize (Han w). rewrite Hrun in *. simpl in *. rewrite <- Hk.
    split; [by apply Ha|]. split; [reflexivity|by left].
  - apply Hwrap in Hrun as (r1 & Hrun & Ha); [|done].
    apply callback_changes in Hrun as (Hx & Hk & Hid). split; [by apply Ha|]. split; [done|].
    destruct Hid as [?|(raw & claims & w1 & w2 & ?)]; [by left|right]. simpl. split; [done|]. eauto 10.
  - apply Hwrap in Hrun as (r1 & Hrun & Ha); [|done].
    apply me_changes in Hrun as (Hx & Hk & Hid). split; [by apply Ha|]. split; [done|].
    destruct Hid as [?|(claims & w1 & ?)]; [by left|right; right]. eauto 10.
Qed.

Lemma handle_run route req r w o w' :
  users_wf w → groups_wf w → handle d pin_read route req r w = (o, w') →
  (∃ a, o = Ok a ∧ a ≠ Panics) ∧ (w_db w' = w_db w ∨ identified route r w) ∧
  (admin_kept (w_db w) (w_db w') ∨ authorised route r w).
Proof.
  intros Hus Hgr Hrun.
  assert (∀ a, (o, w') = (Ok a, w) → a ≠ Panics →
    (∃ a, o = Ok a ∧ a ≠ Panics) ∧ (w_db w' = w_db w ∨ identified route r w) ∧
    (admin_kept (w_db w) (w_db w') ∨ authorised route r w)) as Hret.
  { intros a E Hne. simplify_eq. split; [by eauto|]. split; left; reflexivity. }
  assert (∀ (m : M Response), (let* a := m in ret (Api a)) w = (o, w') →
    ∃ r1, m w = (r1, w') ∧ ((∃ x, r1 = Ok x) → ∃ a, o = Ok a ∧ a ≠ Panics)) as Hwrap.
  { intros m1 E. unfold bind, ret in E. destruct (m1 w) as [[x|e] w1]; simplify_eq; eexists;
      (split; [done|]); [by eauto|by intros [? ?]]. }
  assert (∀ P : Prop, w_db w' = w_db w ∨ P → admin_kept (w_db w) (w_db w') ∨ P) as Hkept.
  { intros P [->|?]; [left; reflexivity|by right]. }
  destruct route; unfold handle in Hrun;
    try (by eapply Hret; [symmetry; exact Hrun|]);
    try (apply serve_auth_run in Hrun as (? & ? & ?); [by auto|set_solver]).
  - apply Hwrap in Hrun as (r1 & Hrun & Ha).
    pose proof (handleBundle_keeps eq purpose w) as Hk.
    assert (Answers (handleBundle purpose)) as Han by (unfold handleBundle; by_cases).
    specialize (Han w). rewrite Hrun in *. simpl in *. split; [by apply Ha|].
    rewrite <- Hk. split; left; reflexivity.
  - apply Hwrap in Hrun as (r1 & Hrun & Ha). apply handleEnroll_changes in Hrun as [Hx Hk].
    split; [by apply Ha|]. split; [done|by apply Hkept].
  - destruct (d_Verifier d) as [v|] eqn:Ev; [|by eapply Hret; [symmetry; exact Hrun|]].
    apply Hwrap in Hrun as (r1 & Hrun & Ha). apply sign_user_changes in Hrun as [Hx Hk].
    split; [by apply Ha|].
    assert (w_db w' = w_db w ∨ identified PostSignUser r w) as Hid
      by (destruct Hk; [by left|right; exists v; done]).
    split; [done|by apply Hkept].
  - destruct (d_CIVerifier d) as [v|] eqn:Ev; [|by eapply Hret; [symmetry; exact Hrun|]].
    apply Hwrap in Hrun as (r1 & Hrun & Ha). apply sign_ci_changes in Hrun as [Hx Hk].
    split; [by apply Ha|].
    assert (w_db w' = w_db w ∨ identified PostSignCI r w) as Hid
      by (destruct Hk; [by left|right; exists v; done]).
    split; [done|by apply Hkept].
  - destruct (downloads_answer os arch) as [[served Hs] _]. rewrite Hs in Hrun.
    by eapply Hret; [symmetry; exact Hrun|].
  - destruct (downloads_answer os arch) as [_ [served Hs]]. rewrite Hs in Hrun.
    by eapply Hret; [symmetry; exact Hrun|].
  - apply Hwrap in Hrun as (r1 & Hrun & Ha).
    apply serve_admin_run in Hrun as (resp & -> & Hid & Hauth); [|done..].
    split; [apply Ha; by eexists|]. split; [done|].
    destruct Hauth as [?|(_ & Hr & Hx)]; [by left|right]. done.
  - destruct (admin_configured _); by eapply Hret; [symmetry; exact Hrun|].
Qed.

Lemma serve_http_run req l w o w' :
  users_wf w → groups_wf w → serve_http d pin_read req l w = (o, w') →
  let route := route_of (hr_Method req) (hr_Path req) in
  ∃ a l', o = Ok (a, l') ∧ a ≠ Panics ∧ ∃ wr, w_db wr = w_db w ∧
    (w_db w' = w_db w ∨ identified route (hr_Request req) wr) ∧
    (admin_kept (w_db w) (w_db w') ∨ authorised route (hr_Request req) wr).
Proof.
  intros Hus Hgr Hrun route. unfold serve_http in Hrun. fold route in Hrun.
  assert (∀ w1 o1 w2, w_db w1 = w_db w → w_uuid w1 = w_uuid w →
    handle d pin_read route req (hr_Request req) w1 = (o1, w2) →
    (∃ a, o1 = Ok a ∧ a ≠ Panics) ∧ (w_db w2 = w_db w ∨ identified route (hr_Request req) w1) ∧
    (admin_kept (w_db w) (w_db w2) ∨ authorised route (hr_Request req) w1)) as Hhandle.
  { intros w1 o1 w2 Hdb Hu Hh. rewrite <- Hdb. apply handle_run in Hh; [done|..];
      [unfold users_wf|unfold groups_wf]; by rewrite Hdb, Hu. }
  assert (∀ lim s (f : RateLimit.RateLimiter → Limiters),
    (let* '(a, s) := RateLimit.limit answer_response Api lim (handle d pin_read route req)
                       (hr_Request req) s in ret (a, f s)) w = (o, w') →
    ∃ a l', o = Ok (a, l') ∧ a ≠ Panics ∧ ∃ wr, w_db wr = w_db w ∧
      (w_db w' = w_db w ∨ identified route (hr_Request req) wr) ∧
      (admin_kept (w_db w) (w_db w') ∨ authorised route (hr_Request req) wr)) as Hlim.
  { intros lim s f Hl. unfold bind in Hl.
    destruct (RateLimit.limit _ _ lim _ _ s w) as [ol wl] eqn:El.
    apply limit_run in El as [(Hdb & s' & ->)|(w1 & o1 & w2 & Hdb & Hu & Hh & Hdb' & Ho)].
    - unfold ret in Hl. simplify_eq. eexists _, _. split; [done|]. split; [done|]. exists w.
      rewrite Hdb. split; [done|]. split; left; reflexivity.
    - apply Hhandle in Hh as ((a & -> & Hne) & Hid & Hauth); [|done..]. destruct Ho as [s' ->].
      unfold ret in Hl. simplify_eq. rewrite <- Hdb' in Hid, Hauth.
      eexists _, _. split; [done|]. split; [done|]. by exists w1. }
  destruct (limiter_of d route); 
    [|by apply (Hlim (d_RateLimit d) (lim_sign l) (λ s, {| lim_sign := s; lim_download := lim_download l |}))
     |by apply (Hlim (d_DownloadRateLimit d) (lim_download l)
                  (λ s, {| lim_sign := lim_sign l; lim_download := s |}))].
  unfold bind, ret in Hrun. destruct (handle d pin_read route req _ w) as [o1 w1] eqn:Eh.
  apply Hhandle in Eh as ((a & -> & Hne) & Hid & Hauth); [|done..]. simplify_eq.
  eexists _, _. split; [done|]. split; [done|]. by exists w.
Qed.


(** A refused client costs nothing but a clock reading: beyond its budget, a request
    to a route that checks tokens without a session is answered with 429 before the
    handler runs, and the database is as it was. *)
Theorem throttled_requests_do_nothing req l w cfg :
  limiter_of d (route_of (hr_Method req) (hr_Path req)) = BySign → d_RateLimit d = Some cfg →
  (∀ now, (RateLimit.allow cfg (RateLimit.clientKey cfg (hr_Request req)) now (lim_sign l)).1 = false) →
  ∃ l' w', serve_http d pin_read req l w = (Ok (Api RateLimit.tooManyRequests, l'), w') ∧ w_db w' = w_db w.
Proof.
  intros Hroute Hcfg Hno. unfold serve_http. rewrite Hroute, Hcfg. unfold RateLimit.limit.
  unfold bind at 1. unfold bind at 1. unfold time_Now.
  destruct (w_ticks w) as [|t ts]; match goal with |- context [RateLimit.allow cfg ?k ?now ?lim] =>
    specialize (Hno now); destruct (RateLimit.allow cfg k now lim) as [ok s] end;
    simpl in Hno; subst ok; unfold bind, ret; simpl; eexists _, _; split; reflexivity.
Qed.
End access.

(** ** A concrete run: an enrollment through the whole handler *)
Definition toy_deps : @Deps toy_crypto := {|
  d_CA := toy_ca; d_Verifier := Some toy_user_verifier; d_CIVerifier := None;
  d_RateLimit := Some RateLimit.default_limits; d_DownloadRateLimit := None; d_HostCertValidity := 0;
  d_AdminGroup := "dev"; d_AuditorGroup := ""; d_OIDCIssuer := "https://idp"; d_OIDCClientID := "gssh";
  d_UIAuth := None; d_DevUser := None; d_Agents := None; d_Clients := None; d_Pins := None;
  d_AgentPublicURL := ""; d_PublicBaseURL := ""; d_Rules := {| ManualRules := false; HostFile := ""; CIFile := "" |};
  d_Version := "v1"; d_Unit := ""; d_InstallTemplate := λ _, None; d_ClientTemplate := λ _, None;
  d_RandomState := λ _, ""; d_RandomToken := λ _, ""; d_JSONB := λ _, ""; d_UIFile := λ _, false |}.
Definition toy_post (path : list string) : HttpRequest :=
  {| hr_Method := "POST"; hr_Path := path; hr_Request := toy_enroll_http |}.
Definition no_clients : Limiters := {| lim_sign := ∅; lim_download := ∅ |}.
Notation toy_serve req w := (serve_http (H0 := counting_uuids) (H1 := toy_x509) (H2 := toy_encodings)
  (H3 := toy_oauth) (H4 := key_order) toy_deps static_read req no_clients w).

Example toy_server_runs :
  (match (toy_serve (toy_post ["v1"; "enroll"]) toy_server).1 with
   | Ok (a, _) => status (answer_response a) | Err _ => 0%Z end) = 200%Z ∧
  List.length (hosts (w_db (toy_serve (toy_post ["v1"; "enroll"]) toy_server).2)) = 2%nat ∧
  (match (toy_serve (toy_post ["v1"; "nothing"]) toy_server).1 with
   | Ok (a, _) => status (answer_response a) | Err _ => 0%Z end) = 404%Z.
Proof. vm_compute. split_and!; reflexivity. Qed.

Lemma toy_server_users : users_wf (H0 := counting_uuids) (toy_server : @World toy_crypto).
Proof.
  split.
  - apply (bool_decide_unpack _). vm_compute. done.
  - intros u Hu. exists (user_ID u). split; [|done]. revert u Hu. apply Forall_forall.
    apply (bool_decide_unpack _). vm_compute. done.
Qed.
Lemma toy_server_groups : groups_wf (H0 := counting_uuids) toy_server.
Proof.
  split.
  - apply (bool_decide_unpack _). vm_compute. done.
  - apply (bool_decide_unpack _). vm_compute. done.
  - intros g Hg. exists (group_ID g). split; [|done]. revert g Hg. apply Forall_forall.
    apply (bool_decide_unpack _). vm_compute. done.
Qed.
