(* ===== verification/ServerConfig.v ===== *)
(** * Start of the server (cmd/gssh-server: main.go, errorlog.go)

    The configuration from the environment and the order in which it is checked and
    put to work: what a start refuses before it touches the database, the CA it
    adopts or bootstraps, the verifiers, the listeners' settings, and the two
    subcommands that create a token and an mTLS CA. [Getenv] is os.Getenv: an unset
    variable reads as the empty string. *)
From S2P Require Export Server.
From S2P Require RateLimit Rules AuditStream ProxyTrust.

Local Open Scope string_scope.
Local Open Scope list_scope.
Local Open Scope go_scope.

(** ** Environment variables *)
Definition envDBHost := "GSSH_DB_HOST".
Definition envDBPort := "GSSH_DB_PORT".
Definition envDBUser := "GSSH_DB_USER".
Definition envDBPassword := "GSSH_DB_PASSWORD".
Definition envDBName := "GSSH_DB_NAME".
Definition envDBSSLMode := "GSSH_DB_SSLMODE".
Definition envMasterKey := "GSSH_CA_MASTER_KEY".
Definition envCAMode := "GSSH_CA_MODE".
Definition envCAUserKeyFile := "GSSH_CA_USER_KEY_FILE".
Definition envCAHostKeyFile := "GSSH_CA_HOST_KEY_FILE".
Definition envCAMTLSKeyFile := "GSSH_CA_MTLS_KEY_FILE".
Definition envCAMTLSCertFile := "GSSH_CA_MTLS_CERT_FILE".
Definition envOIDCIssuer := "GSSH_OIDC_ISSUER".
Definition envClientOIDCClientID := "GSSH_CLIENT_OIDC_CLIENT_ID".
Definition envCIIssuer := "GSSH_CI_ISSUER".
Definition envCIAudience := "GSSH_CI_AUDIENCE".
Definition envKCBaseURL := "GSSH_KC_BASE_URL".
Definition envKCRealm := "GSSH_KC_REALM".
Definition envKCClientID := "GSSH_KC_CLIENT_ID".
Definition envKCClientSecret := "GSSH_KC_CLIENT_SECRET".
Definition envSyncInterval := "GSSH_KC_SYNC_INTERVAL".
Definition envAgentTLSNames := "GSSH_AGENT_TLS_NAMES".
Definition envAgentProxyProtocol := "GSSH_AGENT_PROXY_PROTOCOL".
Definition envAgentProxyTrusted := "GSSH_AGENT_PROXY_TRUSTED".
Definition envAdminGroup := "GSSH_ADMIN_GROUP".
Definition envDevUIAuth := "GSSH_DEV_UI_AUTH".
Definition envAuditorGroup := "GSSH_AUDITOR_GROUP".
Definition envLogLevel := "GSSH_LOG_LEVEL".
Definition envServerOIDCClientID := "GSSH_SERVER_OIDC_CLIENT_ID".
Definition envServerOIDCClientSecret := "GSSH_SERVER_OIDC_CLIENT_SECRET".
Definition envServerOIDCScopes := "GSSH_SERVER_OIDC_SCOPES".
Definition envUISessionTTL := "GSSH_UI_SESSION_TTL".
Definition envAuditStream := "GSSH_AUDIT_STREAM".
Definition envAuditWebhookURL := "GSSH_AUDIT_WEBHOOK_URL".
Definition envAuditStreamInterval := "GSSH_AUDIT_STREAM_INTERVAL".
Definition envHostCertValidity := "GSSH_HOST_CERT_VALIDITY".
Definition envPublicURL := "GSSH_PUBLIC_URL".
Definition envAgentPublicURL := "GSSH_AGENT_PUBLIC_URL".
Definition envPublicPin := "GSSH_PUBLIC_PIN".
Definition envPublicPinCert := "GSSH_PUBLIC_PIN_CERT_FILE".
Definition envPublicPinRefresh := "GSSH_PUBLIC_PIN_REFRESH".

Definition defaultSyncInterval : Z := (5 * Minute)%Z.
Definition defaultUISessionTTL : Z := (12 * Hour)%Z.
Definition defaultUIScopes : list string := ["openid"; "profile"; "email"; "groups"].
Definition caModeManaged := "managed".
Definition caModeSelfManaged := "self-managed".

Definition config_error {A} (text : string) : result A := Err (ErrOther text).
Definition is_set (v : string) : bool := negb (bool_decide (v = "")).

(** [net.JoinHostPort]. *)
Definition JoinHostPort (host port : string) : string :=
  if Contains host ":" then "[" +:+ host +:+ "]:" +:+ port else host +:+ ":" +:+ port.
(** The parts of the postgres URL; escaping them is net/url's. *)
Record DSN := { dsn_User : string; dsn_Password : string; dsn_Host : string; dsn_Path : string;
                dsn_SSLMode : option string }.
Record ExternalKeyPaths := {
  UserKeyFile : string; HostKeyFile : string; MTLSKeyFile : string; MTLSCertFile : string
}.
Record KeycloakConfig := { kc_BaseURL : string; kc_Realm : string; kc_ClientID : string;
                           kc_ClientSecret : string }.
Inductive Level := LevelDebug | LevelInfo | LevelWarn | LevelError.

(** ** Values of the environment *)
Section env.
Variable Getenv : string → string.

(** A Go duration above zero, or nothing. *)
Definition positive_duration (raw : string) : option Z :=
  d ← ParseDuration raw; if (d <=? 0)%Z then None else Some d.
Definition duration_or (name : string) (def : Z) : result Z :=
  let raw := Getenv name in
  if negb (is_set raw) then Ok def
  else match positive_duration raw with
       | Some d => Ok d
       | None => config_error (name +:+ ": invalid duration (expected a go-duration > 0)")
       end.
Definition hostCertValidityFromEnv : result Z := duration_or envHostCertValidity 0.
Definition uiSessionTTL : result Z := duration_or envUISessionTTL defaultUISessionTTL.
(** A background interval: an invalid value falls back to the default. *)
Definition interval_or (name : string) (def : Z) : Z := default def (positive_duration (Getenv name)).

Definition publicBaseURL : string := TrimSuffix (Getenv envPublicURL) "/".
Definition pinConfigFromEnv : result Pins.PinProviderConfig :=
  let cfg refresh := {| Pins.StaticPin := Getenv envPublicPin; Pins.CertFile := Getenv envPublicPinCert;
                        Pins.DialURL := publicBaseURL; Pins.RefreshInterval := refresh |} in
  match (if is_set (Getenv envPublicPin) then Pins.DecodePin (Getenv envPublicPin) else Ok "") with
  | Err e => Err (ErrWrap envPublicPin e)
  | Ok _ =>
      match duration_or envPublicPinRefresh 0 with
      | Err e => Err e
      | Ok refresh => Ok (cfg refresh)
      end
  end.

(** The CA mode: the key files belong to self-managed mode, all or none. *)
Definition ca_key_files : list string :=
  [envCAUserKeyFile; envCAHostKeyFile; envCAMTLSKeyFile; envCAMTLSCertFile].
Definition caModeFromEnv : result (string * ExternalKeyPaths) :=
  let mode := if is_set (Getenv envCAMode) then Getenv envCAMode else caModeManaged in
  if negb (bool_decide (mode = caModeManaged)) && negb (bool_decide (mode = caModeSelfManaged))
  then config_error (envCAMode +:+ ": unknown mode")
  else
    let paths := {| UserKeyFile := Getenv envCAUserKeyFile; HostKeyFile := Getenv envCAHostKeyFile;
                    MTLSKeyFile := Getenv envCAMTLSKeyFile; MTLSCertFile := Getenv envCAMTLSCertFile |} in
    let missing := List.filter (λ f, bool_decide (mode = caModeSelfManaged) && negb (is_set (Getenv f)))
                     ca_key_files in
    let unexpected := List.filter (λ f, bool_decide (mode = caModeManaged) && is_set (Getenv f))
                        ca_key_files in
    match missing, unexpected with
    | _ :: _, _ => config_error (envCAMode +:+ "=" +:+ caModeSelfManaged +:+
                     " requires all four ca key files, not set: " +:+ Join missing ", ")
    | [], _ :: _ => config_error ("ca mode " +:+ caModeManaged +:+
                      " does not use mounted ca keys, but these are set: " +:+ Join unexpected ", ")
    | [], [] => Ok (mode, paths)
    end.

(** Variables that were renamed or removed. *)
Definition legacyEnv : list (string * string) := [
  ("GSSH_OIDC_CLIENT_ID", "now " +:+ envClientOIDCClientID);
  ("GSSH_UI_OIDC_CLIENT_ID", "now " +:+ envServerOIDCClientID);
  ("GSSH_UI_OIDC_CLIENT_SECRET", "now " +:+ envServerOIDCClientSecret);
  ("GSSH_UI_OIDC_SCOPES", "now " +:+ envServerOIDCScopes);
  ("GSSH_UI_BASE_URL", "now " +:+ envPublicURL);
  ("GSSH_READONLY_GROUP", "removed — the auditor role covers read access")].
Definition stale_env : list string :=
  (λ m, m.1 +:+ " (" +:+ m.2 +:+ ")") <$> List.filter (λ m, is_set (Getenv m.1)) legacyEnv.
Definition checkLegacyEnv : result unit :=
  match stale_env with
  | [] => Ok ()
  | stale => config_error ("these variables were renamed or removed — set: " +:+ Join stale ", ")
  end.

Definition dbConnString : result DSN :=
  match List.filter (λ v, negb (is_set (Getenv v))) [envDBHost; envDBUser; envDBPassword; envDBName] with
  | (_ :: _) as missing => config_error ("database configuration incomplete: " +:+ Join missing ", " +:+ " not set")
  | [] => Ok {|
      dsn_User := Getenv envDBUser; dsn_Password := Getenv envDBPassword;
      dsn_Host := if is_set (Getenv envDBPort) then JoinHostPort (Getenv envDBHost) (Getenv envDBPort)
                  else Getenv envDBHost;
      dsn_Path := "/" +:+ Getenv envDBName;
      dsn_SSLMode := if is_set (Getenv envDBSSLMode) then Some (Getenv envDBSSLMode) else None |}
  end.

Definition uiScopes : list string :=
  if is_set (Getenv envServerOIDCScopes) then TrimSpace <$> Split (Getenv envServerOIDCScopes) ","
  else defaultUIScopes.

(** The developer mode: its identity, and the admin group. *)
Definition setupDevUIAuth (adminGroup : string) : result (option Claims * string) :=
  let raw := Getenv envDevUIAuth in
  if negb (is_set raw) then Ok (None, adminGroup)
  else if negb (bool_decide (raw = "insecure")) then config_error (envDevUIAuth +:+ ": unknown value")
  else
    let adminGroup := if is_set adminGroup then adminGroup else "gssh-dev-admins" in
    Ok (Some {| claims_Issuer := "gssh-dev"; claims_Subject := "dev-user"; claims_Email := "dev@localhost";
                claims_PreferredUsername := "dev"; claims_Groups := [adminGroup] |}, adminGroup).

Definition checkAudienceSeparation : result unit :=
  let issuer := Getenv envOIDCIssuer in
  if negb (is_set issuer) || negb (bool_decide (issuer = Getenv envCIIssuer)) then Ok ()
  else
    let ciAudience := if is_set (Getenv envCIAudience) then Getenv envCIAudience else DefaultCIAudience in
    if bool_decide (ciAudience = Getenv envClientOIDCClientID)
    then config_error "same issuer and same audience for user oidc and gitlab ci"
    else Ok ().

Definition rulesConfigFromEnv : RulesConfig := {|
  ManualRules := bool_decide (Getenv EnvManualRules = "true");
  HostFile := Getenv EnvHostRulesFile; CIFile := Getenv EnvCIRulesFile |}.

(** The background tasks that are started: the streamer, and the group sync. *)
Definition startAuditStream : option AuditStream.Streamer :=
  let streamLogs := bool_decide (Getenv envAuditStream = "true") in
  let webhookURL := Getenv envAuditWebhookURL in
  if negb streamLogs && negb (is_set webhookURL) then None
  else Some (AuditStream.New {| AuditStream.HasLogger := true; AuditStream.LogEvents := streamLogs;
         AuditStream.WebhookURL := webhookURL;
         AuditStream.Interval := interval_or envAuditStreamInterval 0 |}).
Definition startGroupSync : option (KeycloakConfig * Z) :=
  if negb (is_set (Getenv envKCClientID)) then None
  else Some ({| kc_BaseURL := Getenv envKCBaseURL; kc_Realm := Getenv envKCRealm;
                kc_ClientID := Getenv envKCClientID; kc_ClientSecret := Getenv envKCClientSecret |},
             interval_or envSyncInterval defaultSyncInterval).

Definition logLevelFromEnv : result Level :=
  let level := ToLower (TrimSpace (Getenv envLogLevel)) in
  if bool_decide (level = "") || bool_decide (level = "info") then Ok LevelInfo
  else if bool_decide (level = "debug") then Ok LevelDebug
  else if bool_decide (level = "warn") || bool_decide (level = "warning") then Ok LevelWarn
  else if bool_decide (level = "error") then Ok LevelError
  else config_error (envLogLevel +:+ ": unknown level").

Definition agent_tls_names : list string :=
  if is_set (Getenv envAgentTLSNames) then Split (Getenv envAgentTLSNames) "," else ["localhost"; "127.0.0.1"].
End env.

(** ** errorlog.go *)
Definition tlsHandshakePrefix := "http: TLS handshake error from ".
Definition transportAborts : list string :=
  ["connection reset by peer"; "broken pipe"; "i/o timeout"; "use of closed network connection"; "EOF"].
Definition isTransportAbort (detail : string) : bool := existsb (Contains detail) transportAborts.
(** What one line of net/http's error log becomes: the level, the message, the detail,
    and the label of the handshake counter if it is counted. *)
Definition errorLogWrite (p : string) : Level * string * string * option string :=
  let msg := TrimRight p "010" in
  match CutPrefix msg tlsHandshakePrefix with
  | None => (LevelWarn, "http server error", msg, None)
  | Some detail =>
      if isTransportAbort detail
      then (LevelDebug, "tls handshake aborted by peer", detail, Some "transport")
      else (LevelWarn, "tls handshake failed", detail, Some "tls")
  end.

(** ** Tags of the enroll-token command *)
Definition parseTags (raw : string) : result (gmap string string) :=
  if bool_decide (raw = "") then Ok ∅
  else foldl (λ acc pair,
    match acc with
    | Err e => Err e
    | Ok tags =>
        match Cut pair "=" with
        | Some (key, value) =>
            if bool_decide (key = "") then config_error ("invalid tag " +:+ pair)
            else Ok (<[key := value]> tags)
        | None => config_error ("invalid tag " +:+ pair)
        end
    end) (Ok ∅) (Split raw ",").

(** ** Start-up *)
(** The UI login: the OAuth client, the verifier of its own ID tokens, the configuration
    of the handlers. *)
Record UILogin := {
  ui_ClientID : string; ui_ClientSecret : string; ui_Scopes : list string;
  ui_Verifier : Verifier; ui_Config : UIAuthConfig
}.
(** What the binary embeds, and the texts of its random draws. *)
Record Build := {
  b_Agents : option BinSource; b_Clients : option BinSource; b_Version : string; b_Unit : string;
  b_InstallTemplate : installScriptData → option string;
  b_ClientTemplate : clientScriptData → option string;
  b_RandomState : N → string; b_RandomToken : N → string; b_JSONB : json → string;
  b_UIFile : string → bool
}.

Section start.
Context `{Crypto} `{UUIDs} `{X509} `{Encodings} `{OIDC} `{OAuth2} `{MapOrder} `{Rules.RulesYAML}.
(** The environment; os.ReadFile for key files and for rule files; what the migrations and
    the connection pool say to a connection string (the database of the World is the
    migrated one); DNS; the ports that can be listened on. *)
Variables (Getenv : string → string) (readFile : string → option string)
          (rule_files : string → result string)
          (Migrate Connect : DSN → result unit)
          (lookup : ProxyTrust.dns) (can_listen : string → bool) (build : Build).

(** *** Verifiers and the UI login *)
Definition masterKeyFromEnv : result string :=
  match base64_DecodeString (Getenv envMasterKey) with
  | None => config_error ("decode " +:+ envMasterKey)
  | Some key => Ok key
  end.

Definition setupOIDC : result (option Verifier) :=
  let issuer := Getenv envOIDCIssuer in
  if negb (is_set issuer) then Ok None
  else
    let clientID := Getenv envClientOIDCClientID in
    if negb (is_set clientID) then config_error (envClientOIDCClientID +:+ " is missing")
    else match NewVerifier issuer clientID with Err e => Err e | Ok v => Ok (Some v) end.

Definition setupCIOIDC : result (option Verifier) :=
  let issuer := Getenv envCIIssuer in
  if negb (is_set issuer) then Ok None
  else match NewCIVerifier issuer (Getenv envCIAudience) with Err e => Err e | Ok v => Ok (Some v) end.

Definition setupUIAuth : result (option UILogin) :=
  let clientID := Getenv envServerOIDCClientID in
  let secret := Getenv envServerOIDCClientSecret in
  let issuer := Getenv envOIDCIssuer in
  if negb (is_set clientID) && negb (is_set secret)
  then if is_set (Getenv envServerOIDCScopes)
       then config_error (envServerOIDCScopes +:+ " is set, but the client is missing") else Ok None
  else if negb (is_set clientID) then config_error (envServerOIDCClientID +:+ " is missing")
  else if negb (is_set secret) then config_error (envServerOIDCClientSecret +:+ " is missing")
  else if bool_decide (clientID = Getenv envClientOIDCClientID)
  then config_error "server and clients must be different idp clients"
  else if negb (is_set issuer) then config_error (envOIDCIssuer +:+ " is missing")
  else if negb (oidc_discover issuer) then config_error "ui login: oidc discovery"
  else
    match NewVerifier issuer clientID with
    | Err e => Err e
    | Ok verifier =>
    match masterKeyFromEnv with
    | Err e => Err e
    | Ok masterKey =>
    match NewSessionCodec masterKey with
    | Err e => Err e
    | Ok codec =>
    match uiSessionTTL Getenv with
    | Err e => Err e
    | Ok ttl => Ok (Some {|
        ui_ClientID := clientID; ui_ClientSecret := secret; ui_Scopes := uiScopes Getenv;
        ui_Verifier := verifier;
        ui_Config := {| uia_Codec := codec; uia_BaseURL := publicBaseURL Getenv; uia_SessionTTL := ttl;
                        uia_AdminGroup := ""; uia_AuditorGroup := "" |} |})
    end end end end.

Definition setupVerifiers : result (option Verifier * option Verifier * option UILogin) :=
  match setupOIDC with
  | Err e => Err e
  | Ok verifier =>
  match setupCIOIDC with
  | Err e => Err e
  | Ok ciVerifier =>
  match checkAudienceSeparation Getenv with
  | Err e => Err e
  | Ok _ =>
  match setupUIAuth with
  | Err e => Err e
  | Ok uiAuth => Ok (verifier, ciVerifier, uiAuth)
  end end end end.

(** *** The CA and the database *)
Definition setupStore : result unit :=
  match dbConnString Getenv with
  | Err e => Err e
  | Ok dsn => match Migrate dsn with Err e => Err (ErrWrap "migrations" e) | Ok _ => Connect dsn end
  end.

Definition external_keys (mode : string) (paths : ExternalKeyPaths) : result (option ExternalKeys) :=
  if bool_decide (mode = caModeSelfManaged)
  then match LoadExternalKeys readFile (UserKeyFile paths) (HostKeyFile paths)
               (MTLSKeyFile paths) (MTLSCertFile paths) with
       | Err e => Err e
       | Ok keys => Ok (Some keys)
       end
  else Ok None.
(** The part of [setup] before the database: the master key and the mounted keys. *)
Definition setup_keys : result (string * option ExternalKeys) :=
  match masterKeyFromEnv with
  | Err e => Err e
  | Ok masterKey =>
  match caModeFromEnv Getenv with
  | Err e => Err e
  | Ok (mode, paths) =>
  match external_keys mode paths with
  | Err e => Err e
  | Ok external => Ok (masterKey, external)
  end end end.
Definition setup : M CA :=
  let* '(masterKey, external) := lift setup_keys in
  lift setupStore ;;
  let* certAuthority := lift (CA.New masterKey DefaultPolicies external) in
  if selfManaged certAuthority
  then wrap "adopt external ca keys" (AdoptExternalKeys certAuthority) ;; ret certAuthority
  else wrap "bootstrap ca keys" (EnsureCAKeys certAuthority) ;; ret certAuthority.

(** *** Rule files: whether the periodic synchronisation runs *)
Definition rules_sync (rules : RulesConfig) : Rules.SyncConfig := Rules.NewSyncer {|
  Rules.HostFile := HostFile rules; Rules.CIFile := CIFile rules;
  Rules.DefaultIssuer := Getenv envOIDCIssuer; Rules.SyncInterval := 0 |}.
Definition startRulesSync (rules : RulesConfig) : M bool :=
  let syncer := rules_sync rules in
  if negb (Rules.Enabled syncer) then ret false
  else
    let* errs := Rules.Sync rule_files syncer in
    match errs with
    | [] => ret true
    | (_, e) :: _ => fail (ErrWrap "initial rules file sync" e)
    end.

(** *** [serve], up to the listeners *)
Record Started := {
  st_Deps : Deps; st_GroupSync : option (KeycloakConfig * Z);
  st_AuditStream : option AuditStream.Streamer; st_RulesLoop : bool
}.
Definition server_deps (ca : CA) (hostValidity : Z) (verifiers : option Verifier * option Verifier * option UILogin)
    (devUser : option Claims) (adminGroup : string) (rules : RulesConfig)
    (pins : Pins.PinProviderConfig) : Deps := {|
  d_CA := ca; d_Verifier := user_verifier <$> verifiers.1.1; d_CIVerifier := ci_verifier <$> verifiers.1.2;
  d_RateLimit := fst <$> RateLimit.setupRateLimit Getenv;
  d_DownloadRateLimit := fst <$> RateLimit.setupDownloadRateLimit Getenv;
  d_HostCertValidity := hostValidity; d_AdminGroup := adminGroup; d_AuditorGroup := Getenv envAuditorGroup;
  d_OIDCIssuer := Getenv envOIDCIssuer; d_OIDCClientID := Getenv envClientOIDCClientID;
  d_UIAuth := (λ ui, (ui_Config ui, user_verifier (ui_Verifier ui))) <$> verifiers.2;
  d_DevUser := devUser; d_Agents := b_Agents build; d_Clients := b_Clients build;
  d_Pins := Some (Pins.NewPinProvider pins);
  d_AgentPublicURL := TrimSuffix (Getenv envAgentPublicURL) "/"; d_PublicBaseURL := publicBaseURL Getenv;
  d_Rules := rules; d_Version := b_Version build; d_Unit := b_Unit build;
  d_InstallTemplate := b_InstallTemplate build; d_ClientTemplate := b_ClientTemplate build;
  d_RandomState := b_RandomState build; d_RandomToken := b_RandomToken build;
  d_JSONB := b_JSONB build; d_UIFile := b_UIFile build |}.
Definition start : M Started :=
  lift (checkLegacyEnv Getenv) ;;
  let* certAuthority := setup in
  let* hostCertValidity := lift (hostCertValidityFromEnv Getenv) in
  let* verifiers := lift setupVerifiers in
  let* '(devUser, adminGroup) := lift (setupDevUIAuth Getenv (Getenv envAdminGroup)) in
  let rules := rulesConfigFromEnv Getenv in
  let* loop := startRulesSync rules in
  let* pinCfg := lift (pinConfigFromEnv Getenv) in
  ret {| st_Deps := server_deps certAuthority hostCertValidity verifiers devUser adminGroup rules pinCfg;
         st_GroupSync := startGroupSync Getenv; st_AuditStream := startAuditStream Getenv;
         st_RulesLoop := loop |}.

(** *** The agent listener *)
Record AgentListener := {
  al_Certificate : string * string; al_ClientCAs : list X509Cert;
  al_HostCertValidity : Z; al_Trust : option ProxyTrust.Trust
}.
Definition newAgentServer (ca : CA) : M ((string * string) * list X509Cert) :=
  (if selfManaged ca then ret () else wrap "bootstrap mtls ca" (EnsureMTLSCA ca)) ;;
  let* serverCert := wrap "agent server certificate" (IssueServerCert ca (agent_tls_names Getenv)) in
  let* pool := MTLSCAPool ca in
  ret (serverCert, pool).
Definition agentListener (addr : string) : result (option ProxyTrust.Trust) :=
  if negb (can_listen addr) then config_error "listen"
  else if negb (bool_decide (Getenv envAgentProxyProtocol = "true")) then Ok None
  else match ProxyTrust.New lookup (Split (Getenv envAgentProxyTrusted) ",") 0 with
       | Err e => Err (ErrWrap envAgentProxyTrusted e)
       | Ok trust => Ok (Some trust)
       end.
(** [serve] until it waits: the public listener, and the agent listener if it has an address. *)
Definition serve (agentListen : string) : M (Started * option AgentListener) :=
  let* started := start in
  if negb (is_set agentListen) then ret (started, None)
  else
    let* '(cert, pool) := newAgentServer (d_CA (st_Deps started)) in
    let* trust := lift (agentListener agentListen) in
    ret (started, Some {| al_Certificate := cert; al_ClientCAs := pool;
                          al_HostCertValidity := d_HostCertValidity (st_Deps started); al_Trust := trust |}).
(** [run] without a subcommand, its flags parsed: an exit code, or a server that runs. *)
Definition run (showVersion : bool) (listen agentListen : string)
    : M (Z + (Started * option AgentListener)) :=
  if showVersion then ret (inl 0%Z)
  else if negb (is_set listen) then ret (inl 2%Z)
  else match logLevelFromEnv Getenv with
       | Err _ => ret (inl 2%Z)
       | Ok _ =>
           let* r := try (serve agentListen) in
           ret (match r with Err _ => inl 1%Z | Ok s => inr s end)
       end.

(** *** Subcommands: the exit code, and what is printed on success *)
Definition runMigrate : Z :=
  match dbConnString Getenv with
  | Err _ => 2%Z
  | Ok dsn => match Migrate dsn with Err _ => 1%Z | Ok _ => 0%Z end
  end.
Definition runEnrollToken (random_text : N → string) (name tagsFlag : string) (ttl : Z)
    : M (Z * option string) :=
  match parseTags tagsFlag with
  | Err _ => ret (2%Z, None)
  | Ok tags =>
      match setupStore with
      | Err _ => ret (1%Z, None)
      | Ok _ =>
          let* '(token, record) := NewEnrollmentToken random_text name tags ttl in
          let* stored := try (CreateEnrollmentToken record) in
          ret (match stored with Err _ => (1%Z, None) | Ok _ => (0%Z, Some token) end)
      end
  end.
End start.

(** ** gen-mtls-ca: files that must not exist yet *)
(** How creating and writing a file ends; a failed write may leave a part of it. *)
Inductive file_outcome := FileOk | CreateFails | WriteFails (part : string) | CloseFails.
Record disk := { d_outcome : string → file_outcome; d_removes : bool }.
Definition writeNewFile (d : disk) (path data : string) (files : gmap string string)
    : result unit * gmap string string :=
  match files !! path with
  | Some _ => (Err (ErrOther (path +:+ " already exists")), files)
  | None =>
      match d_outcome d path with
      | CreateFails => (Err (ErrOther ("create " +:+ path)), files)
      | WriteFails part => (Err (ErrOther ("write " +:+ path)), <[path := part]> files)
      | CloseFails => (Err (ErrOther ("close " +:+ path)), <[path := data]> files)
      | FileOk => (Ok (), <[path := data]> files)
      end
  end.
Definition runGenMTLSCA `{Crypto} `{X509} (d : disk) (out : string) (files : gmap string string)
    : M (Z * gmap string string) :=
  if bool_decide (out = "") then ret (2%Z, files)
  else
    let* generated := try GenerateMTLSCA in
    match generated with
    | Err _ => ret (1%Z, files)
    | Ok (certPEM, keyPEM) =>
        let keyPath := out +:+ ".key" in
        let certPath := out +:+ ".crt" in
        match writeNewFile d keyPath keyPEM files with
        | (Err _, files) => ret (1%Z, files)
        | (Ok _, files) =>
            match writeNewFile d certPath certPEM files with
            | (Err _, files) => ret (1%Z, if d_removes d then delete keyPath files else files)
            | (Ok _, files) => ret (0%Z, files)
            end
        end
    end.

(** ** Lemmas *)
Lemma is_set_true s : is_set s = true ↔ s ≠ "".
Proof. unfold is_set. case_bool_decide; naive_solver. Qed.
Lemma is_set_false s : is_set s = false ↔ s = "".
Proof. unfold is_set. case_bool_decide; naive_solver. Qed.
Lemma filter_nil {A} (p : A → bool) l : List.filter p l = [] ↔ ∀ x, x ∈ l → p x = false.
Proof.
  split; intros Hl.
  - intros x Hx. destruct (p x) eqn:E; [|done].
    assert (x ∈ List.filter p l) as Hin by (by apply filter_bool_In). rewrite Hl in Hin.
    by apply elem_of_nil in Hin.
  - destruct (List.filter p l) as [|x r] eqn:E; [done|].
    assert (x ∈ List.filter p l) as [Hin Hp]%filter_bool_In by (rewrite E; left). rewrite Hl in Hp; done.
Qed.

Section env_lemmas.
Variable Getenv : string → string.

Lemma checkLegacyEnv_Ok : checkLegacyEnv Getenv = Ok () ↔ ∀ m, m ∈ legacyEnv → Getenv m.1 = "".
Proof.
  unfold checkLegacyEnv, stale_env.
  transitivity (List.filter (λ m, is_set (Getenv m.1)) legacyEnv = []).
  { destruct (List.filter _ _); simpl; split; done. }
  rewrite filter_nil. by setoid_rewrite is_set_false.
Qed.

Lemma duration_or_Ok name def d :
  duration_or Getenv name def = Ok d → (Getenv name = "" ∧ d = def) ∨ (Getenv name ≠ "" ∧ (0 < d)%Z).
Proof.
  unfold duration_or. destruct (is_set (Getenv name)) eqn:E; simpl.
  - apply is_set_true in E. unfold positive_duration, config_error.
    destruct (ParseDuration _) as [x|]; simpl; [|done]. destruct (x <=? 0)%Z eqn:El; intros; simplify_eq.
    right. split; [done|lia].
  - apply is_set_false in E. intros. simplify_eq. by left.
Qed.

(** The two modes exclude each other, and the key files follow the mode. *)
Definition env_paths : ExternalKeyPaths := {|
  UserKeyFile := Getenv envCAUserKeyFile; HostKeyFile := Getenv envCAHostKeyFile;
  MTLSKeyFile := Getenv envCAMTLSKeyFile; MTLSCertFile := Getenv envCAMTLSCertFile |}.
Lemma caModeFromEnv_Ok mode paths :
  caModeFromEnv Getenv = Ok (mode, paths) → paths = env_paths ∧ (
  (mode = caModeSelfManaged ∧ Getenv envCAMode = caModeSelfManaged ∧
     ∀ f, f ∈ ca_key_files → Getenv f ≠ "") ∨
  (mode = caModeManaged ∧ (Getenv envCAMode = "" ∨ Getenv envCAMode = caModeManaged) ∧
     ∀ f, f ∈ ca_key_files → Getenv f = "")).
Proof.
  unfold caModeFromEnv, config_error.
  set (m := if is_set (Getenv envCAMode) then Getenv envCAMode else caModeManaged).
  intros Hok. destruct (negb _ && negb _) eqn:Em; [done|].
  destruct (List.filter _ ca_key_files) as [|] eqn:Emiss in Hok; [|done].
  destruct (List.filter _ ca_key_files) as [|] eqn:Eun in Hok; [|done]. injection Hok as <- <-.
  split; [done|]. rewrite filter_nil in Emiss, Eun.
  assert (m = caModeManaged ∨ m = caModeSelfManaged) as [Hm|Hm].
  { apply andb_false_iff in Em as [Em|Em]; apply negb_false_iff, bool_decide_eq_true in Em; auto. }
  - right. split; [done|]. split.
    + unfold m in Hm. destruct (is_set (Getenv envCAMode)) eqn:E; [by right|by left; apply is_set_false].
    + intros f Hf%Eun. rewrite bool_decide_true in Hf by done. by apply is_set_false.
  - left. split; [done|]. split.
    + unfold m in Hm. by destruct (is_set (Getenv envCAMode)).
    + intros f Hf%Emiss. rewrite bool_decide_true in Hf by done.
      by apply negb_false_iff, is_set_true in Hf.
Qed.

Lemma setupDevUIAuth_Ok group dev group' :
  setupDevUIAuth Getenv group = Ok (dev, group') →
  (dev = None ∧ group' = group ∧ Getenv envDevUIAuth = "") ∨
  (∃ claims, dev = Some claims ∧ Getenv envDevUIAuth = "insecure" ∧ group' ≠ "" ∧
     claims_Groups claims = [group']).
Proof.
  unfold setupDevUIAuth, config_error. destruct (is_set (Getenv envDevUIAuth)) eqn:E; simpl.
  2: { intros. simplify_eq. left. by apply is_set_false in E. }
  case_bool_decide as Hv; simpl; [|done]. intros. simplify_eq. right. eexists. split; [done|].
  split; [done|]. split; [|done]. destruct (is_set group) eqn:Eg; [by apply is_set_true|done].
Qed.
End env_lemmas.

Section start_lemmas.
Context `{Crypto} `{UUIDs} `{X509} `{Encodings} `{OIDC} `{OAuth2} `{MapOrder} `{Rules.RulesYAML}.
Variables (Getenv : string → string) (readFile : string → option string)
          (rule_files : string → result string) (Migrate Connect : DSN → result unit) (build : Build).
Implicit Types w : World.
Notation setup' := (setup Getenv readFile Migrate Connect).
Notation start' := (start Getenv readFile rule_files Migrate Connect build).

Lemma LoadExternalKeys_reads paths keys :
  LoadExternalKeys readFile (UserKeyFile paths) (HostKeyFile paths) (MTLSKeyFile paths) (MTLSCertFile paths)
    = Ok keys →
  paths = env_paths Getenv → ∀ f, f ∈ ca_key_files → is_Some (readFile (Getenv f)).
Proof.
  unfold LoadExternalKeys, loadMTLSKeyFiles, loadMTLSPrivateKey, loadSSHKeyFile. intros Hl -> f Hf. simpl in *.
  destruct (readFile (Getenv envCAUserKeyFile)) eqn:E1; [|done]. destruct (parse_private _) in Hl; [|done].
  destruct (readFile (Getenv envCAHostKeyFile)) eqn:E2; [|done]. destruct (parse_private _) in Hl; [|done].
  destruct (readFile (Getenv envCAMTLSKeyFile)) eqn:E3; [|done]. destruct (parse_pkcs8 _) in Hl; [|done].
  destruct (readFile (Getenv envCAMTLSCertFile)) eqn:E4; [|done].
  repeat (apply elem_of_cons in Hf as [->|Hf]; [by eexists|]). by apply elem_of_nil in Hf.
Qed.
Lemma setup_keys_Ok master external :
  setup_keys Getenv readFile = Ok (master, external) →
  masterKeyFromEnv Getenv = Ok master ∧
  match external with
  | None => (Getenv envCAMode = "" ∨ Getenv envCAMode = caModeManaged) ∧
            ∀ f, f ∈ ca_key_files → Getenv f = ""
  | Some keys => Getenv envCAMode = caModeSelfManaged ∧ (∀ f, f ∈ ca_key_files → Getenv f ≠ "") ∧
                 ∀ f, f ∈ ca_key_files → is_Some (readFile (Getenv f))
  end.
Proof.
  unfold setup_keys, external_keys. destruct (masterKeyFromEnv Getenv) as [key|]; [|done].
  destruct (caModeFromEnv Getenv) as [[mode paths]|] eqn:Em; [|done].
  apply caModeFromEnv_Ok in Em as [-> [(-> & Hmode & Hset)|(-> & Hmode & Hset)]]; simpl.
  - destruct (LoadExternalKeys _ _ _ _ _) eqn:El; intros; simplify_eq. split_and!; [done..|].
    by apply (LoadExternalKeys_reads (env_paths Getenv) a).
  - intros. simplify_eq. by split_and!.
Qed.

Lemma setup_Ok w ca w' :
  setup' w = (Ok ca, w') → ∃ master external,
    setup_keys Getenv readFile = Ok (master, external) ∧ String.length master = MasterKeySize ∧
    ca = {| ca_masterKey := master; ca_policies := DefaultPolicies; ca_external := external |}.
Proof.
  unfold setup. intros Hrun. apply bind_Ok in Hrun as ([master external] & w1 & Hk & Hrun).
  apply lift_Ok in Hk as [Hk ->]. exists master, external. split; [done|].
  apply bind_Ok in Hrun as (u & w1 & Hs & Hrun). apply bind_Ok in Hrun as (ca' & w2 & Hn & Hrun).
  apply lift_Ok in Hn as [Hn ->]. unfold CA.New in Hn.
  destruct (String.length master =? MasterKeySize)%nat eqn:El; simpl in Hn; [|done].
  apply Nat.eqb_eq in El. split; [done|]. simplify_eq.
  destruct (selfManaged _); apply bind_Ok in Hrun as (? & ? & _ & Hret); by apply ret_Ok in Hret as [<- _].
Qed.

Lemma setupOIDC_Ok v :
  setupOIDC Getenv = Ok (Some v) →
  Getenv envOIDCIssuer ≠ "" ∧ Getenv envClientOIDCClientID ≠ "" ∧
  v = {| verifier_Issuer := Getenv envOIDCIssuer; verifier_Audience := Getenv envClientOIDCClientID |}.
Proof.
  unfold setupOIDC, NewVerifier, config_error.
  destruct (is_set (Getenv envOIDCIssuer)) eqn:Ei; simpl; [|done].
  destruct (is_set (Getenv envClientOIDCClientID)) eqn:Ec; simpl; [|done].
  destruct (oidc_discover _); intros; simplify_eq. split_and!; [by apply is_set_true..|done].
Qed.
Definition ci_audience : string :=
  if bool_decide (Getenv envCIAudience = "") then DefaultCIAudience else Getenv envCIAudience.
Lemma setupCIOIDC_Ok v :
  setupCIOIDC Getenv = Ok (Some v) →
  Getenv envCIIssuer ≠ "" ∧ v = {| verifier_Issuer := Getenv envCIIssuer; verifier_Audience := ci_audience |}.
Proof.
  unfold setupCIOIDC, NewCIVerifier. destruct (is_set (Getenv envCIIssuer)) eqn:Ei; simpl; [|done].
  destruct (oidc_discover _); intros; simplify_eq. split; [by apply is_set_true|done].
Qed.
Lemma checkAudienceSeparation_Ok :
  checkAudienceSeparation Getenv = Ok () → Getenv envOIDCIssuer ≠ "" →
  Getenv envOIDCIssuer = Getenv envCIIssuer → ci_audience ≠ Getenv envClientOIDCClientID.
Proof.
  unfold checkAudienceSeparation, config_error, ci_audience. intros Hok Hi Heq.
  rewrite (proj2 (is_set_true _) Hi), bool_decide_true in Hok by done. simpl in Hok.
  unfold is_set in Hok. destruct (bool_decide (Getenv envCIAudience = "")); simpl in Hok;
    by case_bool_decide.
Qed.

Lemma setupUIAuth_Ok ui :
  setupUIAuth Getenv = Ok (Some ui) →
  Getenv envServerOIDCClientSecret ≠ "" ∧ Getenv envServerOIDCClientID ≠ Getenv envClientOIDCClientID ∧
  ui_Verifier ui = {| verifier_Issuer := Getenv envOIDCIssuer;
                      verifier_Audience := Getenv envServerOIDCClientID |} ∧
  ∃ master, masterKeyFromEnv Getenv = Ok master ∧
    uia_Codec (ui_Config ui) = hkdf_key master sessionKeyInfo ∧ (0 < uia_SessionTTL (ui_Config ui))%Z.
Proof.
  unfold setupUIAuth, NewVerifier, NewSessionCodec, config_error.
  destruct (_ && _); [by destruct (is_set _)|].
  destruct (is_set (Getenv envServerOIDCClientID)) eqn:Eid; simpl; [|done].
  destruct (is_set (Getenv envServerOIDCClientSecret)) eqn:Esec; simpl; [|done].
  case_bool_decide as Hne; [done|]. destruct (is_set (Getenv envOIDCIssuer)); simpl; [|done].
  destruct (oidc_discover _); simpl; [|done].
  destruct (masterKeyFromEnv Getenv) as [master|] eqn:Em; [|done].
  destruct (_ <? 32)%nat; [done|]. destruct (uiSessionTTL Getenv) as [ttl|] eqn:Et; [|done].
  intros. simplify_eq. split; [by apply is_set_true|]. split_and!; [done..|].
  exists master. split_and!; [done..|]. simpl.
  apply duration_or_Ok in Et as [[_ ->]|[_ ?]]; [by vm_compute|done].
Qed.

Lemma setupVerifiers_Ok v c ui :
  setupVerifiers Getenv = Ok (v, c, ui) →
  setupOIDC Getenv = Ok v ∧ setupCIOIDC Getenv = Ok c ∧ checkAudienceSeparation Getenv = Ok () ∧
  setupUIAuth Getenv = Ok ui.
Proof.
  unfold setupVerifiers. destruct (setupOIDC Getenv); [|done]. destruct (setupCIOIDC Getenv); [|done].
  destruct (checkAudienceSeparation Getenv) as [[]|]; [|done]. destruct (setupUIAuth Getenv); [|done].
  intros. by simplify_eq.
Qed.

Lemma pinConfigFromEnv_Ok cfg :
  pinConfigFromEnv Getenv = Ok cfg →
  Pins.StaticPin cfg = Getenv envPublicPin ∧ Pins.DialURL cfg = publicBaseURL Getenv ∧
  (Getenv envPublicPin ≠ "" → ∃ hash, Pins.DecodePin (Getenv envPublicPin) = Ok hash).
Proof.
  unfold pinConfigFromEnv. destruct (is_set (Getenv envPublicPin)) eqn:Es.
  - destruct (Pins.DecodePin _) as [h|]; [|done]. destruct (duration_or _ _ _); intros; simplify_eq.
    split_and!; [done..|]. by exists h.
  - apply is_set_false in Es. destruct (duration_or _ _ _); intros; simplify_eq. by split_and!.
Qed.

(** What [start] went through. *)
Lemma start_Ok w st w' :
  start' w = (Ok st, w') → ∃ ca validity verifiers devUser adminGroup pins w1 w2,
    checkLegacyEnv Getenv = Ok () ∧ setup' w = (Ok ca, w1) ∧ hostCertValidityFromEnv Getenv = Ok validity ∧
    setupVerifiers Getenv = Ok verifiers ∧
    setupDevUIAuth Getenv (Getenv envAdminGroup) = Ok (devUser, adminGroup) ∧
    startRulesSync Getenv rule_files (rulesConfigFromEnv Getenv) w1 = (Ok (st_RulesLoop st), w2) ∧ w' = w2 ∧
    pinConfigFromEnv Getenv = Ok pins ∧
    st_Deps st = server_deps Getenv build ca validity verifiers devUser adminGroup
                   (rulesConfigFromEnv Getenv) pins.
Proof.
  unfold start. intros Hrun. apply bind_Ok in Hrun as ([] & w1 & Hl & Hrun). apply lift_Ok in Hl as [Hl ->].
  apply bind_Ok in Hrun as (ca & w1 & Hs & Hrun). apply bind_Ok in Hrun as (validity & wx & Hv & Hrun).
  apply lift_Ok in Hv as [Hv ->]. apply bind_Ok in Hrun as (verifiers & wx & Hvs & Hrun).
  apply lift_Ok in Hvs as [Hvs ->]. apply bind_Ok in Hrun as ([dev group] & wx & Hd & Hrun).
  apply lift_Ok in Hd as [Hd ->]. apply bind_Ok in Hrun as (loop & w2 & Hr & Hrun).
  apply bind_Ok in Hrun as (pins & wx & Hp & Hrun). apply lift_Ok in Hp as [Hp ->].
  apply ret_Ok in Hrun as [<- <-]. exists ca, validity, verifiers, dev, group, pins, w1, w2. by split_and!.
Qed.
End start_lemmas.

(** ** What a started server is *)
Section started.
Context `{Crypto} `{UUIDs} `{X509} `{Encodings} `{OIDC} `{OAuth2} `{MapOrder} `{Rules.RulesYAML}.
Variables (Getenv : string → string) (readFile : string → option string)
          (rule_files : string → result string) (Migrate Connect : DSN → result unit) (build : Build).
Implicit Types w : World.

Record safely_configured (d : Deps) : Prop := {
  sc_current : ∀ m, m ∈ legacyEnv → Getenv m.1 = "";
  sc_master : ∃ master, masterKeyFromEnv Getenv = Ok master ∧ String.length master = MasterKeySize ∧
    ca_masterKey (d_CA d) = master ∧ ca_policies (d_CA d) = DefaultPolicies ∧
    ∀ cfg v, d_UIAuth d = Some (cfg, v) → uia_Codec cfg = hkdf_key master sessionKeyInfo;
  sc_mode : if selfManaged (d_CA d)
    then Getenv envCAMode = caModeSelfManaged ∧ ∀ f, f ∈ ca_key_files → Getenv f ≠ ""
    else Getenv envCAMode ≠ caModeSelfManaged ∧ ∀ f, f ∈ ca_key_files → Getenv f = "";
  sc_verifier : ∀ v, d_Verifier d = Some v → Getenv envOIDCIssuer ≠ "" ∧ Getenv envClientOIDCClientID ≠ "" ∧
    v = user_verifier {| verifier_Issuer := Getenv envOIDCIssuer;
                         verifier_Audience := Getenv envClientOIDCClientID |};
  sc_ci : ∀ v, d_CIVerifier d = Some v → Getenv envCIIssuer ≠ "" ∧
    v = ci_verifier {| verifier_Issuer := Getenv envCIIssuer; verifier_Audience := ci_audience Getenv |};
  sc_audiences : is_Some (d_Verifier d) → is_Some (d_CIVerifier d) →
    Getenv envOIDCIssuer = Getenv envCIIssuer → ci_audience Getenv ≠ Getenv envClientOIDCClientID;
  sc_ui : ∀ cfg v, d_UIAuth d = Some (cfg, v) → Getenv envServerOIDCClientSecret ≠ "" ∧
    Getenv envServerOIDCClientID ≠ Getenv envClientOIDCClientID ∧ (0 < uia_SessionTTL cfg)%Z ∧
    v = user_verifier {| verifier_Issuer := Getenv envOIDCIssuer;
                         verifier_Audience := Getenv envServerOIDCClientID |};
  sc_dev : is_Some (d_DevUser d) ↔ Getenv envDevUIAuth = "insecure";
  sc_group : d_DevUser d = None → d_AdminGroup d = Getenv envAdminGroup;
  sc_validity : (0 ≤ d_HostCertValidity d)%Z;
  sc_pin : Getenv envPublicPin ≠ "" → ∃ hash, Pins.DecodePin (Getenv envPublicPin) = Ok hash
}.

Lemma start_configured w st w' :
  start Getenv readFile rule_files Migrate Connect build w = (Ok st, w') → safely_configured (st_Deps st).
Proof.
  intros Hrun. apply start_Ok in Hrun as (ca & validity & [[v c] ui] & dev & group & pins & w1 & w2 &
    Hl & Hs & Hv & Hvs & Hd & _ & _ & Hp & ->).
  apply setup_Ok in Hs as (master & external & Hk & Hlen & ->). apply setup_keys_Ok in Hk as [Hm Hmode].
  apply setupVerifiers_Ok in Hvs as (Huser & Hci & Hsep & Hui).
  assert (∀ u, ui = Some u → setupUIAuth Getenv = Ok (Some u)) as Hui' by (by intros u ->).
  split; simpl.
  - by apply checkLegacyEnv_Ok.
  - exists master. split_and!; [done..|]. intros cfg v' Hu.
    apply fmap_Some in Hu as (u & -> & [= -> ->]).
    destruct (setupUIAuth_Ok _ _ (Hui' u eq_refl)) as (_ & _ & _ & m & Hm' & Hc & _).
    rewrite Hm in Hm'. by simplify_eq.
  - unfold selfManaged. simpl. destruct external; [by destruct Hmode as (? & ? & _)|].
    destruct Hmode as [[->| ->] Hf]; done.
  - intros v' Hu. apply fmap_Some in Hu as (u & -> & ->).
    apply setupOIDC_Ok in Huser as (? & ? & ->). by split_and!.
  - intros v' Hu. apply fmap_Some in Hu as (u & -> & ->). apply setupCIOIDC_Ok in Hci as (? & ->). done.
  - intros [v1 Hu] _ Heq. apply fmap_Some in Hu as (u & -> & _). apply setupOIDC_Ok in Huser as (? & _).
    by apply checkAudienceSeparation_Ok.
  - intros cfg v' Hu. apply fmap_Some in Hu as (u & -> & [= -> ->]).
    destruct (setupUIAuth_Ok _ _ (Hui' u eq_refl)) as (? & ? & -> & m & _ & _ & ?). by split_and!.
  - apply setupDevUIAuth_Ok in Hd as [(-> & _ & Hn)|(claims & -> & Hi & _)].
    + rewrite Hn. split; [by intros [??]|done].
    + split; [done|by eexists].
  - intros ->. by apply setupDevUIAuth_Ok in Hd as [(_ & -> & _)|(? & ? & _)].
  - apply duration_or_Ok in Hv as [[_ ->]|[_ ?]]; lia.
  - by apply pinConfigFromEnv_Ok in Hp as (_ & _ & ?).
Qed.

(** C19: A server that starts is configured safely. No renamed or removed variable is set;
    the CA works with the 32-byte master key of the environment, the session key derives
    from it, and the default policies hold; the CA is self-managed exactly in that mode,
    with all four key files, and with none of them otherwise; tokens are checked for the
    configured issuers and audiences, and a shared issuer has two audiences; the login
    client is not the clients' one, has a secret and a session lifetime; the developer
    user exists only for the value insecure, and without it the admin group is the
    configured one; a static pin is a pin. *)
Theorem started_server_is_configured w st w' :
  start Getenv readFile rule_files Migrate Connect build w = (Ok st, w') → safely_configured (st_Deps st).
Proof. apply start_configured. Qed.

(** Without an admin group and without the developer mode, no request changes anything
    but accounts through the admin API. *)
Theorem unconfigured_admin_api_is_inert w st w1 pin_read req l w2 o w3 route :
  start Getenv readFile rule_files Migrate Connect build w = (Ok st, w1) →
  Getenv envAdminGroup = "" → Getenv envDevUIAuth = "" → users_wf w2 → groups_wf w2 →
  route_of (hr_Method req) (hr_Path req) = Admin route →
  serve_http (st_Deps st) pin_read req l w2 = (o, w3) → admin_kept (w_db w2) (w_db w3).
Proof.
  intros Hst Hg Hd Hus Hgr Hroute Hrun. apply start_configured in Hst as [].
  apply serve_http_run in Hrun as (a & l' & _ & _ & wr & _ & _ & Hk); [|done..].
  destruct Hk as [?|Hauth]; [done|]. rewrite Hroute in Hauth.
  destruct Hauth as (_ & _ & _ & _ & _ & _ & _ & _ & Hne & _). destruct Hne.
  rewrite sc_group0; [done|]. destruct (d_DevUser (st_Deps st)); [|done].
  destruct sc_dev0 as [Hdev _]. rewrite Hd in Hdev. by discriminate Hdev.
Qed.
End started.

(** ** Refused starts *)
Section refused.
Context `{Crypto} `{UUIDs} `{X509} `{Encodings} `{OIDC} `{OAuth2} `{MapOrder} `{Rules.RulesYAML}.
Variables (Getenv : string → string) (readFile : string → option string)
          (rule_files : string → result string) (Migrate Connect : DSN → result unit)
          (lookup : ProxyTrust.dns) (can_listen : string → bool) (build : Build).

Inductive misconfigured : Prop :=
| LegacyVariable m : m ∈ legacyEnv → Getenv m.1 ≠ "" → misconfigured
| MasterKeyNotBase64 : base64_DecodeString (Getenv envMasterKey) = None → misconfigured
| UnknownMode : Getenv envCAMode ∉ [""; caModeManaged; caModeSelfManaged] → misconfigured
| KeyFileMissing f : Getenv envCAMode = caModeSelfManaged → f ∈ ca_key_files → Getenv f = "" → misconfigured
| KeyFileUnexpected f : Getenv envCAMode ≠ caModeSelfManaged → f ∈ ca_key_files → Getenv f ≠ "" → misconfigured
| KeyFileUnreadable f : Getenv envCAMode = caModeSelfManaged → f ∈ ca_key_files →
    readFile (Getenv f) = None → misconfigured
| DatabaseIncomplete v : v ∈ [envDBHost; envDBUser; envDBPassword; envDBName] → Getenv v = "" → misconfigured.

Lemma misconfigured_refused : misconfigured →
  (∃ e, checkLegacyEnv Getenv = Err e) ∨ (∃ e, setup_keys Getenv readFile = Err e) ∨
  ∃ e, setupStore Getenv Migrate Connect = Err e.
Proof.
  intros Hmis. destruct (checkLegacyEnv Getenv) as [[]|e] eqn:El; [right|left; by eexists].
  pose proof (proj1 (checkLegacyEnv_Ok _) El) as Hl.
  destruct (setup_keys Getenv readFile) as [[master ext]|e] eqn:Ek; [right|left; by eexists].
  assert (base64_DecodeString (Getenv envMasterKey) ≠ None) as Hkey.
  { unfold setup_keys, masterKeyFromEnv, config_error in Ek. by destruct (base64_DecodeString _). }
  apply setup_keys_Ok in Ek as [_ Hext].
  destruct (setupStore Getenv Migrate Connect) as [u|e] eqn:Es; [exfalso|by eexists].
  assert (∀ v, v ∈ [envDBHost; envDBUser; envDBPassword; envDBName] → Getenv v ≠ "") as Hdb.
  { unfold setupStore, dbConnString, config_error in Es.
    destruct (List.filter _ _) eqn:Ef in Es; [|done]. rewrite filter_nil in Ef.
    intros v Hv%Ef. apply negb_false_iff in Hv. by apply is_set_true. }
  destruct Hmis as [m Hm Hset|Hn|Hmode|f Hmode Hf Hset|f Hmode Hf Hset|f Hmode Hf Hset|v Hv Hset].
  - by apply Hset, Hl.
  - done.
  - destruct ext; destruct Hext as [Hm _]; [rewrite Hm in Hmode|destruct Hm as [Hm|Hm]; rewrite Hm in Hmode];
      apply Hmode; set_solver.
  - destruct ext; destruct Hext as [Hm Hfs]; [by apply (proj1 Hfs f)|].
    destruct Hm as [Hm|Hm]; by rewrite Hmode in Hm.
  - destruct ext; destruct Hext as [Hm Hfs]; [done|]. by apply Hset, Hfs.
  - destruct ext; destruct Hext as [Hm Hfs].
    + destruct (proj2 Hfs f Hf) as [t Ht]. by rewrite Hset in Ht.
    + destruct Hm as [Hm|Hm]; by rewrite Hmode in Hm.
  - by apply (Hdb v).
Qed.

End refused.

(** ** Restarts *)
Section restart.
Context `{Crypto} `{UUIDs} `{X509}.
Implicit Types w : World.

Definition known_key (db : Db) (item : adoption) : bool :=
  let '(purpose, _, publicKey, _) := item in existsb (same_public_key purpose publicKey) (ca_keys db).
(** The keys a start leaves behind: one per purpose of the bootstrap, or the mounted ones. *)
Definition bootstrapped (ca : CA) (db : Db) : Prop :=
  match ca_external ca with
  | None => ∀ p, p ∈ [CertTypeUser; CertTypeHost] → bundle_keys db p ≠ []
  | Some ext => ∀ item, item ∈ adoptions ext → known_key db item = true
  end.
Lemma bootstrapped_keys ca db db' :
  ca_keys db' = ca_keys db → bootstrapped ca db → bootstrapped ca db'.
Proof.
  intros Hk. unfold bootstrapped, bundle_keys, known_key. destruct (ca_external ca).
  - intros Hb [[[p a] k] s] Hi. rewrite Hk. by apply (Hb (p, a, k, s)).
  - rewrite Hk. done.
Qed.

Lemma ListActiveCAKeys_run p w r w' :
  ListActiveCAKeys p w = (r, w') →
  w_db w' = w_db w ∧ match r with Ok keys => keys = bundle_keys (w_db w) p | Err _ => True end.
Proof.
  unfold ListActiveCAKeys, queryAll, sql_select, stmt.
  destruct (w_faults w) as [|[] fs]; intros; by simplify_eq/=.
Qed.

(** *** Managed keys *)
Lemma ensure_key_known ca p w r w' :
  bundle_keys (w_db w) p ≠ [] → ensure_key ca p w = (r, w') → w_db w' = w_db w.
Proof.
  unfold ensure_key, bind. intros Hne Hrun. destruct (ListActiveCAKeys p w) as [[keys|e] w1] eqn:El;
    apply ListActiveCAKeys_run in El as [Hdb Hk]; [|by simplify_eq].
  subst. destruct (bundle_keys (w_db w) p) eqn:Eb; [done|]. unfold ret in Hrun. by simplify_eq.
Qed.
Lemma bundle_keys_nil db p : bundle_keys db p = [] ↔
  ∀ k, k ∈ ca_keys db → cakey_Purpose k = p → cakey_State k = CAKeyStateRetired.
Proof.
  split.
  - intros Hb k Hk Hp. destruct (decide (cakey_State k = CAKeyStateRetired)); [done|].
    assert (k ∈ bundle_keys db p) as Hin by (by apply bundle_keys_elem). rewrite Hb in Hin.
    by apply elem_of_nil in Hin.
  - intros Hall. destruct (bundle_keys db p) as [|k l] eqn:Eb; [done|].
    assert (k ∈ bundle_keys db p) as (Hk & Hp & Hs)%bundle_keys_elem by (rewrite Eb; left).
    destruct Hs. by apply Hall.
Qed.
Lemma bundle_keys_mono db db' p :
  (∀ k, k ∈ ca_keys db → k ∈ ca_keys db') → bundle_keys db p ≠ [] → bundle_keys db' p ≠ [].
Proof. rewrite !bundle_keys_nil. intros Hsub Hne Hall. apply Hne. intros k Hk. by apply Hall, Hsub. Qed.
Lemma ensure_key_Ok ca p w u w' :
  selfManaged ca = false → ensure_key ca p w = (Ok u, w') →
  bundle_keys (w_db w') p ≠ [] ∧ ∀ k, k ∈ ca_keys (w_db w) → k ∈ ca_keys (w_db w').
Proof.
  intros Hm. unfold ensure_key, bind. destruct (ListActiveCAKeys p w) as [[keys|e] w1] eqn:El;
    apply ListActiveCAKeys_run in El as [Hdb Hk]; [|done].
  subst. destruct (bundle_keys (w_db w) p) as [|k l] eqn:Eb.
  - destruct (createKey ca p EventKeyCreated w1) as [[k|e] w2] eqn:Ec; [|done].
    apply createKey_run in Ec as [_ (Hks & _ & _ & Hst & Hp & _)]; [|done].
    unfold ret. intros; simplify_eq. rewrite Hks, Hdb. split; [|set_solver].
    rewrite bundle_keys_nil, Hks. intros Hall. rewrite (Hall k) in Hst; [done|set_solver|done].
  - unfold ret. intros; simplify_eq. rewrite Hdb, Eb. done.
Qed.
Lemma EnsureCAKeys_Ok ca w u w' : EnsureCAKeys ca w = (Ok u, w') → bootstrapped ca (w_db w').
Proof.
  unfold EnsureCAKeys. destruct (selfManaged ca) eqn:Hm; [done|]. intros Hrun.
  unfold bootstrapped. unfold selfManaged in Hm. destruct (ca_external ca) eqn:Ex; [done|].
  cbn [foldM] in Hrun. apply bind_Ok in Hrun as ([] & w1 & H1' & Hrun).
  apply bind_Ok in Hrun as ([] & w2 & H2' & Hrun). apply ret_Ok in Hrun as [_ <-].
  assert (selfManaged ca = false) as Hs by (unfold selfManaged; by rewrite Ex).
  apply ensure_key_Ok in H1' as [Hu _], H2' as [Hh Hmono]; [|done..].
  intros p [->|[->|?%elem_of_nil]%elem_of_cons]%elem_of_cons; [|done|done].
  by eapply bundle_keys_mono.
Qed.
Lemma EnsureCAKeys_again ca w r w' :
  bootstrapped ca (w_db w) → EnsureCAKeys ca w = (r, w') → w_db w' = w_db w.
Proof.
  unfold EnsureCAKeys, bootstrapped. destruct (selfManaged ca) eqn:Hm; [unfold fail; intros; by simplify_eq|].
  unfold selfManaged in Hm. destruct (ca_external ca); [done|]. intros Hb. cbn [foldM].
  unfold bind at 1. destruct (ensure_key ca CertTypeUser w) as [[]  w1] eqn:E1;
    apply ensure_key_known in E1 as Hdb; [|apply Hb; set_solver| |apply Hb; set_solver]; cycle 1.
  { intros; by simplify_eq. }
  unfold bind at 1. destruct (ensure_key ca CertTypeHost w1) as [[] w2] eqn:E2;
    (apply ensure_key_known in E2 as Hdb2; [|rewrite Hdb; apply Hb; set_solver]);
    unfold ret; intros; simplify_eq; congruence.
Qed.

(** *** Mounted keys *)
Lemma adopt_known p algorithm key w r w' :
  existsb (same_public_key p key) (ca_keys (w_db w)) = true → AdoptCAKey p algorithm key w = (r, w') →
  w_db w' = w_db w ∧ ∀ k c, r = Ok (k, c) → c = false.
Proof.
  intros Hknown Hrun. destruct r as [[k c]|e]; [|split; [by eapply transaction_Err|done]].
  unfold AdoptCAKey in Hrun. run_step. subst. run_step. run_step.
  match goal with Hq : queryOne _ _ = (?r, _) |- _ => destruct r as [key'|e] eqn:Hr end.
  { match goal with Hq : queryOne _ _ = _ |- _ =>
      apply queryOne_Ok in Hq; unfold sql_insert_or_nothing in Hq; simpl in Hq end.
    rewrite Hknown in *. run_all. }
  destruct (errors_Is e ErrNotFound) eqn:He; [|run_step].
  match goal with Hq : queryOne _ _ = (Err e, ?w1) |- _ => assert (w_db w1 = w_db w) as Hdb end.
  { unfold queryOne, sql_insert_or_nothing, sql_select, sql_insert, stmt, bind, ret, fail in *.
    simpl in *. repeat (case_match; simplify_eq/=); done. }
  run_all. case_bool_decide; [run_step|]. run_step. simplify_eq. split; [done|]. intros; by simplify_eq.
Qed.
Lemma adopt_key_again item w r w' :
  known_key (w_db w) item = true → adopt_key item w = (r, w') → w_db w' = w_db w.
Proof.
  destruct item as [[[p a] key] signer]. simpl. intros Hknown Hrun. unfold try, bind in Hrun.
  destruct (AdoptCAKey p a key w) as [[[k c]|e] w1] eqn:Ea;
    apply adopt_known in Ea as [Hdb Hc]; [|done| |done]; [|by unfold fail in Hrun; simplify_eq].
  rewrite (Hc k c eq_refl) in Hrun. destruct signer; unfold cache_signer, modify, ret in Hrun; simpl in Hrun;
    by simplify_eq.
Qed.
Lemma adopt_key_Ok item w u w' :
  adopt_key item w = (Ok u, w') →
  known_key (w_db w') item = true ∧
  ∀ other, other.1.1.1 ≠ item.1.1.1 → known_key (w_db w) other = true → known_key (w_db w') other = true.
Proof.
  destruct item as [[[p a] key] signer]. simpl. intros Hrun.
  apply bind_Ok in Hrun as (tried & w1 & Ht & Hrun). apply try_run in Ht as Ea.
  destruct tried as [[k c]|e]; [|done].
  apply adopt_key_never_promotes in Ea as (Hk & Hp & Hpub & _ & Hc).
  assert (ca_keys (w_db w') = ca_keys (w_db w1)) as Hks.
  { apply bind_Ok in Hrun as ([] & w2 & Hs & Hrun).
    assert (w_db w2 = w_db w1) as <-
      by (destruct signer; unfold cache_signer, modify, ret in Hs; by simplify_eq).
    destruct c; simpl in Hrun; [by apply AppendAuditEvent_run in Hrun as [? _]|].
    unfold ret in Hrun. by simplify_eq. }
  unfold known_key. rewrite Hks. split.
  - apply existsb_exists. exists k. split; [by apply list_elem_of_In|].
    unfold same_public_key. by rewrite !bool_decide_true.
  - intros [[[p' a'] key'] s'] Hne Hother. simpl in *. destruct c; [|by rewrite Hc].
    apply existsb_exists in Hother as (k' & Hin & Hsame). apply existsb_exists. exists k'. split; [|done].
    apply list_elem_of_In. apply (proj2 (proj2 Hc)); [by apply list_elem_of_In|].
    unfold same_public_key in Hsame. bool_to_prop. congruence.
Qed.
Lemma adopt_all items w u w' :
  NoDup ((λ item : adoption, item.1.1.1) <$> items) →
  foldM (λ _ item, adopt_key item) () items w = (Ok u, w') →
  (∀ item, item ∈ items → known_key (w_db w') item = true) ∧
  ∀ other, other.1.1.1 ∉ ((λ item : adoption, item.1.1.1) <$> items) → known_key (w_db w) other = true →
    known_key (w_db w') other = true.
Proof.
  revert u w. induction items as [|item items IH]; intros u w Hnd Hrun; cbn [foldM] in Hrun.
  { apply ret_Ok in Hrun as [_ <-]. split; [by intros ? ?%elem_of_nil|done]. }
  apply bind_Ok in Hrun as ([] & w1 & Ha & Hrun). apply NoDup_cons in Hnd as [Hnot Hnd].
  apply adopt_key_Ok in Ha as [Hk Hkeep]. apply IH in Hrun as [Hall Hother]; [|done]. split.
  - intros x [->|Hx]%elem_of_cons; [|by apply Hall]. by apply Hother.
  - intros x Hx Hkx. simpl in Hx. apply not_elem_of_cons in Hx as [Hne Hx]. apply Hother; [done|]. by apply Hkeep.
Qed.
Lemma adopt_all_again items w r w' :
  (∀ item, item ∈ items → known_key (w_db w) item = true) →
  foldM (λ _ item, adopt_key item) () items w = (r, w') → w_db w' = w_db w.
Proof.
  revert w. induction items as [|item items IH]; intros w Hall; cbn [foldM].
  { unfold ret. intros; by simplify_eq. }
  unfold bind. destruct (adopt_key item w) as [[[]|e] w1] eqn:Ea;
    (apply adopt_key_again in Ea as Hdb; [|apply Hall; left]).
  - intros Hrun. rewrite <-Hdb. apply IH in Hrun; [done|]. intros x Hx. rewrite Hdb. apply Hall. by right.
  - intros. by simplify_eq.
Qed.
Lemma AdoptExternalKeys_Ok ca w u w' : AdoptExternalKeys ca w = (Ok u, w') → bootstrapped ca (w_db w').
Proof.
  unfold AdoptExternalKeys, bootstrapped. destruct (ca_external ca) as [ext|]; [|done].
  intros Hrun. apply adopt_all in Hrun as [Hall _]; [done|].
  apply (bool_decide_unpack _). vm_compute. done.
Qed.

(** *** The CA of the agents *)
Definition agent_ca (ca : CA) (db : Db) : Prop :=
  selfManaged ca = false → bundle_keys db CAPurposeMTLS ≠ [].
Lemma EnsureMTLSCA_run ca w r w' :
  EnsureMTLSCA ca w = (r, w') →
  (selfManaged ca = false → bundle_keys (w_db w) CAPurposeMTLS ≠ [] → w_db w' = w_db w) ∧
  (r = Ok () → agent_ca ca (w_db w')).
Proof.
  unfold agent_ca. destruct (selfManaged ca) eqn:Hm.
  { unfold EnsureMTLSCA. rewrite Hm. unfold fail. intros; simplify_eq. done. }
  intros Hrun. destruct (bundle_keys (w_db w) CAPurposeMTLS) as [|k l] eqn:Eb.
  - split; [done|]. intros -> _. apply EnsureMTLSCA_creates in Hrun as (row & _ & _ & -> & _); done.
  - unfold EnsureMTLSCA in Hrun. rewrite Hm in Hrun. unfold bind in Hrun.
    destruct (ListActiveCAKeys _ w) as [[keys|e] w1] eqn:El;
      apply ListActiveCAKeys_run in El as [Hdb Hk]; [|simplify_eq; split; [done|done]].
    rewrite Eb in Hk. subst. unfold ret in Hrun. simplify_eq. rewrite Hdb, Eb. done.
Qed.
Lemma IssueServerCert_db ca names w r w' : IssueServerCert ca names w = (r, w') → w_db w' = w_db w.
Proof.
  unfold IssueServerCert, bind at 1. destruct (mtlsCA ca w) as [[[[c p] pem]|e] w1] eqn:Em;
    pose proof (mtlsCA_db _ _ _ _ Em) as Hdb; [|intros; by simplify_eq].
  unfold bind at 1. unfold rand_next at 1. destruct (ed25519_key _) as [pub priv].
  match goal with |- bind randomSerial (λ s, bind time_Now (λ b, bind time_Now (λ a, @?k s b a))) ?w1 = _ → _ =>
    destruct (draw_template k w1) as (before & after & w2 & -> & Hdb2 & _ & _) end.
  simpl. destruct (x509_CreateCertificate _ _ _ _); unfold ret, fail; intros; simplify_eq;
    rewrite Hdb2; simpl; done.
Qed.
Lemma EnsureMTLSCA_grows ca w w' k :
  EnsureMTLSCA ca w = (Ok (), w') → k ∈ ca_keys (w_db w) → k ∈ ca_keys (w_db w').
Proof.
  unfold EnsureMTLSCA. destruct (selfManaged ca); [done|]. intros Hrun Hk.
  apply bind_Ok in Hrun as (keys & w1 & Hl & Hrun). apply ListActiveCAKeys_run in Hl as [Hdb _].
  destruct keys; [|apply ret_Ok in Hrun as [_ <-]; by rewrite Hdb].
  apply bind_Ok in Hrun as ([cert key] & w2 & Hg & Hrun). apply GenerateMTLSCA_Ok in Hg as [Hdb2 _].
  apply bind_Ok in Hrun as (data & w3 & He & Hrun). apply encryptPrivateKey_Ok in He as (_ & _ & Hdb3 & _).
  apply bind_Ok in Hrun as (row & w4 & Hc & Hrun). apply wrap_Ok, CreateCAKey_run in Hc as (_ & Hks & _).
  apply AppendAuditEvent_run in Hrun as [Hks2 _]. rewrite Hks2, Hks, Hdb3, Hdb2, Hdb. set_solver.
Qed.

(** *** A second start *)
Variables (Getenv : string → string) (readFile : string → option string)
          (Migrate Connect : DSN → result unit).
Notation setup' := (setup Getenv readFile Migrate Connect).

Lemma setup_run w r w' master external :
  setup_keys Getenv readFile = Ok (master, external) → setup' w = (r, w') →
  w_db w' = w_db w ∧ (∃ e, r = Err e) ∨
  ∃ ca q, ca = {| ca_masterKey := master; ca_policies := DefaultPolicies; ca_external := external |} ∧
    (if selfManaged ca then AdoptExternalKeys ca w = (q, w') else EnsureCAKeys ca w = (q, w')) ∧
    (∀ u, q = Ok u → r = Ok ca) ∧ (∀ e, q = Err e → ∃ e', r = Err e').
Proof.
  intros Hk. unfold setup, CA.New, selfManaged, wrap, bind, lift, ret, fail. rewrite Hk.
  destruct (setupStore Getenv Migrate Connect); [|intros; simplify_eq; left; split; [done|by eexists]].
  destruct (negb _); [intros; simplify_eq; left; split; [done|by eexists]|].
  set (ca := {| ca_masterKey := master; ca_policies := DefaultPolicies; ca_external := external |}).
  intros Hrun. right. exists ca. simpl in *. destruct external as [ext|].
  - destruct (AdoptExternalKeys ca w) as [q w1] eqn:E. exists q.
    destruct q; simplify_eq; (split_and!; [done..| |]); intros; simplify_eq; eauto.
  - destruct (EnsureCAKeys ca w) as [q w1] eqn:E. exists q.
    destruct q; simplify_eq; (split_and!; [done..| |]); intros; simplify_eq; eauto.
Qed.

Lemma AdoptExternalKeys_again ca w r w' :
  bootstrapped ca (w_db w) → AdoptExternalKeys ca w = (r, w') → w_db w' = w_db w.
Proof.
  unfold AdoptExternalKeys, bootstrapped. destruct (ca_external ca) as [ext|]; [|unfold fail; intros; by simplify_eq].
  apply adopt_all_again.
Qed.
Lemma newAgentServer_run ca w r w' :
  bootstrapped ca (w_db w) → newAgentServer Getenv ca w = (r, w') →
  (agent_ca ca (w_db w) → w_db w' = w_db w) ∧
  ∀ served, r = Ok served → bootstrapped ca (w_db w') ∧ agent_ca ca (w_db w').
Proof.
  intros Hboot Hrun. unfold newAgentServer, bind at 1 in Hrun.
  destruct ((if selfManaged ca then ret () else wrap "bootstrap mtls ca" (EnsureMTLSCA ca)) w)
    as [[[]|e] w1] eqn:E1.
  - assert (w_db w' = w_db w1) as ->.
    { unfold bind, wrap in Hrun. destruct (IssueServerCert _ _ w1) as [[c|e] w2] eqn:E2;
        apply IssueServerCert_db in E2; [|by simplify_eq].
      unfold MTLSCAPool, bind in Hrun. destruct (mtlsCA ca w2) as [[[[? ?] ?]|e] w3] eqn:E3;
        apply mtlsCA_db in E3; unfold ret in Hrun; simplify_eq; congruence. }
    destruct (selfManaged ca) eqn:Hm.
    + unfold ret in E1. simplify_eq. split; [done|]. intros ? _. split; [done|]. unfold agent_ca. by rewrite Hm.
    + apply wrap_Ok in E1. pose proof (λ k, EnsureMTLSCA_grows ca w w1 k E1) as Hmono.
      apply EnsureMTLSCA_run in E1 as [Hsame Hca]. split; [intros Ha; apply Hsame; [done|by apply Ha]|].
      intros ? _. split; [|by apply Hca]. revert Hboot. unfold bootstrapped. unfold selfManaged in Hm.
      destruct (ca_external ca); [done|]. intros Hb p Hp. eapply bundle_keys_mono; [exact Hmono|by apply Hb].
  - simplify_eq. destruct (selfManaged ca) eqn:Hm; [done|]. unfold wrap in E1.
    destruct (EnsureMTLSCA ca w) as [[]  w1] eqn:E2; simplify_eq.
    apply EnsureMTLSCA_run in E2 as [Hsame _]. split; [|done]. intros Ha. apply Hsame; [done|]. by apply Ha.
Qed.

(** C29: A restart creates no key. After a start that bootstrapped the CA, or adopted the
    mounted keys, and set up the agent listener, another start of the same configuration
    on the same database leaves the database as it is, whatever the clock, the random
    numbers and the failing statements of the new process; if it succeeds, its CA is the
    CA of the first one, and its agent listener finds its CA, too. *)
Theorem restart_creates_no_key w ca w1 served w2 w3 r w4 :
  setup' w = (Ok ca, w1) → newAgentServer Getenv ca w1 = (Ok served, w2) →
  w_db w3 = w_db w2 → setup' w3 = (r, w4) →
  w_db w4 = w_db w2 ∧
  ∀ ca', r = Ok ca' → ca' = ca ∧
    ∀ w5 r' w6, w_db w5 = w_db w4 → newAgentServer Getenv ca' w5 = (r', w6) → w_db w6 = w_db w2.
Proof.
  intros Hs Ha Hdb Hs2. pose proof (setup_Ok _ _ _ _ _ _ _ Hs) as (master & ext & Hk & _ & Hca).
  assert (bootstrapped ca (w_db w1)) as Hb1.
  { destruct (setup_run _ _ _ _ _ Hk Hs) as [[_ [e ?]]|(ca1 & q & Hca1 & Hrun & Hok & Herr)]; [done|].
    rewrite <-Hca1 in Hca. subst ca1. destruct q as [[]|e]; [|by destruct (Herr e eq_refl)].
    destruct (selfManaged ca); [by eapply AdoptExternalKeys_Ok|by eapply EnsureCAKeys_Ok]. }
  apply newAgentServer_run in Ha as [_ Ha]; [|done]. destruct (Ha _ eq_refl) as [Hb2 Hag].
  assert (w_db w4 = w_db w2) as H4.
  { destruct (setup_run _ _ _ _ _ Hk Hs2) as [[Hdb4 _]|(ca1 & q & Hca1 & Hrun & _)]; [congruence|].
    rewrite <-Hca1 in Hca. subst ca1. rewrite <-Hdb in Hb2. rewrite <-Hdb.
    destruct (selfManaged ca); [by eapply AdoptExternalKeys_again|by eapply EnsureCAKeys_again]. }
  split; [done|]. intros ca' ->. pose proof (setup_Ok _ _ _ _ _ _ _ Hs2) as (m' & e' & Hk' & _ & ->).
  rewrite Hk in Hk'. injection Hk' as <- <-. split; [done|]. rewrite <-Hca in *. intros w5 r' w6 H5 Hrun.
  rewrite <-H4, <-H5 in *. by apply newAgentServer_run in Hrun as [Hsame _]; [apply Hsame|].
Qed.
End restart.

(** ** gen-mtls-ca *)
Lemma append_left_inj (s a b : string) : s +:+ a = s +:+ b → a = b.
Proof. induction s as [|c s IH]; simpl; [done|]. intros [=]. by apply IH. Qed.

Section gen_mtls.
Context `{Crypto} `{UUIDs} `{X509}.
Implicit Types w : World.

(** Writing a new file: only that path changes, and it was free. *)
Lemma writeNewFile_run d path data files r files' :
  writeNewFile d path data files = (r, files') →
  (∀ p, p ≠ path → files' !! p = files !! p) ∧ (∀ v, files !! path = Some v → files' = files) ∧
  (∀ u, r = Ok u → files !! path = None ∧ files' !! path = Some data) ∧
  (∀ e, r = Err e → d_outcome d path = FileOk ∨ d_outcome d path = CreateFails → files' = files).
Proof.
  unfold writeNewFile. destruct (files !! path) as [v|] eqn:Ef.
  { intros; simplify_eq. by split_and!. }
  destruct (d_outcome d path) eqn:Eo; intros; simplify_eq; split_and!; try done; intros; simplify_map_eq;
    try done; naive_solver.
Qed.

(** Gen-mtls-ca makes a CA that self-managed mode accepts, and never touches one
    that exists. It always ends with an exit code and no database is involved; every file
    that was there is as it was and no other path is created; on success both paths were
    free, and the two files load as the mTLS key pair of a CA; on failure no key is left
    behind if the key file itself was written in full and removing works. *)
Theorem gen_mtls_ca_is_mountable d out files w :
  let keyPath := out +:+ ".key" in let certPath := out +:+ ".crt" in
  ∃ code files' w', runGenMTLSCA d out files w = (Ok (code, files'), w') ∧ w_db w' = w_db w ∧
    (∀ p v, files !! p = Some v → files' !! p = Some v) ∧
    (∀ p, p ≠ keyPath → p ≠ certPath → files' !! p = files !! p) ∧
    (code = 0%Z → files !! keyPath = None ∧ files !! certPath = None ∧
       ∃ m, loadMTLSKeyFiles (λ p, files' !! p) keyPath certPath = Ok m ∧
            x509_IsCA (ext_Certificate m) = true ∧ x509_CertSign (ext_Certificate m) = true) ∧
    (code ≠ 0%Z → d_removes d = true → d_outcome d keyPath = FileOk ∨ d_outcome d keyPath = CreateFails →
       files' !! keyPath = files !! keyPath).
Proof.
  intros keyPath certPath. assert (keyPath ≠ certPath) as Hne by (by intros Heq%append_left_inj).
  unfold runGenMTLSCA. destruct (bool_decide (out = "")).
  { eexists _, _, _. split; [reflexivity|]. by split_and!. }
  unfold try, bind. fold keyPath certPath.
  destruct (GenerateMTLSCA w) as [[[cert key]|e] w1] eqn:Eg.
  2: { assert (w_db w1 = w_db w) as Hdb.
       { revert Eg. unfold GenerateMTLSCA. unfold bind at 1. simpl. destruct (ed25519_key _).
         match goal with |- bind randomSerial (λ s, bind time_Now (λ b, bind time_Now (λ a, @?k s b a))) ?w1 = _ → _ =>
           destruct (draw_template k w1) as (before & after & w2 & -> & Hdb2 & _ & _) end.
         simpl. destruct (x509_CreateCertificate _ _ _ _); unfold ret, fail; intros; by simplify_eq. }
       unfold ret. eexists _, _, _. split; [reflexivity|]. by split_and!. }
  apply GenerateMTLSCA_Ok in Eg as (Hdb & c & priv & Hc & Hp & Hca & Hsign & Hpub).
  destruct (writeNewFile d keyPath key files) as [r1 files1] eqn:E1.
  apply writeNewFile_run in E1 as (Hoth1 & Hold1 & Hok1 & Herr1). destruct r1 as [[]|e1]; unfold ret.
  2: { eexists _, _, _. split; [reflexivity|]. split_and!; [done| |by intros; apply Hoth1|done|].
       - intros p v Hv. destruct (decide (p = keyPath)) as [->|]; [by rewrite (Hold1 v Hv)|by rewrite Hoth1].
       - intros _ _ Ho. by rewrite (Herr1 _ eq_refl Ho). }
  destruct (Hok1 () eq_refl) as [Hfree Hkey].
  destruct (writeNewFile d certPath cert files1) as [r2 files2] eqn:E2.
  apply writeNewFile_run in E2 as (Hoth2 & Hold2 & Hok2 & Herr2).
  assert (∀ p v, files !! p = Some v → files2 !! p = Some v ∧ p ≠ keyPath) as Hkept.
  { intros p v Hv. assert (p ≠ keyPath) as Hk by congruence. split; [|done].
    assert (files1 !! p = Some v) as Hv1 by (by rewrite Hoth1).
    destruct (decide (p = certPath)) as [->|]; [by rewrite (Hold2 v Hv1)|by rewrite Hoth2]. }
  assert (∀ p, p ≠ keyPath → p ≠ certPath → files2 !! p = files !! p) as Hother
    by (intros; rewrite Hoth2, Hoth1 by done; done).
  destruct r2 as [[]|e2].
  - destruct (Hok2 () eq_refl) as [Hfree2 Hcert]. eexists _, _, _. split; [reflexivity|].
    split_and!; [done|by intros p v [? _]%Hkept|done| |done]. intros _.
    split; [done|]. split; [by rewrite <-Hoth1|]. unfold loadMTLSKeyFiles, loadMTLSPrivateKey.
    rewrite (Hoth2 keyPath), Hkey, Hp, Hcert, Hc, Hca, Hsign by done. simpl.
    rewrite bool_decide_true by done. simpl. by eexists.
  - eexists _, _, _. split; [reflexivity|]. destruct (d_removes d).
    + split_and!; [done| | |done|].
      * intros p v [? ?]%Hkept. by rewrite lookup_delete_ne.
      * intros. rewrite lookup_delete_ne by done. by apply Hother.
      * intros _ _ _. by rewrite lookup_delete_eq.
    + split_and!; [done|by intros p v [? _]%Hkept|done..].
Qed.
End gen_mtls.

(** ** enroll-token *)
(** The command ends with an exit code. It prints a token only when it stored the hash
    of that token, unused, for the name, tags and lifetime of its flags, and then changed
    nothing else: unlike the admin API it asks for no rollout gate, takes any lifetime and
    writes no audit event. *)
Theorem enroll_token_command `{Crypto} `{UUIDs} Getenv Migrate Connect random name tagsFlag ttl w :
  ∃ code printed w', runEnrollToken Getenv Migrate Connect random name tagsFlag ttl w = (Ok (code, printed), w') ∧
    match printed with
    | None => code ≠ 0%Z ∧ w_db w' = w_db w
    | Some token => code = 0%Z ∧ ∃ tags t minted, parseTags tagsFlag = Ok tags ∧
        setupStore Getenv Migrate Connect = Ok () ∧
        token_record (sha256 token) name tags (Add minted ttl) t ∧
        enrollment_tokens (w_db w') = enrollment_tokens (w_db w) ++ [t] ∧
        audit_events (w_db w') = audit_events (w_db w) ∧ hosts (w_db w') = hosts (w_db w)
    end.
Proof.
  unfold runEnrollToken. destruct (parseTags tagsFlag) as [tags|e];
    [|unfold ret; eexists _, _, _; split; [reflexivity|done]].
  destruct (setupStore Getenv Migrate Connect) as [[]|e];
    [|unfold ret; eexists _, _, _; split; [reflexivity|done]].
  destruct (NewEnrollmentToken_run random name tags ttl w) as (token & t & w1 & minted & Hn & Hdb & Ht).
  unfold try, bind. rewrite Hn. destruct (CreateEnrollmentToken t w1) as [q w2] eqn:Ec.
  assert (audit_events (w_db w2) = audit_events (w_db w1) ∧ hosts (w_db w2) = hosts (w_db w1)) as [Ha Hh].
  { unfold CreateEnrollmentToken, queryOne, sql_insert, stmt, bind, ret, fail in Ec.
    repeat (case_match; simplify_eq/=); done. }
  apply CreateEnrollmentToken_run in Ec. unfold ret.
  destruct q as [t'|e]; eexists _, _, _; (split; [reflexivity|]); [|split; [done|congruence]]. destruct Ec as (id & now & -> & Hts).
  split; [done|]. exists tags. destruct Ht as (? & ? & ? & ? & ?). eexists _, minted.
  rewrite Hts, Ha, Hh, Hdb. split_and!; [done..| |done|done|done]. by split_and!.
Qed.

(** ** Concrete starts *)
Definition toy_env_of (vars : list (string * string)) : string → string :=
  let env : gmap string string := list_to_map vars in λ name, default "" (env !! name).
Definition toy_vars : list (string * string) := [
  ("GSSH_CA_MASTER_KEY", base64_Encode toy_master); ("GSSH_DB_HOST", "db"); ("GSSH_DB_USER", "gssh");
  ("GSSH_DB_PASSWORD", "secret"); ("GSSH_DB_NAME", "gssh"); ("GSSH_DB_PORT", "5432");
  ("GSSH_OIDC_ISSUER", "https://idp"); ("GSSH_CLIENT_OIDC_CLIENT_ID", "gssh");
  ("GSSH_CI_ISSUER", "https://idp"); ("GSSH_CI_AUDIENCE", "gssh-ci");
  ("GSSH_SERVER_OIDC_CLIENT_ID", "gssh-server"); ("GSSH_SERVER_OIDC_CLIENT_SECRET", "s");
  ("GSSH_UI_SESSION_TTL", "8h"); ("GSSH_ADMIN_GROUP", "dev"); ("GSSH_PUBLIC_URL", "https://gssh.example/");
  ("GSSH_HOST_CERT_VALIDITY", "720h"); ("GSSH_AGENT_PROXY_PROTOCOL", "true");
  ("GSSH_AGENT_PROXY_TRUSTED", "10.0.0.0/8")].
Definition toy_build : Build := {|
  b_Agents := None; b_Clients := None; b_Version := "v1"; b_Unit := "";
  b_InstallTemplate := λ _, None; b_ClientTemplate := λ _, None; b_RandomState := λ _, "";
  b_RandomToken := λ _, "t"; b_JSONB := λ _, ""; b_UIFile := λ _, false |}.
Definition toy_connect (dsn : DSN) : result unit :=
  if bool_decide (dsn_Host dsn = "db:5432") then Ok () else Err (ErrOther "no such host").
Definition toy_start (vars : list (string * string)) (w : @World toy_crypto) :=
  start (H0 := counting_uuids) (H1 := toy_x509) (H2 := toy_encodings) (H3 := toy_oidc) (H5 := key_order)
    (H6 := Rules.toy_rules_yaml) (toy_env_of vars) (λ _, None) (Rules.toy_files "" "") toy_connect toy_connect
    toy_build w.
Definition toy_run (vars : list (string * string)) (w : @World toy_crypto) :=
  run (H0 := counting_uuids) (H1 := toy_x509) (H2 := toy_encodings) (H3 := toy_oidc) (H5 := key_order)
    (H6 := Rules.toy_rules_yaml) (toy_env_of vars) (λ _, None) (Rules.toy_files "" "") toy_connect toy_connect
    (ProxyTrust.toy_dns 1) (λ _, true) toy_build false ":8080" ":8443" w.
Definition outcome_of {A} (r : result (Z + A)) : option Z :=
  match r with Ok (inl code) => Some code | Ok (inr _) => None | Err _ => Some (-1)%Z end.
Example toy_runs :
  outcome_of (toy_run toy_vars (toy_world toy_db)).1 = None ∧
  outcome_of (toy_run (("GSSH_OIDC_CLIENT_ID", "gssh") :: toy_vars) (toy_world toy_db)).1 = Some 1%Z ∧
  outcome_of (toy_run (("GSSH_CI_AUDIENCE", "gssh") :: toy_vars) (toy_world toy_db)).1 = Some 1%Z ∧
  outcome_of (toy_run (("GSSH_LOG_LEVEL", "loud") :: toy_vars) (toy_world toy_db)).1 = Some 2%Z ∧
  outcome_of (toy_run (("GSSH_CA_MODE", "self-managed") :: toy_vars) (toy_world toy_db)).1 = Some 1%Z.
Proof. vm_compute. split_and!; reflexivity. Qed.

Example toy_start_works : is_ok (toy_start toy_vars (toy_world toy_db)).1 = true.
Proof. vm_compute. reflexivity. Qed.
Lemma started_server_is_configured_witness :
  ∃ st w', toy_start toy_vars (toy_world toy_db) = (Ok st, w') ∧
    safely_configured (H2 := toy_encodings) (H3 := toy_oidc) (toy_env_of toy_vars) (st_Deps st).
Proof.
  pose proof toy_start_works as Hok.
  destruct (toy_start toy_vars (toy_world toy_db)) as [[st|e] w'] eqn:E; [clear Hok|discriminate Hok].
  exists st, w'. split; [reflexivity|].
  exact (started_server_is_configured (H0 := counting_uuids) (H1 := toy_x509) (H2 := toy_encodings)
    (H3 := toy_oidc) (H5 := key_order) (H6 := Rules.toy_rules_yaml) _ _ _ _ _ _ _ _ _ E).
Defined.


Notation toy_setup w := (setup (H0 := counting_uuids) (H1 := toy_x509) (toy_env_of toy_vars) (λ _, None)
  toy_connect toy_connect w).
Notation toy_agent_server ca w := (newAgentServer (H0 := counting_uuids) (H1 := toy_x509)
  (toy_env_of toy_vars) ca w).
Lemma restart_creates_no_key_witness :
  ∃ ca w1 served w2, toy_setup (toy_world toy_db) = (Ok ca, w1) ∧ toy_agent_server ca w1 = (Ok served, w2) ∧
    w_db (toy_setup (toy_world (w_db w2))).2 = w_db w2.
Proof.
  destruct (toy_setup (toy_world toy_db)) as [[ca|e] w1] eqn:E; [|vm_compute in E; discriminate E].
  destruct (toy_agent_server ca w1) as [[served|e] w2] eqn:E2.
  2: { vm_compute in E. injection E as <- <-. vm_compute in E2. discriminate E2. }
  exists ca, w1, served, w2. split; [reflexivity|]. split; [exact E2|].
  destruct (toy_setup (toy_world (w_db w2))) as [r w4] eqn:E3.
  apply (restart_creates_no_key (H0 := counting_uuids) (H1 := toy_x509) (toy_env_of toy_vars) (λ _, None)
    toy_connect toy_connect (toy_world toy_db) ca w1 served w2 (toy_world (w_db w2)) r w4 E E2 eq_refl E3).
Defined.
