(* ===== verification/Requests.v ===== *)
(** * Requests and the schema (internal/api: New and NewAgent)

    Whatever requests arrive in whatever order, the database satisfies its schema: every
    handler of both listeners is a composition of store operations that keep it. The
    agents' listener is routed here, too. *)
From S2P Require Export Server Schema.
From S2P Require Rules GroupSync.

Local Open Scope string_scope.
Local Open Scope list_scope.

(** ** The agents' listener (agent.go) *)
Inductive AgentRoute :=
| AgentRenew | AgentRenewMTLS | AgentPrincipals | AgentSessions | AgentBundleUser | AgentHeartbeat
| AgentNotFound | AgentBadMethod.
(** Every pattern of [NewAgent] names its method; GET also takes HEAD. *)
Definition agent_route_of (m : string) (segs : list string) : AgentRoute :=
  let only (ok : bool) (route : AgentRoute) := if ok then route else AgentBadMethod in
  match segs with
  | ["v1"; "agent"; "renew"] => only (bool_decide (m = "POST")) AgentRenew
  | ["v1"; "agent"; "renew-mtls"] => only (bool_decide (m = "POST")) AgentRenewMTLS
  | ["v1"; "agent"; "principals"] => only (is_get m) AgentPrincipals
  | ["v1"; "agent"; "sessions"] => only (bool_decide (m = "POST")) AgentSessions
  | ["v1"; "agent"; "bundle"; "user"] => only (is_get m) AgentBundleUser
  | ["v1"; "agent"; "heartbeat"] => only (is_get m) AgentHeartbeat
  | _ => AgentNotFound
  end.
(** [parse_time] is the JSON form of [time.Time]. *)
Definition serve_agent `{Crypto} `{UUIDs} `{X509} (ca : CA) (hostValidity : Z)
    (parse_time : string → option Z) (req : HttpRequest) : M Response :=
  let r := hr_Request req in
  match agent_route_of (hr_Method req) (hr_Path req) with
  | AgentRenew => agentRenew ca hostValidity r
  | AgentRenewMTLS => agentRenewMTLS ca r
  | AgentPrincipals => agentPrincipals r
  | AgentSessions => agentSessions (decode_sessions parse_time) r
  | AgentBundleUser => agentBundleUser r
  | AgentHeartbeat => agentHeartbeat r
  | AgentNotFound => ret (HttpError "404 page not found" 404)
  | AgentBadMethod => ret (HttpError "Method Not Allowed" 405)
  end.

(** ** What an agent cannot touch *)
Definition agent_kept : relation Db := λ db db',
  (users db', groups db', user_groups db', service_accounts db') =
    (users db, groups db, user_groups db, service_accounts db) ∧
  (access_grants db', ci_grants db', enrollment_tokens db') =
    (access_grants db, ci_grants db, enrollment_tokens db) ∧
  (ca_keys db', host_tags db', host_ID <$> hosts db') = (ca_keys db, host_tags db, host_ID <$> hosts db).
#[export] Instance agent_kept_preorder : PreOrder agent_kept.
Proof. split; [intros db; by split_and!|]. intros x y z (? & ? & ?) (? & ? & ?). repeat split; congruence. Qed.
#[export] Hint Extern 0 (KeepsTable agent_kept _) => (intros l db; repeat split) : typeclass_instances.

Section agents.
Context `{Crypto} `{UUIDs} `{X509}.
Variable ca : CA.

Lemma keeps_insertAuditEvent (R : relation Db) `{!PreOrder R} e :
  KeepsTable R audit_events_table → Keeps R (insertAuditEvent e).
Proof. intros Ha. apply keeps_stmt; [done|]. intros w. apply Ha. Qed.
#[export] Instance insertAuditEvent_agent e : Keeps agent_kept (insertAuditEvent e).
Proof. apply keeps_insertAuditEvent; apply _. Qed.
#[export] Instance ingest_agent host ev : Keeps agent_kept (ingestSessionEvent host ev).
Proof.
  unfold ingestSessionEvent, OpenHostSession, CloseHostSession, RecordSudoEvent, AppendAuditEvent. by_cases.
Qed.
#[export] Instance Issue_agent rt req ref : Keeps agent_kept (Issue ca rt req ref).
Proof. apply keeps_Issue; apply _. Qed.
#[export] Instance IssueAgentCert_agent id csr : Keeps agent_kept (IssueAgentCert ca id csr).
Proof. unfold IssueAgentCert, mtlsCA, AppendAuditEvent. by_cases. Qed.
#[export] Instance TouchHostLastSeen_agent id addr : Keeps agent_kept (TouchHostLastSeen id addr).
Proof.
  intros w. unfold TouchHostLastSeen, execAffectingOne, bind.
  destruct (sql_update _ _ _ _ w) as [[rs|e] w1] eqn:E; simpl.
  - apply sql_update_Ok in E as (fs & _ & _ & ->).
    match goal with |- agent_kept _ (w_db (_ ?w').2) => trans (w_db w'); [|by destruct rs] end.
    repeat split. simpl. f_equal. apply fmap_map_same. intros h. by case_bool_decide.
  - apply sql_update_Err in E as [fs ->]. reflexivity.
Qed.
#[export] Instance agentHost_agent r : Keeps agent_kept (agentHost r).
Proof. unfold agentHost, GetHost. by_cases. Qed.
#[export] Instance answers_foldM {A B} (f : B → A → M B) b l : (∀ b x, Answers (f b x)) → Answers (foldM f b l).
Proof. intros Hf. revert b. induction l; simpl; apply _. Qed.

(** One handler: it answers, and a caller without a host's certificate is refused. *)
Lemma with_host_contained k r w o w' :
  (∀ host, Answers (k host)) → (∀ host, Keeps agent_kept (k host)) → with_host r k w = (o, w') →
  ∃ resp, o = Ok resp ∧ agent_kept (w_db w) (w_db w') ∧
    ((status resp = StatusUnauthorized ∨ status resp = StatusInternalServerError) ∧ w_db w' = w_db w ∨
     ∃ host cn, req_PeerCN r = Some cn ∧ uuid_Parse cn = Some (host_ID host) ∧ host ∈ hosts (w_db w)).
Proof.
  intros Ha Hk. unfold with_host, bind. destruct (agentHost r w) as [x w1] eqn:E. pose proof E as E'.
  apply agentHost_run in E as (caller & -> & Hc). destruct caller as [resp|host].
  { destruct Hc as [Hst Hdb]. unfold ret. intros [= <- <-]. exists resp. split; [done|]. rewrite Hdb.
    split; [reflexivity|]. by left. }
  destruct Hc as (cn & Hcn & Hid & Hin & _). intros Hrun.
  pose proof (keeps (R := agent_kept) (m := agentHost r) w) as Hw. rewrite E' in Hw.
  destruct (Ha host w1) as [resp Hr]. pose proof (keeps (R := agent_kept) (m := k host) w1) as Hkept.
  rewrite Hrun in Hr, Hkept. simpl in Hr, Hkept. subst o. exists resp. split; [done|]. split; [|right; by exists host, cn].
  by etrans.
Qed.
End agents.

(** C8: The agents' listener is contained: every request is answered, however the
    database fails; only a client certificate that names a known host gets past 401, and
    even then users, groups, service accounts, rules, enrollment tokens, tags, CA keys
    and the set of hosts are as they were: an agent can renew its certificates, report
    its sessions and show that it is alive. *)
Theorem agent_api_contained `{Crypto} `{UUIDs} `{X509} ca v parse_time req w o w'
  (Hrun : serve_agent ca v parse_time req w = (o, w')) :
  ∃ resp, o = Ok resp ∧ agent_kept (w_db w) (w_db w') ∧
    (w_db w' = w_db w ∨ ∃ host cn, req_PeerCN (hr_Request req) = Some cn ∧
       uuid_Parse cn = Some (host_ID host) ∧ host ∈ hosts (w_db w)).
Proof.
  assert (∀ k, (∀ host, Answers (k host)) → (∀ host, Keeps agent_kept (k host)) →
    with_host (hr_Request req) k w = (o, w') → ∃ resp, o = Ok resp ∧ agent_kept (w_db w) (w_db w') ∧
    (w_db w' = w_db w ∨ ∃ host cn, req_PeerCN (hr_Request req) = Some cn ∧
       uuid_Parse cn = Some (host_ID host) ∧ host ∈ hosts (w_db w))) as Hwith.
  { intros k Ha Hk Hw. destruct (with_host_contained _ _ _ _ _ Ha Hk Hw) as (resp & -> & Hkept & Hor).
    exists resp. split; [done|]. split; [done|]. destruct Hor as [[_ Hdb]|Hhost]; [by left|by right]. }
  unfold serve_agent, ret in Hrun. destruct (agent_route_of _ _);
    try (simplify_eq; eexists; split; [done|]; split; [reflexivity|by left]);
    eapply Hwith, Hrun; unfold issueHostCert, Bundle, ListAuthorizedPrincipals; by_cases.
Qed.

Section handlers.
Context `{Crypto} `{UUIDs} `{X509} `{Encodings} `{OAuth2} `{MapOrder}.

(** ** The CA *)
#[export] Instance encryptPrivateKey_schema m t : Preserves (encryptPrivateKey m t).
Proof. unfold encryptPrivateKey. preserve. Qed.
#[export] Hint Opaque encryptPrivateKey : typeclass_instances.
#[export] Instance NewCAKey_schema p m : Preserves (NewCAKey p m).
Proof. unfold NewCAKey. preserve. Qed.
#[export] Hint Opaque NewCAKey : typeclass_instances.
#[export] Instance cache_signer_schema p s : Preserves (cache_signer p s).
Proof. unfold cache_signer. apply _. Qed.
#[export] Hint Opaque cache_signer : typeclass_instances.
#[export] Instance invalidateSigner_schema ca p : Preserves (invalidateSigner ca p).
Proof. unfold invalidateSigner. preserve. Qed.
#[export] Hint Opaque invalidateSigner : typeclass_instances.
#[export] Instance activeSigner_schema ca p : Preserves (activeSigner ca p).
Proof. unfold activeSigner. preserve. Qed.
#[export] Hint Opaque activeSigner : typeclass_instances.
#[export] Instance createKey_schema ca p e : Preserves (createKey ca p e).
Proof. unfold createKey. preserve. Qed.
#[export] Hint Opaque createKey : typeclass_instances.
#[export] Instance EnsureCAKeys_schema ca : Preserves (EnsureCAKeys ca).
Proof. unfold EnsureCAKeys, ensure_key. preserve. Qed.
#[export] Hint Opaque EnsureCAKeys : typeclass_instances.
#[export] Instance AdoptExternalKeys_schema ca : Preserves (AdoptExternalKeys ca).
Proof. unfold AdoptExternalKeys, adopt_key. preserve. Qed.
#[export] Hint Opaque AdoptExternalKeys : typeclass_instances.
#[export] Instance validate_now_schema ca r req : Preserves (validate_now ca r req).
Proof. unfold validate_now. preserve. Qed.
#[export] Hint Opaque validate_now : typeclass_instances.
#[export] Instance Issue_schema ca r req ref : Preserves (Issue ca r req ref).
Proof. unfold Issue. preserve. Qed.
#[export] Hint Opaque Issue : typeclass_instances.
#[export] Instance Rotate_schema ca p : Preserves (Rotate ca p).
Proof. unfold Rotate. preserve. Qed.
#[export] Hint Opaque Rotate : typeclass_instances.
#[export] Instance RetireKey_schema ca i : Preserves (RetireKey ca i).
Proof. unfold RetireKey. preserve. Qed.
#[export] Hint Opaque RetireKey : typeclass_instances.
#[export] Instance GenerateMTLSCA_schema : Preserves GenerateMTLSCA.
Proof. unfold GenerateMTLSCA. preserve. Qed.
#[export] Hint Opaque GenerateMTLSCA : typeclass_instances.
#[export] Instance EnsureMTLSCA_schema ca : Preserves (EnsureMTLSCA ca).
Proof. unfold EnsureMTLSCA. preserve. Qed.
#[export] Hint Opaque EnsureMTLSCA : typeclass_instances.
#[export] Instance mtlsCA_schema ca : Preserves (mtlsCA ca).
Proof. unfold mtlsCA. preserve. Qed.
#[export] Hint Opaque mtlsCA : typeclass_instances.
#[export] Instance IssueAgentCert_schema ca h csr : Preserves (IssueAgentCert ca h csr).
Proof. unfold IssueAgentCert. preserve. Qed.
#[export] Hint Opaque IssueAgentCert : typeclass_instances.
#[export] Instance IssueServerCert_schema ca names : Preserves (IssueServerCert ca names).
Proof. unfold IssueServerCert. preserve. Qed.
#[export] Hint Opaque IssueServerCert : typeclass_instances.
#[export] Instance Bundle_schema p : Preserves (Bundle p).
Proof. unfold Bundle. preserve. Qed.
#[export] Hint Opaque Bundle : typeclass_instances.

(** ** Accounts *)
#[export] Instance token_Verify_schema C (v : TokenVerifier C) raw : Preserves (token_Verify raw).
Proof. apply preserves_frame. intros w. apply token_frames. Qed.
#[export] Instance EnsureUser_schema c : Preserves (EnsureUser c).
Proof. unfold EnsureUser, ensure_account, ensureGroups, ensureGroup. preserve. Qed.
#[export] Hint Opaque EnsureUser : typeclass_instances.
#[export] Instance sessionFromRequest_schema cfg r : Preserves (sessionFromRequest cfg r).
Proof. unfold sessionFromRequest. preserve. Qed.
#[export] Hint Opaque sessionFromRequest : typeclass_instances.
#[export] Instance authenticate_schema a r : Preserves (authenticate a r).
Proof. unfold authenticate. preserve. Qed.
#[export] Hint Opaque authenticate : typeclass_instances.
#[export] Instance SyncOnce_schema source : Preserves (GroupSync.SyncOnce source).
Proof.
  unfold GroupSync.SyncOnce, GroupSync.sync_user, GroupSync.deactivate, GroupSync.reconcile_user,
    GroupSync.sync_audit, ensureGroups, ensureGroup. preserve.
Qed.
#[export] Instance RulesSync_schema `{Rules.RulesYAML} files cfg : Preserves (Rules.Sync files cfg).
Proof. unfold Rules.Sync, Rules.sync_domain, Rules.syncHost, Rules.syncCI. preserve. Qed.

(** ** The handlers *)
#[export] Instance handleSignUser_schema ca (v : TokenVerifier Claims) r :
  Preserves (handleSignUser (TokenVerifier0 := v) ca r).
Proof. unfold handleSignUser. preserve. Qed.
#[export] Instance handleSignCI_schema ca (v : TokenVerifier CIClaims) r :
  Preserves (handleSignCI (TokenVerifier0 := v) ca r).
Proof. unfold handleSignCI. preserve. Qed.
#[export] Instance handleEnroll_schema ca v r : Preserves (handleEnroll ca v r).
Proof. unfold handleEnroll, enroll_certificates, issueHostCert, MTLSCAPEM. preserve. Qed.
#[export] Instance serve_auth_schema d route m path r : Preserves (serve_auth d route m path r).
Proof.
  unfold serve_auth, devLogin, devLogout, devMe, handleLogin, handleCallback, callbackState, open_session,
    handleLogout, handleMe, Seal. preserve.
Qed.
Lemma route_handler_schema a jsonb route r claims actor : Preserves ((route_handler a jsonb route).2 r claims actor).
Proof.
  destruct route; simpl; unfold gateCRUD, gateApply, handleListGrants, handleGetGrant, handleCreateGrant,
    handleUpdateGrant, handleDeleteGrant, handleApplyGrants, handleListCIGrants, handleGetCIGrant,
    handleCreateCIGrant, handleUpdateCIGrant, handleDeleteCIGrant, handleApplyCIGrants, handleListHosts,
    handleListUsers, handleListGroups, handleListServiceAccounts, handleUpdateServiceAccount,
    handleCreateEnrollToken, handleListCertificates, handleListAudit, handleExportAudit, list_view, with_id,
    with_filter, adminEnsureGroup, NewEnrollmentToken; preserve.
Qed.
#[export] Instance serve_admin_schema a jsonb route r : Preserves (serve_admin a jsonb route r).
Proof.
  unfold serve_admin. destruct (admin_configured a); [|apply _]. simpl.
  pose proof (route_handler_schema a jsonb route) as Hr. destruct (route_handler a jsonb route) as [role handler].
  unfold AdminAPI.authorized. preserve.
Qed.
#[export] Instance handle_schema d pin_read route req r : Preserves (handle d pin_read route req r).
Proof. unfold handle, handleBundle. preserve. Qed.
#[export] Instance limit_schema {A} response_of of_response limiter (next : Request → M A) r l :
  (∀ r, Preserves (next r)) → Preserves (RateLimit.limit response_of of_response limiter next r l).
Proof. intros Hn. unfold RateLimit.limit. preserve; apply Hn. Qed.
#[export] Instance serve_http_schema d pin_read req l : Preserves (serve_http d pin_read req l).
Proof. unfold serve_http. preserve. Qed.
#[export] Instance serve_agent_schema ca v parse_time req : Preserves (serve_agent ca v parse_time req).
Proof.
  unfold serve_agent, agentRenew, agentRenewMTLS, agentPrincipals, agentSessions, agentBundleUser,
    agentHeartbeat, with_host, agentHost, issueHostCert, ingestSessionEvent. preserve.
Qed.
End handlers.

(** ** The server over time

    One step is a request on either listener, a pass of a background task, a start, or
    whatever else happens to the process: time passes, statements fail, the process is
    replaced by a new one with empty caches on the same database. *)
Section running.
Context `{Crypto} `{UUIDs} `{X509} `{Encodings} `{OAuth2} `{MapOrder} `{Rules.RulesYAML}.
Variables (d : Deps) (parse_time : string → option Z).
Implicit Types w : World.

Definition same_database w w' : Prop :=
  w_db w' = w_db w ∧ w_uuid w' = w_uuid w ∧ w_audit_seq w' = w_audit_seq w.
Inductive server_step : World → World → Prop :=
| step_public pin_read req l w : server_step w (serve_http d pin_read req l w).2
| step_agent req w : server_step w (serve_agent (d_CA d) (d_HostCertValidity d) parse_time req w).2
| step_group_sync source w : server_step w (GroupSync.SyncOnce source w).2
| step_rules files cfg w : server_step w (Rules.Sync files cfg w).2
| step_bootstrap w : server_step w (EnsureCAKeys (d_CA d) w).2
| step_adopt w : server_step w (AdoptExternalKeys (d_CA d) w).2
| step_mtls w : server_step w (EnsureMTLSCA (d_CA d) w).2
| step_rotate purpose w : server_step w (Rotate (d_CA d) purpose w).2
| step_retire id w : server_step w (RetireKey (d_CA d) id w).2
| step_process w w' : same_database w w' → server_step w w'.

Lemma server_step_schema w w' : server_step w w' → schema w → schema w' ∧ history (w_db w) (w_db w').
Proof.
  intros Hstep Hs.
  assert (∀ A (m : M A), Preserves m → schema (m w).2 ∧ history (w_db w) (w_db (m w).2)) as Hm.
  { intros A m Hp. by destruct (Hp w Hs) as [? (_ & _ & ?)]. }
  destruct Hstep as [| | | | | | | | |w w' (Hd & Hu & Ha)]; try (apply Hm; apply _).
  unfold schema. by rewrite Hd, Hu, Ha.
Qed.
Lemma reachable_schema w w' : rtc server_step w w' → schema w → schema w' ∧ history (w_db w) (w_db w').
Proof.
  induction 1 as [|w1 w2 w3 Hstep _ IH]; intros Hs; [done|].
  destruct (server_step_schema _ _ Hstep Hs) as [Hs2 Hh]. destruct (IH Hs2). split; [done|by etrans].
Qed.
Lemma schema_users w : schema w → users_wf w.
Proof. intros Hs. destruct (sch_users _ _ _ Hs). by split. Qed.
Lemma schema_groups w : schema w → groups_wf w.
Proof. intros Hs. destruct (sch_groups _ _ _ Hs). split; [by apply Hs|done..]. Qed.
Lemma schema_empty w : w_db w = empty_db → schema w.
Proof.
  intros Hd. unfold schema. rewrite Hd. split; simpl; try (by apply NoDup_nil_2); try (by intros ? ?%elem_of_nil);
    try (by intros ? ? ?%elem_of_nil); (split; [by apply NoDup_nil_2|by intros ? ?%elem_of_nil]).
Qed.

End running.

(** ** A concrete run: a bootstrap, then a request *)
Definition toy_started : @World toy_crypto :=
  (EnsureCAKeys (H0 := counting_uuids) toy_ca (toy_world empty_db)).2.
Definition toy_get (path : list string) : HttpRequest :=
  {| hr_Method := "GET"; hr_Path := path; hr_Request := toy_enroll_http |}.
Example toy_bundle_served :
  match (toy_serve (toy_get ["v1"; "ca"; "bundle"; "user"]) toy_started).1 with
  | Ok (a, _) => status (answer_response a) | Err _ => 0%Z end = 200%Z ∧
  List.length (ca_keys (w_db toy_started)) = 2%nat.
Proof. vm_compute. split; reflexivity. Qed.

(** A host's heartbeat through the listener. *)
Notation toy_agent_serve req w := (serve_agent (H0 := counting_uuids) (H1 := toy_x509) toy_ca 0 (λ _, Some 5%Z) req w).
Definition toy_beat : HttpRequest :=
  {| hr_Method := "GET"; hr_Path := ["v1"; "agent"; "heartbeat"]; hr_Request := toy_agent_http JNull |}.
Example toy_beat_runs :
  match (toy_agent_serve toy_beat toy_server).1 with Ok r => status r | Err _ => 0%Z end = 204%Z ∧
  bool_decide (host_LastSeenAddr <$> hosts (w_db (toy_agent_serve toy_beat toy_server).2) =
    host_LastSeenAddr <$> hosts (w_db toy_server)) = false.
Proof. vm_compute. split; reflexivity. Qed.
Lemma agent_api_contained_witness :
  agent_kept (w_db toy_server) (w_db (toy_agent_serve toy_beat toy_server).2) ∧
  ∃ host, host ∈ hosts (w_db toy_server).
Proof.
  destruct (agent_api_contained (H0 := counting_uuids) (H1 := toy_x509) toy_ca 0 (λ _, Some 5%Z) toy_beat toy_server _ _
    (surjective_pairing _)) as (resp & _ & Hk & Hor).
  split; [exact Hk|]. destruct Hor as [Heq|(host & cn & _ & _ & Hin)]; [|by exists host].
  destruct toy_beat_runs as [_ Hn]. rewrite Heq in Hn. vm_compute in Hn. discriminate Hn.
Defined.
