(* ===== verification/Flags.v ===== *)
(** * Command lines (package flag) and terminals

    [FlagSet.Parse] as the commands use it: flags with one or two dashes, values
    after an equals sign or in the next argument, boolean flags that need none, and
    the first argument that is no flag ends the flags. The usage text that a failed
    parse prints is not modelled. *)
From S2P Require Export Machine.

Local Open Scope string_scope.
Local Open Scope list_scope.

(** ** Values *)

(** [strconv.ParseBool]. *)
Definition ParseBool (s : string) : option bool :=
  if bool_decide (s ∈ ["1"; "t"; "T"; "TRUE"; "true"; "True"]) then Some true
  else if bool_decide (s ∈ ["0"; "f"; "F"; "FALSE"; "false"; "False"]) then Some false
  else None.

(** [strconv.ParseInt] with base 0: a prefix chooses the base, and underscores may
    stand between digits. *)
Definition lower_ascii (c : ascii) : N := N.lor (N_of_ascii c) 32.
Definition digit_of (c : ascii) : option Z :=
  let n := Z.of_N (N_of_ascii c) in
  let l := Z.of_N (lower_ascii c) in
  if ((48 <=? n) && (n <=? 57))%Z then Some (n - 48)%Z
  else if ((97 <=? l) && (l <=? 122))%Z then Some (l - 87)%Z
  else None.
(** The base, and the digits after its prefix. *)
Definition number_base (s : string) : Z * string :=
  match s with
  | String "0" (String c ((String _ _) as rest)) =>
      if (lower_ascii c =? 98)%N then (2, rest)%Z
      else if (lower_ascii c =? 111)%N then (8, rest)%Z
      else if (lower_ascii c =? 120)%N then (16, rest)%Z
      else (8%Z, String c (rest))
  | String "0" rest => (8%Z, rest)
  | _ => (10%Z, s)
  end.
Fixpoint digits_value (base acc : Z) (s : string) : option Z :=
  match s with
  | "" => Some acc
  | String c s =>
      if bool_decide (c = "_"%char) then digits_value base acc s
      else
        d ← digit_of c;
        if (d <? base)%Z then digits_value base (acc * base + d) s else None
  end.
(** [underscoreOK]: what came before is nothing, a digit, an underscore or another
    character. *)
Inductive seen := SeenNothing | SeenDigit | SeenUnderscore | SeenOther.
Fixpoint underscores_between (hex : bool) (last : seen) (s : string) : bool :=
  match s with
  | "" => match last with SeenUnderscore => false | _ => true end
  | String c s =>
      let n := N_of_ascii c in
      let l := lower_ascii c in
      if ((48 <=? n) && (n <=? 57) || hex && (97 <=? l) && (l <=? 102))%N
      then underscores_between hex SeenDigit s
      else if bool_decide (c = "_"%char)
      then match last with SeenDigit => underscores_between hex SeenUnderscore s | _ => false end
      else match last with SeenUnderscore => false | _ => underscores_between hex SeenOther s end
  end.
Definition underscoreOK (s : string) : bool :=
  match s with
  | String "0" (String c rest) =>
      let l := lower_ascii c in
      if ((l =? 98) || (l =? 111) || (l =? 120))%N then underscores_between (l =? 120)%N SeenDigit rest
      else underscores_between false SeenNothing s
  | _ => underscores_between false SeenNothing s
  end.
Definition parse_uint (s : string) : option Z :=
  if bool_decide (s = "") then None
  else
    let '(base, digits) := number_base s in
    n ← digits_value base 0 digits;
    if Contains s "_" && negb (underscoreOK s) then None else Some n.
Definition ParseInt (s : string) : option Z :=
  match s with
  | String "-" s => n ← parse_uint s; if (n <=? 2 ^ 63)%Z then Some (- n)%Z else None
  | String "+" s => n ← parse_uint s; if (n <? 2 ^ 63)%Z then Some n else None
  | s => n ← parse_uint s; if (n <? 2 ^ 63)%Z then Some n else None
  end.
Example integers_read :
  ParseInt <$> ["0"; "42"; "-0x1F"; "0b101"; "017"; "1_000"; "+7"; "-9223372036854775808"] =
    [Some 0; Some 42; Some (-31); Some 5; Some 15; Some 1000; Some 7; Some (-2 ^ 63)]%Z ∧
  ParseInt <$> [""; "-"; "0x"; "09"; "_1"; "1__0"; "1_"; "9223372036854775808"; "4 2"] =
    [None; None; None; None; None; None; None; None; None].
Proof. vm_compute. split; reflexivity. Qed.

Inductive flagValue := FString (s : string) | FBool (b : bool) | FDuration (d : Z) | FInt64 (n : Z).
#[export] Instance flagValue_eq_dec : EqDecision flagValue.
Proof. solve_decision. Defined.

(** [Value.Set]: a flag keeps its type. *)
Definition set_value (old : flagValue) (text : string) : option flagValue :=
  match old with
  | FString _ => Some (FString text)
  | FBool _ => FBool <$> ParseBool text
  | FDuration _ => FDuration <$> ParseDuration text
  | FInt64 _ => FInt64 <$> ParseInt text
  end.
Definition is_bool_flag (v : flagValue) : bool := match v with FBool _ => true | _ => false end.

(** The defined flags with their values, and the names that were set. *)
Record FlagSet := { fs_Formal : gmap string flagValue; fs_Actual : gset string }.
Definition NewFlagSet (flags : list (string * flagValue)) : FlagSet :=
  {| fs_Formal := list_to_map flags; fs_Actual := ∅ |}.
Definition with_flag (name : string) (v : flagValue) (fs : FlagSet) : FlagSet :=
  {| fs_Formal := <[name := v]> (fs_Formal fs); fs_Actual := {[name]} ∪ fs_Actual fs |}.

Definition flag_string (fs : FlagSet) (name : string) : string :=
  match fs_Formal fs !! name with Some (FString s) => s | _ => "" end.
Definition flag_bool (fs : FlagSet) (name : string) : bool :=
  match fs_Formal fs !! name with Some (FBool b) => b | _ => false end.
Definition flag_duration (fs : FlagSet) (name : string) : Z :=
  match fs_Formal fs !! name with Some (FDuration d) => d | _ => 0%Z end.
Definition flag_int64 (fs : FlagSet) (name : string) : Z :=
  match fs_Formal fs !! name with Some (FInt64 n) => n | _ => 0%Z end.
(** [fs.Visit] lists the flags that were set. *)
Definition flag_changed (fs : FlagSet) (name : string) : bool := bool_decide (name ∈ fs_Actual fs).

(** ** Parsing *)
Inductive token :=
| Positional                                      (* no flag: the flags end here *)
| Terminator                                      (* -- *)
| BadSyntax
| Named (name : string) (value : option string).  (* the value after = *)

Definition named_token (name : string) : token :=
  match name with
  | "" => BadSyntax
  | String "-" _ | String "=" _ => BadSyntax
  | _ => match Cut name "=" with
         | Some (name, value) => Named name (Some value)
         | None => Named name None
         end
  end.
Definition lex_flag (s : string) : token :=
  match s with
  | String "-" "" => Positional
  | String "-" (String "-" "") => Terminator
  | String "-" (String "-" name) => named_token name
  | String "-" name => named_token name
  | _ => Positional
  end.

Inductive parsed :=
| Parsed (fs : FlagSet) (args : list string)
| FlagError (message : string).                   (* [flag.ErrHelp] is one of them *)

Definition undefined_flag (name : string) : parsed :=
  FlagError (if bool_decide (name = "help") || bool_decide (name = "h") then "flag: help requested"
             else "flag provided but not defined: -" +:+ name).
Definition invalid_value (name : string) : parsed := FlagError ("invalid value for flag -" +:+ name).

Fixpoint Parse (fs : FlagSet) (args : list string) : parsed :=
  match args with
  | [] => Parsed fs []
  | s :: rest =>
      match lex_flag s with
      | Positional => Parsed fs (s :: rest)
      | Terminator => Parsed fs rest
      | BadSyntax => FlagError ("bad flag syntax: " +:+ s)
      | Named name given =>
          match fs_Formal fs !! name with
          | None => undefined_flag name
          | Some old =>
              match (if is_bool_flag old then Some (default "true" given) else given) with
              | Some text =>
                  match set_value old text with
                  | Some v => Parse (with_flag name v fs) rest
                  | None => invalid_value name
                  end
              | None =>
                  match rest with
                  | [] => FlagError ("flag needs an argument: -" +:+ name)
                  | text :: rest =>
                      match set_value old text with
                      | Some v => Parse (with_flag name v fs) rest
                      | None => invalid_value name
                      end
                  end
              end
          end
      end
  end.

(** ** Lemmas *)

(** A flag keeps its type through any command line; no flag appears or goes. *)
Definition same_kind (v w : flagValue) : Prop :=
  match v, w with
  | FString _, FString _ | FBool _, FBool _ | FDuration _, FDuration _ | FInt64 _, FInt64 _ => True
  | _, _ => False
  end.
#[export] Instance same_kind_preorder : PreOrder same_kind.
Proof. split; [by intros []|by intros [] [] []]. Qed.
Lemma set_value_kind old text v : set_value old text = Some v → same_kind old v.
Proof.
  destruct old; simpl; [by intros [= <-]| | |].
  - destruct (ParseBool text); by intros [= <-].
  - destruct (ParseDuration text); by intros [= <-].
  - destruct (ParseInt text); by intros [= <-].
Qed.

(** What one parse leads to the next: [P] holds of the result if setting flags keeps it. *)
Lemma Parse_ind (P : FlagSet → Prop) fs args fs' rest :
  (∀ fs name old text v, P fs → fs_Formal fs !! name = Some old → set_value old text = Some v →
     P (with_flag name v fs)) →
  P fs → Parse fs args = Parsed fs' rest → P fs'.
Proof.
  intros Hset. remember (length args) as n eqn:Hn. assert (length args ≤ n)%nat as Hle by lia. clear Hn.
  revert fs args Hle. induction n as [|n IH]; intros fs [|s args] Hle Hfs; simpl in *;
    try (by intros [= <- _]); [lia|].
  destruct (lex_flag s) as [| | |name given]; try (by intros [= <- _]).
  destruct (fs_Formal fs !! name) as [old|] eqn:Hold; [|done].
  destruct (if is_bool_flag old then _ else _) as [text|].
  - destruct (set_value old text) as [v|] eqn:Hv; [|done]. apply IH; [lia|by eapply Hset].
  - destruct args as [|text args]; [done|].
    destruct (set_value old text) as [v|] eqn:Hv; [|done]. apply IH; [simpl in *; lia|by eapply Hset].
Qed.

Lemma Parse_kinds fs args fs' rest name old :
  Parse fs args = Parsed fs' rest → fs_Formal fs !! name = Some old →
  ∃ v, fs_Formal fs' !! name = Some v ∧ same_kind old v.
Proof.
  intros Hp Hold. eapply (Parse_ind (λ fs', ∃ v, fs_Formal fs' !! name = Some v ∧ same_kind old v));
    [|by exists old|exact Hp].
  intros fs1 n o text v (v1 & Hv1 & Hk) Ho Hset. destruct (decide (n = name)) as [->|Hne]; simpl.
  - exists v. split; [by rewrite lookup_insert_eq|]. simplify_eq. etrans; [done|by eapply set_value_kind].
  - exists v1. by rewrite lookup_insert_ne.
Qed.
(** A flag that is not given keeps its default. *)
Lemma Parse_unchanged fs args fs' rest name :
  Parse fs args = Parsed fs' rest → name ∉ fs_Actual fs' → fs_Formal fs' !! name = fs_Formal fs !! name.
Proof.
  intros Hp. eapply (Parse_ind (λ fs', name ∉ fs_Actual fs' →
    fs_Formal fs' !! name = fs_Formal fs !! name)); [|done|exact Hp].
  intros fs1 n o text v IH _ _ Hn. simpl in *. rewrite lookup_insert_ne by set_solver. apply IH. set_solver.
Qed.

(** One argument at a time. *)
Lemma lex_assign name text :
  named_token (name +:+ "=" +:+ text) = Named name (Some text) →
  lex_flag ("--" +:+ name +:+ "=" +:+ text) = Named name (Some text).
Proof. intros Hn. simpl. destruct name as [|c name]; [simpl in Hn; done|exact Hn]. Qed.
Lemma Parse_assign fs s name text v rest old :
  lex_flag s = Named name (Some text) → fs_Formal fs !! name = Some old → set_value old text = Some v →
  Parse fs (s :: rest) = Parse (with_flag name v fs) rest.
Proof. intros Hl Ho Hv. cbn [Parse]. rewrite Hl, Ho. destruct (is_bool_flag old); simpl; by rewrite Hv. Qed.
Lemma Parse_next fs s name text v rest old :
  lex_flag s = Named name None → fs_Formal fs !! name = Some old → is_bool_flag old = false →
  set_value old text = Some v → Parse fs (s :: text :: rest) = Parse (with_flag name v fs) rest.
Proof. intros Hl Ho Hb Hv. cbn [Parse]. by rewrite Hl, Ho, Hb, Hv. Qed.

Example parse_flags :
  let fs := NewFlagSet [("group", FString ""); ("sudo", FBool false); ("max-validity", FDuration (16 * Hour))] in
  match Parse fs ["--group"; "dev"; "-sudo"; "-max-validity=90m"; "x"; "--group"; "y"] with
  | Parsed fs' rest =>
      (flag_string fs' "group", flag_bool fs' "sudo", flag_duration fs' "max-validity", rest,
       flag_changed fs' "group") = ("dev", true, (90 * Minute)%Z, ["x"; "--group"; "y"], true)
  | FlagError _ => False
  end.
Proof. vm_compute. reflexivity. Qed.
(** A boolean flag takes no argument: the word after it ends the flags. *)
Example bool_flag_takes_no_argument :
  let fs := NewFlagSet [("sudo", FBool false); ("tags", FString "")] in
  match Parse fs ["--sudo"; "false"; "--tags"; "env=prod"] with
  | Parsed fs' rest => flag_bool fs' "sudo" = true ∧ flag_string fs' "tags" = "" ∧ length rest = 3%nat
  | FlagError _ => False
  end.
Proof. vm_compute. done. Qed.
