(* ===== verification/Shell.v ===== *)
(** * What a command-line program runs in

    A command is a computation [CLI A] over a [Shell]: the user's machine (files,
    clock, randomness and the count of outside exchanges, as [Machine] has them), the
    state of the ssh-agent, and what was printed. A command ends with an exit code. *)
From stdpp Require Import pretty.
From S2P Require Export Flags.

Local Open Scope string_scope.
Local Open Scope list_scope.

(** ** The text of a duration ([time.Duration.String], [Round]) *)
Section durations.
Local Open Scope Z_scope.

(** [fmtFrac]: the fraction without trailing zeros, and the rest of the number. *)
Fixpoint fmtFrac (prec : nat) (v : Z) (printing : bool) (text : string) : string * Z :=
  match prec with
  | O => (if printing then String "." text else text, v)
  | S prec =>
      let digit := v mod 10 in
      let printing := printing || negb (digit =? 0) in
      fmtFrac prec (v / 10) printing (if printing then pretty digit +:+ text else text)
  end.
Definition small_duration (prec : nat) (unit : string) (u : Z) : string :=
  let '(fraction, whole) := fmtFrac prec u false "" in pretty whole +:+ fraction +:+ unit.
Definition Duration_String (d : Z) : string :=
  let u := Z.abs d in
  let text :=
    if u =? 0 then "0s"
    else if u <? 10 ^ 3 then small_duration 0 "ns" u
    else if u <? Millisecond then small_duration 3 (String "194" (String "181" "s")) u
    else if u <? Second then small_duration 6 "ms" u
    else
      let '(fraction, secs) := fmtFrac 9 u false "" in
      let s := pretty (secs mod 60) +:+ fraction +:+ "s" in
      let minutes := secs / 60 in
      if minutes =? 0 then s
      else
        let m := pretty (minutes mod 60) +:+ "m" +:+ s in
        let hours := minutes / 60 in
        if hours =? 0 then m else pretty hours +:+ "h" +:+ m in
  if d <? 0 then "-" +:+ text else text.
(** Half away from zero; saturates. *)
Definition Round (d m : Z) : Z :=
  if m <=? 0 then d
  else
    let r := Z.abs (Z.rem d m) in
    if d <? 0 then
      if r + r <? m then d + r else Z.max int64_min (d - m + r)
    else
      if r + r <? m then d - r else Z.min int64_max (d + m - r).
End durations.

Example duration_texts :
  Duration_String (16 * Hour) = "16h0m0s" ∧ Duration_String (90 * Minute + 1500 * Millisecond)%Z = "1h30m1.5s" ∧
  Duration_String (2500 * 10 ^ 3) = "2.5ms" ∧ Duration_String (- Second) = "-1s" ∧
  Round (90 * Second) Minute = (2 * Minute)%Z.
Proof. vm_compute. repeat split. Qed.

(** ** The shell *)
Inductive stream := Stdout | Stderr.
(** What is printed: text, an error under a program's name, or a table whose columns
    [text/tabwriter] aligns. *)
Inductive message :=
| Line (s : string)
| Failure (prefix : string) (e : error)
| TableOf (lines : list (list string)).

Record Shell (K : Type) := {
  sh_Machine : Machine;
  sh_Agent : K;
  sh_Out : list (stream * message)          (* the last one first *)
}.
Arguments sh_Machine {K} _.
Arguments sh_Agent {K} _.
Arguments sh_Out {K} _.

Section shell.
Context {K : Type}.
Definition with_machine (m : Machine) (s : Shell K) : Shell K :=
  {| sh_Machine := m; sh_Agent := sh_Agent s; sh_Out := sh_Out s |}.
Definition with_agent (k : K) (s : Shell K) : Shell K :=
  {| sh_Machine := sh_Machine s; sh_Agent := k; sh_Out := sh_Out s |}.

Definition CLI (A : Type) : Type := Shell K → result A * Shell K.
Definition sh_ret {A} (a : A) : CLI A := λ s, (Ok a, s).
Definition sh_fail {A} (e : error) : CLI A := λ s, (Err e, s).
Definition sh_lift {A} (r : result A) : CLI A := λ s, (r, s).
Definition sh_bind {A B} (c : CLI A) (k : A → CLI B) : CLI B := λ s,
  match c s with (Ok a, s') => k a s' | (Err e, s') => (Err e, s') end.
Definition sh_try {A} (c : CLI A) : CLI (result A) := λ s, let '(r, s') := c s in (Ok r, s').
Definition sh_wrap {A} (ctx : string) (c : CLI A) : CLI A := λ s,
  match c s with (Err e, s') => (Err (ErrWrap ctx e), s') | r => r end.
Definition sh_io {A} (c : IO A) : CLI A := λ s,
  let '(r, m) := c (sh_Machine s) in (r, with_machine m s).
(** An operation of the ssh-agent. *)
Definition sh_agent {A} (op : K → result A * K) : CLI A := λ s,
  let '(r, k) := op (sh_Agent s) in (r, with_agent k s).
Definition print (to : stream) (m : message) : CLI unit := λ s,
  (Ok (), {| sh_Machine := sh_Machine s; sh_Agent := sh_Agent s; sh_Out := (to, m) :: sh_Out s |}).
Definition fail_with (prefix : string) (e : error) : CLI Z := λ s,
  (Ok 1%Z, {| sh_Machine := sh_Machine s; sh_Agent := sh_Agent s;
              sh_Out := (Stderr, Failure prefix e) :: sh_Out s |}).
(** [if err != nil { print it; return 1 }]. *)
Definition or_fail {A} (prefix : string) (c : CLI A) (k : A → CLI Z) : CLI Z := λ s,
  match c s with (Ok a, s') => k a s' | (Err e, s') => fail_with prefix e s' end.
(** The commands' common beginning and end. *)
Definition with_flags (flags : list (string * flagValue)) (args : list string) (k : FlagSet → CLI Z) : CLI Z :=
  match Parse (NewFlagSet flags) args with
  | FlagError message => sh_bind (print Stderr (Line message)) (λ _, sh_ret 2%Z)
  | Parsed fs _ => k fs
  end.
Definition say (to : stream) (code : Z) (text : string) : CLI Z := sh_bind (print to (Line (text +:+ newline))) (λ _, sh_ret code).
End shell.
Arguments CLI K A : clear implicits.

Declare Scope cli_scope.
Notation "'let^' x ':=' c 'in' k" := (sh_bind c (λ x, k))
  (at level 200, x name, c at level 100, k at level 200) : cli_scope.
Notation "'let^' ' p ':=' c 'in' k" := (sh_bind c (λ x, match x with p => k end))
  (at level 200, p strict pattern, c at level 100, k at level 200) : cli_scope.
Notation "c ';^' k" := (sh_bind c (λ _, k)) (at level 100, right associativity) : cli_scope.
Open Scope cli_scope.

(** ** The network

    [http_Do n call] is the n-th exchange with the outside: nothing when the server
    cannot be reached (or does not have the pinned key), else its answer. *)
Record HttpCall := {
  call_Method : string; call_URL : string; call_Pin : option string;
  call_Token : string; call_Body : option json
}.
Class Network := { http_Do : N → HttpCall → option HTTPAnswer }.
(** What else a program finds on the user's machine. *)
Class Desktop := {
  Getenv : string → string;                 (* os.Getenv: empty when unset *)
  rfc3339_local : Z → string;               (* Time.Format(time.RFC3339) *)
  ssh_path : option string;                 (* exec.LookPath("ssh") *)
  build_version : string; build_commit : string; build_date : string   (* set by the linker *)
}.
(** [version.String]. *)
Definition version_String `{Desktop} : string :=
  "guided-ssh " +:+ build_version +:+ " (commit " +:+ build_commit +:+ ", built " +:+ build_date +:+ ")".

(** ** What computations keep *)

(** [c] keeps the relation between the shells before and after it. *)
Class Stays {K A} (R : relation (Shell K)) (c : CLI K A) : Prop := stays s : R s (c s).2.

Section stays.
Context {K : Type} (R : relation (Shell K)) `{!PreOrder R}.
#[export] Instance stays_ret {A} (a : A) : Stays R (sh_ret a).
Proof. intros s. simpl. reflexivity. Qed.
#[export] Instance stays_fail {A} e : Stays R (sh_fail (A:=A) e).
Proof. intros s. simpl. reflexivity. Qed.
#[export] Instance stays_lift {A} (r : result A) : Stays R (sh_lift r).
Proof. intros s. simpl. reflexivity. Qed.
#[export] Instance stays_bind {A B} (c : CLI K A) (k : A → CLI K B) :
  Stays R c → (∀ a, Stays R (k a)) → Stays R (sh_bind c k).
Proof.
  intros Hc Hk s. unfold sh_bind. specialize (Hc s). destruct (c s) as [[a|e] s1]; simpl in *; [|done].
  etrans; [exact Hc|apply Hk].
Qed.
#[export] Instance stays_try {A} (c : CLI K A) : Stays R c → Stays R (sh_try c).
Proof. intros Hc s. unfold sh_try. specialize (Hc s). by destruct (c s). Qed.
#[export] Instance stays_wrap {A} ctx (c : CLI K A) : Stays R c → Stays R (sh_wrap ctx c).
Proof. intros Hc s. unfold sh_wrap. specialize (Hc s). by destruct (c s) as [[]]. Qed.
Lemma stays_or_fail {A} prefix (c : CLI K A) k :
  Stays R c → (∀ e, Stays R (fail_with prefix e)) → (∀ a, Stays R (k a)) → Stays R (or_fail prefix c k).
Proof.
  intros Hc Hf Hk s. unfold or_fail. specialize (Hc s). destruct (c s) as [[a|e] s1]; simpl in *.
  - etrans; [exact Hc|apply Hk].
  - etrans; [exact Hc|apply Hf].
Qed.
End stays.

(** Follow the binds of a command and split its cases. *)
Ltac stay :=
  intros; lazymatch goal with
  | |- Stays _ (match ?x with _ => _ end) => destruct x; stay
  | |- Stays _ (let _ := _ in _) => cbv zeta; stay
  | |- Stays _ (sh_bind _ _) => apply stays_bind; [apply _|stay..]
  | |- Stays _ (or_fail _ _ _) => apply stays_or_fail; [apply _|stay..]
  | |- Stays _ (sh_wrap _ _) => apply stays_wrap; stay
  | |- Stays _ (sh_try _) => apply stays_try; stay
  | |- _ => try solve [apply _]
  end.

Lemma sh_bind_Ok {K A B} (c : CLI K A) (k : A → CLI K B) s b s' :
  sh_bind c k s = (Ok b, s') → ∃ a s1, c s = (Ok a, s1) ∧ k a s1 = (Ok b, s').
Proof. unfold sh_bind. destruct (c s) as [[a|e] s1]; [eauto|done]. Qed.
Lemma sh_wrap_Ok {K A} ctx (c : CLI K A) s a s' : sh_wrap ctx c s = (Ok a, s') → c s = (Ok a, s').
Proof. unfold sh_wrap. by destruct (c s) as [[]]. Qed.
Lemma or_fail_zero {K A} prefix (c : CLI K A) k s s' :
  or_fail prefix c k s = (Ok 0%Z, s') → ∃ a s1, c s = (Ok a, s1) ∧ k a s1 = (Ok 0%Z, s').
Proof. unfold or_fail, fail_with. destruct (c s) as [[a|e] s1]; [eauto|done]. Qed.

(** No file was written. *)
Definition same_disk {K} : relation (Shell K) := λ s s',
  mc_Files (sh_Machine s') = mc_Files (sh_Machine s) ∧ mc_Dirs (sh_Machine s') = mc_Dirs (sh_Machine s).
#[export] Instance same_disk_preorder {K} : PreOrder (@same_disk K).
Proof. split; [done|]. intros x y z [] []. split; congruence. Qed.

Section disk.
Context {K : Type}.
#[export] Instance print_disk to m : Stays same_disk (@print K to m).
Proof. by intros s. Qed.
#[export] Instance fail_with_disk p e : Stays same_disk (@fail_with K p e).
Proof. by intros s. Qed.
#[export] Instance agent_disk {A} (op : K → result A * K) : Stays same_disk (sh_agent op).
Proof. intros s. unfold sh_agent. by destruct (op _). Qed.
#[export] Instance now_disk : Stays (@same_disk K) (sh_io io_Now).
Proof. intros s. unfold sh_io, io_Now. by destruct (mc_Ticks _). Qed.
#[export] Instance random_disk : Stays (@same_disk K) (sh_io io_Random).
Proof. by intros s. Qed.
#[export] Instance call_disk {A} (f : N → result A) : Stays (@same_disk K) (sh_io (io_call f)).
Proof. by intros s. Qed.
#[export] Instance read_disk path : Stays (@same_disk K) (sh_io (ReadFile path)).
Proof.
  intros s. unfold sh_io, ReadFile, next_fault, io_bind, io_gets. destruct (mc_Faults _) as [|f fs]; simpl;
    [|destruct f; simpl; [|done..]]; by destruct (mc_Files _ !! path).
Qed.
End disk.

Lemma stays_with_flags {K} (R : relation (Shell K)) `{!PreOrder R} flags args k :
  (∀ m, Stays R (print Stderr m)) → (∀ fs, Stays R (k fs)) → Stays R (with_flags flags args k).
Proof. intros. unfold with_flags. stay. Qed.

(** ** Exit codes *)

(** A computation that does not fail, with a result in [P]. *)
Definition Gives {K A} (P : A → Prop) (c : CLI K A) : Prop := ∀ s, ∃ a, (c s).1 = Ok a ∧ P a.
Definition exit_01 (z : Z) : Prop := z = 0%Z ∨ z = 1%Z.
Lemma gives_ret {K A} (P : A → Prop) (a : A) : P a → Gives P (@sh_ret K A a).
Proof. intros Ha s. by exists a. Qed.
Lemma gives_bind {K A B} (P : B → Prop) (c : CLI K A) k :
  Gives (λ _, True) c → (∀ a, Gives P (k a)) → Gives P (sh_bind c k).
Proof.
  intros Hc Hk s. unfold sh_bind. destruct (Hc s) as (a & Ha & _). destruct (c s) as [r s1]. simpl in Ha.
  subst r. apply Hk.
Qed.
Lemma gives_try {K A} (c : CLI K A) : Gives (λ _, True) (sh_try c).
Proof. intros s. unfold sh_try. destruct (c s) as [r s1]. by exists r. Qed.
Lemma gives_print {K} to m : Gives (λ _, True) (@print K to m).
Proof. intros s. by exists (). Qed.
Lemma gives_now {K} : Gives (λ _, True) (@sh_io K _ io_Now).
Proof. intros s. unfold sh_io, io_Now. destruct (mc_Ticks _); by eexists. Qed.
Lemma gives_or_fail {K A} p (c : CLI K A) k : (∀ a, Gives exit_01 (k a)) → Gives exit_01 (or_fail p c k).
Proof.
  intros Hk s. unfold or_fail. destruct (c s) as [[a|e] s1]; [apply Hk|].
  exists 1%Z. split; [done|by right].
Qed.
Lemma gives_fail_with {K} p e : Gives exit_01 (@fail_with K p e).
Proof. intros s. exists 1%Z. split; [done|by right]. Qed.
Lemma gives_say {K} to code text : exit_01 code → Gives exit_01 (@say K to code text).
Proof. intros Hc s. by exists code. Qed.
Lemma exit_ok : exit_01 0.
Proof. by left. Qed.
Lemma exit_error : exit_01 1.
Proof. by right. Qed.
Lemma exit_if (b : bool) : exit_01 (if b then 0 else 1)%Z.
Proof. destruct b; [apply exit_ok|apply exit_error]. Qed.
Create HintDb gives.
#[export] Hint Resolve gives_try gives_print gives_now gives_fail_with gives_say gives_ret exit_ok exit_error exit_if I : gives.

Ltac gives :=
  intros; lazymatch goal with
  | |- Gives _ (match ?x with _ => _ end) => destruct x; gives
  | |- Gives _ (let _ := _ in _) => cbv zeta; gives
  | |- Gives _ (sh_bind _ _) => apply gives_bind; gives
  | |- Gives _ (or_fail _ _ _) => apply gives_or_fail; gives
  | |- _ => eauto with gives
  end.

(** A usage error: the flags do not parse, and only a message is printed. *)
Lemma with_flags_run {K} flags args (k : FlagSet → CLI K Z) :
  (∃ message, Parse (NewFlagSet flags) args = FlagError message ∧
     with_flags flags args k = (print Stderr (Line message) ;^ sh_ret 2%Z)) ∨
  ∃ fs rest, Parse (NewFlagSet flags) args = Parsed fs rest ∧ with_flags flags args k = k fs.
Proof. unfold with_flags. destruct (Parse _ args); eauto. Qed.

Lemma with_flags_zero {K} flags args (k : FlagSet → CLI K Z) s s' :
  with_flags flags args k s = (Ok 0%Z, s') →
  ∃ fs rest, Parse (NewFlagSet flags) args = Parsed fs rest ∧ k fs s = (Ok 0%Z, s').
Proof. unfold with_flags. destruct (Parse _ args); [eauto|done]. Qed.

(** Code 2, and nothing happened but a message; or code 0 or 1. *)
Definition exits {K} (c : CLI K Z) : Prop := ∀ s,
  (c s).1 = Ok 2%Z ∧ sh_Machine (c s).2 = sh_Machine s ∧ sh_Agent (c s).2 = sh_Agent s ∨
  ∃ code, (c s).1 = Ok code ∧ exit_01 code.
Lemma exits_gives {K} (c : CLI K Z) : Gives exit_01 c → exits c.
Proof. intros Hc s. right. apply Hc. Qed.
Lemma exits_flags {K} flags args (k : FlagSet → CLI K Z) : (∀ fs, exits (k fs)) → exits (with_flags flags args k).
Proof.
  intros Hk. destruct (with_flags_run flags args k) as [(m & _ & ->)|(fs & rest & _ & ->)]; [|apply Hk].
  intros s. by left.
Qed.
