(* ===== verification/Flow.v ===== *)
(** * Login flows of the clients (internal/auth/flow.go)

    The OIDC flows that end in an ID token: authorization code with PKCE and a callback
    listener on the loopback interface, the device flow, and client credentials. The
    protocol itself is golang.org/x/oauth2 and go-oidc. *)
From S2P Require Export Shell GoUrl.

Local Open Scope string_scope.
Local Open Scope list_scope.

Definition ErrNoIDToken : error := ErrOther "auth: token response contains no id_token".

Record FlowConfig := { flow_IssuerURL : string; flow_ClientID : string; flow_Scopes : list string }.
Record Endpoint := { ep_AuthURL : string; ep_TokenURL : string; ep_DeviceAuthURL : string }.
Record Flow := { flow_cfg : FlowConfig; flow_endpoint : Endpoint }.

(** [oauth2.Config] and [clientcredentials.Config]. *)
Record OAuthConfig := {
  oc_ClientID : string; oc_ClientSecret : string; oc_Endpoint : Endpoint;
  oc_RedirectURL : string; oc_Scopes : list string
}.
Record DeviceAuthResponse := {
  dev_UserCode : string; dev_VerificationURI : string; dev_VerificationURIComplete : string;
  dev_DeviceCode : string
}.
(** The members of a token response. *)
Definition Token : Type := gmap string json.

(** A request that reaches the callback listener: its path and its query. *)
Record CallbackRequest := { cb_Path : string; cb_Query : gmap string string }.

Class OAuthClient := {
  (** [oidc.NewProvider]: the endpoint and the discovery document. *)
  oidc_NewProvider : N → string → result (Endpoint * json);
  new_verifier : N → string;
  random_bytes : N → string;                          (* 32 bytes of crypto/rand *)
  auth_code_url : OAuthConfig → string → string → string;   (* state, PKCE verifier *)
  exchange_code : N → OAuthConfig → string → string → result Token;
  device_auth : N → OAuthConfig → result DeviceAuthResponse;
  device_token : N → OAuthConfig → DeviceAuthResponse → result Token;
  client_token : N → OAuthConfig → result Token;
  (** The user's side: the address the listener gets, whether a browser starts, and
      the requests that reach the listener until the context ends. *)
  listen_local : N → result string;
  open_browser : N → string → result unit;
  callbacks : N → string → list CallbackRequest
}.

Section flow.
Context `{OAuthClient} {K : Type}.

Definition groupsScope := "groups".
(** [provider.Claims(&discovery)]. *)
Definition scopes_supported (claims : json) : option (list string) :=
  m ← struct_members claims; dec_field dec_strings "scopes_supported" [] m.
Definition defaultScopes (claims : json) : list string :=
  ["openid"; "profile"; "email"] ++
  match scopes_supported claims with
  | None | Some [] => [groupsScope]
  | Some l => if bool_decide (groupsScope ∈ l) then [groupsScope] else []
  end.

(** An exchange with the outside. *)
Definition outside {A} (f : N → result A) : CLI K A := sh_io (io_call f).

Definition NewFlow (cfg : FlowConfig) : CLI K Flow :=
  let^ '(endpoint, claims) := sh_wrap ("auth: oidc discovery for " +:+ flow_IssuerURL cfg)
                                (outside (λ n, oidc_NewProvider n (flow_IssuerURL cfg))) in
  sh_ret {| flow_cfg := {| flow_IssuerURL := flow_IssuerURL cfg; flow_ClientID := flow_ClientID cfg;
                           flow_Scopes := match flow_Scopes cfg with
                                          | [] => defaultScopes claims
                                          | scopes => scopes
                                          end |};
            flow_endpoint := endpoint |}.

Definition idTokenFrom (token : Token) : result string :=
  match token !! "id_token" with
  | Some (JStr raw) => if bool_decide (raw = "") then Err ErrNoIDToken else Ok raw
  | _ => Err ErrNoIDToken
  end.

(** ** The callback listener *)
Definition query_get (r : CallbackRequest) (name : string) : string := default "" (cb_Query r !! name).
(** The outcome of a callback: its code, or why the login failed. *)
Definition callback_outcome (state : string) (r : CallbackRequest) : result string :=
  let code := query_get r "code" in
  if negb (bool_decide (query_get r "state" = state))
  then Err (ErrOther "auth: state mismatch in callback")
  else if negb (bool_decide (query_get r "error" = ""))
  then Err (ErrOther ("auth: idp error: " +:+ query_get r "error" +:+ " (" +:+
                      query_get r "error_description" +:+ ")"))
  else if bool_decide (code = "") then Err (ErrOther "auth: callback without code")
  else Ok code.
(** The handler: the status and text of its answer, and the outcome it sends. *)
Definition callback_handler (state : string) (r : CallbackRequest)
    : (Z * string) * option (result string) :=
  if negb (bool_decide (cb_Path r = "/callback")) then ((404%Z, "404 page not found"), None)
  else
    let result := callback_outcome state r in
    ((if is_ok result then (200%Z, "Login successful — you can close this window.")
      else (400%Z, "Login failed — see terminal for details.")), Some result).
(** The channel holds one outcome: the first one counts, the others are dropped. *)
Definition first_outcome (state : string) (rs : list CallbackRequest) : option (result string) :=
  head (omap (λ r, (callback_handler state r).2) rs).

Definition loopback_config (f : Flow) (addr : string) : OAuthConfig := {|
  oc_ClientID := flow_ClientID (flow_cfg f); oc_ClientSecret := ""; oc_Endpoint := flow_endpoint f;
  oc_RedirectURL := "http://" +:+ addr +:+ "/callback"; oc_Scopes := flow_Scopes (flow_cfg f) |}.
Definition randomToken : CLI K string :=
  let^ n := sh_io io_Random in sh_ret (EncodeToString (random_bytes n)).

(** [openURL] is the caller's; the requests come in while the context lasts. *)
Definition AuthCodePKCE (f : Flow) (openURL : string → CLI K unit) : CLI K string :=
  let^ addr := sh_wrap "auth: starting callback listener" (outside listen_local) in
  let oauthCfg := loopback_config f addr in
  let^ state := randomToken in
  let^ v := sh_io io_Random in
  let verifier := new_verifier v in
  let authURL := auth_code_url oauthCfg state verifier in
  sh_wrap "auth: opening browser" (openURL authURL) ;^
  let^ arrived := outside (λ n, Ok (callbacks n authURL)) in
  match first_outcome state arrived with
  | None => sh_fail (ErrOther "context canceled")
  | Some (Err e) => sh_fail e
  | Some (Ok code) =>
      let^ token := sh_wrap "auth: code exchange" (outside (λ n, exchange_code n oauthCfg code verifier)) in
      sh_lift (idTokenFrom token)
  end.

Definition device_config (f : Flow) (secret : string) : OAuthConfig := {|
  oc_ClientID := flow_ClientID (flow_cfg f); oc_ClientSecret := secret; oc_Endpoint := flow_endpoint f;
  oc_RedirectURL := ""; oc_Scopes := flow_Scopes (flow_cfg f) |}.
Definition DeviceFlow (f : Flow) (prompt : string → string → CLI K unit) : CLI K string :=
  let oauthCfg := device_config f "" in
  let^ response := sh_wrap "auth: device authorization" (outside (λ n, device_auth n oauthCfg)) in
  let uri := if bool_decide (dev_VerificationURIComplete response = "")
             then dev_VerificationURI response else dev_VerificationURIComplete response in
  prompt uri (dev_UserCode response) ;^
  let^ token := sh_wrap "auth: device token" (outside (λ n, device_token n oauthCfg response)) in
  sh_lift (idTokenFrom token).
Definition ClientCredentials (f : Flow) (clientSecret : string) : CLI K string :=
  let^ token := sh_wrap "auth: client-credentials token"
                  (outside (λ n, client_token n (device_config f clientSecret))) in
  sh_lift (idTokenFrom token).

(** ** Lemmas *)
Lemma idTokenFrom_Ok token raw : idTokenFrom token = Ok raw ↔ token !! "id_token" = Some (JStr raw) ∧ raw ≠ "".
Proof.
  unfold idTokenFrom. destruct (token !! "id_token") as [[]|]; try (split; [done|by intros [? _]]).
  case_bool_decide; split; try done; [intros [[= <-] ?]; done|by intros [= <-]|by intros [[= <-] ?]].
Qed.

(** The outcome that counts is that of the first request on the callback path. *)
Lemma first_outcome_Some state rs o :
  first_outcome state rs = Some o ↔
  ∃ before r after, rs = before ++ r :: after ∧ Forall (λ r, cb_Path r ≠ "/callback") before ∧
    cb_Path r = "/callback" ∧ o = callback_outcome state r.
Proof.
  unfold first_outcome. induction rs as [|x rs IH]; simpl.
  { split; [done|]. by intros ([] & ? & ? & [=] & _). }
  unfold callback_handler at 1. destruct (decide (cb_Path x = "/callback")) as [Hx|Hx].
  - rewrite bool_decide_true by done. simpl. split.
    + intros [= <-]. by exists [], x, rs.
    + intros ([|y before] & r & after & [= -> ->] & Hb & Hr & ->); [done|].
      by apply Forall_cons in Hb as [? _].
  - rewrite bool_decide_false by done. simpl. rewrite IH. split.
    + intros (before & r & after & -> & Hb & Hr & ->). exists (x :: before), r, after.
      split; [done|]. split; [by constructor|done].
    + intros ([|y before] & r & after & [= -> ->] & Hb & Hr & ->); [done|].
      apply Forall_cons in Hb as [? Hb]. by exists before, r, after.
Qed.
Lemma callback_outcome_Ok state r code :
  callback_outcome state r = Ok code ↔
  query_get r "state" = state ∧ query_get r "error" = "" ∧ query_get r "code" = code ∧ code ≠ "".
Proof.
  unfold callback_outcome. repeat case_bool_decide; simpl; split; try done; try naive_solver congruence.
Qed.

(** A shell after [m]. *)
Lemma outside_run {A} (f : N → result A) s :
  outside f s = (f (mc_Calls (sh_Machine s)),
    with_machine (with_counts (mc_Calls (sh_Machine s) + 1) (mc_Random (sh_Machine s))
      (mc_Commands (sh_Machine s)) (sh_Machine s)) s).
Proof. reflexivity. Qed.

(** C24: A browser login gets the ID token of its own flow and of no other: the first
    request on the callback path decides, it must carry the random state of this login
    and a code, and the code is redeemed with the verifier and the redirect URL the
    browser was sent to the IdP with. A request with another state, an error or no code
    fails the login, whatever follows. *)
Theorem browser_login_is_its_own f openURL s raw s' :
  AuthCodePKCE f openURL s = (Ok raw, s') →
  let n := mc_Random (sh_Machine s) in
  let state := EncodeToString (random_bytes n) in
  ∃ addr s1 before r after call token,
    let cfg := loopback_config f addr in
    let verifier := new_verifier (n + 1) in
    let url := auth_code_url cfg state verifier in
    openURL url s1 = (Ok (), (openURL url s1).2) ∧
    callbacks (mc_Calls (sh_Machine (openURL url s1).2)) url = before ++ r :: after ∧
    Forall (λ r, cb_Path r ≠ "/callback") before ∧ cb_Path r = "/callback" ∧
    query_get r "state" = state ∧ query_get r "error" = "" ∧ query_get r "code" ≠ "" ∧
    exchange_code call cfg (query_get r "code") verifier = Ok token ∧
    token !! "id_token" = Some (JStr raw) ∧ raw ≠ "".
Proof.
  intros Hrun. unfold AuthCodePKCE in Hrun.
  apply sh_bind_Ok in Hrun as (addr & s1 & Haddr & Hrun). apply sh_wrap_Ok in Haddr. rewrite outside_run in Haddr.
  simplify_eq. unfold randomToken in Hrun.
  apply sh_bind_Ok in Hrun as (state & s2 & Hst & Hrun). unfold sh_bind, sh_io, io_Random, sh_ret in Hst.
  simpl in Hst. simplify_eq. apply sh_bind_Ok in Hrun as (v & s3 & Hv & Hrun).
  unfold sh_io, io_Random in Hv. simpl in Hv. simplify_eq.
  apply sh_bind_Ok in Hrun as ([] & s4 & Hopen & Hrun). apply sh_wrap_Ok in Hopen.
  apply sh_bind_Ok in Hrun as (arrived & s5 & Harr & Hrun). rewrite outside_run in Harr. simplify_eq.
  destruct (first_outcome _ _) as [[code|e]|] eqn:Ho; [|done..].
  apply first_outcome_Some in Ho as (before & r & after & Hcb & Hb & Hr & Hcode).
  symmetry in Hcode. apply callback_outcome_Ok in Hcode as (Hs & He & <- & Hc).
  apply sh_bind_Ok in Hrun as (token & s6 & Hex & Hrun). apply sh_wrap_Ok in Hex. rewrite outside_run in Hex.
  unfold sh_lift in Hrun. simplify_eq.
  match goal with Hid : idTokenFrom _ = _ |- _ => apply idTokenFrom_Ok in Hid as [Htok Hraw] end.
  eexists addr, _, before, r, after, _, token. cbv zeta. rewrite Hopen. simpl. split_and!; done.
Qed.
End flow.

(** ** A concrete login *)
Definition toy_flow_for (id_token : string) : OAuthClient := {|
  oidc_NewProvider _ issuer :=
    Ok ({| ep_AuthURL := issuer +:+ "/auth"; ep_TokenURL := issuer +:+ "/token"; ep_DeviceAuthURL := "" |}, JObj []);
  new_verifier _ := "verifier";
  random_bytes _ := "random bytes";
  auth_code_url cfg state _ := ep_AuthURL (oc_Endpoint cfg) +:+ "?state=" +:+ state;
  exchange_code _ _ code _ :=
    if bool_decide (code = "good") then Ok {[ "id_token" := JStr id_token ]} else Err (ErrOther "invalid_grant");
  device_auth _ _ := Err (ErrOther "no device flow");
  device_token _ _ _ := Err (ErrOther "no device flow");
  client_token _ _ := Ok {[ "id_token" := JStr "service-token" ]};
  listen_local _ := Ok "127.0.0.1:4711";
  open_browser _ _ := Ok ();
  callbacks _ _ := [
    {| cb_Path := "/favicon.ico"; cb_Query := ∅ |};
    {| cb_Path := "/callback";
       cb_Query := {[ "state" := EncodeToString "random bytes"; "code" := "good" ]} |}] |}.
Definition toy_flow : OAuthClient := toy_flow_for "id-token".
Definition toy_shell {K} (k : K) (files : list (string * string)) : Shell K := {|
  sh_Machine := {| mc_Files := list_to_map files; mc_Dirs := ∅; mc_Now := (1000 * Hour)%Z; mc_Ticks := [];
                   mc_Faults := []; mc_Calls := 0; mc_Random := 0; mc_Commands := [] |};
  sh_Agent := k; sh_Out := [] |}.
Definition toy_config : FlowConfig := {| flow_IssuerURL := "https://idp"; flow_ClientID := "gssh-cli"; flow_Scopes := [] |}.
Definition toy_endpoint : Flow := {|
  flow_cfg := toy_config;
  flow_endpoint := {| ep_AuthURL := "https://idp/auth"; ep_TokenURL := "https://idp/token"; ep_DeviceAuthURL := "" |} |}.
Definition toy_login (s : Shell ()) : result string * Shell () :=
  AuthCodePKCE (H := toy_flow) toy_endpoint (λ _, sh_ret ()) s.

Example toy_login_runs : (toy_login (toy_shell () [])).1 = Ok "id-token".
Proof. vm_compute. reflexivity. Qed.
Example default_scopes :
  defaultScopes (JObj []) = ["openid"; "profile"; "email"; "groups"] ∧
  defaultScopes (JObj [("scopes_supported", JStrs ["openid"; "email"])]) = ["openid"; "profile"; "email"].
Proof. vm_compute. split; reflexivity. Qed.
Lemma browser_login_is_its_own_witness :
  ∃ r addr call token, cb_Path r = "/callback" ∧ query_get r "state" = EncodeToString "random bytes" ∧
    exchange_code (OAuthClient := toy_flow) call (loopback_config toy_endpoint addr) (query_get r "code") "verifier"
      = Ok token ∧ token !! "id_token" = Some (JStr "id-token").
Proof.
  destruct (browser_login_is_its_own (H := toy_flow) toy_endpoint (λ _, sh_ret ()) (toy_shell () []) "id-token"
    (toy_login (toy_shell () [])).2 ltac:(vm_compute; reflexivity))
    as (addr & _ & _ & r & _ & call & token & _ & _ & _ & Hr & Hs & _ & _ & Hex & Htok & _).
  exists r, addr, call, token. split; [exact Hr|]. split; [exact Hs|]. split; [exact Hex|exact Htok].
Defined.
