(* ===== verification/UserCLI.v ===== *)
(** * The user's command line (internal/cli: cli.go, config.go, client.go, agent.go,
      login.go, cilogin.go, ssh.go)

    [gssh] exchanges an ID token for a certificate and puts key and certificate into
    the user's ssh-agent, and nowhere else. The agent's protocol and the key formats
    are golang.org/x/crypto/ssh: the class [SSHAgent] states what they do. *)
From stdpp Require Import pretty.
From S2P Require Export Flow Crypto.
From S2P Require Pins.

Local Open Scope string_scope.
Local Open Scope list_scope.

(** ** The ssh-agent *)
Inductive sshKey := PlainKey (k : PublicKey) | CertKey (c : SSHCertificate).
Record AgentKey := { ak_Comment : string; ak_Blob : string }.
Record AddedKey := {
  add_PrivateKey : string; add_Certificate : SSHCertificate; add_Comment : string; add_LifetimeSecs : Z
}.

Class SSHAgent := {
  agent_state : Type;
  agent_keys : agent_state → list AgentKey;             (* what it holds *)
  dial_agent : string → result unit;                    (* net.Dial("unix", sock) *)
  agent_List : agent_state → result (list AgentKey) * agent_state;
  agent_Remove : AgentKey → agent_state → result unit * agent_state;
  agent_Add : AddedKey → agent_state → result unit * agent_state;
  (** [ssh.ParsePublicKey] and [ssh.ParseAuthorizedKey], and the texts they read. *)
  ParsePublicKey : string → option sshKey;
  ParseAuthorizedKey : string → option sshKey;
  cert_blob : SSHCertificate → string;                  (* Certificate.Marshal *)
  cert_line : SSHCertificate → string;                  (* ssh.MarshalAuthorizedKey, without its newline *)
  parse_cert_blob c : ParsePublicKey (cert_blob c) = Some (CertKey c);
  parse_cert_line c : ParseAuthorizedKey (cert_line c) = Some (CertKey c);
  (** A blob is held once; a failing operation changes nothing. *)
  agent_unique a : NoDup (ak_Blob <$> agent_keys a);
  List_law a : agent_keys (agent_List a).2 = agent_keys a ∧
    (∀ ks, (agent_List a).1 = Ok ks → ks = agent_keys a);
  Remove_law k a : agent_keys (agent_Remove k a).2 =
    match (agent_Remove k a).1 with
    | Ok _ => List.filter (λ x, negb (bool_decide (ak_Blob x = ak_Blob k))) (agent_keys a)
    | Err _ => agent_keys a
    end;
  Add_law k a : agent_keys (agent_Add k a).2 =
    match (agent_Add k a).1 with
    | Ok _ => List.filter (λ x, negb (bool_decide (ak_Blob x = cert_blob (add_Certificate k)))) (agent_keys a)
              ++ [{| ak_Comment := add_Comment k; ak_Blob := cert_blob (add_Certificate k) |}]
    | Err _ => agent_keys a
    end
}.

(** ** Configuration (config.go) *)
Record Config := {
  cfg_APIURL : string; cfg_Issuer : string; cfg_ClientID : string; cfg_Scopes : list string;
  cfg_PinSHA256 : string; cfg_Validity : Z
}.
(** gopkg.in/yaml.v3, given the decoder of a duration's text. *)
Class CLIYAML := { yaml_config : (string → option Z) → string → option Config }.

Definition envConfig := "GSSH_CONFIG".
Definition envCIToken := "GSSH_CI_TOKEN".
Definition envAPIURL := "GSSH_API_URL".
Definition envPin := "GSSH_PIN_SHA256".

Section config.
Context `{Desktop} `{CLIYAML} {K : Type}.

(** [os.UserHomeDir] is HOME, an error when it is empty. *)
Definition DefaultConfigPath : string :=
  let base := if bool_decide (Getenv "XDG_CONFIG_HOME" = "")
              then if bool_decide (Getenv "HOME" = "") then "" else Path_Join (Getenv "HOME") ".config"
              else Getenv "XDG_CONFIG_HOME" in
  if bool_decide (base = "") then "" else Path_Join (Path_Join base "guided-ssh") "config.yaml".
(** The flag before GSSH_CONFIG before the default path. *)
Definition ResolveConfigPath (flagValue : string) : string :=
  if negb (bool_decide (flagValue = "")) then flagValue
  else if negb (bool_decide (Getenv envConfig = "")) then Getenv envConfig
  else DefaultConfigPath.

(** [Config.Pin]: no pin for an empty text. *)
Definition Pin (c : Config) : result (option string) :=
  if bool_decide (cfg_PinSHA256 c = "") then Ok None
  else match Pins.DecodePin (cfg_PinSHA256 c) with
       | Ok pin => Ok (Some pin)
       | Err e => Err (ErrWrap "pin_sha256" e)
       end.
Definition missing_fields (c : Config) : list string :=
  fst <$> List.filter (λ '(_, value), bool_decide (value = ""))
    [("api_url", cfg_APIURL c); ("issuer", cfg_Issuer c); ("client_id", cfg_ClientID c)].
Definition LoadConfig (path : string) : CLI K Config :=
  let^ raw := sh_wrap "reading configuration" (sh_io (ReadFile path)) in
  match yaml_config ParseDuration raw with
  | None => sh_fail (ErrOther ("configuration " +:+ path))
  | Some cfg =>
      match missing_fields cfg with
      | (_ :: _) as missing => sh_fail (ErrOther
          ("configuration " +:+ path +:+ ": required fields missing: " +:+ Join missing ", "))
      | [] =>
          match Pin cfg with
          | Err e => sh_fail (ErrWrap ("configuration " +:+ path) e)
          | Ok _ => sh_ret cfg
          end
      end
  end.
Definition configHint (path : string) : string :=
  "create configuration file: " +:+ path +:+ newline +:+ newline +:+
  "api_url: https://gssh.example.com" +:+ newline +:+
  "issuer: https://idp.example.com/realms/example" +:+ newline +:+
  "client_id: gssh-cli" +:+ newline +:+
  "# optional:" +:+ newline +:+
  "# scopes: [openid, profile, email, groups]   # default; groups drives grant matching" +:+ newline +:+
  "# pin_sha256: <base64-encoded sha-256 of the server spki>" +:+ newline +:+
  "# validity: 8h" +:+ newline.
Definition loadConfigCmd (flagValue : string) : CLI K (option Config) :=
  let path := ResolveConfigPath flagValue in
  if bool_decide (path = "") then
    print Stderr (Line "gssh: could not determine a configuration path (HOME not set?)") ;^ sh_ret None
  else
    let^ loaded := sh_try (LoadConfig path) in
    match loaded with
    | Ok cfg => sh_ret (Some cfg)
    | Err e =>
        print Stderr (Failure "gssh" e) ;^
        (if errors_Is e ErrNotExist then print Stderr (Line (configHint path)) else sh_ret ()) ;^
        sh_ret None
    end.
End config.

(** ** The API client (client.go) *)
Record apiClient := { ac_baseURL : string; ac_pin : option string }.
Definition newAPIClient (cfg : Config) : result apiClient :=
  match Pin cfg with
  | Err e => Err e
  | Ok pin => Ok {| ac_baseURL := TrimRight (cfg_APIURL cfg) "/"; ac_pin := pin |}
  end.
(** What is read of an error's body. *)
Definition error_text (a : HTTPAnswer) : string := TrimSpace (take_str 4096 (ha_Text a)).
Definition refused (what : string) (a : HTTPAnswer) : error :=
  ErrOther (what +:+ ": " +:+ pretty (ha_Status a) +:+ ": " +:+ error_text a).

Section client.
Context `{SSHAgent} `{Network} {K : Type}.

Definition sign_body (publicKey : string) (validity : Z) : json :=
  JObj ([("public_key", JStr publicKey)] ++
        if (to_seconds validity =? 0)%Z then [] else [("validity_seconds", JNum (to_seconds validity))]).
Definition sign_call (c : apiClient) (path token publicKey : string) (validity : Z) : HttpCall := {|
  call_Method := "POST"; call_URL := ac_baseURL c +:+ path; call_Pin := ac_pin c;
  call_Token := token; call_Body := Some (sign_body publicKey validity) |}.
Definition dec_certificate (j : json) : option string :=
  m ← struct_members j; dec_field dec_string "certificate" "" m.
Definition sign_answer (answer : option HTTPAnswer) : result SSHCertificate :=
  match answer with
  | None => Err (ErrOther "reaching sign endpoint")
  | Some a =>
      if negb (ha_Status a =? 200)%Z then Err (refused "sign-endpoint" a)
      else
        match ha_JSON a ≫= dec_certificate with
        | None => Err (ErrOther "decoding sign response")
        | Some text =>
            match ParseAuthorizedKey text with
            | None => Err (ErrOther "parsing certificate from response")
            | Some (PlainKey _) => Err (ErrOther "response does not contain an ssh certificate")
            | Some (CertKey cert) => Ok cert
            end
        end
  end.
Definition sign (c : apiClient) (path token publicKey : string) (validity : Z) : CLI K SSHCertificate :=
  sh_io (io_call (λ n, sign_answer (http_Do n (sign_call c path token publicKey validity)))).
Definition signUser (c : apiClient) := sign c "/v1/sign/user".
Definition signCI (c : apiClient) := sign c "/v1/sign/ci".
End client.

(** ** Certificates in the agent (agent.go) *)
Definition agentCommentPrefix := "guided-ssh".
Definition renewMargin : Z := (5 * Minute)%Z.
Definition maxCertUnix : Z := (2 ^ 40)%Z.
Definition MaxUint32 : Z := (2 ^ 32 - 1)%Z.
Definition certTime (sec : Z) : Z := (Z.min sec maxCertUnix * Second)%Z.
Definition own_key (k : AgentKey) : bool := HasPrefix (ak_Comment k) agentCommentPrefix.
Definition valid_at (now margin : Z) (cert : SSHCertificate) : bool :=
  negb (Before now (certTime (cert_ValidAfter cert))) &&
  Before (Add now margin) (certTime (cert_ValidBefore cert)).

Section agent.
Context `{SSHAgent} `{Desktop}.

Definition connectAgent : result unit :=
  if bool_decide (Getenv "SSH_AUTH_SOCK" = "")
  then Err (ErrOther "SSH_AUTH_SOCK not set — is an ssh-agent running?")
  else match dial_agent (Getenv "SSH_AUTH_SOCK") with
       | Ok _ => Ok ()
       | Err e => Err (ErrWrap "connecting to ssh-agent" e)
       end.
Definition certs_of (ks : list AgentKey) : list SSHCertificate :=
  omap (λ k, if own_key k
             then match ParsePublicKey (ak_Blob k) with Some (CertKey c) => Some c | _ => None end
             else None) ks.
Definition list_keys : CLI agent_state (list AgentKey) :=
  sh_wrap "listing agent entries" (sh_agent agent_List).
Definition gsshCerts : CLI agent_state (list SSHCertificate) :=
  let^ keys := list_keys in sh_ret (certs_of keys).
Definition certValid (cert : SSHCertificate) (margin : Z) : CLI agent_state bool :=
  let^ now := sh_io io_Now in sh_ret (valid_at now margin cert).
Fixpoint anyValidCert (certs : list SSHCertificate) (margin : Z) : CLI agent_state bool :=
  match certs with
  | [] => sh_ret false
  | cert :: certs =>
      let^ valid := certValid cert margin in
      if valid then sh_ret true else anyValidCert certs margin
  end.

(** The loop of [removeGsshKeys] over the listed keys. *)
Fixpoint remove_keys (keys : list AgentKey) (removed : Z) : CLI agent_state Z :=
  match keys with
  | [] => sh_ret removed
  | key :: keys =>
      if own_key key then
        sh_wrap "removing agent entry" (sh_agent (agent_Remove key)) ;^
        remove_keys keys (removed + 1)
      else remove_keys keys removed
  end.
Definition removeGsshKeys : CLI agent_state Z :=
  let^ keys := list_keys in remove_keys keys 0.
(** Until the certificate ends, rounded up, at most what the protocol can say. *)
Definition agent_lifetime (remaining : Z) : Z := Z.min (to_seconds remaining + 1) MaxUint32.
Definition loadIntoAgent (priv : string) (cert : SSHCertificate) : CLI agent_state unit :=
  let^ now := sh_io io_Now in
  let lifetime := Sub (certTime (cert_ValidBefore cert)) now in
  if (lifetime <=? 0)%Z then sh_fail (ErrOther "certificate has already expired")
  else
    removeGsshKeys ;^
    sh_agent (agent_Add {|
      add_PrivateKey := priv; add_Certificate := cert;
      add_Comment := agentCommentPrefix +:+ " " +:+ cert_KeyId cert;
      add_LifetimeSecs := agent_lifetime lifetime |}).
End agent.

(** ** Logins (login.go, cilogin.go) *)
Record loginOptions := { opt_device : bool; opt_validity : Z; opt_ifNeeded : bool }.
Record ciLoginOptions := { ci_apiURL : string; ci_tokenEnv : string; ci_pin : string; ci_validity : Z }.

Section tokens.
Context `{OAuthClient} {K : Type}.

(** The prompt of the device flow, and the browser of the other; a browser that does
    not start is reported, the URL is shown anyway. *)
Definition show_device (uri code : string) : CLI K unit :=
  print Stderr (Line ("open in browser: " +:+ uri +:+ newline +:+ "enter code: " +:+ code +:+ newline)).
Definition show_browser (url : string) : CLI K unit :=
  print Stderr (Line ("opening browser — if it doesn't open, visit this url manually:" +:+ newline +:+
                      url +:+ newline)) ;^
  let^ opened := sh_try (outside (λ n, open_browser n url)) in
  match opened with
  | Ok _ => sh_ret ()
  | Err e => print Stderr (Failure "opening browser failed" e)
  end.
Definition FetchIDToken (cfg : Config) (device : bool) : CLI K string :=
  let^ flow := NewFlow {| flow_IssuerURL := cfg_Issuer cfg; flow_ClientID := cfg_ClientID cfg;
                          flow_Scopes := cfg_Scopes cfg |} in
  if device then DeviceFlow flow show_device else AuthCodePKCE flow show_browser.
Definition FetchServiceToken (cfg : Config) (clientID clientSecret : string) : CLI K string :=
  let^ flow := NewFlow {| flow_IssuerURL := cfg_Issuer cfg;
                          flow_ClientID := if bool_decide (clientID = "") then cfg_ClientID cfg else clientID;
                          flow_Scopes := ["openid"] |} in
  ClientCredentials flow clientSecret.
End tokens.

Section login.
Context `{Crypto} `{SSHAgent} `{Desktop} `{OAuthClient} `{Network} `{CLIYAML}.
Notation CLI := (CLI agent_state).

(** The certificate's line of a login's report. *)
Definition report (prefix : string) (cert : SSHCertificate) : message :=
  Line (prefix +:+ cert_KeyId cert +:+ " — principals " +:+ Join (cert_ValidPrincipals cert) ", " +:+
        ", valid until " +:+ rfc3339_local (certTime (cert_ValidBefore cert)) +:+ newline).
(** The public key in authorized_keys form, and the private key. *)
Definition new_key_pair : CLI (string * string) :=
  let^ n := sh_io io_Random in
  sh_ret ((generate_key n).1 +:+ newline, (generate_key n).2).
(** What both logins do with their token: a certificate for the new key, into the agent. *)
Definition obtain (signer : apiClient → string → string → Z → CLI SSHCertificate) (cfg : Config)
    (keys : string * string) (token : string) (validity : Z) (prefix : string) : CLI unit :=
  let^ client := sh_lift (newAPIClient cfg) in
  let^ cert := signer client token keys.1 validity in
  loadIntoAgent keys.2 cert ;^
  print Stdout (report prefix cert).

Definition login_now (cfg : Config) (opts : loginOptions) : CLI unit :=
  let^ keys := new_key_pair in
  let^ idToken := FetchIDToken cfg (opt_device opts) in
  let validity := if (opt_validity opts =? 0)%Z then cfg_Validity cfg else opt_validity opts in
  obtain signUser cfg keys idToken validity "signed in: ".
Definition login (cfg : Config) (opts : loginOptions) : CLI unit :=
  sh_lift connectAgent ;^
  if opt_ifNeeded opts then
    let^ certs := gsshCerts in
    let^ valid := anyValidCert certs renewMargin in
    if valid then sh_ret () else login_now cfg opts
  else login_now cfg opts.

Definition ciLogin (opts : ciLoginOptions) : CLI unit :=
  if bool_decide (ci_apiURL opts = "") then sh_fail (ErrOther ("--api-url missing (or set " +:+ envAPIURL +:+ ")"))
  else
    let token := Getenv (ci_tokenEnv opts) in
    if bool_decide (token = "")
    then sh_fail (ErrOther ("job token missing: env variable " +:+ ci_tokenEnv opts +:+
                            " is empty — define id_tokens in the job (aud: guided-ssh)"))
    else
      sh_wrap "start it in the job first: eval $(ssh-agent -s)" (sh_lift connectAgent) ;^
      let^ keys := new_key_pair in
      obtain signCI {| cfg_APIURL := ci_apiURL opts; cfg_Issuer := ""; cfg_ClientID := ""; cfg_Scopes := [];
                       cfg_PinSHA256 := ci_pin opts; cfg_Validity := 0 |} keys token (ci_validity opts) "ci-login: ".

(** ** ssh (ssh.go)

    [syscall.Exec] replaces the process: the command is the last thing that happens. *)
Definition execSSH (argv : list string) : CLI unit :=
  match ssh_path with
  | None => sh_fail (ErrOther "ssh not found")
  | Some path => sh_io (λ m, (Ok (), with_counts (mc_Calls m) (mc_Random m) ((path :: "ssh" :: argv) :: mc_Commands m) m))
  end.
Definition runSSH (cfg : Config) (argv : list string) : CLI unit :=
  match argv with
  | [] => sh_fail (ErrOther "usage: gssh ssh <ssh-arguments…>")
  | _ =>
      login cfg {| opt_device := false; opt_validity := 0; opt_ifNeeded := true |} ;^
      execSSH argv
  end.

(** ** Commands (cli.go): exit code 0 ok, 1 error, 2 usage error *)
Definition login_flags : list (string * flagValue) := [
  ("config", FString ""); ("device", FBool false); ("validity", FDuration 0); ("if-needed", FBool false);
  ("api-url", FString ""); ("pin-sha256", FString "")].
(** The flags override the configuration for this run. *)
Definition override (cfg : Config) (apiURL pin : string) : Config := {|
  cfg_APIURL := if bool_decide (apiURL = "") then cfg_APIURL cfg else apiURL;
  cfg_Issuer := cfg_Issuer cfg; cfg_ClientID := cfg_ClientID cfg; cfg_Scopes := cfg_Scopes cfg;
  cfg_PinSHA256 := if bool_decide (pin = "") then cfg_PinSHA256 cfg else pin; cfg_Validity := cfg_Validity cfg |}.
Definition runLoginCmd (args : list string) : CLI Z :=
  with_flags login_flags args (λ fs,
    let pin := flag_string fs "pin-sha256" in
    let apiURL := flag_string fs "api-url" in
    match (if bool_decide (pin = "") then Ok "" else Pins.DecodePin pin) with
    | Err e => fail_with "gssh: --pin-sha256" e
    | Ok _ =>
        let^ loaded := loadConfigCmd (flag_string fs "config") in
        match loaded with
        | None => sh_ret 1%Z
        | Some cfg =>
            let^ r := sh_try (login (override cfg apiURL pin) {|
              opt_device := flag_bool fs "device"; opt_validity := flag_duration fs "validity";
              opt_ifNeeded := flag_bool fs "if-needed" |}) in
            match r with
            | Ok _ => sh_ret 0%Z
            | Err e =>
                print Stderr (Failure "gssh: login failed" e) ;^
                (if negb (bool_decide (apiURL = "")) && bool_decide (pin = "")
                 then print Stderr (Line ("hint: an --api-url without a matching dns name needs --pin-sha256 <pin> " +:+
                        "(webpki cannot verify an ip)" +:+ newline))
                 else sh_ret ()) ;^
                sh_ret 1%Z
            end
        end
    end).

Definition ci_login_flags : list (string * flagValue) := [
  ("api-url", FString (Getenv envAPIURL)); ("token-env", FString envCIToken);
  ("pin-sha256", FString (Getenv envPin)); ("validity", FDuration 0)].
Definition runCILoginCmd (args : list string) : CLI Z :=
  with_flags ci_login_flags args (λ fs,
    or_fail "gssh: ci-login failed"
      (ciLogin {| ci_apiURL := flag_string fs "api-url"; ci_tokenEnv := flag_string fs "token-env";
                  ci_pin := flag_string fs "pin-sha256"; ci_validity := flag_duration fs "validity" |})
      (λ _, sh_ret 0%Z)).

Definition runSSHCmd (args : list string) : CLI Z :=
  let^ loaded := loadConfigCmd "" in
  match loaded with
  | None => sh_ret 1%Z
  | Some cfg => or_fail "gssh" (runSSH cfg args) (λ _, sh_ret 0%Z)
  end.

(** The lines of [status], and whether a certificate is valid. *)
Fixpoint status_lines (certs : list SSHCertificate) (valid : bool) : CLI bool :=
  match certs with
  | [] => sh_ret valid
  | cert :: certs =>
      let^ ok := certValid cert 0 in
      let^ state := (if ok then
        let^ now := sh_io io_Now in
        sh_ret ("valid until " +:+ rfc3339_local (certTime (cert_ValidBefore cert)) +:+ " (" +:+
                Duration_String (Round (Sub (certTime (cert_ValidBefore cert)) now) Minute) +:+ " remaining)")
        else sh_ret "expired") in
      print Stdout (Line ("certificate " +:+ cert_KeyId cert +:+ " — principals " +:+
                          Join (cert_ValidPrincipals cert) ", " +:+ " — " +:+ state +:+ newline)) ;^
      status_lines certs (valid || ok)
  end.
Definition runStatusCmd (args : list string) : CLI Z :=
  with_flags [("config", FString "")] args (λ fs,
    let path := ResolveConfigPath (flag_string fs "config") in
    let^ loaded := sh_try (LoadConfig path) in
    print Stdout (match loaded with
                  | Ok cfg => Line ("configuration: " +:+ path +:+ " (api " +:+ cfg_APIURL cfg +:+ ", issuer " +:+
                                    cfg_Issuer cfg +:+ ")" +:+ newline)
                  | Err e => Failure ("configuration: " +:+ path +:+ " (error") e
                  end) ;^
    or_fail "gssh" (sh_lift connectAgent ;^ gsshCerts) (λ certs,
      match certs with
      | [] => say Stdout 1 "no guided-ssh certificate in the agent — sign in with: gssh login"
      | _ =>
          let^ valid := status_lines certs false in
          sh_ret (if valid then 0%Z else 1%Z)
      end)).
Definition runLogoutCmd : CLI Z :=
  or_fail "gssh" (sh_lift connectAgent ;^ removeGsshKeys) (λ removed,
    say Stdout 0 ("signed out (" +:+ pretty removed +:+ " agent entries removed)")).
Definition integrate_text (hosts : string) : string :=
  "# guided-ssh: auto-login on missing certificate (append to ~/.ssh/config)" +:+ newline +:+
  "# note: ssh suppresses the output of the match-exec command; the browser" +:+ newline +:+
  "# flow still works. for headless use beforehand: gssh login --device" +:+ newline +:+
  "Match host " +:+ String "034" "" +:+ hosts +:+ String "034" "" +:+ " exec " +:+ String "034" "" +:+
  "gssh login --if-needed" +:+ String "034" newline.
Definition runIntegrateCmd (args : list string) : CLI Z :=
  with_flags [("hosts", FString "*")] args (λ fs,
    print Stdout (Line (integrate_text (flag_string fs "hosts"))) ;^ sh_ret 0%Z).

(** [usage] prints the overview of the commands, here one line. *)
Definition usage (to : stream) : CLI unit := print to (Line "gssh — certificate-based ssh access (guided-ssh)").
Definition Run (args : list string) : CLI Z :=
  match args with
  | [] => usage Stderr ;^ sh_ret 2%Z
  | command :: rest =>
      if bool_decide (command = "login") then runLoginCmd rest
      else if bool_decide (command = "ci-login") then runCILoginCmd rest
      else if bool_decide (command = "ssh") then runSSHCmd rest
      else if bool_decide (command = "status") then runStatusCmd rest
      else if bool_decide (command = "logout") then runLogoutCmd
      else if bool_decide (command = "integrate") then runIntegrateCmd rest
      else if bool_decide (command = "version") then say Stdout 0 version_String
      else if bool_decide (command ∈ ["help"; "-h"; "--help"]) then usage Stdout ;^ sh_ret 0%Z
      else print Stderr (Line ("gssh: unknown command " +:+ command)) ;^ usage Stderr ;^ sh_ret 2%Z
  end.
End login.

(** ** What a run leaves behind *)

Section leaves.
Context `{Crypto} `{SSHAgent} `{Desktop} `{OAuthClient} `{Network} `{CLIYAML}.
Implicit Types s : Shell agent_state.

#[export] Instance outside_disk {K A} (f : N → result A) : Stays (@same_disk K) (outside f).
Proof. apply call_disk. Qed.
#[export] Instance LoadConfig_disk {K} path : Stays (@same_disk K) (LoadConfig path).
Proof. unfold LoadConfig. stay. Qed.
#[export] Instance loadConfigCmd_disk {K} flag : Stays (@same_disk K) (loadConfigCmd flag).
Proof. unfold loadConfigCmd. stay. Qed.
#[export] Instance NewFlow_disk {K} cfg : Stays (@same_disk K) (NewFlow cfg).
Proof. unfold NewFlow. stay. Qed.
#[export] Instance FetchIDToken_disk {K} cfg device : Stays (@same_disk K) (FetchIDToken cfg device).
Proof.
  unfold FetchIDToken, DeviceFlow, AuthCodePKCE, randomToken, show_device, show_browser. stay.
Qed.
#[export] Instance FetchServiceToken_disk {K} cfg id secret : Stays (@same_disk K) (FetchServiceToken cfg id secret).
Proof. unfold FetchServiceToken, ClientCredentials. stay. Qed.
#[export] Instance list_keys_disk : Stays same_disk list_keys.
Proof. unfold list_keys. stay. Qed.
#[export] Instance gsshCerts_disk : Stays same_disk gsshCerts.
Proof. unfold gsshCerts. stay. Qed.
#[export] Instance certValid_disk c m : Stays same_disk (certValid c m).
Proof. unfold certValid. stay. Qed.
#[export] Instance anyValidCert_disk cs m : Stays same_disk (anyValidCert cs m).
Proof. induction cs; simpl; stay. Qed.
#[export] Instance remove_keys_disk ks n : Stays same_disk (remove_keys ks n).
Proof. revert n. induction ks; simpl; stay. Qed.
#[export] Instance removeGsshKeys_disk : Stays same_disk removeGsshKeys.
Proof. unfold removeGsshKeys. stay. Qed.
#[export] Instance loadIntoAgent_disk p c : Stays same_disk (loadIntoAgent p c).
Proof. unfold loadIntoAgent. stay. Qed.
#[export] Instance sign_disk {K} c path t p v : Stays (@same_disk K) (sign c path t p v).
Proof. unfold sign. apply _. Qed.
#[export] Instance new_key_pair_disk : Stays same_disk new_key_pair.
Proof. unfold new_key_pair. stay. Qed.
#[export] Instance obtain_disk signer cfg keys t v p :
  (∀ c t k v, Stays same_disk (signer c t k v)) → Stays same_disk (obtain signer cfg keys t v p).
Proof. intros. unfold obtain. stay. Qed.
#[export] Instance login_disk cfg opts : Stays same_disk (login cfg opts).
Proof. unfold login, login_now, signUser. stay. Qed.
#[export] Instance ciLogin_disk opts : Stays same_disk (ciLogin opts).
Proof. unfold ciLogin, signCI. stay. Qed.
#[export] Instance runSSH_disk cfg argv : Stays same_disk (runSSH cfg argv).
Proof.
  unfold runSSH, execSSH. stay; by intros ?.
Qed.
#[export] Instance status_lines_disk cs v : Stays same_disk (status_lines cs v).
Proof. revert v. induction cs; simpl; stay. Qed.
End leaves.

Section commands.
Context `{Crypto} `{SSHAgent} `{Desktop} `{OAuthClient} `{Network} `{CLIYAML}.
Implicit Types s : Shell agent_state.

Lemma gives_loadConfigCmd {K} flag : Gives (λ _, True) (@loadConfigCmd _ _ K flag).
Proof. unfold loadConfigCmd. gives. Qed.
Lemma gives_status_lines cs v : Gives (λ _, True) (status_lines cs v).
Proof. revert v. induction cs as [|c cs IH]; intros v; simpl; unfold certValid; gives; try apply IH. Qed.

Hint Resolve gives_loadConfigCmd gives_status_lines : gives.
Lemma Run_exits args : exits (Run args).
Proof.
  unfold Run. destruct args as [|command rest]; [intros s; by left|].
  repeat case_bool_decide.
  - unfold runLoginCmd. apply exits_flags. intros fs. apply exits_gives. gives.
  - unfold runCILoginCmd. apply exits_flags. intros fs. apply exits_gives. gives.
  - unfold runSSHCmd. apply exits_gives. gives.
  - unfold runStatusCmd. apply exits_flags. intros fs. apply exits_gives. gives.
  - unfold runLogoutCmd. apply exits_gives. gives.
  - unfold runIntegrateCmd. apply exits_flags. intros fs. apply exits_gives. gives.
  - apply exits_gives. gives.
  - unfold usage. apply exits_gives. gives.
  - intros s. by left.
Qed.

Lemma Run_disk args : Stays same_disk (Run args).
Proof.
  unfold Run, runLoginCmd, runCILoginCmd, runSSHCmd, runStatusCmd, runLogoutCmd, runIntegrateCmd, usage, say.
  stay; apply stays_with_flags; stay.
Qed.

(** C23: Whatever its arguments and whatever the agent, the server and the IdP do, [gssh]
    ends with exit code 0, 1 or 2 and writes no file: keys and certificates are in the
    ssh-agent or nowhere. After a usage error (2) nothing has happened at all: no request
    was sent, no key made, and the agent is as it was. *)
Theorem gssh_leaves_nothing_on_disk args s :
  ∃ code s', Run args s = (Ok code, s') ∧ same_disk s s' ∧
    ((code = 0 ∨ code = 1) ∨ code = 2 ∧ sh_Machine s' = sh_Machine s ∧ sh_Agent s' = sh_Agent s)%Z.
Proof.
  pose proof (Run_disk args s) as Hd. pose proof (Run_exits args s) as He.
  destruct (Run args s) as [r s']. simpl in *.
  destruct He as [(-> & Hm & Ha)|(code & -> & Hc)]; do 2 eexists; (split; [reflexivity|]); auto.
Qed.
End commands.

(** ** The entries of the agent *)
Section entries.
Context `{Crypto} `{SSHAgent} `{Desktop} `{OAuthClient} `{Network} `{CLIYAML}.
Implicit Types s : Shell agent_state.

Definition keys_in s : list AgentKey := agent_keys (sh_Agent s).
Definition without (gone : list string) (ks : list AgentKey) : list AgentKey :=
  List.filter (λ k, negb (bool_decide (ak_Blob k ∈ gone))) ks.
Definition foreign (ks : list AgentKey) : list AgentKey := List.filter (λ k, negb (own_key k)) ks.
Definition own_blobs (ks : list AgentKey) : list string := ak_Blob <$> List.filter own_key ks.

Lemma without_nil ks : without [] ks = ks.
Proof. apply filter_true. intros k _. by rewrite bool_decide_false by apply not_elem_of_nil. Qed.
Lemma without_without a b ks : without a (without b ks) = without (b ++ a) ks.
Proof.
  unfold without. induction ks as [|k ks IH]; simpl; [done|].
  destruct (decide (ak_Blob k ∈ b)) as [Hb|Hb].
  - rewrite (bool_decide_true (ak_Blob k ∈ b)) by done. rewrite bool_decide_true by set_solver. done.
  - rewrite (bool_decide_false (ak_Blob k ∈ b)) by done. simpl.
    rewrite (bool_decide_ext (ak_Blob k ∈ b ++ a) (ak_Blob k ∈ a)) by set_solver. rewrite IH. done.
Qed.
(** Blobs are unique: dropping the own blobs leaves the foreign entries. *)
Lemma without_own ks : NoDup (ak_Blob <$> ks) → without (own_blobs ks) ks = foreign ks.
Proof.
  intros Hnd. unfold without, foreign. apply filter_ext_in. intros k Hk%list_elem_of_In.
  f_equal. destruct (own_key k) eqn:Hown.
  - apply bool_decide_eq_true. apply list_elem_of_fmap. exists k. split; [done|]. by apply filter_bool_In.
  - apply bool_decide_eq_false. intros (k' & Hb & [Hin Hown']%filter_bool_In)%list_elem_of_fmap.
    assert (k = k') as ->; [|congruence]. by eapply (key_inj ak_Blob).
Qed.
Lemma foreign_without gone ks :
  (∀ b, b ∈ gone → b ∈ own_blobs ks) → NoDup (ak_Blob <$> ks) → ∀ k, k ∈ foreign ks → k ∈ without gone ks.
Proof.
  intros Hg Hnd k Hk. rewrite <-without_own in Hk by done.
  apply filter_bool_In in Hk as [Hin Hk]. apply filter_bool_In. split; [done|].
  apply negb_true_iff, bool_decide_eq_false in Hk. apply negb_true_iff, bool_decide_eq_false. auto.
Qed.

Lemma sh_agent_run {A} (op : agent_state → result A * agent_state) s :
  sh_agent op s = ((op (sh_Agent s)).1, with_agent (op (sh_Agent s)).2 s).
Proof. unfold sh_agent. by destruct (op _). Qed.
Lemma list_keys_run s r s' :
  list_keys s = (r, s') → keys_in s' = keys_in s ∧ sh_Machine s' = sh_Machine s ∧
    (∀ ks, r = Ok ks → ks = keys_in s).
Proof.
  unfold list_keys, sh_wrap. rewrite sh_agent_run. destruct (List_law (sh_Agent s)) as [Hk Hl].
  destruct (agent_List (sh_Agent s)) as [[ks|e] a]; simpl in *; intros [= <- <-]; (split; [done|]); by split.
Qed.
Lemma remove_keys_run ks n s r s' :
  remove_keys ks n s = (r, s') →
  ∃ gone, (∀ b, b ∈ gone → b ∈ own_blobs ks) ∧ keys_in s' = without gone (keys_in s) ∧
    (∀ m, r = Ok m → gone = own_blobs ks ∧ m = (n + Z.of_nat (length (List.filter own_key ks)))%Z).
Proof.
  unfold own_blobs. revert n s. induction ks as [|k ks IH]; intros n s; simpl.
  { intros [= <- <-]. exists []. split; [done|]. rewrite without_nil. split; [done|]. intros m [= <-]. split; [done|lia]. }
  destruct (own_key k); csimpl.
  2: { intros Hrun. by apply IH in Hrun. }
  unfold sh_bind, sh_wrap. rewrite sh_agent_run. pose proof (Remove_law k (sh_Agent s)) as Hl.
  destruct (agent_Remove k (sh_Agent s)) as [[[]|e] a]; simpl in *.
  - intros Hrun. apply IH in Hrun as (gone & Hg & Hk & Hm). exists (ak_Blob k :: gone). split; [set_solver|].
    unfold keys_in in *. simpl in *. split.
    + rewrite Hk, Hl. replace (List.filter _ _) with (without [ak_Blob k] (agent_keys (sh_Agent s)));
        [by rewrite without_without|]. apply filter_ext. intros x. f_equal. apply bool_decide_ext. set_solver.
    + intros m Hr. destruct (Hm m Hr) as [-> ->]. split; [done|lia].
  - intros [= <- <-]. exists []. rewrite without_nil. split; [set_solver|]. done.
Qed.
Lemma removeGsshKeys_run s r s' :
  removeGsshKeys s = (r, s') →
  ∃ gone, (∀ b, b ∈ gone → b ∈ own_blobs (keys_in s)) ∧ keys_in s' = without gone (keys_in s) ∧
    (∀ n, r = Ok n → keys_in s' = foreign (keys_in s) ∧
       n = Z.of_nat (length (List.filter own_key (keys_in s)))).
Proof.
  unfold removeGsshKeys, sh_bind. destruct (list_keys s) as [rl s1] eqn:El.
  apply list_keys_run in El as (Hk & _ & Hl). destruct rl as [ks|e].
  - specialize (Hl ks eq_refl) as ->. intros Hrun. apply remove_keys_run in Hrun as (gone & Hg & Hk' & Hm).
    exists gone. rewrite Hk' in *. rewrite Hk in *. split; [done|]. split; [done|].
    intros n Hr. destruct (Hm n Hr) as [-> ->]. split; [|lia]. apply without_own, agent_unique.
  - intros [= <- <-]. exists []. rewrite without_nil, Hk. split; [set_solver|]. done.
Qed.

(** The entry of a certificate. *)
Definition entry_of (cert : SSHCertificate) : AgentKey :=
  {| ak_Comment := agentCommentPrefix +:+ " " +:+ cert_KeyId cert; ak_Blob := cert_blob cert |}.
(** The entries after a login: the foreign ones (but the certificate's, if it was there
    under another comment) and the new one. *)
Definition replaced (ks : list AgentKey) (cert : SSHCertificate) : list AgentKey :=
  without [cert_blob cert] (foreign ks) ++ [entry_of cert].

Lemma loadIntoAgent_run priv cert s r s' :
  loadIntoAgent priv cert s = (r, s') →
  match r with
  | Ok _ => ∃ now a, let remaining := Sub (certTime (cert_ValidBefore cert)) now in
      (0 < remaining)%Z ∧ keys_in s' = replaced (keys_in s) cert ∧
      (agent_Add {| add_PrivateKey := priv; add_Certificate := cert; add_Comment := ak_Comment (entry_of cert);
                    add_LifetimeSecs := agent_lifetime remaining |} a).1 = Ok ()
  | Err _ => ∃ gone, (∀ b, b ∈ gone → b ∈ own_blobs (keys_in s)) ∧ keys_in s' = without gone (keys_in s)
  end.
Proof.
  unfold loadIntoAgent. unfold sh_bind at 1.
  destruct (sh_io io_Now s) as [[now|e] s1] eqn:En;
    assert (keys_in s1 = keys_in s) as Hk by (unfold sh_io in En; destruct (io_Now _); by simplify_eq);
    [|intros [= <- <-]; exists []; rewrite without_nil; split; [set_solver|done]].
  destruct (_ <=? 0)%Z eqn:Hle.
  { intros [= <- <-]. exists []. rewrite without_nil. split; [set_solver|done]. }
  apply Z.leb_gt in Hle. unfold sh_bind. destruct (removeGsshKeys s1) as [[n|e] s2] eqn:Er;
    apply removeGsshKeys_run in Er as (gone & Hg & Hk2 & Hn).
  2: { intros [= <- <-]. exists gone. by rewrite <-Hk. }
  specialize (Hn n eq_refl) as [Hn _]. rewrite sh_agent_run. set (key := {| add_PrivateKey := priv |}).
  pose proof (Add_law key (sh_Agent s2)) as Ha. destruct (agent_Add key (sh_Agent s2)) as [[[]|e] a] eqn:Ea; simpl in *.
  - intros [= <- <-]. exists now, (sh_Agent s2). split; [done|]. unfold keys_in in *. simpl in *. rewrite Ha, Hn, Hk.
    split; [|by apply (f_equal fst) in Ea]. unfold replaced. f_equal. apply filter_ext. intros x. f_equal. apply bool_decide_ext. set_solver.
  - intros [= <- <-]. exists gone. rewrite <-Hk. split; [done|]. unfold keys_in in *. simpl in *. congruence.
Qed.

(** The lifetime covers what is left of the certificate, by less than a second, and fits
    the protocol's 32 bits. *)
Lemma agent_lifetime_bounds remaining :
  (0 < remaining)%Z → let secs := agent_lifetime remaining in
  (0 < secs ≤ MaxUint32 ∧ (secs - 1) * Second ≤ remaining ∧
   (remaining < secs * Second ∨ secs = MaxUint32))%Z.
Proof.
  intros Hr. unfold agent_lifetime, to_seconds, MaxUint32. cbv zeta.
  assert (0 < Second)%Z as HS by (unfold Second; lia).
  rewrite Z.quot_div_nonneg by lia. pose proof (Z.div_mod remaining Second). pose proof (Z.mod_pos_bound remaining Second HS).
  assert (0 ≤ remaining / Second)%Z by (apply Z.div_pos; lia). unfold Second in *. lia.
Qed.

(** Before the certificate comes, the agent is only read. *)
Definition same_keys : relation (Shell agent_state) := λ s s', keys_in s' = keys_in s.
#[export] Instance same_keys_preorder : PreOrder same_keys.
Proof. split; [done|]. intros x y z. unfold same_keys. congruence. Qed.
#[export] Instance io_keys {A} (c : IO A) : Stays same_keys (sh_io c).
Proof. intros s. unfold sh_io. by destruct (c _). Qed.
#[export] Instance outside_keys {A} (f : N → result A) : Stays same_keys (outside f).
Proof. apply io_keys. Qed.
#[export] Instance print_keys to m : Stays same_keys (print to m).
Proof. by intros s. Qed.
#[export] Instance list_keys_keys : Stays same_keys list_keys.
Proof. intros s. destruct (list_keys s) as [r s'] eqn:E. by apply list_keys_run in E as [? _]. Qed.
#[export] Instance FetchIDToken_keys cfg device : Stays same_keys (FetchIDToken cfg device).
Proof.
  unfold FetchIDToken, NewFlow, DeviceFlow, AuthCodePKCE, randomToken, show_device, show_browser. stay.
Qed.
#[export] Instance sign_keys c path t p v : Stays same_keys (sign c path t p v).
Proof. apply io_keys. Qed.

(** What the valid certificate of [--if-needed] leaves alone. *)
Definition untouched s s' : Prop :=
  keys_in s' = keys_in s ∧ mc_Calls (sh_Machine s') = mc_Calls (sh_Machine s) ∧
  mc_Random (sh_Machine s') = mc_Random (sh_Machine s).
Lemma now_untouched s r s' : sh_io io_Now s = (r, s') → untouched s s' ∧ is_ok r = true.
Proof. unfold sh_io, io_Now, untouched. destruct (mc_Ticks _); intros [= <- <-]; done. Qed.
Lemma anyValidCert_run cs margin s r s' :
  anyValidCert cs margin s = (r, s') → untouched s s' ∧
    (r = Ok true → ∃ cert now, cert ∈ cs ∧ valid_at now margin cert = true).
Proof.
  revert s. induction cs as [|c cs IH]; intros s; cbn [anyValidCert]; [by intros [= <- <-]|].
  unfold certValid. unfold sh_bind. destruct (sh_io io_Now s) as [[now|e] s1] eqn:En;
    apply now_untouched in En as [Hu Hok]; [|by intros [= <- <-]]. unfold sh_ret.
  destruct (valid_at now margin c) eqn:Hv.
  - intros [= <- <-]. split; [done|]. intros _. exists c, now. split; [by left|done].
  - intros Hrun. apply IH in Hrun as [Hu2 Hex]. unfold untouched in *. split; [intuition congruence|].
    intros Hr. destruct (Hex Hr) as (cert & now' & Hin & ?). exists cert, now'. split; [by right|done].
Qed.

(** The outcome of a failed login: own entries may be gone, the others are there. *)
Definition only_own_gone (ks ks' : list AgentKey) : Prop :=
  (∀ k, k ∈ foreign ks → k ∈ ks') ∧ (∀ k, k ∈ ks' → k ∈ ks).
Lemma only_own_gone_refl ks : only_own_gone ks ks.
Proof. split; [|done]. by intros k [? _]%filter_bool_In. Qed.
Lemma without_only_own gone ks :
  (∀ b, b ∈ gone → b ∈ own_blobs ks) → NoDup (ak_Blob <$> ks) → only_own_gone ks (without gone ks).
Proof. intros Hg Hnd. split; [by apply foreign_without|]. by intros k [? _]%filter_bool_In. Qed.

(** The certificate a successful login got, and how it entered the agent: the private
    key belongs to the public key that was sent, and the entry lives until the
    certificate ends, give or take a second. *)
Definition loaded_as (path : string) (cfg : Config) (validity : Z) (ks ks' : list AgentKey)
    (n call : N) (client : apiClient) (token : string) (cert : SSHCertificate) : Prop :=
  newAPIClient cfg = Ok client ∧
  sign_answer (http_Do call (sign_call client path token ((generate_key n).1 +:+ newline) validity)) = Ok cert ∧
  ks' = replaced ks cert ∧
  ∃ remaining a,
    (0 < remaining ∧ (agent_lifetime remaining - 1) * Second ≤ remaining ∧ 0 < agent_lifetime remaining ≤ MaxUint32 ∧
     (remaining < agent_lifetime remaining * Second ∨ agent_lifetime remaining = MaxUint32))%Z ∧
    (∃ now, remaining = Sub (certTime (cert_ValidBefore cert)) now) ∧
    (agent_Add {| add_PrivateKey := (generate_key n).2; add_Certificate := cert; add_Comment := ak_Comment (entry_of cert);
                  add_LifetimeSecs := agent_lifetime remaining |} a).1 = Ok ().
Definition loaded (path : string) (cfg : Config) (validity : Z) (ks ks' : list AgentKey) : Prop :=
  ∃ n call client token cert, loaded_as path cfg validity ks ks' n call client token cert.

Lemma obtain_run path cfg n token validity prefix s r s' :
  obtain (λ c, sign c path) cfg ((generate_key n).1 +:+ newline, (generate_key n).2) token validity prefix s = (r, s') →
  match r with
  | Ok _ => loaded path cfg validity (keys_in s) (keys_in s')
  | Err _ => only_own_gone (keys_in s) (keys_in s')
  end.
Proof.
  unfold obtain. unfold sh_bind at 1, sh_lift. destruct (newAPIClient cfg) as [client|e] eqn:Ec;
    [|intros [= <- <-]; apply only_own_gone_refl].
  unfold sh_bind at 1. pose proof (stays (R := same_keys)
    (c := sign client path token ((generate_key n).1 +:+ newline) validity) s) as Hk.
  destruct (sign _ _ _ _ _ s) as [[cert|e] s1] eqn:Es; unfold same_keys in Hk; simpl in Hk;
    [|intros [= <- <-]; rewrite Hk; apply only_own_gone_refl].
  unfold sh_bind. destruct (loadIntoAgent _ cert s1) as [[[]|e] s2] eqn:El; apply loadIntoAgent_run in El.
  2: { intros [= <- <-]. destruct El as (gone & Hg & Hks). rewrite Hks. rewrite Hk in *.
       apply without_only_own; [done|apply agent_unique]. }
  intros [= <- <-]. destruct El as (now & a & Hrem & Hks & Hadd).
  exists n, (mc_Calls (sh_Machine s)), client, token, cert. split; [done|]. split; [unfold sign, sh_io, io_call in Es; by simplify_eq|].
  split; [unfold keys_in in *; simpl; by rewrite Hks, Hk|]. exists (Sub (certTime (cert_ValidBefore cert)) now), a.
  pose proof (agent_lifetime_bounds _ Hrem) as Hb. cbv zeta in Hb. split; [tauto|]. split; [by exists now|done].
Qed.
Lemma new_key_pair_run s keys s1 :
  new_key_pair s = (Ok keys, s1) → keys = ((generate_key (mc_Random (sh_Machine s))).1 +:+ newline,
    (generate_key (mc_Random (sh_Machine s))).2) ∧ keys_in s1 = keys_in s.
Proof. unfold new_key_pair, sh_bind, sh_io, io_Random, sh_ret. simpl. by intros [= <- <-]. Qed.

(** [gssh login] puts exactly one certificate into the agent: what the sign endpoint
    answered for the key it just made, with that key, for as long as the certificate is
    valid; earlier entries of its own are gone, the entries of others are untouched. With
    [--if-needed] and a certificate that is valid for more than five minutes nothing is
    asked, made or changed. A login that fails adds nothing and removes at most its own
    entries. *)
Lemma login_run cfg opts s r s' :
  login cfg opts s = (r, s') →
  match r with
  | Ok _ =>
      (opt_ifNeeded opts = true ∧ untouched s s' ∧
         ∃ cert now, cert ∈ certs_of (keys_in s) ∧ valid_at now renewMargin cert = true) ∨
      loaded "/v1/sign/user" cfg (if (opt_validity opts =? 0)%Z then cfg_Validity cfg else opt_validity opts)
        (keys_in s) (keys_in s')
  | Err _ => only_own_gone (keys_in s) (keys_in s')
  end.
Proof.
  assert (∀ s1, keys_in s1 = keys_in s → login_now cfg opts s1 = (r, s') →
    match r with
    | Ok _ => loaded "/v1/sign/user" cfg (if (opt_validity opts =? 0)%Z then cfg_Validity cfg else opt_validity opts)
                (keys_in s) (keys_in s')
    | Err _ => only_own_gone (keys_in s) (keys_in s')
    end) as Hnow.
  { intros s1 <-. unfold login_now. unfold sh_bind at 1. destruct (new_key_pair s1) as [[keys|e] s2] eqn:Ek.
    2: { unfold new_key_pair, sh_bind, sh_io, io_Random, sh_ret in Ek. by simplify_eq/=. }
    apply new_key_pair_run in Ek as [-> <-].
    unfold sh_bind. pose proof (stays (R := same_keys) (c := FetchIDToken cfg (opt_device opts)) s2) as Ht.
    destruct (FetchIDToken _ _ s2) as [[token|e] s3]; unfold same_keys in Ht; simpl in Ht; rewrite <-Ht.
    - intros Hrun. by apply obtain_run in Hrun.
    - intros [= <- <-]. apply only_own_gone_refl. }
  unfold login. unfold sh_bind at 1, sh_lift. destruct connectAgent as [[]|e]; [|intros [= <- <-]; apply only_own_gone_refl].
  destruct (opt_ifNeeded opts).
  2: { intros Hrun. apply Hnow in Hrun; [|done]. destruct r; [by right|done]. }
  unfold gsshCerts. unfold sh_bind, sh_ret. destruct (list_keys s) as [[ks|e] s1] eqn:El;
    apply list_keys_run in El as (Hk & Hm & Hl); [|intros [= <- <-]; rewrite Hk; apply only_own_gone_refl].
  specialize (Hl ks eq_refl) as ->.
  destruct (anyValidCert _ _ s1) as [[valid|e] s2] eqn:Ea; apply anyValidCert_run in Ea as [(Hk2 & Hc & Hr) Hex].
  2: { intros [= <- <-]. rewrite Hk2, Hk. apply only_own_gone_refl. }
  destruct valid.
  - intros [= <- <-]. left. split; [done|]. split; [|by apply Hex]. unfold untouched. rewrite Hc, Hr, Hk2, Hk, Hm. done.
  - intros Hrun. apply Hnow in Hrun; [|by rewrite Hk2, Hk]. destruct r; [by right|done].
Qed.

(** [gssh logout] removes what logins put there, and nothing else. *)
Theorem logout_removes_own_entries s s' :
  runLogoutCmd s = (Ok 0%Z, s') → keys_in s' = foreign (keys_in s).
Proof.
  unfold runLogoutCmd. intros (n & s1 & Hrun & Hsay)%or_fail_zero.
  apply sh_bind_Ok in Hrun as ([] & s2 & Hc & Hrun). unfold sh_lift in Hc. simplify_eq.
  apply removeGsshKeys_run in Hrun as (gone & _ & _ & Hn). destruct (Hn n eq_refl) as [Hk _].
  unfold say, sh_bind, print, sh_ret in Hsay. by simplify_eq.
Qed.
End entries.

(** ** A concrete login *)
Definition cert_tuple (c : SSHCertificate) :=
  (let k := cert_Key c in (key_type k, key_blob k, key_is_cert k), cert_Serial c, cert_CertType c, cert_KeyId c,
   cert_ValidPrincipals c, cert_ValidAfter c, cert_ValidBefore c, cert_CriticalOptions c, cert_Extensions c,
   (λ k, (key_type k, key_blob k, key_is_cert k)) <$> cert_SignatureKey c, cert_Signature c).
Definition tuple_key (k : string * string * bool) : PublicKey :=
  {| key_type := k.1.1; key_blob := k.1.2; key_is_cert := k.2 |}.
Definition toy_parse (s : string) : option sshKey :=
  '(k, serial, ty, id, ps, va, vb, crit, ext, sk, sig) ← toy_decode s;
  Some (CertKey {|
    cert_Key := tuple_key k; cert_Serial := serial; cert_CertType := ty; cert_KeyId := id;
    cert_ValidPrincipals := ps; cert_ValidAfter := va; cert_ValidBefore := vb;
    cert_CriticalOptions := crit; cert_Extensions := ext; cert_SignatureKey := tuple_key <$> sk;
    cert_Signature := sig |}).
Lemma toy_parse_cert c : toy_parse (toy_encode (cert_tuple c)) = Some (CertKey c).
Proof.
  unfold toy_parse. rewrite toy_decode_encode. unfold cert_tuple. cbn.
  by destruct c as [[] ? ? ? ? ? ? ? ? [[]|] ?].
Qed.
(** An agent that never fails. *)
Definition toy_keys : Type := { l : list AgentKey | NoDup (ak_Blob <$> l) }.
Definition toy_remove (blob : string) (a : toy_keys) : toy_keys :=
  exist _ (List.filter (λ x, negb (bool_decide (ak_Blob x = blob))) (proj1_sig a))
    (fmap_NoDup_filter _ _ _ (proj2_sig a)).
Lemma toy_fresh blob (a : toy_keys) : blob ∉ ak_Blob <$> proj1_sig (toy_remove blob a).
Proof.
  intros (x & Hx & [_ Hb]%filter_bool_In)%list_elem_of_fmap. by rewrite bool_decide_true in Hb.
Qed.
Definition toy_insert (k : AgentKey) (a : toy_keys) : toy_keys :=
  exist _ (proj1_sig (toy_remove (ak_Blob k) a) ++ [k])
    (fmap_NoDup_snoc _ _ _ (proj2_sig (toy_remove (ak_Blob k) a)) (toy_fresh _ a)).
Program Definition toy_agent : SSHAgent := {|
  agent_state := toy_keys;
  agent_keys a := proj1_sig a;
  dial_agent _ := Ok ();
  agent_List a := (Ok (proj1_sig a), a);
  agent_Remove k a := (Ok (), toy_remove (ak_Blob k) a);
  agent_Add k a := (Ok (), toy_insert {| ak_Comment := add_Comment k;
                                         ak_Blob := toy_encode (cert_tuple (add_Certificate k)) |} a);
  ParsePublicKey := toy_parse; ParseAuthorizedKey := toy_parse;
  cert_blob c := toy_encode (cert_tuple c); cert_line c := toy_encode (cert_tuple c);
  parse_cert_blob := toy_parse_cert; parse_cert_line := toy_parse_cert
|}.
Next Obligation. intros [l Hl]. exact Hl. Qed.
Next Obligation. intros a. simpl. split; [done|by intros ks [= <-]]. Qed.
Solve Obligations with done.

Definition toy_desk : Desktop := {|
  Getenv name := if bool_decide (name = "SSH_AUTH_SOCK") then "/run/agent" else
                 if bool_decide (name = "HOME") then "/home/alice" else "";
  rfc3339_local _ := "later"; ssh_path := Some "/usr/bin/ssh";
  build_version := "dev"; build_commit := "none"; build_date := "unknown" |}.
Definition toy_cert (key : string) : SSHCertificate := {|
  cert_Key := toy_public key; cert_Serial := 7; cert_CertType := UserCert; cert_KeyId := "u";
  cert_ValidPrincipals := []; cert_ValidAfter := (999 * 3600)%Z; cert_ValidBefore := (1008 * 3600)%Z;
  cert_CriticalOptions := ∅; cert_Extensions := ∅; cert_SignatureKey := None; cert_Signature := "s" |}.
Definition toy_net : Network := {|
  http_Do _ _ := Some {| ha_Status := 200; ha_Text := "";
    ha_JSON := Some (JObj [("certificate", JStr (cert_line (SSHAgent := toy_agent) (toy_cert "k")))]) |} |}.
Definition toy_cli_config : Config := {|
  cfg_APIURL := "https://gssh/"; cfg_Issuer := "https://idp"; cfg_ClientID := "gssh-cli"; cfg_Scopes := [];
  cfg_PinSHA256 := ""; cfg_Validity := (8 * Hour)%Z |}.
(** One entry of somebody else's, one of an earlier login. *)
Definition toy_entries : toy_keys :=
  toy_insert {| ak_Comment := "guided-ssh old"; ak_Blob := "1" |}
    (toy_insert {| ak_Comment := "alice@laptop"; ak_Blob := "0" |} (exist _ [] (NoDup_nil_2))).
Notation toy_user_login s := (login (H := toy_crypto) (H0 := toy_agent) (H1 := toy_desk) (H2 := toy_flow)
  (H3 := toy_net) toy_cli_config {| opt_device := false; opt_validity := 0; opt_ifNeeded := true |} s).
Definition toy_user_shell : Shell toy_keys := toy_shell toy_entries [].
Example toy_user_login_runs :
  let r := toy_user_login toy_user_shell in
  r.1 = Ok () ∧
  bool_decide (ak_Comment <$> keys_in (H0 := toy_agent) r.2 = ["alice@laptop"; "guided-ssh u"]) = true.
Proof. vm_compute. split; reflexivity. Qed.
