(* ===== verification/AdminCLI.v ===== *)
(** * The admin command line (internal/admincli: cli.go, cigrant.go, apply.go, client.go)

    [gssh-admin] lists and edits access rules through the server's admin API, and
    applies a rule file declaratively. Columns of tables are aligned by
    [text/tabwriter], which is not modelled: a table is its lines of cells. *)
From stdpp Require Import pretty.
From S2P Require Export UserCLI Rules.

Local Open Scope string_scope.
Local Open Scope list_scope.

Definition envIDToken := "GSSH_ID_TOKEN".
Definition envClientID := "GSSH_CLIENT_ID".
Definition envClientSecret := "GSSH_CLIENT_SECRET".

(** ** Wire formats (client.go): [omitempty] leaves out what is empty *)
Definition omit_empty (empty : bool) (name : string) (v : json) : list (string * json) :=
  if empty then [] else [(name, v)].
Definition omit_text (name s : string) : list (string * json) := omit_empty (bool_decide (s = "")) name (JStr s).
Definition omit_map (name : string) (m : gmap string string) : list (string * json) :=
  omit_empty (bool_decide (m = ∅)) name (JMap m).
(** A nil slice is null. *)
Definition nil_or_list (l : option (list string)) : json := match l with Some l => JStrs l | None => JNull end.
Definition dec_slice : decoder (option (list string)) := λ old v,
  match v with JNull => Some None | _ => Some <$> dec_strings [] v end.
Definition dec_bool_pointer : decoder (option bool) := λ old v,
  match v with JNull => Some None | _ => Some <$> dec_bool false v end.

Record Grant := {
  g_ID : string; g_Group : string; g_Issuer : string; g_TagSelector : gmap string string;
  g_Principals : option (list string); g_Sudo : bool; g_MaxValiditySeconds : Z
}.
Definition grant_json (g : Grant) : json := JObj (
  omit_text "id" (g_ID g) ++ omit_text "group" (g_Group g) ++ omit_text "issuer" (g_Issuer g) ++
  omit_map "tag_selector" (g_TagSelector g) ++ [("principals", nil_or_list (g_Principals g))] ++
  omit_empty (negb (g_Sudo g)) "sudo" (JBool true) ++
  [("max_validity_seconds", JNum (g_MaxValiditySeconds g))]).
Definition decode_Grant (j : json) : option Grant :=
  m ← struct_members j;
  id ← dec_field dec_string "id" "" m;
  group ← dec_field dec_string "group" "" m;
  issuer ← dec_field dec_string "issuer" "" m;
  selector ← dec_field dec_string_map "tag_selector" ∅ m;
  principals ← dec_field dec_slice "principals" None m;
  sudo ← dec_field dec_bool "sudo" false m;
  secs ← dec_field dec_int64 "max_validity_seconds" 0%Z m;
  Some {| g_ID := id; g_Group := group; g_Issuer := issuer; g_TagSelector := selector;
          g_Principals := principals; g_Sudo := sudo; g_MaxValiditySeconds := secs |}.

Record CIGrant := {
  cig_ID : string; cig_Project : string; cig_RefPattern : string; cig_ProtectedOnly : option bool;
  cig_EnvironmentPattern : string; cig_TagSelector : gmap string string;
  cig_Principals : option (list string); cig_MaxValiditySeconds : Z
}.
Definition ci_grant_json (g : CIGrant) : json := JObj (
  omit_text "id" (cig_ID g) ++ omit_text "project" (cig_Project g) ++ omit_text "ref_pattern" (cig_RefPattern g) ++
  match cig_ProtectedOnly g with Some b => [("protected_only", JBool b)] | None => [] end ++
  omit_text "environment_pattern" (cig_EnvironmentPattern g) ++ omit_map "tag_selector" (cig_TagSelector g) ++
  [("principals", nil_or_list (cig_Principals g)); ("max_validity_seconds", JNum (cig_MaxValiditySeconds g))]).
Definition decode_CIGrant (j : json) : option CIGrant :=
  m ← struct_members j;
  id ← dec_field dec_string "id" "" m;
  project ← dec_field dec_string "project" "" m;
  ref ← dec_field dec_string "ref_pattern" "" m;
  protected ← dec_field dec_bool_pointer "protected_only" None m;
  env ← dec_field dec_string "environment_pattern" "" m;
  selector ← dec_field dec_string_map "tag_selector" ∅ m;
  principals ← dec_field dec_slice "principals" None m;
  secs ← dec_field dec_int64 "max_validity_seconds" 0%Z m;
  Some {| cig_ID := id; cig_Project := project; cig_RefPattern := ref; cig_ProtectedOnly := protected;
          cig_EnvironmentPattern := env; cig_TagSelector := selector; cig_Principals := principals;
          cig_MaxValiditySeconds := secs |}.

Record applyCounts := { cnt_Created : Z; cnt_Updated : Z; cnt_Deleted : Z; cnt_Unchanged : Z }.
Definition decode_counts (j : json) : option applyCounts :=
  m ← struct_members j;
  created ← dec_field dec_int64 "created" 0%Z m;
  updated ← dec_field dec_int64 "updated" 0%Z m;
  deleted ← dec_field dec_int64 "deleted" 0%Z m;
  unchanged ← dec_field dec_int64 "unchanged" 0%Z m;
  Some {| cnt_Created := created; cnt_Updated := updated; cnt_Deleted := deleted; cnt_Unchanged := unchanged |}.
Definition decode_slice {A} (dec : json → option A) (j : json) : option (list A) :=
  match j with JNull => Some [] | JArr l => mapM dec l | _ => None end.

(** ** The client *)
Record client := { cl_api : apiClient; cl_token : string }.
Definition newClient (cfg : Config) (token : string) : result client :=
  match newAPIClient cfg with Ok api => Ok {| cl_api := api; cl_token := token |} | Err e => Err e end.

Section client.
Context `{Network} {K : Type}.

Definition admin_call (c : client) (method path : string) (payload : option json) : HttpCall := {|
  call_Method := method; call_URL := ac_baseURL (cl_api c) +:+ path; call_Pin := ac_pin (cl_api c);
  call_Token := cl_token c; call_Body := payload |}.
(** [target] decodes the JSON of the answer; without one the answer is discarded. *)
Definition admin_answer {A} (target : option json → option A) (answer : option HTTPAnswer) : result A :=
  match answer with
  | None => Err (ErrOther "reach admin API")
  | Some a =>
      if (ha_Status a <? 200)%Z || (299 <? ha_Status a)%Z then Err (refused "admin API" a)
      else match target (ha_JSON a) with
           | Some v => Ok v
           | None => Err (ErrOther "decode admin response")
           end
  end.
Definition admin_do {A} (c : client) (method path : string) (payload : option json)
    (target : option json → option A) : CLI K A :=
  sh_io (io_call (λ n, admin_answer target (http_Do n (admin_call c method path payload)))).
Definition into {A} (dec : json → option A) (j : option json) : option A := j ≫= dec.
Definition discard (_ : option json) : option unit := Some ().

Definition grants_path := "/v1/admin/grants".
Definition ci_grants_path := "/v1/admin/ci-grants".
Definition listGrants c := admin_do c "GET" grants_path None (into (decode_slice decode_Grant)).
Definition getGrant c id := admin_do c "GET" (grants_path +:+ "/" +:+ id) None (into decode_Grant).
Definition createGrant c g := admin_do c "POST" grants_path (Some (grant_json g)) (into decode_Grant).
Definition updateGrant c id g :=
  admin_do c "PUT" (grants_path +:+ "/" +:+ id) (Some (grant_json g)) (into decode_Grant).
Definition deleteGrant c id := admin_do c "DELETE" (grants_path +:+ "/" +:+ id) None discard.
Definition applyGrants c (grants : list Grant) :=
  admin_do c "POST" (grants_path +:+ "/apply") (Some (JObj [("grants", JArr (grant_json <$> grants))]))
    (into decode_counts).
Definition listCIGrants c := admin_do c "GET" ci_grants_path None (into (decode_slice decode_CIGrant)).
Definition getCIGrant c id := admin_do c "GET" (ci_grants_path +:+ "/" +:+ id) None (into decode_CIGrant).
Definition createCIGrant c g := admin_do c "POST" ci_grants_path (Some (ci_grant_json g)) (into decode_CIGrant).
Definition updateCIGrant c id g :=
  admin_do c "PUT" (ci_grants_path +:+ "/" +:+ id) (Some (ci_grant_json g)) (into decode_CIGrant).
Definition deleteCIGrant c id := admin_do c "DELETE" (ci_grants_path +:+ "/" +:+ id) None discard.
Definition applyCIGrants c (grants : list CIGrant) :=
  admin_do c "POST" (ci_grants_path +:+ "/apply") (Some (JObj [("ci_grants", JArr (ci_grant_json <$> grants))]))
    (into decode_counts).
End client.

(** ** Texts *)
Definition formatTags (tags : gmap string string) : string :=
  if bool_decide (tags = ∅) then "*"
  else Join (sort_by String.leb ((λ '(k, v), k +:+ "=" +:+ v) <$> map_to_list tags)) ",".
Definition invalid_tag (pair : string) : error := ErrOther ("invalid tag " +:+ pair +:+ " (expected key=value)").
Definition parseTags (raw : string) : result (gmap string string) :=
  if bool_decide (raw = "") then Ok ∅
  else foldl (λ acc pair,
    match acc with
    | Err e => Err e
    | Ok tags =>
        match Cut pair "=" with
        | Some (key, value) => if bool_decide (key = "") then Err (invalid_tag pair) else Ok (<[key := value]> tags)
        | None => Err (invalid_tag pair)
        end
    end) (Ok ∅) (Split raw ",").
Definition splitList (raw : string) : list string :=
  List.filter (λ s, negb (bool_decide (s = ""))) (TrimSpace <$> Split raw ",").
Definition bool_text (b : bool) : string := if b then "true" else "false".
Definition or_star (s : string) : string := if bool_decide (s = "") then "*" else s.
Definition principals_text (l : option (list string)) : string := Join (default [] l) ",".

Definition printGrants (grants : list Grant) : message := TableOf (
  ["ID"; "GROUP"; "TAGS"; "PRINCIPALS"; "SUDO"; "MAX-VALIDITY"] ::
  ((λ g, [g_ID g; g_Group g; formatTags (g_TagSelector g); principals_text (g_Principals g);
          bool_text (g_Sudo g); Duration_String (seconds (g_MaxValiditySeconds g))]) <$> grants)).
Definition printCIGrants (grants : list CIGrant) : message := TableOf (
  ["ID"; "PROJECT"; "REF"; "PROTECTED"; "ENV"; "TAGS"; "PRINCIPALS"; "MAX-VALIDITY"] ::
  ((λ g, [cig_ID g; cig_Project g; or_star (cig_RefPattern g); bool_text (default true (cig_ProtectedOnly g));
          or_star (cig_EnvironmentPattern g); formatTags (cig_TagSelector g); principals_text (cig_Principals g);
          Duration_String (seconds (cig_MaxValiditySeconds g))]) <$> grants)).

(** ** The rule file (apply.go) *)
Definition grant_of_spec (s : GrantSpec) : Grant := {|
  g_ID := ""; g_Group := spec_Group s; g_Issuer := spec_Issuer s; g_TagSelector := spec_TagSelector s;
  g_Principals := Some (spec_Principals s); g_Sudo := spec_Sudo s;
  g_MaxValiditySeconds := spec_MaxValiditySeconds s |}.
Definition ci_grant_of_spec (s : CIGrantSpec) : CIGrant := {|
  cig_ID := ""; cig_Project := cispec_ProjectPath s; cig_RefPattern := cispec_RefPattern s;
  cig_ProtectedOnly := Some (cispec_ProtectedOnly s); cig_EnvironmentPattern := cispec_EnvironmentPattern s;
  cig_TagSelector := cispec_TagSelector s; cig_Principals := Some (cispec_Principals s);
  cig_MaxValiditySeconds := cispec_MaxValiditySeconds s |}.

(** ** Commands (cli.go, cigrant.go) *)
Section commands.
Context `{Desktop} `{CLIYAML} `{RulesYAML} `{OAuthClient} `{Network} {K : Type}.
Notation CLI := (CLI K).
Notation program := "gssh-admin".

Definition common_flags : list (string * flagValue) :=
  [("config", FString ""); ("token", FString ""); ("device", FBool false)].
(** The token: the flag, else GSSH_ID_TOKEN, else client credentials, else a login. *)
Definition obtain_token (cfg : Config) (fs : FlagSet) : CLI string :=
  if negb (bool_decide (flag_string fs "token" = "")) then sh_ret (flag_string fs "token")
  else if negb (bool_decide (Getenv envIDToken = "")) then sh_ret (Getenv envIDToken)
  else if negb (bool_decide (Getenv envClientSecret = ""))
  then FetchServiceToken cfg (Getenv envClientID) (Getenv envClientSecret)
  else FetchIDToken cfg (flag_bool fs "device").
Definition connect (fs : FlagSet) : CLI client :=
  let path := ResolveConfigPath (flag_string fs "config") in
  if bool_decide (path = "")
  then sh_fail (ErrOther "no configuration path could be determined (HOME not set?)")
  else
    let^ cfg := LoadConfig path in
    let^ token := obtain_token cfg fs in
    sh_lift (newClient cfg token).
(** [connect], one exchange, and what is printed about it. *)
Definition exchange {A} (fs : FlagSet) (request : client → CLI A) (show : A → message) : CLI Z :=
  or_fail program (connect fs) (λ c,
  or_fail program (request c) (λ a, print Stdout (show a) ;^ sh_ret 0%Z)).
Definition line (s : string) : message := Line (s +:+ newline).
(** A command whose first argument is an id. *)
Definition with_id_arg (usage : string) (flags : list (string * flagValue)) (args : list string)
    (k : string → FlagSet → CLI Z) : CLI Z :=
  match args with
  | id :: rest =>
      if HasPrefix id "-" then say Stderr 2 usage else with_flags flags rest (k id)
  | [] => say Stderr 2 usage
  end.

Definition runGrantList (args : list string) : CLI Z :=
  with_flags common_flags args (λ fs, exchange fs listGrants printGrants).
Definition grant_create_flags := common_flags ++ [
  ("group", FString ""); ("issuer", FString ""); ("tags", FString ""); ("principals", FString "");
  ("sudo", FBool false); ("max-validity", FDuration (16 * Hour))].
Definition grant_of_flags (fs : FlagSet) (tags : gmap string string) : Grant := {|
  g_ID := ""; g_Group := flag_string fs "group"; g_Issuer := flag_string fs "issuer"; g_TagSelector := tags;
  g_Principals := Some (splitList (flag_string fs "principals")); g_Sudo := flag_bool fs "sudo";
  g_MaxValiditySeconds := to_seconds (flag_duration fs "max-validity") |}.
Definition runGrantCreate (args : list string) : CLI Z :=
  with_flags grant_create_flags args (λ fs,
    if bool_decide (flag_string fs "group" = "") ||
       bool_decide (splitList (flag_string fs "principals") = [])
    then say Stderr 2 "gssh-admin: --group and --principals are required"
    else or_fail program (sh_lift (parseTags (flag_string fs "tags"))) (λ tags,
      exchange fs (λ c, createGrant c (grant_of_flags fs tags))
        (λ created, line ("grant created: " +:+ g_ID created +:+ " (group " +:+ g_Group created +:+ ")")))).

(** The principals of a flag: nil when it names none. *)
Definition flag_principals (fs : FlagSet) : option (list string) :=
  match splitList (flag_string fs "principals") with [] => None | l => Some l end.
Definition grant_update_flags := common_flags ++ [
  ("tags", FString ""); ("principals", FString ""); ("sudo", FBool false); ("max-validity", FDuration 0)].
(** Only the fields whose flags were given change. *)
Definition change_grant (fs : FlagSet) (current : Grant) : result Grant :=
  match (if flag_changed fs "tags" then parseTags (flag_string fs "tags") else Ok (g_TagSelector current)) with
  | Err e => Err e
  | Ok tags => Ok {|
      g_ID := g_ID current; g_Group := g_Group current; g_Issuer := g_Issuer current; g_TagSelector := tags;
      g_Principals := if flag_changed fs "principals" then flag_principals fs else g_Principals current;
      g_Sudo := if flag_changed fs "sudo" then flag_bool fs "sudo" else g_Sudo current;
      g_MaxValiditySeconds := if flag_changed fs "max-validity" then to_seconds (flag_duration fs "max-validity")
                              else g_MaxValiditySeconds current |}
  end.
Definition runGrantUpdate (args : list string) : CLI Z :=
  with_id_arg "gssh-admin: grant update <id> [flags]" grant_update_flags args (λ id fs,
    exchange fs (λ c,
      let^ current := getGrant c id in
      let^ changed := sh_lift (change_grant fs current) in
      updateGrant c id changed)
      (λ updated, line ("grant updated: " +:+ g_ID updated +:+ " (group " +:+ g_Group updated +:+ ")"))).
Definition runGrantDelete (args : list string) : CLI Z :=
  with_id_arg "gssh-admin: grant delete <id>" common_flags args (λ id fs,
    exchange fs (λ c, deleteGrant c id) (λ _, line ("grant deleted: " +:+ id))).

Definition ciGrantFlags : list (string * flagValue) := [
  ("ref", FString ""); ("protected-only", FBool true); ("environment", FString ""); ("tags", FString "");
  ("principals", FString ""); ("max-validity", FDuration Hour)].
Definition runCIGrantList (args : list string) : CLI Z :=
  with_flags common_flags args (λ fs, exchange fs listCIGrants printCIGrants).
Definition ci_grant_of_flags (fs : FlagSet) (tags : gmap string string) : CIGrant := {|
  cig_ID := ""; cig_Project := flag_string fs "project"; cig_RefPattern := flag_string fs "ref";
  cig_ProtectedOnly := Some (flag_bool fs "protected-only"); cig_EnvironmentPattern := flag_string fs "environment";
  cig_TagSelector := tags; cig_Principals := Some (splitList (flag_string fs "principals"));
  cig_MaxValiditySeconds := to_seconds (flag_duration fs "max-validity") |}.
Definition runCIGrantCreate (args : list string) : CLI Z :=
  with_flags (common_flags ++ ciGrantFlags ++ [("project", FString "")]) args (λ fs,
    if bool_decide (flag_string fs "project" = "") ||
       bool_decide (splitList (flag_string fs "principals") = [])
    then say Stderr 2 "gssh-admin: --project and --principals are required"
    else or_fail program (sh_lift (parseTags (flag_string fs "tags"))) (λ tags,
      exchange fs (λ c, createCIGrant c (ci_grant_of_flags fs tags))
        (λ created, line ("ci-grant created: " +:+ cig_ID created +:+ " (project " +:+ cig_Project created +:+ ")")))).
Definition change_ci_grant (fs : FlagSet) (current : CIGrant) : result CIGrant :=
  match (if flag_changed fs "tags" then parseTags (flag_string fs "tags") else Ok (cig_TagSelector current)) with
  | Err e => Err e
  | Ok tags => Ok {|
      cig_ID := cig_ID current; cig_Project := cig_Project current;
      cig_RefPattern := if flag_changed fs "ref" then flag_string fs "ref" else cig_RefPattern current;
      cig_ProtectedOnly := if flag_changed fs "protected-only" then Some (flag_bool fs "protected-only")
                           else cig_ProtectedOnly current;
      cig_EnvironmentPattern := if flag_changed fs "environment" then flag_string fs "environment"
                                else cig_EnvironmentPattern current;
      cig_TagSelector := tags;
      cig_Principals := if flag_changed fs "principals" then flag_principals fs else cig_Principals current;
      cig_MaxValiditySeconds := if flag_changed fs "max-validity" then to_seconds (flag_duration fs "max-validity")
                                else cig_MaxValiditySeconds current |}
  end.
Definition runCIGrantUpdate (args : list string) : CLI Z :=
  with_id_arg "gssh-admin: ci-grant update <id> [flags]" (common_flags ++ ciGrantFlags) args (λ id fs,
    exchange fs (λ c,
      let^ current := getCIGrant c id in
      let^ changed := sh_lift (change_ci_grant fs current) in
      updateCIGrant c id changed)
      (λ updated, line ("ci-grant updated: " +:+ cig_ID updated +:+ " (project " +:+ cig_Project updated +:+ ")"))).
Definition runCIGrantDelete (args : list string) : CLI Z :=
  with_id_arg "gssh-admin: ci-grant delete <id>" common_flags args (λ id fs,
    exchange fs (λ c, deleteCIGrant c id) (λ _, line ("ci-grant deleted: " +:+ id))).

Definition loadGrantsFile (path : string) : CLI (list Grant * option (list CIGrant)) :=
  let^ raw := sh_try (sh_io (ReadFile path)) in
  let^ '(specs, ci) := sh_lift (LoadCombined (λ _, raw) path) in
  let rules : list Grant := grant_of_spec <$> specs in
  let ci_rules : option (list CIGrant) := (λ l : list CIGrantSpec, ci_grant_of_spec <$> l) <$> ci in
  sh_ret (rules, ci_rules).
Definition counts_line (what : string) (n : applyCounts) : message :=
  line (what +:+ " complete: " +:+ pretty (cnt_Created n) +:+ " created, " +:+ pretty (cnt_Updated n) +:+
        " updated, " +:+ pretty (cnt_Deleted n) +:+ " deleted, " +:+ pretty (cnt_Unchanged n) +:+ " unchanged").
Definition runApplyCmd (args : list string) : CLI Z :=
  with_flags (common_flags ++ [("f", FString "")]) args (λ fs,
    let file := flag_string fs "f" in
    if bool_decide (file = "") then say Stderr 2 "gssh-admin: apply -f <grants.yaml>"
    else
      or_fail program (loadGrantsFile file) (λ '(grants, ciGrants),
      or_fail program (connect fs) (λ c,
      or_fail program (applyGrants c grants) (λ result,
      print Stdout (counts_line "sync" result) ;^
      match ciGrants with
      | None => sh_ret 0%Z
      | Some ciGrants =>
          or_fail program (applyCIGrants c ciGrants) (λ ciResult,
          print Stdout (counts_line "ci-sync" ciResult) ;^ sh_ret 0%Z)
      end)))).

Definition runGrantCmd (args : list string) : CLI Z :=
  match args with
  | [] => say Stderr 2 "gssh-admin: grant requires a subcommand (list, create, update, delete)"
  | sub :: rest =>
      if bool_decide (sub = "list") then runGrantList rest
      else if bool_decide (sub = "create") then runGrantCreate rest
      else if bool_decide (sub = "update") then runGrantUpdate rest
      else if bool_decide (sub = "delete") then runGrantDelete rest
      else say Stderr 2 ("gssh-admin: unknown grant subcommand " +:+ sub)
  end.
Definition runCIGrantCmd (args : list string) : CLI Z :=
  match args with
  | [] => say Stderr 2 "gssh-admin: ci-grant requires a subcommand (list, create, update, delete)"
  | sub :: rest =>
      if bool_decide (sub = "list") then runCIGrantList rest
      else if bool_decide (sub = "create") then runCIGrantCreate rest
      else if bool_decide (sub = "update") then runCIGrantUpdate rest
      else if bool_decide (sub = "delete") then runCIGrantDelete rest
      else say Stderr 2 ("gssh-admin: unknown ci-grant subcommand " +:+ sub)
  end.
(** [usage] prints the overview of the commands, here one line. *)
Definition admin_usage (to : stream) (code : Z) : CLI Z :=
  say to code "gssh-admin — manage access rules (grants) for guided-ssh".
Definition Run (args : list string) : CLI Z :=
  match args with
  | [] => admin_usage Stderr 2
  | command :: rest =>
      if bool_decide (command = "grant") then runGrantCmd rest
      else if bool_decide (command = "ci-grant") then runCIGrantCmd rest
      else if bool_decide (command = "apply") then runApplyCmd rest
      else if bool_decide (command = "version") then say Stdout 0 version_String
      else if bool_decide (command ∈ ["help"; "-h"; "--help"]) then admin_usage Stdout 0
      else print Stderr (line ("gssh-admin: unknown command " +:+ command)) ;^ admin_usage Stderr 2
  end.
End commands.

(** ** What a run leaves behind *)
Section runs.
Context `{Desktop} `{CLIYAML} `{RulesYAML} `{OAuthClient} `{Network} {K : Type}.
Implicit Types s : Shell K.

#[export] Instance admin_do_disk {A} c m p b (t : option json → option A) : Stays (@same_disk K) (admin_do c m p b t).
Proof. unfold admin_do. apply _. Qed.
#[export] Instance connect_disk fs : Stays (@same_disk K) (connect fs).
Proof. unfold connect, obtain_token. stay. Qed.
#[export] Instance exchange_disk {A} fs (request : client → CLI K A) show :
  (∀ c, Stays same_disk (request c)) → Stays same_disk (exchange fs request show).
Proof. intros. unfold exchange. stay. Qed.
#[export] Instance say_disk to code text : Stays (@same_disk K) (say to code text).
Proof. unfold say. stay. Qed.
Lemma stays_with_id_arg usage flags args (k : string → FlagSet → CLI K Z) :
  (∀ id fs, Stays same_disk (k id fs)) → Stays same_disk (with_id_arg usage flags args k).
Proof. intros. unfold with_id_arg. stay. by apply stays_with_flags; [apply _..|]. Qed.
#[export] Instance loadGrantsFile_disk path : Stays (@same_disk K) (loadGrantsFile path).
Proof. unfold loadGrantsFile. stay. Qed.

Lemma admin_run_disk args : Stays (@same_disk K) (Run args).
Proof.
  unfold Run, runGrantCmd, runCIGrantCmd, runApplyCmd, runGrantList, runGrantCreate, runGrantUpdate, runGrantDelete,
    runCIGrantList, runCIGrantCreate, runCIGrantUpdate, runCIGrantDelete, admin_usage. stay;
    first [apply stays_with_flags; [apply _..|]|apply stays_with_id_arg]; stay; apply exchange_disk; stay.
Qed.

Lemma gives_exchange {A} fs (request : client → CLI K A) show : Gives exit_01 (exchange fs request show).
Proof. unfold exchange. gives. Qed.
Hint Resolve gives_exchange : gives.
Lemma exits_say to text : exits (@say K to 2 text).
Proof. intros s. by left. Qed.
Lemma exits_with_id_arg usage flags args (k : string → FlagSet → CLI K Z) :
  (∀ id fs, exits (k id fs)) → exits (with_id_arg usage flags args k).
Proof.
  intros Hk. unfold with_id_arg. destruct args as [|id rest]; [apply exits_say|].
  destruct (HasPrefix id "-"); [apply exits_say|]. by apply exits_flags.
Qed.
Ltac command :=
  first [apply exits_flags; intros fs|apply exits_with_id_arg; intros id fs];
  try (case_match; [apply exits_say|]); apply exits_gives; gives.
Lemma admin_run_exits args : exits (@Run _ _ _ _ _ K args).
Proof.
  unfold Run. destruct args as [|cmd rest]; [apply exits_say|]. repeat case_bool_decide.
  - unfold runGrantCmd. destruct rest as [|sub rest]; [apply exits_say|]. repeat case_bool_decide;
      [unfold runGrantList; command|unfold runGrantCreate; command|unfold runGrantUpdate; command
      |unfold runGrantDelete; command|apply exits_say].
  - unfold runCIGrantCmd. destruct rest as [|sub rest]; [apply exits_say|]. repeat case_bool_decide;
      [unfold runCIGrantList; command|unfold runCIGrantCreate; command|unfold runCIGrantUpdate; command
      |unfold runCIGrantDelete; command|apply exits_say].
  - unfold runApplyCmd. command.
  - apply exits_gives. gives.
  - apply exits_gives. unfold admin_usage. gives.
  - intros s. by left.
Qed.

(** [gssh-admin] ends with exit code 0, 1 or 2 and writes no file; after a usage error
    nothing has happened: no configuration was read, no token fetched, no request sent. *)
Theorem gssh_admin_exit_codes args s :
  ∃ code s', Run args s = (Ok code, s') ∧ same_disk s s' ∧
    ((code = 0 ∨ code = 1) ∨ code = 2 ∧ sh_Machine s' = sh_Machine s ∧ sh_Agent s' = sh_Agent s)%Z.
Proof.
  pose proof (admin_run_disk args s) as Hd. pose proof (admin_run_exits args s) as He.
  destruct (Run args s) as [r s']. simpl in *.
  destruct He as [(-> & Hm & Ha)|(code & -> & Hc)]; do 2 eexists; (split; [reflexivity|]); auto.
Qed.
End runs.
