(* ===== verification/AgentDaemon.v ===== *)
(** * The running agent (internal/agentd: daemon.go, cli.go, principals.go)

    [Daemon.Run] as the sequence of what its tickers and its socket make it do, and the
    commands of [gssh-agentd]. A tick's work and a socket request run one after the
    other here; two things interleave finer and are split accordingly: a flush sends
    without the lock it took the spool under ([FlushTake], [FlushSend]), and overlapping
    lookups are the steps of [Agentd]. *)
From S2P Require Export AgentSessions AgentEnroll Shell.

Local Open Scope string_scope.
Local Open Scope list_scope.

(** ** Computations that write certain files only *)
Section only.
Implicit Types P : string → Prop.

(** [c] writes files of [P] only, and makes no fault of its own. *)
Class Only {A} P (c : IO A) : Prop := only m :
  (∀ p, ¬ P p → mc_Files (c m).2 !! p = mc_Files m !! p) ∧ (mc_Faults m = [] → mc_Faults (c m).2 = []).
(** ... and always succeeds, with a result in [Q]. *)
Class Does {A} P (Q : A → Prop) (c : IO A) : Prop := does m :
  ∃ a m', c m = (Ok a, m') ∧ Q a ∧
  (∀ p, ¬ P p → mc_Files m' !! p = mc_Files m !! p) ∧ (mc_Faults m = [] → mc_Faults m' = []).

Lemma only_quiet {A} P (c : IO A) :
  (∀ m, mc_Files (c m).2 = mc_Files m ∧ (mc_Faults m = [] → mc_Faults (c m).2 = [])) → Only P c.
Proof. intros Hc m. destruct (Hc m) as [Hf Hn]. split; [|done]. intros p _. by rewrite Hf. Qed.
#[export] Instance only_ret {A} P (a : A) : Only P (io_ret a).
Proof. by apply only_quiet. Qed.
#[export] Instance only_fail {A} P e : Only P (io_fail (A:=A) e).
Proof. by apply only_quiet. Qed.
#[export] Instance only_lift {A} P (r : result A) : Only P (io_lift r).
Proof. by apply only_quiet. Qed.
#[export] Instance only_gets {A} P (f : Machine → A) : Only P (io_gets f).
Proof. by apply only_quiet. Qed.
#[export] Instance only_Now P : Only P io_Now.
Proof. apply only_quiet. intros m. unfold io_Now. by destruct (mc_Ticks m). Qed.
#[export] Instance only_Random P : Only P io_Random.
Proof. by apply only_quiet. Qed.
#[export] Instance only_call {A} P (f : N → result A) : Only P (io_call f).
Proof. by apply only_quiet. Qed.
#[export] Instance only_fault P : Only P next_fault.
Proof. apply only_quiet. intros m. unfold next_fault. destruct (mc_Faults m) eqn:E; simpl; split; congruence. Qed.
#[export] Instance only_error {A} P op path : Only P (io_error (A:=A) op path).
Proof. by apply only_quiet. Qed.
#[export] Instance only_command `{Commands} P argv : Only P (run_command argv).
Proof. by apply only_quiet. Qed.
#[export] Instance only_bind {A B} P (c : IO A) (k : A → IO B) : Only P c → (∀ a, Only P (k a)) → Only P (io_bind c k).
Proof.
  intros Hc Hk m. unfold io_bind. destruct (Hc m) as [Hf Hn]. destruct (c m) as [[a|e] m1]; [|done]. simpl in *.
  destruct (Hk a m1) as [Hf' Hn']. split; [|by auto]. intros p Hp. by rewrite Hf', Hf.
Qed.
#[export] Instance only_try {A} P (c : IO A) : Only P c → Only P (io_try c).
Proof. intros Hc m. unfold io_try. specialize (Hc m). by destruct (c m). Qed.
#[export] Instance only_wrap {A} P ctx (c : IO A) : Only P c → Only P (io_wrap ctx c).
Proof. intros Hc m. unfold io_wrap. specialize (Hc m). by destruct (c m) as [[]]. Qed.
Lemma only_set P path data : P path → Only P (set_file path data).
Proof. intros Hp m. split; [|done]. intros q Hq. simpl. apply lookup_insert_ne. by intros ->. Qed.

Lemma does_only {A} P Q (c : IO A) : Does P Q c → Only P c.
Proof. intros Hc m. by destruct (Hc m) as (a & m' & -> & _ & ?). Qed.
Lemma does_ret {A} P (Q : A → Prop) a : Q a → Does P Q (io_ret a).
Proof. intros Ha m. by exists a, m. Qed.
Lemma does_bind {A B} P (Q : A → Prop) (R : B → Prop) c k :
  Does P Q c → (∀ a, Q a → Does P R (k a)) → Does P R (io_bind c k).
Proof.
  intros Hc Hk m. unfold io_bind. destruct (Hc m) as (a & m1 & -> & Ha & Hf & Hn).
  destruct (Hk a Ha m1) as (b & m2 & -> & Hb & Hf' & Hn'). exists b, m2. split; [done|]. split; [done|].
  split; [|by auto]. intros p Hp. by rewrite Hf', Hf.
Qed.
Lemma does_try {A} P (c : IO A) : Only P c → Does P (λ _, True) (io_try c).
Proof.
  intros Hc m. unfold io_try. specialize (Hc m). destruct (c m) as [r m']. by exists r, m'.
Qed.
Lemma does_Now P : Does P (λ _, True) io_Now.
Proof. intros m. pose proof (only (P := P) (c := io_Now) m) as Ho. unfold io_Now in *. destruct (mc_Ticks m); by do 2 eexists. Qed.
Lemma does_Random P : Does P (λ _, True) io_Random.
Proof. intros m. by do 2 eexists. Qed.
Lemma does_command `{Commands} P argv : Does P (λ _, True) (run_command argv).
Proof. intros m. by do 2 eexists. Qed.
Lemma does_weaken {A} P (Q R : A → Prop) c : Does P Q c → (∀ a, Q a → R a) → Does P R c.
Proof. intros Hc Hw m. destruct (Hc m) as (a & m' & ? & ? & ?). exists a, m'. auto. Qed.
End only.

(** Follow the binds of a computation; [P path] of a written file by [auto]. *)
Create HintDb writes.
Ltac only_by :=
  intros; lazymatch goal with
  | |- Only _ (match ?x with _ => _ end) => destruct x; only_by
  | |- Only _ (let _ := _ in _) => cbv zeta; only_by
  | |- Only _ (io_bind _ _) => apply only_bind; only_by
  | |- Only _ (io_try _) => apply only_try; only_by
  | |- Only _ (io_wrap _ _) => apply only_wrap; only_by
  | |- _ => first [apply _|solve [eauto with writes]]
  end.
#[export] Hint Resolve only_set : writes.
Section files.
Implicit Types P : string → Prop.
#[export] Instance only_ReadFile P path : Only P (ReadFile path).
Proof. unfold ReadFile. only_by. Qed.
#[export] Instance only_StatSize P path : Only P (StatSize path).
Proof. unfold StatSize. only_by. Qed.
Lemma only_WriteFile P path data : P path → Only P (WriteFile path data).
Proof. intros Hp. unfold WriteFile. only_by. Qed.
Lemma only_AppendFile P path data : P path → Only P (AppendFile path data).
Proof. intros Hp. unfold AppendFile. only_by. Qed.
Lemma only_Truncate P path : P path → Only P (Truncate path).
Proof. intros Hp. unfold Truncate. only_by. Qed.
Lemma only_Rename P old new : P old → P new → Only P (Rename old new).
Proof.
  intros Ho Hn m. unfold Rename, next_fault, io_bind, io_gets, io_error, io_fail.
  destruct (mc_Faults m) as [|f fs] eqn:E; simpl; [|destruct f]; destruct (mc_Files m !! old); simpl;
    (split; [intros p Hp|congruence]); try done; rewrite lookup_insert_ne, lookup_delete_ne; congruence.
Qed.
Lemma only_Remove P path : P path → Only P (Remove path).
Proof.
  intros Ho m. unfold Remove, next_fault, io_bind, io_gets, io_error, io_fail.
  destruct (mc_Faults m) as [|f fs] eqn:E; simpl; [|destruct f]; destruct (mc_Files m !! path); simpl;
    (split; [intros p Hp|congruence]); try done; rewrite lookup_delete_ne; congruence.
Qed.
#[export] Instance only_MkdirAll P path : Only P (MkdirAll path).
Proof. apply only_quiet. intros m. unfold MkdirAll, next_fault, io_bind. destruct (mc_Faults m) as [|[] fs] eqn:E; simpl; split; congruence. Qed.
Lemma only_writeFileAtomic P path data : P path → P (path +:+ ".tmp") → Only P (writeFileAtomic path data).
Proof. intros Hp Ht. unfold writeFileAtomic. apply only_bind; [by apply only_WriteFile|]. intros _. by apply only_Rename. Qed.
End files.
#[export] Hint Resolve only_WriteFile only_AppendFile only_Truncate only_Rename only_Remove only_writeFileAtomic : writes.

(** ** The daemon's loop (daemon.go, Run) *)
Record Running := {
  rn_Daemon : Daemon;
  rn_Flight : option string               (* the spool a flush took and has not sent yet *)
}.
Inductive daemon_event :=
| RenewTick | BundleTick | HeartbeatTick | FlushTake | FlushSend
| SocketRequest (route : sock_route) (r : SockRequest).

Section daemon.
Context `{Encodings} `{AgentYAML} `{HostCrypto} `{Commands} (api : agentAPI).
(** Opening the unix socket and its mode. *)
Variables (net_Listen chmod : string → result unit).

Definition with_daemon (d : Daemon) (s : Running) : Running := {| rn_Daemon := d; rn_Flight := rn_Flight s |}.
Definition with_flight (f : option string) (s : Running) : Running := {| rn_Daemon := rn_Daemon s; rn_Flight := f |}.
(** The flush ticker only exists with session audit; one flush runs at a time. *)
Definition on_event (s : Running) (ev : daemon_event) : IO Running :=
  let d := rn_Daemon s in
  match ev with
  | RenewTick =>
      renewIfNeeded api d ;!
      let! d := rotateMTLSIfNeeded api d in io_ret (with_daemon d s)
  | BundleTick => refreshBundle api d ;! io_ret s
  | HeartbeatTick => heartbeat api ;! io_ret s
  | FlushTake =>
      match sessionAuditEnabled d, rn_Flight s with
      | true, None => let! raw := take_spool d in io_ret (with_flight (Some raw) s)
      | _, _ => io_ret s
      end
  | FlushSend =>
      match rn_Flight s with
      | Some raw => send_spool api d raw ;! io_ret (with_flight None s)
      | None => io_ret s
      end
  | SocketRequest route r =>
      let! '(_, d) := socketHandler api d route r in io_ret (with_daemon d s)
  end.
Fixpoint serve (s : Running) (evs : list daemon_event) : IO Running :=
  match evs with
  | [] => io_ret s
  | ev :: evs => let! s := on_event s ev in serve s evs
  end.
(** What the loop does before its first tick; requests may come before each of it. *)
Definition startup (d : Daemon) : list daemon_event :=
  [BundleTick; RenewTick; HeartbeatTick] ++ (if sessionAuditEnabled d then [FlushTake; FlushSend] else []).
Fixpoint with_requests (early : list (list (sock_route * SockRequest))) (evs : list daemon_event) : list daemon_event :=
  match evs with
  | [] => []
  | ev :: evs => map (λ '(route, r), SocketRequest route r) (hd [] early) ++ ev :: with_requests (tl early) evs
  end.
Definition listen (d : Daemon) : IO unit :=
  MkdirAll (Path_Dir (SocketPath (d_Cfg d))) ;!
  let! _ := io_try (Remove (SocketPath (d_Cfg d))) in
  io_wrap ("opening socket " +:+ SocketPath (d_Cfg d)) (io_lift (net_Listen (SocketPath (d_Cfg d)))) ;!
  io_lift (chmod (SocketPath (d_Cfg d))).
(** What happens to a running agent: the requests that come while it starts, what
    comes after, and how it ends (the server's shutdown, or the error of its socket). *)
Record Life := {
  life_Early : list (list (sock_route * SockRequest)); life_Events : list daemon_event; life_Stop : result unit
}.
Definition Run (d : Daemon) (life : Life) : IO unit :=
  let! d := loadCache d in
  listen d ;!
  serve {| rn_Daemon := d; rn_Flight := None |} (with_requests (life_Early life) (startup d) ++ life_Events life) ;!
  io_lift (life_Stop life).

(** ** What the loop leaves alone *)

(** The files the agent writes while it runs. *)
Definition own_files (cfg : Config) (dir : string) : list string := [
  CacheFile dir; SpoolFile dir; AgentKeyFile dir; AgentKeyFile dir +:+ ".tmp"; AgentCertFile dir;
  AgentCertFile dir +:+ ".tmp"; HostCertPath (SSHKeyPath cfg); UserCAPath (SSHDir cfg); SocketPath cfg].
Definition own_file (d : Daemon) (p : string) : Prop := p ∈ own_files (d_Cfg d) (d_StateDir d).
(** The configuration is fixed, and the pair in use belongs together. *)
Definition usable_pair (d : Daemon) : Prop := key_pair (d_ClientCert d).1 (d_ClientCert d).2 = true.
Definition same_agent (d d' : Daemon) : Prop :=
  d_Cfg d' = d_Cfg d ∧ d_StateDir d' = d_StateDir d ∧ d_Token d' = d_Token d ∧ (usable_pair d → usable_pair d').
#[export] Instance same_agent_preorder : PreOrder same_agent.
Proof. split; [done|]. intros x y z (? & ? & ? & ?) (? & ? & ? & ?). repeat split; try congruence. auto. Qed.
Lemma own_file_same d d' p : same_agent d d' → own_file d' p ↔ own_file d p.
Proof. intros (Hc & Hs & _). unfold own_file. by rewrite Hc, Hs. Qed.

Ltac own := unfold own_file, own_files; rewrite !elem_of_cons; tauto.
Hint Extern 1 (own_file _ _) => own : writes.
Ltac does_by :=
  intros; lazymatch goal with
  | |- Does _ _ (match ?x with _ => _ end) => destruct x; does_by
  | |- Does _ _ (let _ := _ in _) => cbv zeta; does_by
  | |- Does _ _ (io_bind _ _) => eapply does_bind; [does_by|does_by]
  | |- Does _ _ (io_try _) => apply does_try; only_by
  | |- Does _ _ (io_ret _) => apply does_ret; try done
  | |- Does _ _ io_Now => apply does_Now
  | |- Does _ _ io_Random => apply does_Random
  | |- Does _ _ (run_command _) => apply does_command
  | |- _ => try solve [eauto with writes]
  end.

Lemma persistCache_does d : Does (own_file d) (λ _, True) (persistCache d).
Proof. unfold persistCache. does_by. Qed.
Lemma if_younger_does P limit entry : Does P (λ _, True) (if_younger limit entry).
Proof. unfold if_younger. does_by. Qed.
Hint Resolve if_younger_does : writes.
Lemma principals_does d user : Does (own_file d) (λ '(_, d'), same_agent d d') (principals api d user).
Proof.
  unfold principals. eapply does_bind; [apply if_younger_does|]. intros [ps|] _; [by apply does_ret|].
  eapply does_bind; [apply does_try; only_by|]. intros [ps|e] _.
  - eapply does_bind; [apply does_Now|]. intros now _.
    cbv zeta. set (d1 := with_cache _ d). change (own_file d) with (own_file d1).
    eapply does_bind; [apply persistCache_does|]. intros _ _. by apply does_ret.
  - eapply does_bind; [apply if_younger_does|]. intros old _. by apply does_ret.
Qed.
Lemma needsRenewal_does P path now : Does P (λ _, True) (needsRenewal path now).
Proof. unfold needsRenewal. does_by. Qed.
Lemma mtlsNeedsRotation_does P path now : Does P (λ _, True) (mtlsNeedsRotation path now).
Proof. unfold mtlsNeedsRotation. does_by. Qed.
Hint Resolve needsRenewal_does mtlsNeedsRotation_does : writes.
Lemma renewIfNeeded_does d : Does (own_file d) (λ _, True) (renewIfNeeded api d).
Proof. unfold renewIfNeeded, runReloadCommand. does_by. Qed.
Lemma rotate_does d : Does (own_file d) (same_agent d) (rotateMTLSIfNeeded api d).
Proof.
  unfold rotateMTLSIfNeeded. eapply does_bind; [apply does_Now|]. intros now _.
  eapply does_bind; [apply mtlsNeedsRotation_does|]. intros [] _; simpl; [|by apply does_ret].
  eapply does_bind; [apply does_Random|]. intros n _. destruct (new_key_csr n) as [[key csr]|]; [|by apply does_ret].
  eapply does_bind; [does_by|]. intros [cert|e] _; [|by apply does_ret].
  destruct (key_pair cert key) eqn:Hpair; simpl; [|by apply does_ret].
  eapply does_bind; [does_by|]. intros [[]|e] _; [|by apply does_ret].
  eapply does_bind; [does_by|]. intros [[]|e] _; by apply does_ret.
Qed.
Lemma refreshBundle_does d : Does (own_file d) (λ _, True) (refreshBundle api d).
Proof. unfold refreshBundle. does_by. Qed.
Lemma heartbeat_does P : Does P (λ _, True) (heartbeat api).
Proof. unfold heartbeat. does_by. Qed.
Lemma take_spool_does d : Does (own_file d) (λ _, True) (take_spool d).
Proof. unfold take_spool. does_by. Qed.
Lemma requeueSpool_does d l : Does (own_file d) (λ _, True) (requeueSpool d l).
Proof. unfold requeueSpool. does_by. Qed.
Hint Resolve requeueSpool_does : writes.
Lemma send_spool_does d raw : Does (own_file d) (λ _, True) (send_spool api d raw).
Proof. unfold send_spool. does_by. Qed.
Lemma spoolAppend_only d ev : Only (own_file d) (spoolAppend d ev).
Proof. unfold spoolAppend. only_by. Qed.
Lemma recordAuth_does P d rec : Does P (same_agent d) (recordAuth d rec).
Proof. unfold recordAuth. does_by. Qed.
Lemma takeSerial_does P d user : Does P (λ '(_, _, d'), same_agent d d') (takeSerial d user).
Proof. unfold takeSerial. eapply does_bind; [apply does_Now|]. intros now _. apply does_ret. by destruct (take_last _ _) as [[]|]. Qed.
Lemma handleAuth_does P d r : Does P (λ '(_, d'), same_agent d d') (handleAuth d r).
Proof.
  unfold handleAuth. destruct (negb _); [by apply does_ret|]. destruct (_ ≫= _) as [rec|]; [|by apply does_ret].
  destruct (bool_decide _); [by apply does_ret|].
  eapply does_bind; [apply recordAuth_does|]. intros d' Hd. by apply does_ret.
Qed.
Lemma handleSessionEvent_does d r : Does (own_file d) (λ '(_, d'), same_agent d d') (handleSessionEvent d r).
Proof.
  unfold handleSessionEvent. destruct (negb _); [by apply does_ret|].
  destruct (_ ≫= _) as [ev|]; [|by apply does_ret].
  apply (does_bind _ (λ '(_, d'), same_agent d d')).
  - destruct (is_sshd_open ev); [|by apply does_ret].
    eapply does_bind; [apply takeSerial_does|]. intros [[n k] d'] Hd. by apply does_ret.
  - intros [ev' d'] Hd. eapply does_bind; [apply does_try|intros; by apply does_ret].
    intros m. destruct (spoolAppend_only d' ev' m) as [Hf Hn]. split; [|done].
    intros p Hp. apply Hf. by rewrite (own_file_same d).
Qed.
Lemma socketHandler_does d route r : Does (own_file d) (λ '(_, d'), same_agent d d') (socketHandler api d route r).
Proof.
  unfold socketHandler. destruct route.
  - destruct (bool_decide _); [by apply does_ret|].
    eapply does_bind; [apply principals_does|]. intros [answer d'] Hd. by apply does_ret.
  - by apply does_ret.
  - destruct (sessionAuditEnabled d); [apply handleAuth_does|by apply does_ret].
  - destruct (sessionAuditEnabled d); [apply handleSessionEvent_does|by apply does_ret].
Qed.

Definition same_running (s s' : Running) : Prop := same_agent (rn_Daemon s) (rn_Daemon s').
Lemma on_event_does s ev : Does (own_file (rn_Daemon s)) (same_running s) (on_event s ev).
Proof.
  unfold on_event. destruct ev as [| | | | |route r].
  - eapply does_bind; [apply renewIfNeeded_does|]. intros _ _.
    eapply does_bind; [apply rotate_does|]. intros d Hd. by apply does_ret.
  - eapply does_bind; [apply refreshBundle_does|]. intros _ _. by apply does_ret.
  - eapply does_bind; [apply heartbeat_does|]. intros _ _. by apply does_ret.
  - destruct (sessionAuditEnabled _), (rn_Flight s); try by apply does_ret.
    eapply does_bind; [apply take_spool_does|]. intros raw _. by apply does_ret.
  - destruct (rn_Flight s); [|by apply does_ret].
    eapply does_bind; [apply send_spool_does|]. intros _ _. by apply does_ret.
  - eapply does_bind; [apply socketHandler_does|]. intros [resp d] Hd. by apply does_ret.
Qed.
Lemma serve_does s evs : Does (own_file (rn_Daemon s)) (same_running s) (serve s evs).
Proof.
  revert s. induction evs as [|ev evs IH]; intros s; cbn [serve]; [by apply does_ret|].
  eapply does_bind; [apply on_event_does|]. intros s' Hs m.
  destruct (IH s' m) as (s2 & m' & ? & ? & Hf & ?). exists s2, m'. split; [done|].
  split; [unfold same_running in *; by etrans|].
  split; [|done]. intros p Hp. apply Hf. by rewrite (own_file_same (rn_Daemon s)).
Qed.
Lemma loadCache_does d : Does (own_file d) (same_agent d) (loadCache d).
Proof.
  unfold loadCache. eapply does_bind; [does_by|]. intros [raw|e] _; apply does_ret; [|done].
  destruct (json_parse raw ≫= cache_of); split_and!; done.
Qed.
Lemma listen_only d : Only (own_file d) (listen d).
Proof. unfold listen. only_by. Qed.
Lemma NewDaemon_Ok dir m d m1 :
  NewDaemon dir m = (Ok d, m1) → d_StateDir d = dir ∧ usable_pair d ∧ mc_Files m1 = mc_Files m.
Proof.
  intros Hrun. assert (mc_Files m1 = mc_Files m) as Hfiles.
  { apply map_eq. intros p. assert (Only (λ _, False) (NewDaemon dir)) as Ho.
    { unfold NewDaemon, LoadConfig, newAPIClient, readSocketToken. only_by. }
    destruct (Ho m) as [Hf _]. rewrite Hrun in Hf. apply (Hf p). tauto. }
  unfold NewDaemon in Hrun. apply io_bind_Ok in Hrun as (cfg & m2 & _ & Hrun).
  apply io_bind_Ok in Hrun as ([cert key] & m3 & Hcert & Hrun).
  apply io_bind_Ok in Hrun as (token & m4 & _ & Hrun). unfold io_ret in Hrun. injection Hrun as <- _.
  split; [done|]. split; [|done]. unfold usable_pair. cbn [d_ClientCert fst snd].
  unfold newAPIClient in Hcert. apply io_bind_Ok in Hcert as (c & m5 & _ & Hcert).
  apply io_bind_Ok in Hcert as (k & m6 & _ & Hcert). destruct (key_pair c k) eqn:Hpair; [|done]. simpl in Hcert.
  apply io_bind_Ok in Hcert as (ca & m7 & _ & Hcert). destruct (cert_pool ca); [|done]. simpl in Hcert.
  unfold io_ret in Hcert. by injection Hcert as <- <- _.
Qed.

(** C13: The running agent is robust and keeps to itself: once started, no tick of its
    timers and no request on its socket stops it, whatever the server answers and
    whichever file operations fail; its configuration is what it started with and the
    certificate it authenticates with belongs to its key at every moment; and the only
    files that it ever writes are its cache, its spool, its own key and certificate, the
    host certificate, the file of trusted user CAs and its socket. [Run] ends only when
    it is told to, or when it cannot open the socket. *)
Theorem agent_keeps_running dir m d m1
  (Hnew : NewDaemon dir m = (Ok d, m1)) :
  (∀ evs, ∃ s m2, serve {| rn_Daemon := d; rn_Flight := None |} evs m1 = (Ok s, m2) ∧
     d_Cfg (rn_Daemon s) = d_Cfg d ∧ usable_pair (rn_Daemon s) ∧
     ∀ p, p ∉ own_files (d_Cfg d) dir → mc_Files m2 !! p = mc_Files m !! p) ∧
  ∀ life r m2, Run d life m1 = (r, m2) →
    (r = life_Stop life ∨ ∃ e, (listen d (loadCache d m1).2).1 = Err e ∧ r = Err e) ∧
    ∀ p, p ∉ own_files (d_Cfg d) dir → mc_Files m2 !! p = mc_Files m !! p.
Proof.
  destruct (NewDaemon_Ok _ _ _ _ Hnew) as (Hdir & Hpair & Hfiles). rewrite <-Hfiles, <-Hdir. split.
  - intros evs. destruct (serve_does {| rn_Daemon := d; rn_Flight := None |} evs m1) as (s & m2 & Hs & Hsame & Hf & _).
    exists s, m2. split; [done|]. destruct Hsame as (Hc & _ & _ & Hp). split; [done|]. split; [by apply Hp|done].
  - intros life r m2. unfold Run, io_bind.
    destruct (loadCache_does d m1) as (d1 & m3 & El & Hd & Hf1 & _). rewrite El. cbn [fst snd].
    assert (listen d1 = listen d) as -> by (destruct Hd as (Hc & _); unfold listen; by rewrite Hc).
    destruct (listen_only d m3) as [Hf2 _]. destruct (listen d m3) as [[u|e] m4] eqn:Elisten; simpl in Hf2.
    2: { intros [= <- <-]. split; [right; by exists e|]. intros p Hp. rewrite (Hf2 p), (Hf1 p); done. }
    match goal with |- context [serve ?s0 ?l m4] => destruct (serve_does s0 l m4) as (s & m5 & Es & _ & Hf3 & _) end.
    rewrite Es. unfold io_lift. intros [= <- <-]. split; [by left|]. intros p Hp.
    rewrite (Hf3 p), (Hf2 p), (Hf1 p); [done..|]. by rewrite (own_file_same d) by exact Hd.
Qed.
End daemon.

(** ** Concrete runs *)

(** A day on a host whose disk fails from time to time. *)
Notation toy_failing := (toy_machine [] [NoFault; NoFault; NoFault; NoFault; NoFault; FailsAtOnce; NoFault; FailsAfter 3; FailsAtOnce]).
Notation toy_day := [RenewTick; BundleTick; FlushTake; SocketRequest GET_principals
  {| sr_Token := ""; sr_User := "root"; sr_Body := None |}; SocketRequest POST_session_event
  {| sr_Token := "no"; sr_User := ""; sr_Body := None |}; FlushSend; HeartbeatTick].
Notation toy_start := (NewDaemon (H0 := toy_yaml) (H1 := toy_host) "/var/lib/guided-ssh" toy_failing).
Lemma toy_start_runs : toy_start = (Ok toy_daemon, toy_start.2).
Proof. vm_compute. reflexivity. Qed.

Lemma agent_keeps_running_witness :
  ∃ s m2, serve (H := toy_encodings) (H1 := toy_host) (H2 := toy_commands) toy_api
    {| rn_Daemon := toy_daemon; rn_Flight := None |} toy_day toy_start.2 = (Ok s, m2) ∧
    usable_pair (H1 := toy_host) (rn_Daemon s) ∧ mc_Files m2 !! "/etc/ssh/key.pub" = Some "key".
Proof.
  destruct (agent_keeps_running (H := toy_encodings) (H0 := toy_yaml) (H1 := toy_host) (H2 := toy_commands) toy_api
    (λ _, Ok ()) (λ _, Ok ()) "/var/lib/guided-ssh" toy_failing toy_daemon toy_start.2 toy_start_runs) as [Hserve _].
  destruct (Hserve toy_day) as (s & m2 & Hs & _ & Hp & Hf). exists s, m2. split; [exact Hs|]. split; [exact Hp|].
  rewrite Hf; [vm_compute; reflexivity|]. vm_compute. intros Hin. repeat (apply elem_of_cons in Hin as [Hin|Hin]; [discriminate|]).
  by apply elem_of_nil in Hin.
Defined.
