(* ===== verification/AgentCLI.v ===== *)
(** * The commands of gssh-agentd (internal/agentd: cli.go, socket.go, principals.go)

    Every command from its arguments to its exit code. Two of them are hooks: sshd asks
    [principals] who may log in and takes silence for a refusal; PAM runs [pam-session],
    which must never stand in the way. Both reach the daemon over its unix socket. *)
From S2P Require Export AgentDaemon AgentServer.

Local Open Scope string_scope.
Local Open Scope list_scope.

(** ** The socket, from the helpers' side *)

(** [sock n method url token body]: the n-th exchange over the unix socket. *)
Definition socket_transport : Type := N → string → string → string → option json → option HTTPAnswer.

Section helpers.
Context `{Encodings} `{AgentYAML}.
Variable sock : socket_transport.

Definition postSocketJSON (token path : string) (body : json) : IO unit :=
  io_call (λ n,
    match sock n "POST" path token (Some body) with
    | None => Err (ErrWrap "gssh-agentd unreachable" (ErrOther "dial unix"))
    | Some a => if is_2xx (ha_Status a) then Ok () else Err (ErrOther ("socket " +:+ path))
    end).
Definition socket_principals_url (user : string) : string := "/principals?user=" +:+ QueryEscape user.
(** The status of the answer, and the principals it lists. *)
Definition get_principals (user : string) : IO (Z * option (list string)) :=
  io_call (λ n,
    match sock n "GET" (socket_principals_url user) "" None with
    | None => Err (ErrOther "dial unix")
    | Some a => Ok (ha_Status a, ha_JSON a ≫= dec_principals)
    end).

(** What [r] is asked for and what the answer looks like on the socket. *)
Definition socket_request (url : string) : SockRequest := {|
  sr_Token := ""; sr_User := default "" (parse_query (cut_or url "?").2 !! "user"); sr_Body := None |}.
Definition socket_answer (r : SockResponse) : HTTPAnswer := {|
  ha_Status := sock_Status r;
  ha_Text := match sock_Body r with SockText s => s | _ => "" end;
  ha_JSON := match sock_Body r with SockPrincipals ps => Some (JObj [("principals", JStrs ps)]) | _ => None end |}.
(** A daemon listens on the socket: what it answers is what [socketHandler] does then. *)
Definition daemon_listens (api : agentAPI) : Prop := ∀ n url a,
  sock n "GET" url "" None = Some a →
  ∃ d m resp d' m', socketHandler api d GET_principals (socket_request url) m = (Ok (resp, d'), m') ∧
    a = socket_answer resp.

Lemma socket_request_user user : sr_User (socket_request (socket_principals_url user)) = user.
Proof.
  unfold socket_request, socket_principals_url, cut_or. cbn [sr_User].
  change ("/principals?user=" +:+ QueryEscape user) with ("/principals" +:+ String "?" ("user=" +:+ QueryEscape user)).
  rewrite Cut_first by (simpl; naive_solver). cbn [snd]. rewrite parse_query_user. by rewrite lookup_singleton_eq.
Qed.

(** The daemon's 200 is a list its cache or the server gave. *)
Lemma get_principals_served api user m ps m' :
  daemon_listens api → get_principals user m = (Ok (200%Z, Some ps), m') →
  ∃ d m1 d' m2, principals api d user m1 = (Ok (Ok ps, d'), m2).
Proof.
  intros Hd. unfold get_principals, io_call. destruct (sock _ _ _ _ _) as [a|] eqn:Ea; [|done].
  intros [= Hstatus Hps _]. apply Hd in Ea as (d & m1 & resp & d' & m2 & Hrun & ->).
  unfold socketHandler in Hrun. rewrite socket_request_user in Hrun. case_bool_decide as Huser.
  { unfold io_ret in Hrun. injection Hrun as <- _ _. done. }
  apply io_bind_Ok in Hrun as ([answer d2] & m3 & Hrun & Hret). unfold io_ret in Hret.
  injection Hret as <- _ _. destruct answer as [l|e]; simpl in Hstatus, Hps; [|done].
  rewrite dec_principals_json in Hps. injection Hps as ->. eauto.
Qed.

(** The helper succeeds only with what the socket answered. *)
Lemma PrintPrincipals_Ok dir user serial keyid m ps m' :
  PrintPrincipals postSocketJSON get_principals dir user serial keyid m = (Ok ps, m') →
  ∃ m1 m2, get_principals user m1 = (Ok (200%Z, Some ps), m2).
Proof.
  unfold PrintPrincipals. case_bool_decide; [done|]. intros Hrun.
  apply io_bind_Ok in Hrun as (cfg & m1 & _ & Hrun).
  apply io_bind_Ok in Hrun as ([code answer] & m2 & Hget & Hrun).
  unfold io_wrap in Hget. destruct (get_principals user m1) as [[]] eqn:Eg; [|done]. injection Hget as -> ->.
  destruct (Z.eqb_spec code 200) as [->|]; [|done]. simpl in Hrun. destruct answer as [l|]; [|done].
  apply io_bind_Ok in Hrun as (u & m3 & _ & Hrun). unfold io_ret in Hrun. injection Hrun as -> _. eauto.
Qed.
End helpers.

(** ** The commands (cli.go) *)
Section commands.
Context `{Encodings} `{AgentYAML} `{HostCrypto} `{Commands} `{HostEnv} `{Desktop}.
(** The network of the agent, its draws of random bytes, the socket from both sides, and
    what happens to the daemon once it runs. *)
Variables (http : transport) (random_hex : N → string) (sock : socket_transport)
  (net_Listen chmod : string → result unit) (life : Life).
Notation CLI := (CLI unit).

(** [fmt.Fprintf(stderr, "gssh-agentd: ...")] and its code. *)
Definition complain (code : Z) (text : string) : CLI Z := say Stderr code ("gssh-agentd: " +:+ text).

Definition enroll_flags : list (string * flagValue) := [
  ("server", FString ""); ("agent-url", FString ""); ("token", FString ""); ("hostname", FString "");
  ("tags", FString ""); ("pin", FString ""); ("require-pin", FBool (requirePinFromEnv Getenv));
  ("state-dir", FString DefaultStateDir); ("ssh-dir", FString DefaultSSHDir); ("ssh-key", FString "");
  ("session-audit", FBool false); ("reload-command", FString ""); ("no-reload", FBool false)].
Definition enroll_options (fs : FlagSet) (tags : gmap string string) : EnrollOptions := {|
  opt_ServerURL := flag_string fs "server"; opt_AgentURL := flag_string fs "agent-url";
  opt_Token := flag_string fs "token"; opt_Hostname := flag_string fs "hostname"; opt_Tags := tags;
  opt_PinSHA256 := flag_string fs "pin"; opt_StateDir := flag_string fs "state-dir";
  opt_SSHDir := flag_string fs "ssh-dir"; opt_SSHKeyPath := flag_string fs "ssh-key";
  opt_SessionAudit := flag_bool fs "session-audit"; opt_PAMDir := "";
  opt_ReloadCommand := flag_string fs "reload-command"; opt_NoReload := flag_bool fs "no-reload";
  opt_sshdBinary := "" |}.
Definition runEnrollCmd (args : list string) : CLI Z :=
  with_flags enroll_flags args (λ fs,
    match parseTags (flag_string fs "tags") with
    | Err e => print Stderr (Failure "gssh-agentd" e) ;^ sh_ret 2%Z
    | Ok tags =>
        if flag_bool fs "require-pin" && bool_decide (flag_string fs "pin" = "")
        then complain 2 ("--require-pin set (or GSSH_ENROLL_REQUIRE_PIN), but --pin is missing" +:+
               " — enrollment aborted")
        else or_fail "gssh-agentd: enrollment failed"
               (sh_io (Enroll http random_hex (enroll_options fs tags))) (λ _, sh_ret 0%Z)
    end).

Definition state_dir_flag : string * flagValue := ("state-dir", FString DefaultStateDir).
Definition runDaemonCmd (args : list string) : CLI Z :=
  with_flags [state_dir_flag] args (λ fs,
    or_fail "gssh-agentd" (sh_io (NewDaemon (flag_string fs "state-dir"))) (λ d,
      let^ r := sh_try (sh_io (Run (apiClient (AgentURL (d_Cfg d)) http) net_Listen chmod d life)) in
      sh_ret (if is_ok r then 0 else 1)%Z)).

Definition print_lines (ps : list string) : CLI unit :=
  foldr (λ p c, print Stdout (Line (p +:+ newline)) ;^ c) (sh_ret ()) ps.
Definition principals_flags : list (string * flagValue) := [
  state_dir_flag; ("user", FString ""); ("serial", FInt64 0); ("keyid", FString "")].
Definition runPrincipalsCmd (args : list string) : CLI Z :=
  with_flags principals_flags args (λ fs,
    or_fail "gssh-agentd"
      (sh_io (PrintPrincipals (postSocketJSON sock) (get_principals sock) (flag_string fs "state-dir")
         (flag_string fs "user") (flag_int64 fs "serial") (flag_string fs "keyid")))
      (λ ps, print_lines ps ;^ sh_ret 0%Z)).

Definition runPAMSessionCmd (args : list string) : CLI unit :=
  match Parse (NewFlagSet [state_dir_flag]) args with
  | FlagError message => print Stderr (Line message)
  | Parsed fs _ =>
      let^ r := sh_try (sh_io (RunPAMSession (postSocketJSON sock) (flag_string fs "state-dir") Getenv)) in
      match r with
      | Ok _ => sh_ret ()
      | Err e => print Stderr (Failure "gssh-agentd: pam-session (ignored)" e)
      end
  end.

(** [usage] prints the overview of the commands, here one line. *)
Definition usage (to : stream) : CLI unit := print to (Line "gssh-agentd — host agent of guided-ssh").
Definition agentd_Run (args : list string) : CLI Z :=
  match args with
  | [] => usage Stderr ;^ sh_ret 2%Z
  | command :: rest =>
      if bool_decide (command = "enroll") then runEnrollCmd rest
      else if bool_decide (command = "run") then runDaemonCmd rest
      else if bool_decide (command = "principals") then runPrincipalsCmd rest
      else if bool_decide (command = "pam-session") then runPAMSessionCmd rest ;^ sh_ret 0%Z
      else if bool_decide (command = "version") then say Stdout 0 version_String
      else if bool_decide (command ∈ ["help"; "-h"; "--help"]) then usage Stdout ;^ sh_ret 0%Z
      else print Stderr (Line ("gssh-agentd: unknown command " +:+ command)) ;^ usage Stderr ;^ sh_ret 2%Z
  end.

(** ** What sshd and PAM get *)

(** What was printed on standard output, the last line first. *)
Definition stdout {K} (s : Shell K) : list message := omap (λ '(to, m), match to with Stdout => Some m | Stderr => None end) (sh_Out s).

Lemma print_lines_run ps s :
  ∃ s', print_lines ps s = (Ok (), s') ∧
  stdout s' = reverse (map (λ p, Line (p +:+ newline)) ps) ++ stdout s.
Proof.
  revert s. induction ps as [|p ps IH]; intros s; [by exists s|].
  destruct (IH {| sh_Machine := sh_Machine s; sh_Agent := sh_Agent s;
    sh_Out := (Stdout, Line (p +:+ newline)) :: sh_Out s |}) as (s' & Hrun & Hout).
  exists s'. split; [exact Hrun|]. rewrite Hout. cbn [map]. rewrite reverse_cons, <-(assoc_L (++)). done.
Qed.
Lemma runPAMSessionCmd_run args s :
  ∃ s', runPAMSessionCmd args s = (Ok (), s') ∧ stdout s' = stdout s.
Proof.
  unfold runPAMSessionCmd. destruct (Parse _ args) as [fs rest|message].
  2: { eexists. split; [reflexivity|]. done. }
  unfold sh_bind, sh_try, sh_io. destruct (RunPAMSession _ _ _ _) as [[u|e] m]; eexists; by split.
Qed.
Lemma runPrincipalsCmd_run args s :
  ∃ code s', runPrincipalsCmd args s = (Ok code, s') ∧
  (code ≠ 0%Z ∧ stdout s' = stdout s ∨
   code = 0%Z ∧ ∃ fs rest ps m1 m2, Parse (NewFlagSet principals_flags) args = Parsed fs rest ∧
     get_principals sock (flag_string fs "user") m1 = (Ok (200%Z, Some ps), m2) ∧
     stdout s' = reverse (map (λ p, Line (p +:+ newline)) ps) ++ stdout s).
Proof.
  unfold runPrincipalsCmd, with_flags. destruct (Parse (NewFlagSet principals_flags) args) as [fs rest|message].
  2: { eexists _, _. split; [reflexivity|]. by left. }
  unfold or_fail, sh_io. destruct (PrintPrincipals _ _ _ _ _ _ _) as [[ps|e] m] eqn:Erun.
  2: { eexists _, _. split; [reflexivity|]. by left. }
  apply PrintPrincipals_Ok in Erun as (m1 & m2 & Hget).
  destruct (print_lines_run ps (with_machine m s)) as (s' & Hrun & Hout).
  exists 0%Z, s'. split; [unfold sh_bind; by rewrite Hrun|]. right. split; [done|]. by exists fs, rest, ps, m1, m2.
Qed.

End commands.

(** ** Concrete runs *)
Definition toy_socket : socket_transport := λ n method url token body,
  match socketHandler (H := toy_encodings) toy_api toy_daemon GET_principals (socket_request url) (toy_machine [] []) with
  | (Ok (resp, _), _) => Some (socket_answer resp)
  | (Err _, _) => None
  end.
Definition toy_desktop : Desktop := {|
  Getenv _ := ""; rfc3339_local _ := ""; ssh_path := None; build_version := "1"; build_commit := "c"; build_date := "d" |}.
Notation toy_hook args s := (agentd_Run (H := toy_encodings) (H0 := toy_yaml) (H1 := Agentd.toy_host) (H2 := toy_commands)
  (H3 := toy_env) (H4 := toy_desktop) (λ _ _ _ _, None) (λ _, "cafe") toy_socket (λ _, Ok ()) (λ _, Ok ())
  {| life_Early := []; life_Events := []; life_Stop := Ok () |} args s).
Notation toy_terminal := {| sh_Machine := toy_machine [] []; sh_Agent := (); sh_Out := [] |}.
Lemma toy_daemon_listens : daemon_listens (H := toy_encodings) toy_socket toy_api.
Proof.
  intros n url a. unfold toy_socket.
  destruct (socketHandler _ _ _ _ _) as [[[resp d']|e] m'] eqn:E; [|done]. intros [= <-].
  by exists toy_daemon, (toy_machine [] []), resp, d', m'.
Qed.
Example toy_hook_runs :
  (toy_hook ["principals"; "-user"; "root"; "-serial=0x7"] toy_terminal).1 = Ok 0%Z ∧
  stdout (toy_hook ["principals"; "-user"; "root"] toy_terminal).2 = [Line ("root@web1" +:+ newline)] ∧
  (toy_hook ["principals"] toy_terminal).1 = Ok 1%Z ∧ (toy_hook ["principals"; "-user"] toy_terminal).1 = Ok 2%Z ∧
  (toy_hook [] toy_terminal).1 = Ok 2%Z.
Proof. vm_compute. repeat split. Qed.
