(* ===== verification/Clients.v ===== *)
(** * The command lines and the server together

    What [gssh-admin] and [gssh] make of the server's answers and the server of their
    requests: an exchange is a request on the public handler in some state of the
    server, so the client's theorems speak of the server's database. *)
From S2P Require Export Requests Shell.
From S2P Require UserCLI AdminCLI.
From S2P Require Rules.

Local Open Scope string_scope.
Local Open Scope list_scope.

(** ** Messages *)

(** A JSON object of strings is read back as the map it was. *)
Lemma foldl_strings (l : list (string * string)) (old : gmap string string) :
  foldl (λ (acc : option (gmap string string)) '(k, v), m ← acc; s ← dec_string "" v; Some (<[k := s]> m))
    (Some old) (prod_map id JStr <$> l) = Some (foldl (λ m '(k, s), <[k := s]> m) old l).
Proof. revert old. induction l as [|[k s] l IH]; intros old; [done|]. apply IH. Qed.
Lemma dec_string_map_JMap m : dec_string_map ∅ (JMap m) = Some m.
Proof. unfold dec_string_map, JMap. by rewrite foldl_strings, (foldl_insert_entries _ m). Qed.
Lemma dec_opt_map_JMap m : dec_opt_map None (JMap m) = Some (Some m).
Proof. unfold dec_opt_map. cbn [default]. by rewrite dec_string_map_JMap. Qed.

(** What the server decodes from a client's rule. A number that is no int64 is refused. *)
Definition request_of_grant (g : AdminCLI.Grant) : grantRequest := {|
  greq_Group := AdminCLI.g_Group g; greq_Issuer := AdminCLI.g_Issuer g;
  greq_TagSelector := if bool_decide (AdminCLI.g_TagSelector g = ∅) then None else Some (AdminCLI.g_TagSelector g);
  greq_Principals := default [] (AdminCLI.g_Principals g); greq_Sudo := AdminCLI.g_Sudo g;
  greq_MaxValiditySeconds := AdminCLI.g_MaxValiditySeconds g |}.
Definition request_of_ci_grant (g : AdminCLI.CIGrant) : ciGrantRequest := {|
  cireq_Project := AdminCLI.cig_Project g; cireq_RefPattern := AdminCLI.cig_RefPattern g;
  cireq_ProtectedOnly := AdminCLI.cig_ProtectedOnly g;
  cireq_EnvironmentPattern := AdminCLI.cig_EnvironmentPattern g;
  cireq_TagSelector := if bool_decide (AdminCLI.cig_TagSelector g = ∅) then None else Some (AdminCLI.cig_TagSelector g);
  cireq_Principals := default [] (AdminCLI.cig_Principals g);
  cireq_MaxValiditySeconds := AdminCLI.cig_MaxValiditySeconds g |}.

(** Read a field that is a single member, or none. *)
Lemma dec_slice_JStrs old l : AdminCLI.dec_slice old (JStrs l) = Some (Some l).
Proof. unfold AdminCLI.dec_slice. cbn [JStrs]. fold (JStrs l). by rewrite dec_strings_JStrs. Qed.
Ltac wire_fields :=
  struct_fields; cbn [dec_string dec_bool dec_opt_bool AdminCLI.dec_bool_pointer dec_int64 default from_option];
  rewrite ?dec_strings_JStrs, ?dec_slice_JStrs, ?dec_string_map_JMap, ?dec_opt_map_JMap;
  cbn [fmap option_fmap option_map mbind option_bind].

(** Members that may be left out, field by field. *)
Lemma field_values_app name l l' : field_values name (l ++ l') = field_values name l ++ field_values name l'.
Proof. apply omap_app. Qed.
Lemma field_values_omit name empty key v :
  field_values name (AdminCLI.omit_empty empty key v) =
  if EqualFold key name then (if empty then [] else [v]) else [].
Proof. unfold field_values, AdminCLI.omit_empty. destruct empty; simpl; by destruct (EqualFold key name). Qed.
Lemma field_values_pointer {A} name key (f : A → json) (o : option A) :
  field_values name (match o with Some x => [(key, f x)] | None => [] end) =
  if EqualFold key name then (match o with Some x => [f x] | None => [] end) else [].
Proof. unfold field_values. destruct o; simpl; by destruct (EqualFold key name). Qed.
Lemma field_values_one name key v rest :
  field_values name ((key, v) :: rest) = (if EqualFold key name then [v] else []) ++ field_values name rest.
Proof. unfold field_values. simpl. by destruct (EqualFold key name). Qed.
Ltac omitted :=
  repeat match goal with |- context [dec_field ?d ?n ?z ?m] => rewrite (dec_field_values d n z m) end;
  unfold AdminCLI.omit_text, AdminCLI.omit_map, text_member;
  rewrite ?field_values_app, ?field_values_omit, ?field_values_pointer, ?field_values_one;
  field_names; cbn [app field_values omap list_omap]; rewrite ?app_nil_r.
Lemma foldl_text (empty : bool) s :
  (empty = true → s = "") →
  foldl (λ acc v, acc ≫= λ old, dec_string old v) (Some "") (if empty then [] else [JStr s]) = Some s.
Proof. intros He. destruct empty; [by rewrite He|done]. Qed.
Lemma foldl_pairs (tags : gmap string string) :
  foldl (λ acc v, acc ≫= λ old, dec_opt_map old v) (Some None) (if bool_decide (tags = ∅) then [] else [JMap tags]) =
  Some (if bool_decide (tags = ∅) then None else Some tags).
Proof. case_bool_decide; [done|]. cbn [foldl mbind option_bind]. apply dec_opt_map_JMap. Qed.
Lemma foldl_slice l :
  foldl (λ acc v, acc ≫= λ old, dec_strings old v) (Some []) [AdminCLI.nil_or_list l] = Some (default [] l).
Proof. destruct l as [l|]; [|done]. cbn [foldl mbind option_bind AdminCLI.nil_or_list]. by rewrite dec_strings_JStrs. Qed.

Lemma decode_grant_json g :
  decode_grant (AdminCLI.grant_json g) =
  if bool_decide (in_int64 (AdminCLI.g_MaxValiditySeconds g)) then Some (request_of_grant g) else None.
Proof.
  unfold decode_grant, AdminCLI.grant_json, request_of_grant. cbn [struct_members mbind option_bind]. omitted.
  rewrite !foldl_text by (by intros ->%bool_decide_eq_true). cbn [mbind option_bind].
  rewrite foldl_pairs. cbn [mbind option_bind]. rewrite foldl_slice.
  destruct (AdminCLI.g_Sudo g); cbn; by destruct (bool_decide (in_int64 _)).
Qed.
Lemma decode_ci_grant_json g :
  decode_ci_grant (AdminCLI.ci_grant_json g) =
  if bool_decide (in_int64 (AdminCLI.cig_MaxValiditySeconds g)) then Some (request_of_ci_grant g) else None.
Proof.
  unfold decode_ci_grant, AdminCLI.ci_grant_json, request_of_ci_grant. cbn [struct_members mbind option_bind]. omitted.
  rewrite !foldl_text by (by intros ->%bool_decide_eq_true). cbn [mbind option_bind].
  rewrite foldl_pairs. cbn [mbind option_bind]. rewrite foldl_slice.
  destruct (AdminCLI.cig_ProtectedOnly g); cbn; by destruct (bool_decide (in_int64 _)).
Qed.

(** What the client decodes from the server's rules. *)
Section answers.
Context `{X509} `{Encodings}.

Definition grant_of_answer (x : GrantWithGroup) : AdminCLI.Grant := {|
  AdminCLI.g_ID := uuid_String (grant_ID (gwg_Grant x)); AdminCLI.g_Group := gwg_GroupName x;
  AdminCLI.g_Issuer := gwg_GroupIssuer x; AdminCLI.g_TagSelector := grant_TagSelector (gwg_Grant x);
  AdminCLI.g_Principals := Some (grant_Principals (gwg_Grant x)); AdminCLI.g_Sudo := grant_Sudo (gwg_Grant x);
  AdminCLI.g_MaxValiditySeconds := grant_MaxValiditySeconds (gwg_Grant x) |}.
Definition ci_grant_of_answer (g : CIGrant) : AdminCLI.CIGrant := {|
  AdminCLI.cig_ID := uuid_String (cigrant_ID g); AdminCLI.cig_Project := cigrant_ProjectPath g;
  AdminCLI.cig_RefPattern := cigrant_RefPattern g; AdminCLI.cig_ProtectedOnly := Some (cigrant_ProtectedOnly g);
  AdminCLI.cig_EnvironmentPattern := cigrant_EnvironmentPattern g; AdminCLI.cig_TagSelector := cigrant_TagSelector g;
  AdminCLI.cig_Principals := Some (cigrant_Principals g);
  AdminCLI.cig_MaxValiditySeconds := cigrant_MaxValiditySeconds g |}.
Lemma decode_answer x :
  AdminCLI.decode_Grant (toGrantJSON x) =
  if bool_decide (in_int64 (grant_MaxValiditySeconds (gwg_Grant x))) then Some (grant_of_answer x) else None.
Proof.
  unfold AdminCLI.decode_Grant, toGrantJSON. cbn [struct_members mbind option_bind]. wire_fields.
  by destruct (bool_decide _).
Qed.
Lemma decode_ci_answer g :
  AdminCLI.decode_CIGrant (toCIGrantJSON g) =
  if bool_decide (in_int64 (cigrant_MaxValiditySeconds g)) then Some (ci_grant_of_answer g) else None.
Proof.
  destruct g as [id project ref prot env tags ps secs ca ua].
  unfold AdminCLI.decode_CIGrant, toCIGrantJSON, text_member.
  cbn [cigrant_ID cigrant_ProjectPath cigrant_RefPattern cigrant_ProtectedOnly cigrant_EnvironmentPattern
    cigrant_TagSelector cigrant_Principals cigrant_MaxValiditySeconds cigrant_CreatedAt cigrant_UpdatedAt].
  destruct (bool_decide_reflect (ref = "")), (bool_decide_reflect (env = "")); subst;
    cbn [struct_members app mbind option_bind]; wire_fields; by destruct (bool_decide (in_int64 secs)).
Qed.
End answers.

(** ** What an update changes *)

(** The fields of a stored rule after [grant update] with the given flags. *)
Definition change_or_keep {A} (fs : FlagSet) (name : string) (new old : A) : A :=
  if flag_changed fs name then new else old.
(** An empty selector does not travel: the old one stays. *)
Definition sent_selector (tags old : gmap string string) : gmap string string :=
  if bool_decide (tags = ∅) then old else tags.
Lemma sent_selector_same old : sent_selector old old = old.
Proof. unfold sent_selector. by case_bool_decide. Qed.

Section updates.
Context `{X509} `{Encodings}.

Lemma change_grant_Ok fs current g : AdminCLI.change_grant fs current = Ok g → ∃ tags,
  (if flag_changed fs "tags" then AdminCLI.parseTags (flag_string fs "tags")
   else Ok (AdminCLI.g_TagSelector current)) = Ok tags ∧
  AdminCLI.g_TagSelector g = tags ∧
  AdminCLI.g_Principals g = change_or_keep fs "principals" (AdminCLI.flag_principals fs) (AdminCLI.g_Principals current) ∧
  AdminCLI.g_Sudo g = change_or_keep fs "sudo" (flag_bool fs "sudo") (AdminCLI.g_Sudo current) ∧
  AdminCLI.g_MaxValiditySeconds g =
    change_or_keep fs "max-validity" (to_seconds (flag_duration fs "max-validity")) (AdminCLI.g_MaxValiditySeconds current).
Proof.
  unfold AdminCLI.change_grant. destruct (if flag_changed fs "tags" then _ else _) as [tags|e]; [|done].
  intros [= <-]. by exists tags.
Qed.
Lemma flag_principals_default fs : default [] (AdminCLI.flag_principals fs) = AdminCLI.splitList (flag_string fs "principals").
Proof. unfold AdminCLI.flag_principals. by destruct (AdminCLI.splitList _). Qed.


(** The same for CI rules. *)
Theorem ci_update_changes_named_fields x fs g g' rq
  (Hread : AdminCLI.decode_CIGrant (toCIGrantJSON x) = Some g)
  (Hchange : AdminCLI.change_ci_grant fs g = Ok g')
  (Hsent : decode_ci_grant (AdminCLI.ci_grant_json g') = Some rq) :
  ∃ tags,
    (if flag_changed fs "tags" then AdminCLI.parseTags (flag_string fs "tags")
     else Ok (cigrant_TagSelector x)) = Ok tags ∧
    ci_grant_with_request x rq = {|
      cigrant_ID := cigrant_ID x; cigrant_ProjectPath := cigrant_ProjectPath x;
      cigrant_RefPattern := change_or_keep fs "ref" (flag_string fs "ref") (cigrant_RefPattern x);
      cigrant_ProtectedOnly :=
        change_or_keep fs "protected-only" (flag_bool fs "protected-only") (cigrant_ProtectedOnly x);
      cigrant_EnvironmentPattern :=
        change_or_keep fs "environment" (flag_string fs "environment") (cigrant_EnvironmentPattern x);
      cigrant_TagSelector := sent_selector tags (cigrant_TagSelector x);
      cigrant_Principals := change_or_keep fs "principals"
        (AdminCLI.splitList (flag_string fs "principals")) (cigrant_Principals x);
      cigrant_MaxValiditySeconds := change_or_keep fs "max-validity"
        (to_seconds (flag_duration fs "max-validity")) (cigrant_MaxValiditySeconds x);
      cigrant_CreatedAt := cigrant_CreatedAt x; cigrant_UpdatedAt := cigrant_UpdatedAt x |}.
Proof.
  rewrite decode_ci_answer in Hread. destruct (bool_decide (in_int64 _)); [|done]. injection Hread as <-.
  rewrite decode_ci_grant_json in Hsent. destruct (bool_decide (in_int64 _)); [|done]. injection Hsent as <-.
  unfold AdminCLI.change_ci_grant in Hchange. cbn in Hchange.
  destruct (if flag_changed fs "tags" then _ else _) as [tags|e] eqn:Etags; [|done]. injection Hchange as <-.
  exists tags. split; [done|]. unfold ci_grant_with_request, request_of_ci_grant. cbn. f_equal.
  - unfold change_or_keep. by destruct (flag_changed fs "protected-only").
  - unfold sent_selector. by destruct (bool_decide (tags = ∅)).
  - unfold change_or_keep. destruct (flag_changed fs "principals"); [apply flag_principals_default|done].
Qed.
End updates.

(** ** The server at the other end

    [served n] is the state in which a client's n-th exchange finds the server, and
    [reached n] whether the connection comes about; in between anything may have
    happened. What an address, a header or a body text holds that no decision of the API
    depends on is a parameter. Paths are those that need no cleaning or unescaping, as
    the clients' are for ids the server gave them. *)
Section composed.
Context `{Crypto} `{UUIDs} `{X509} `{Encodings} `{OAuth2} `{MapOrder}.
Variables (d : Deps) (pin_read : Pins.PinProvider → Pins.PinStatus) (base : string).
Variables (served : N → World * Limiters) (reached : N → bool) (peer : N → Request).
Variables (wire_size : json → Z) (body_text : body → string) (body_json : body → option json).

Definition client_request (n : N) (call : HttpCall) (segs : list string) : HttpRequest := {|
  hr_Method := call_Method call; hr_Path := segs;
  hr_Request := {|
    req_Authorization := if bool_decide (call_Token call = "") then "" else "Bearer " +:+ call_Token call;
    req_Body := (λ j, (wire_size j, j)) <$> call_Body call;
    req_EmptyBody := match call_Body call with None => true | Some _ => false end;
    req_RemoteAddr := req_RemoteAddr (peer n); req_ForwardedFor := req_ForwardedFor (peer n);
    req_PeerCN := None; req_Query := ∅; req_PathID := List.last segs ""; req_RequestedWith := "";
    req_Cookies := ∅; req_Host := req_Host (peer n); req_ForwardedProto := req_ForwardedProto (peer n);
    req_TLS := req_TLS (peer n) |} |}.
Definition answer_on_wire (a : Answer) : option HTTPAnswer :=
  match a with
  | Panics => None
  | _ =>
      let r := answer_response a in
      Some {| ha_Status := status r; ha_Text := body_text (content r);
              ha_JSON := match content r with JsonBody j => Some j | other => body_json other end |}
  end.
Definition served_run (n : N) (call : HttpCall) (segs : list string) : result (Answer * Limiters) * World :=
  serve_http d pin_read (client_request n call segs) (served n).2 (served n).1.
Definition server_network : Network := {|
  http_Do n call :=
    match CutPrefix (call_URL call) (base +:+ "/") with
    | Some path =>
        if reached n then
          match (served_run n call (Split path "/")).1 with
          | Ok (a, _) => answer_on_wire a
          | Err _ => None
          end
        else None
    | None => None
    end |}.

(** An answer the admin client accepts comes from the handler of the route, run for a
    caller with the role. *)
Definition accepted_by_client (r : Response) : Prop := (200 ≤ status r ≤ 299)%Z.
Lemma authenticate_refusal a r w resp w' :
  authenticate a r w = (Ok (inl resp), w') → (400 ≤ status resp)%Z.
Proof.
  unfold authenticate, authenticate_dev. intros Hrun.
  assert (∀ A (m : M A) (k : A → M (sum Response Claims)) w1, (∀ x w2, k x w2 = (Ok (inl resp), w') → (400 ≤ status resp)%Z) →
    bind m k w1 = (Ok (inl resp), w') → (400 ≤ status resp)%Z) as Hbind.
  { intros A m k w1 Hk. unfold bind. destruct (m w1) as [[x|e] w2]; [apply Hk|done]. }
  repeat (case_match; simplify_eq/=); eapply Hbind in Hrun; try done;
    intros x w2; unfold ret; repeat (case_match; simplify_eq/=); intros ?; simplify_eq; simpl; done.
Qed.
Lemma authorized_accepted a minRole next r w resp w' :
  AdminAPI.authorized a minRole next r w = (Ok resp, w') → accepted_by_client resp →
  ∃ claims user w1 w2, authenticate a r w = (Ok (inr claims), w1) ∧ EnsureUser claims w1 = (Ok user, w2) ∧
    hasRole a claims minRole = true ∧
    next r claims (UserKeyID (claims_Subject claims) (claims_Issuer claims)) w2 = (Ok resp, w').
Proof.
  intros Hrun Hok. unfold AdminAPI.authorized in Hrun. unfold bind at 1 in Hrun.
  destruct (authenticate a r w) as [[caller|e] w1] eqn:Ea; [|done].
  destruct caller as [refusal|claims].
  { apply authenticate_refusal in Ea. unfold ret in Hrun. injection Hrun as -> _. destruct Hok. lia. }
  rewrite bind_try in Hrun. destruct (EnsureUser claims w1) as [[user|e] w2] eqn:Eu.
  2: { exfalso. unfold ret in Hrun. injection Hrun as <- _. destruct Hok, (errors_Is e ErrUserInactive); simpl in *; done. }
  destruct (hasRole a claims minRole) eqn:Er; simpl in Hrun.
  2: { exfalso. unfold ret in Hrun. injection Hrun as <- _. destruct Hok. simpl in *. done. }
  eauto 10.
Qed.
(** What the admin client gets done. *)
Lemma string_app_assoc (x y z : string) : (x +:+ y) +:+ z = x +:+ (y +:+ z).
Proof. induction x; simpl; congruence. Qed.
Lemma accepted_exchange {A} n c method rest payload (target : option json → option A) v route :
  UserCLI.ac_baseURL (AdminCLI.cl_api c) = base → route_of method (Split rest "/") = Admin route →
  let call := AdminCLI.admin_call c method ("/" +:+ rest) payload in
  let segs := Split rest "/" in
  AdminCLI.admin_answer target (http_Do (Network := server_network) n call) = Ok v →
  ∃ resp claims user w1 w2, accepted_by_client resp ∧
    let r := hr_Request (client_request n call segs) in
    let a := admin_ctx d pin_read in
    authenticate a r (served n).1 = (Ok (inr claims), w1) ∧ EnsureUser claims w1 = (Ok user, w2) ∧
    hasRole a claims (route_handler a (d_JSONB d) route).1 = true ∧
    (route_handler a (d_JSONB d) route).2 r claims (UserKeyID (claims_Subject claims) (claims_Issuer claims)) w2 =
      (Ok resp, (served_run n call segs).2).
Proof.
  intros Hbase Hroute call segs. unfold http_Do, server_network.
  assert (call_URL call = (base +:+ "/") +:+ rest) as ->.
  { unfold call, AdminCLI.admin_call. cbn [call_URL]. rewrite Hbase. by rewrite string_app_assoc. }
  rewrite CutPrefix_app. destruct (reached n); [|done]. fold segs.
  unfold served_run, serve_http. change (hr_Method _) with method. change (hr_Path _) with segs.
  fold segs in Hroute. rewrite Hroute. cbn [limiter_of handle].
  set (r := hr_Request _). set (w := (served n).1). unfold serve_admin, bind.
  destruct (admin_configured _); cbn [negb].
  2: { unfold ret. cbn [fst snd answer_on_wire answer_response]. unfold AdminCLI.admin_answer. cbn. done. }
  destruct (route_handler (admin_ctx d pin_read) (d_JSONB d) route) as [minRole next] eqn:Eh.
  destruct (AdminAPI.authorized _ minRole next r w) as [[resp|e] w'] eqn:Ea; unfold ret; cbn [fst snd]; [|done].
  unfold AdminCLI.admin_answer. cbn [answer_on_wire answer_response ha_Status ha_JSON].
  destruct (Z.ltb_spec (status resp) 200); [done|]. destruct (Z.ltb_spec 299 (status resp)); [done|].
  intros _. assert (accepted_by_client resp) as Hok by (unfold accepted_by_client; lia).
  destruct (authorized_accepted _ _ _ _ _ _ _ Ea Hok) as (claims & user & w1 & w2 & ? & ? & ? & ?).
  exists resp, claims, user, w1, w2. cbn [fst snd]. done.
Qed.

(** The rules of an apply as the server reads them are those of the file. *)
Lemma mapM_decoded {A B} (dec : json → option B) (enc : A → json) (req : A → B) l l' :
  (∀ a, dec (enc a) = Some (req a) ∨ dec (enc a) = None) → mapM dec (enc <$> l) = Some l' → l' = req <$> l.
Proof.
  intros Hdec. revert l'. induction l as [|a l IH]; intros l'; csimpl; [by intros [= <-]|].
  destruct (Hdec a) as [-> | ->]; [|done]. cbn [mbind option_bind].
  destruct (mapM dec (enc <$> l)) as [l1|]; [|done]. intros [= <-]. by rewrite (IH l1).
Qed.
Lemma decode_apply_members l : decode_apply (JObj [("grants", JArr l)]) = mapM decode_grant l.
Proof. unfold decode_apply. cbn [struct_members mbind option_bind]. by struct_fields. Qed.
Lemma decode_ci_apply_members l : decode_ci_apply (JObj [("ci_grants", JArr l)]) = mapM decode_ci_grant l.
Proof. unfold decode_ci_apply. cbn [struct_members mbind option_bind]. by struct_fields. Qed.
Lemma apply_read specs reqs :
  decode_apply (JObj [("grants", JArr (AdminCLI.grant_json <$> (AdminCLI.grant_of_spec <$> specs)))]) = Some reqs →
  grant_spec_of <$> reqs = specs.
Proof.
  rewrite decode_apply_members. intros Hreqs. apply (mapM_decoded _ _ request_of_grant) in Hreqs as ->.
  2: { intros g. rewrite decode_grant_json. destruct (bool_decide _); auto. }
  rewrite <- !list_fmap_compose. rewrite <- (list_fmap_id specs) at 2. apply list_fmap_ext. intros i sp _.
  destruct sp as [g iss tags ps sudo secs]. unfold grant_spec_of, request_of_grant, compose. cbn.
  case_bool_decide; by subst.
Qed.
Lemma apply_ci_read specs reqs :
  decode_ci_apply (JObj [("ci_grants", JArr (AdminCLI.ci_grant_json <$> (AdminCLI.ci_grant_of_spec <$> specs)))]) = Some reqs →
  ci_spec_of <$> reqs = specs.
Proof.
  rewrite decode_ci_apply_members. intros Hreqs. apply (mapM_decoded _ _ request_of_ci_grant) in Hreqs as ->.
  2: { intros g. rewrite decode_ci_grant_json. destruct (bool_decide _); auto. }
  rewrite <- !list_fmap_compose. rewrite <- (list_fmap_id specs) at 2. apply list_fmap_ext. intros i sp _.
  destruct sp as [p rf pr env tags ps secs]. unfold ci_spec_of, request_of_ci_grant, compose. cbn.
  case_bool_decide; by subst.
Qed.
Lemma accepted_apply (applied : result ApplyResult) :
  accepted_by_client (apply_answer applied) → ∃ res, applied = Ok res.
Proof.
  destruct applied as [res|e]; [by eexists|]. unfold apply_answer. intros [Hlow Hhigh].
  by destruct (errors_Is e ErrInvalidGrantSpec), Hhigh.
Qed.

(** PostgreSQL's text has no NUL. *)
Definition nul_free_groups (db : Db) : Prop := ∀ gr, gr ∈ groups db → nul_free (group_Issuer gr) ∧ nul_free (group_Name gr).
Definition nul_free_ci (db : Db) : Prop := ∀ g, g ∈ ci_grants db → ci_text_ok g.
Lemma schema_grants w : schema w → nul_free_groups (w_db w) → grants_wf w.
Proof.
  intros Hs Ht. destruct (sch_groups _ _ _ Hs), (sch_grants _ _ _ Hs). split; try done.
  intros g Hg. pose proof (sch_grant_group _ _ _ Hs g _ Hg eq_refl) as (gr & Heq & ?)%list_elem_of_fmap. by exists gr.
Qed.
Lemma schema_ci w : schema w → nul_free_ci (w_db w) → ci_wf w.
Proof. intros Hs Ht. destruct (sch_ci_grants _ _ _ Hs). by split. Qed.

(** The exchange of an apply, when the client accepts its answer. *)
Definition apply_call (c : AdminCLI.client) (specs : list GrantSpec) : HttpCall :=
  AdminCLI.admin_call c "POST" (AdminCLI.grants_path +:+ "/apply")
    (Some (JObj [("grants", JArr (AdminCLI.grant_json <$> (AdminCLI.grant_of_spec <$> specs)))])).
Definition apply_ci_call (c : AdminCLI.client) (specs : list CIGrantSpec) : HttpCall :=
  AdminCLI.admin_call c "POST" (AdminCLI.ci_grants_path +:+ "/apply")
    (Some (JObj [("ci_grants", JArr (AdminCLI.ci_grant_json <$> (AdminCLI.ci_grant_of_spec <$> specs)))])).
Definition grants_segs := ["v1"; "admin"; "grants"; "apply"].
Definition ci_grants_segs := ["v1"; "admin"; "ci-grants"; "apply"].

(** The rules of the n-th exchange are the database's when it is over. Its request is
    authenticated as an admin's, whose issuer the rules without one belong to. *)
Definition caller (n : N) (call : HttpCall) (segs : list string) (claims : Claims) (w2 : World) : Prop :=
  let a := admin_ctx d pin_read in
  ∃ user w1, authenticate a (hr_Request (client_request n call segs)) (served n).1 = (Ok (inr claims), w1) ∧
    EnsureUser claims w1 = (Ok user, w2) ∧ hasRole a claims roleAdmin = true.
Definition rules_installed (n : N) (c : AdminCLI.client) (specs : list GrantSpec) : Prop :=
  let call := apply_call c specs in
  let db := w_db (served_run n call grants_segs).2 in
  ∃ claims w2, caller n call grants_segs claims w2 ∧
    (nul_free_groups (w_db w2) → Forall (grants_declarable (claims_Issuer claims)) specs →
     ∃ rows, Forall2 (carries (claims_Issuer claims)) specs rows ∧ grants_with_group db ≡ₚ rows).
Definition ci_rules_installed (n : N) (c : AdminCLI.client) (specs : list CIGrantSpec) : Prop :=
  let call := apply_ci_call c specs in
  let db := w_db (served_run n call ci_grants_segs).2 in
  ∃ claims w2, caller n call ci_grants_segs claims w2 ∧
    (nul_free_ci (w_db w2) → Forall ci_declarable specs →
     ∃ rows, Forall2 ci_carries specs rows ∧ ci_grants db ≡ₚ rows).

Section apply.
Hypothesis (Hserved : ∀ n, schema (served n).1).

Lemma caller_schema n call segs claims w2 : caller n call segs claims w2 → schema w2.
Proof.
  intros (user & w1 & Ha & Hu & _).
  pose proof (authenticate_schema (admin_ctx d pin_read) (hr_Request (client_request n call segs)) _ (Hserved n)) as [Hs _].
  rewrite Ha in Hs. pose proof (EnsureUser_schema claims _ Hs) as [Hs2 _]. simpl in Hs2. by rewrite Hu in Hs2.
Qed.
Lemma apply_exchange n c specs counts :
  UserCLI.ac_baseURL (AdminCLI.cl_api c) = base →
  AdminCLI.admin_answer (AdminCLI.into AdminCLI.decode_counts) (http_Do (Network := server_network) n (apply_call c specs))
    = Ok counts → rules_installed n c specs.
Proof.
  intros Hbase Hok.
  destruct (accepted_exchange n c "POST" "v1/admin/grants/apply" _ _ _ PostGrantsApply Hbase ltac:(vm_compute; reflexivity) Hok)
    as (resp & claims & user & w1 & w2 & Hacc & Ha & Hu & Hrole & Hrun).
  exists claims, w2. assert (caller n (apply_call c specs) grants_segs claims w2) as Hcaller by (exists user, w1; done).
  split; [done|]. apply caller_schema in Hcaller as Hs. intros Htext Hdecl.
  cbn [route_handler fst snd] in Hrun. unfold gateApply in Hrun.
  destruct (fileOwned _ _); [unfold ret in Hrun; injection Hrun as <- _; by destruct Hacc|].
  unfold handleApplyGrants in Hrun.
  destruct (whole_body _ ≫= decode_apply) as [reqs|] eqn:Ebody; [|unfold ret in Hrun; injection Hrun as <- _; by destruct Hacc].
  apply apply_read in Ebody. rewrite Ebody, bind_try in Hrun.
  destruct (ApplyGrants _ _ specs w2) as [applied w3] eqn:Eapply. unfold ret in Hrun. injection Hrun as <- Hw.
  apply accepted_apply in Hacc as [res ->]. apply ApplyGrants_Ok in Eapply as (_ & Hrows & _);
    [|by apply schema_grants|done].
  by assert (w3 = (served_run n (apply_call c specs) grants_segs).2) as -> by exact Hw.
Qed.
Lemma apply_ci_exchange n c specs counts :
  UserCLI.ac_baseURL (AdminCLI.cl_api c) = base →
  AdminCLI.admin_answer (AdminCLI.into AdminCLI.decode_counts) (http_Do (Network := server_network) n (apply_ci_call c specs))
    = Ok counts → ci_rules_installed n c specs.
Proof.
  intros Hbase Hok.
  destruct (accepted_exchange n c "POST" "v1/admin/ci-grants/apply" _ _ _ PostCIGrantsApply Hbase ltac:(vm_compute; reflexivity) Hok)
    as (resp & claims & user & w1 & w2 & Hacc & Ha & Hu & Hrole & Hrun).
  exists claims, w2. assert (caller n (apply_ci_call c specs) ci_grants_segs claims w2) as Hcaller by (exists user, w1; done).
  split; [done|]. apply caller_schema in Hcaller as Hs. intros Htext Hdecl.
  cbn [route_handler fst snd] in Hrun. unfold gateApply in Hrun.
  destruct (fileOwned _ _); [unfold ret in Hrun; injection Hrun as <- _; by destruct Hacc|].
  unfold handleApplyCIGrants in Hrun.
  destruct (whole_body _ ≫= decode_ci_apply) as [reqs|] eqn:Ebody; [|unfold ret in Hrun; injection Hrun as <- _; by destruct Hacc].
  apply apply_ci_read in Ebody. rewrite Ebody, bind_try in Hrun.
  destruct (ApplyCIGrants _ specs w2) as [applied w3] eqn:Eapply. unfold ret in Hrun. injection Hrun as <- Hw.
  apply accepted_apply in Hacc as [res ->]. apply ApplyCIGrants_Ok in Eapply as (_ & Hrows & _);
    [|by apply schema_ci|done].
  by assert (w3 = (served_run n (apply_ci_call c specs) ci_grants_segs).2) as -> by exact Hw.
Qed.
End apply.
End composed.

(** ** [gssh-admin apply], end to end *)
Section apply.
Context `{Crypto} `{UUIDs} `{X509} `{Encodings} `{OAuth2} `{MapOrder}.
Context `{Desktop} `{UserCLI.CLIYAML} `{Rules.RulesYAML} `{Flow.OAuthClient} {K : Type}.
Variables (d : Deps) (pin_read : Pins.PinProvider → Pins.PinStatus) (base : string).
Variables (served : N → World * Limiters) (reached : N → bool) (peer : N → Request).
Variables (wire_size : json → Z) (body_text : body → string) (body_json : body → option json).
Notation net := (server_network d pin_read base served reached peer wire_size body_text body_json).
Implicit Types s : Shell K.

(** C18: [gssh-admin apply] means what it says, through both programs: when it ends with
    exit code 0, the file it read held the rules, and when the configured URL is the
    server's, the request it sent was accepted as an admin's and left exactly the file's
    host rules in the database, those without an issuer under the caller's; if the file
    has a CI section, a second request did the same for the CI rules. What the database
    was before, or which other rules it had, does not matter. *)
Theorem apply_installs_the_file args s s'
  (Hserved : ∀ n, schema (served n).1)
  (Hrun : AdminCLI.Run (H3 := net) ("apply" :: args) s = (Ok 0%Z, s')) :
  ∃ fs rest raw s1 specs ci c s2,
    Parse (NewFlagSet (AdminCLI.common_flags ++ [("f", FString "")])) args = Parsed fs rest ∧
    sh_try (sh_io (ReadFile (flag_string fs "f"))) s = (Ok raw, s1) ∧
    Rules.LoadCombined (λ _, raw) (flag_string fs "f") = Ok (specs, ci) ∧
    AdminCLI.connect fs s1 = (Ok c, s2) ∧
    (UserCLI.ac_baseURL (AdminCLI.cl_api c) = base →
     let n := mc_Calls (sh_Machine s2) in
     rules_installed d pin_read served peer wire_size n c specs ∧
     ∀ ci_specs, ci = Some ci_specs → ci_rules_installed d pin_read served peer wire_size (n + 1)%N c ci_specs).
Proof.
  change (AdminCLI.runApplyCmd (H3 := net) args s = (Ok 0%Z, s')) in Hrun. unfold AdminCLI.runApplyCmd in Hrun.
  apply with_flags_zero in Hrun as (fs & rest & Hparse & Hrun). cbn zeta in Hrun. case_bool_decide; [done|].
  apply or_fail_zero in Hrun as ([rules ci_rules] & s1 & Hload & Hrun).
  unfold AdminCLI.loadGrantsFile in Hload.
  apply sh_bind_Ok in Hload as (raw & s1' & Hread & Hload).
  apply sh_bind_Ok in Hload as ([specs ci] & s1'' & Hlift & Hret).
  unfold sh_lift in Hlift. injection Hlift as Hspecs ->. unfold sh_ret in Hret. injection Hret as <- <- ->.
  apply or_fail_zero in Hrun as (c & s2 & Hconnect & Hrun).
  apply or_fail_zero in Hrun as (counts & s3 & Happly & Hrun).
  exists fs, rest, raw, s1, specs, ci, c, s2. split_and!; [done..|]. intros Hbase n.
  unfold AdminCLI.applyGrants, AdminCLI.admin_do, sh_io, io_call in Happly. injection Happly as Hcounts <-.
  split; [eapply (apply_exchange d pin_read base served reached peer wire_size body_text body_json); [done|done|exact Hcounts]|]. intros ci_specs ->.
  cbn [fmap option_fmap option_map] in Hrun. apply sh_bind_Ok in Hrun as (u & s4 & Hprint & Hrun).
  unfold print in Hprint. injection Hprint as <- <-.
  apply or_fail_zero in Hrun as (ci_counts & s5 & Hci & _).
  unfold AdminCLI.applyCIGrants, AdminCLI.admin_do, sh_io, io_call in Hci. injection Hci as Hcounts' _.
  eapply (apply_ci_exchange d pin_read base served reached peer wire_size body_text body_json);
    [done|done|exact Hcounts'].
Qed.
End apply.

(** ** Concrete runs *)
Definition toy_update_flags : FlagSet :=
  match Parse (NewFlagSet AdminCLI.grant_update_flags) ["--principals"; "app, web"; "--max-validity=1h"] with
  | Parsed fs _ => fs | FlagError _ => NewFlagSet []
  end.
Definition toy_stored : GrantWithGroup := {|
  gwg_Grant := toy_grant; gwg_GroupName := "dev"; gwg_GroupIssuer := "idp" |}.

(** A file with rules for hosts and CI jobs, applied to an empty database. *)
Definition toy_rule_file : Rules.RulesYAML := {|
  Rules.yaml_rules _ _ := Some (Some {| Rules.file_Grants := Some [Rules.toy_grant_entry Hour];
                                        Rules.file_CIGrants := Some [Rules.toy_ci_entry] |}) |}.
Definition toy_config_file : UserCLI.CLIYAML := {| UserCLI.yaml_config _ _ := Some UserCLI.toy_cli_config |}.
Definition toy_served (n : N) : @World toy_crypto * Limiters := (toy_world empty_db, no_clients).
Notation toy_admin_net := (server_network (H0 := counting_uuids) (H1 := toy_x509) (H2 := toy_encodings)
  (H3 := toy_oauth) (H4 := key_order) toy_deps static_read "https://gssh" toy_served (λ _, true)
  (λ _, toy_enroll_http) (λ _, 100%Z) (λ _, "") (λ _, None)).
Definition toy_apply_args := ["apply"; "--config"; "/c"; "-token=alice"; "-f"; "/rules"].
Notation toy_apply := (AdminCLI.Run (H := UserCLI.toy_desk) (H0 := toy_config_file) (H1 := toy_rule_file)
  (H2 := Flow.toy_flow) (H3 := toy_admin_net) toy_apply_args (Flow.toy_shell () [("/c", "config"); ("/rules", "rules")])).
Example toy_apply_runs : toy_apply.1 = Ok 0%Z ∧ mc_Calls (sh_Machine toy_apply.2) = 2%N.
Proof. vm_compute. split; reflexivity. Qed.
Notation toy_rules_installed := (rules_installed (H0 := counting_uuids) (H1 := toy_x509) (H2 := toy_encodings)
  (H3 := toy_oauth) (H4 := key_order) toy_deps static_read toy_served (λ _, toy_enroll_http) (λ _, 100%Z)).
Notation toy_ci_rules_installed := (ci_rules_installed (H0 := counting_uuids) (H1 := toy_x509) (H2 := toy_encodings)
  (H3 := toy_oauth) (H4 := key_order) toy_deps static_read toy_served (λ _, toy_enroll_http) (λ _, 100%Z)).
Lemma apply_installs_the_file_witness :
  ∃ c, toy_rules_installed 0%N c [Rules.GrantEntry_Spec (Rules.toy_grant_entry Hour)] ∧
    toy_ci_rules_installed 1%N c [Rules.CIGrantEntry_Spec Rules.toy_ci_entry].
Proof.
  destruct toy_apply as [r s'] eqn:E. pose proof toy_apply_runs as [Hcode _]. rewrite E in Hcode.
  cbn [fst] in Hcode. subst r.
  destruct (apply_installs_the_file (H0 := counting_uuids) (H1 := toy_x509) (H2 := toy_encodings) (H3 := toy_oauth)
    (H4 := key_order) (H5 := UserCLI.toy_desk) (H6 := toy_config_file) (H7 := toy_rule_file) (H8 := Flow.toy_flow)
    toy_deps static_read "https://gssh" toy_served (λ _, true) (λ _, toy_enroll_http) (λ _, 100%Z) (λ _, "") (λ _, None)
    _ _ s' (λ _, schema_empty (H0 := counting_uuids) (toy_world empty_db) eq_refl) E)
    as (fs & rest & raw & s1 & specs & ci & c & s2 & Hparse & Hread & Hload & Hconnect & Hinst).
  vm_compute in Hparse. injection Hparse as <- _.
  vm_compute in Hread. injection Hread as <- <-.
  vm_compute in Hload. injection Hload as <- <-.
  vm_compute in Hconnect. injection Hconnect as <- <-.
  eexists. destruct (Hinst eq_refl) as [Hhost Hci]. split; [exact Hhost|exact (Hci _ eq_refl)].
Defined.
