(* ===== verification/ClientLogin.v ===== *)
(** * Signing in, end to end (internal/cli, internal/api: sign.go)

    [gssh login] composed with the server: the certificate that ends up in the ssh-agent
    is one the server issued for the key [gssh] made, to the bearer of the token it got,
    under a grant of an active account. *)
From S2P Require Export Clients.

Local Open Scope string_scope.
Local Open Scope list_scope.

Section login.
Context `{Crypto} `{UUIDs} `{X509} `{Encodings} `{OAuth2} `{MapOrder}.
Context `{UserCLI.SSHAgent} `{Desktop} `{Flow.OAuthClient}.
Variables (d : Deps) (pin_read : Pins.PinProvider → Pins.PinStatus) (base : string).
Variables (served : N → World * Limiters) (reached : N → bool) (peer : N → Request).
Variables (wire_size : json → Z) (body_text : body → string) (other_json : body → option json).

(** The answer of the sign routes on the wire ([signUserResponse]); a time beyond the
    years that can be written leaves the body empty. *)
Definition signed_json (s : signUserResponse) : option json :=
  from ← marshal_time (resp_ValidAfter s);
  until ← marshal_time (resp_ValidBefore s);
  Some (JObj [("certificate", JStr (UserCLI.cert_line (resp_Certificate s))); ("serial", JNum (resp_Serial s));
    ("key_id", JStr (resp_KeyID s)); ("principals", JStrs (resp_Principals s));
    ("valid_after", from); ("valid_before", until)]).
Definition body_json (b : body) : option json :=
  match b with Signed s => signed_json s | other => other_json other end.
Notation net := (server_network d pin_read base served reached peer wire_size body_text body_json).
Notation request n call who := (hr_Request (client_request peer wire_size n call ["v1"; "sign"; who])).

Lemma dec_certificate_signed (s : signUserResponse) j :
  signed_json s = Some j → UserCLI.dec_certificate j = Some (UserCLI.cert_line (resp_Certificate s)).
Proof.
  unfold signed_json. intros (from & _ & Hj)%bind_Some. apply bind_Some in Hj as (until & _ & [= <-]).
  generalize (JStrs (resp_Principals s)) as ps. intros ps.
  unfold UserCLI.dec_certificate. cbn [struct_members mbind option_bind]. by struct_fields.
Qed.

(** The key of a sign request is the one the client sent, its bearer the client's token. *)
Lemma decode_sent_key n client path token key validity who req_key req :
  decodeSignRequest (request n (UserCLI.sign_call client path token key validity) who) = inr (req_key, req) →
  parse_authorized_key key = Some req_key.
Proof.
  unfold decodeSignRequest. set (r := request n _ _). intros Hdec.
  assert (∀ v m k, decode_body maxRequestBody r = Some v → struct_members v = Some m →
    dec_field dec_string "public_key" "" m = Some k → k = key) as Hkey.
  { intros v m k Hv Hm Hk. unfold decode_body in Hv. subst r. simpl in Hv.
    destruct (_ <=? _)%Z; [|done]. injection Hv as <-. simpl in Hm. injection Hm as <-.
    revert Hk. unfold UserCLI.sign_body. destruct (to_seconds validity =? 0)%Z; cbn [app]; struct_fields; by intros [= <-]. }
  destruct (decode_body _ r) as [v|] eqn:Ev; [|done]. cbn [mbind option_bind] in Hdec.
  destruct (struct_members v) as [m|] eqn:Em; [|done]. cbn [mbind option_bind] in Hdec.
  destruct (dec_field dec_string "public_key" "" m) as [k|] eqn:Ek; [|done]. cbn [mbind option_bind] in Hdec.
  specialize (Hkey v m k eq_refl Em Ek) as ->.
  destruct (dec_field dec_int64 _ _ _); [|done]. cbn [mbind option_bind] in Hdec.
  destruct (parse_authorized_key key) as [pk|]; [|done]. destruct (key_is_cert pk); [done|]. by injection Hdec as <- _.
Qed.
Lemma bearer_sent n call who raw :
  bearerToken (request n call who) = Some raw → bearerToken (request n call who) = Some (call_Token call).
Proof.
  unfold bearerToken. cbn [hr_Request client_request req_Authorization].
  case_bool_decide as Ht; [done|]. intros _. change ("Bearer " +:+ call_Token call) with ("Bearer" +:+ String " " (call_Token call)).
  rewrite Cut_first by (simpl; intuition discriminate). by rewrite bool_decide_false.
Qed.

(** An answer the client takes a certificate from is a run of the route's handler, on the
    database the exchange found, or the limiter's refusal, which is no such answer. *)
Lemma accepted_run n call who cert :
  call_Method call = "POST" → call_URL call = (base +:+ "/") +:+ ("v1/sign/" +:+ who) → Split ("v1/sign/" +:+ who) "/" = ["v1"; "sign"; who] →
  UserCLI.sign_answer (http_Do (Network := net) n call) = Ok cert →
  let segs := ["v1"; "sign"; who] in
  reached n = true ∧ ∃ a w1 w2, w_db w1 = w_db (served n).1 ∧ w_uuid w1 = w_uuid (served n).1 ∧
    w_db w2 = w_db (served_run d pin_read served peer wire_size n call segs).2 ∧
    handle d pin_read (route_of "POST" segs) (client_request peer wire_size n call segs) (request n call who) w1 = (Ok a, w2) ∧
    UserCLI.sign_answer (answer_on_wire body_text body_json a) = Ok cert.
Proof.
  intros Hmethod Hurl Hsplit. unfold http_Do, server_network. rewrite Hurl, CutPrefix_app.
  destruct (reached n); [|done]. rewrite Hsplit. intros Hans. split; [done|]. set (segs := ["v1"; "sign"; who]) in *.
  destruct (served_run d pin_read served peer wire_size n call segs) as [o wn] eqn:Erun.
  destruct o as [[a l]|e]; [|done]. cbn [fst snd] in *.
  unfold served_run, serve_http in Erun. cbn [hr_Method hr_Path client_request] in Erun. rewrite Hmethod in Erun.
  assert (∀ lim st f, bind (RateLimit.limit answer_response Api lim
      (handle d pin_read (route_of "POST" segs) (client_request peer wire_size n call segs)) (request n call who) st)
      (λ '(a, s), ret (a, f s)) (served n).1 = (Ok (a, l), wn) →
    ∃ a w1 w2, w_db w1 = w_db (served n).1 ∧ w_uuid w1 = w_uuid (served n).1 ∧ w_db w2 = w_db wn ∧
      handle d pin_read (route_of "POST" segs) (client_request peer wire_size n call segs) (request n call who) w1 = (Ok a, w2) ∧
      UserCLI.sign_answer (answer_on_wire body_text body_json a) = Ok cert) as Hlim.
  { intros lim st f Hl. unfold bind in Hl. destruct (RateLimit.limit _ _ lim _ _ st _) as [ol wl] eqn:El.
    apply limit_run in El as [(_ & l' & ->)|(w1 & o1 & w2 & Hdb & Huu & Hh & Hdb' & Ho)];
      [unfold ret in Hl; injection Hl as <- _ _; done|]. destruct o1 as [a'|e]; [destruct Ho as [l' ->]|by simplify_eq].
    unfold ret in Hl. injection Hl as <- _ <-. by exists a', w1, w2. }
  destruct (limiter_of d _);
    [|by apply (Hlim (d_RateLimit d) (lim_sign (served n).2) (λ s, {| lim_sign := s; lim_download := lim_download (served n).2 |}))
     |by apply (Hlim (d_DownloadRateLimit d) (lim_download (served n).2)
                  (λ s, {| lim_sign := lim_sign (served n).2; lim_download := s |}))].
  unfold bind in Erun.
  destruct (handle _ _ _ _ _ _) as [[a'|e] w2] eqn:Eh; [|done]. unfold ret in Erun. injection Erun as <- _ <-.
  by exists a', (served n).1, w2.
Qed.
Lemma accepted_signed (resp : Response) cert :
  match content resp with Signed _ => True | _ => status resp ≠ StatusOK end →
  UserCLI.sign_answer (answer_on_wire body_text body_json (Api resp)) = Ok cert →
  ∃ sg, content resp = Signed sg ∧ resp_Certificate sg = cert.
Proof.
  intros Hresp. cbn [answer_on_wire answer_response]. unfold UserCLI.sign_answer. cbn [ha_Status ha_JSON].
  destruct (Z.eqb_spec (status resp) 200) as [Hst|]; [|done]. cbn [negb].
  destruct (content resp) as [| | | | |sg| | | | |]; try done. exists sg. split; [done|].
  cbn [body_json] in *. destruct (signed_json sg) as [j|] eqn:Ej; [|done]. cbn [mbind option_bind] in *.
  rewrite (dec_certificate_signed _ _ Ej), UserCLI.parse_cert_line in *. congruence.
Qed.

(** What stands behind a certificate the client took from the server: a run of the sign
    handler for the key that was sent and the token that was shown. *)
Definition signed_for_user (n : N) (call : HttpCall) (key : string) (cert : SSHCertificate) : Prop :=
  reached n = true ∧ ∃ v s w1 w2,
    d_Verifier d = Some v ∧ resp_Certificate s = cert ∧
    w_db w1 = w_db (served n).1 ∧ w_db w2 = w_db (served_run d pin_read served peer wire_size n call ["v1"; "sign"; "user"]).2 ∧
    bearerToken (request n call "user") = Some (call_Token call) ∧ parse_authorized_key key = Some (cert_Key cert) ∧
    granted_to_user (TokenVerifier0 := v) (d_CA d) (request n call "user") w1 w2 s.
Definition signed_for_job (n : N) (call : HttpCall) (key : string) (cert : SSHCertificate) : Prop :=
  reached n = true ∧ ∃ v s w1 w2,
    d_CIVerifier d = Some v ∧ resp_Certificate s = cert ∧
    w_db w1 = w_db (served n).1 ∧ w_db w2 = w_db (served_run d pin_read served peer wire_size n call ["v1"; "sign"; "ci"]).2 ∧
    bearerToken (request n call "ci") = Some (call_Token call) ∧ parse_authorized_key key = Some (cert_Key cert) ∧
    granted_to_job (TokenVerifier0 := v) (d_CA d) (request n call "ci") w1 w2 s.

Lemma user_certificate n client token key validity cert :
  users_wf (served n).1 → groups_wf (served n).1 → UserCLI.ac_baseURL client = base →
  let call := UserCLI.sign_call client "/v1/sign/user" token key validity in
  UserCLI.sign_answer (http_Do (Network := net) n call) = Ok cert → signed_for_user n call key cert.
Proof.
  intros Hu Hg Hbase call Hans. apply (accepted_run n call "user") in Hans as (Hr & a & w1 & w2 & Hdb & Huu & Hdb2 & Hh & Hans);
    [|done|unfold call; cbn [call_URL UserCLI.sign_call]; by rewrite Hbase, string_app_assoc|done].
  change (route_of _ _) with PostSignUser in Hh. cbn [handle] in Hh. destruct (d_Verifier d) as [v|] eqn:Ev.
  2: { unfold ret in Hh. injection Hh as <- <-. done. }
  unfold bind in Hh. destruct (handleSignUser _ _ w1) as [oh wh] eqn:Eh.
  pose proof (sign_user_run (TokenVerifier0 := v) (d_CA d) (request n call "user") w1 oh wh) as Hsign.
  destruct Hsign as (resp & -> & Hresp); [unfold users_wf, groups_wf in *; by rewrite Hdb, ?Huu..|exact Eh|].
  unfold ret in Hh. injection Hh as <- <-.
  apply accepted_signed in Hans as (sg & Hc & Hcert); [|destruct (content resp); [by destruct Hresp as [? _]..]].
  rewrite Hc in Hresp. destruct Hresp as [_ Hgr]. split; [done|]. exists v, sg, w1, wh.
  pose proof Hgr as (raw & claims & w3 & user & g & now & req & Hb & _ & Hdec & _).
  split_and!; try done; [by apply bearer_sent in Hb|]. rewrite <-Hcert. by apply decode_sent_key in Hdec.
Qed.
Lemma job_certificate n client token key validity cert :
  UserCLI.ac_baseURL client = base →
  let call := UserCLI.sign_call client "/v1/sign/ci" token key validity in
  UserCLI.sign_answer (http_Do (Network := net) n call) = Ok cert → signed_for_job n call key cert.
Proof.
  intros Hbase call Hans. apply (accepted_run n call "ci") in Hans as (Hr & a & w1 & w2 & Hdb & Huu & Hdb2 & Hh & Hans);
    [|done|unfold call; cbn [call_URL UserCLI.sign_call]; by rewrite Hbase, string_app_assoc|done].
  change (route_of _ _) with PostSignCI in Hh. cbn [handle] in Hh. destruct (d_CIVerifier d) as [v|] eqn:Ev.
  2: { unfold ret in Hh. injection Hh as <- <-. done. }
  unfold bind in Hh. destruct (handleSignCI _ _ w1) as [oh wh] eqn:Eh.
  pose proof (sign_ci_run (TokenVerifier0 := v) (d_CA d) (request n call "ci") w1 oh wh Eh) as (resp & -> & Hresp).
  unfold ret in Hh. injection Hh as <- <-.
  apply accepted_signed in Hans as (sg & Hc & Hcert); [|destruct (content resp); [by destruct Hresp as [? _]..]].
  rewrite Hc in Hresp. destruct Hresp as [_ Hgr]. split; [done|]. exists v, sg, w1, wh.
  pose proof Hgr as (raw & claims & w3 & account & g & now & req & Hb & _ & Hdec & _).
  split_and!; try done; [by apply bearer_sent in Hb|]. rewrite <-Hcert. by apply decode_sent_key in Hdec.
Qed.


(** The same for a CI job: [gssh ci-login] with the job's token. *)
Theorem job_certificate_is_granted opts s u s' :
  UserCLI.ciLogin (H3 := net) opts s = (Ok u, s') →
  ∃ cfg n call client token cert,
    UserCLI.loaded_as (H3 := net) "/v1/sign/ci" cfg (UserCLI.ci_validity opts) (UserCLI.keys_in s) (UserCLI.keys_in s')
      n call client token cert ∧
    (UserCLI.ac_baseURL client = base →
     let key := (generate_key n).1 +:+ newline in
     signed_for_job call (UserCLI.sign_call client "/v1/sign/ci" token key (UserCLI.ci_validity opts)) key cert).
Proof.
  unfold UserCLI.ciLogin. case_bool_decide; [done|]. case_bool_decide; [done|].
  intros (v & s1 & Hc & Hrun)%sh_bind_Ok. apply sh_wrap_Ok in Hc. unfold sh_lift in Hc. injection Hc as _ <-.
  apply sh_bind_Ok in Hrun as (keys & s2 & Hk & Hrun). apply UserCLI.new_key_pair_run in Hk as [-> <-].
  apply UserCLI.obtain_run in Hrun as (n & call & client & token & cert & Hloaded).
  eexists _, n, call, client, token, cert. split; [exact Hloaded|]. intros Hbase.
  destruct Hloaded as (_ & Hanswer & _). by apply job_certificate.
Qed.
End login.

(** ** A login against a server with one user and one grant *)
Definition toy_login_served (n : N) : @World toy_crypto * Limiters := (toy_sign_world true, no_clients).
Notation toy_login_net := (server_network (H0 := counting_uuids) (H1 := toy_x509) (H2 := toy_encodings)
  (H3 := toy_oauth) (H4 := key_order) toy_deps static_read "https://gssh" toy_login_served (λ _, true)
  (λ _, toy_enroll_http) (λ _, 100%Z) (λ _, "")
  (body_json (H2 := toy_encodings) (H5 := UserCLI.toy_agent) (λ _, None))).
Definition toy_login_shell : Shell UserCLI.toy_keys := {|
  sh_Machine := {| mc_Files := ∅; mc_Dirs := ∅; mc_Now := 0; mc_Ticks := []; mc_Faults := []; mc_Calls := 0;
                   mc_Random := 0; mc_Commands := [] |};
  sh_Agent := UserCLI.toy_entries; sh_Out := [] |}.
Notation toy_login_run := (UserCLI.login (H := toy_crypto) (H0 := UserCLI.toy_agent) (H1 := UserCLI.toy_desk)
  (H2 := Flow.toy_flow_for "alice") (H3 := toy_login_net) UserCLI.toy_cli_config
  {| UserCLI.opt_device := false; UserCLI.opt_validity := 0; UserCLI.opt_ifNeeded := true |} toy_login_shell).
Example toy_server_login_runs :
  toy_login_run.1 = Ok () ∧
  bool_decide (UserCLI.ak_Comment <$> UserCLI.keys_in (H0 := UserCLI.toy_agent) toy_login_run.2 = ["alice@laptop"; "guided-ssh user:alice@idp"]) = true.
Proof. vm_compute. split; reflexivity. Qed.
Lemma toy_login_served_wf n :
  users_wf (H0 := counting_uuids) (toy_login_served n).1 ∧ groups_wf (H0 := counting_uuids) (toy_login_served n).1.
Proof. split; [apply toy_sign_users_wf|apply toy_sign_groups_wf]. Qed.
Notation toy_signed := (signed_for_user (H0 := counting_uuids) (H1 := toy_x509) (H2 := toy_encodings) (H3 := toy_oauth)
  (H4 := key_order) toy_deps static_read toy_login_served (λ _, true) (λ _, toy_enroll_http) (λ _, 100%Z)).
